(* ===== verification/_CoqProject ===== *)
-Q . S2P
Prelude.v
Hardware.v
State.v
Store.v
Logic.v
KList.v
KQueue.v
KPipe.v
Memory.v
Frames.v
Process.v
ContextSwitch.v
Sched.v
LoadProgram.v
Boot.v
SyscallsProc.v
Fork.v
Exec.v
LoadArgs.v
Loader.v
Loaded.v
LoadFail.v
BootMem.v
BootGlobals.v
BootRun.v
Exit.v
SyscallsIO.v
SyscallsSync.v
Traps.v
Pipes.v
Terminal.v
Machine.v
Turns.v
Invariants.v
UserMem.v
UserCtype.v
UserNum.v
UserFmt.v
UserScan.v
UserCalls.v
UserPipes.v
UserHeap.v
