(* ===== verification/Prelude.v ===== *)
(** * NalaOS: a verification development for the Yalnix kernel of this repository

    The repository is a teaching kernel in C for a simulated 32-bit machine
    (Yalnix), with the user library its programs are linked with.  This library
    models the kernel ([src/*.c]) and the user library ([src/etc/yuserlib]) as
    executable definitions and proves what they do, the places where they do not do
    what they mean to included.

    ** How the program fits together, and where it is modelled

    The machine boots into [KernelStart], which fills a vector of trap handlers.
    A trap (a system call, the clock, an exception, a terminal) runs its handler
    on the kernel stack of the current process; a handler may switch to another
    process, and then stops in the middle until it is switched back to.

    - [Hardware]: [include/hardware.h], [include/yalnix.h], [include.h]: pages, page
      table entries with their bit fields, user contexts, numbers of calls and traps.
    - [State]: the C structures ([process.h], [queue.h], [list.h], [pipe.h]) and the
      globals of [kernel.c] as the record [kstate], with a typed heap for
      each kind of object, and the monad [M] of kernel code.  An outcome is a
      value with a state ([Ret]), undefined behaviour ([Fault]), a context switch
      ([Switch], with the rest of the computation) or the copy of a kernel stack
      ([Clone]).
    - [Store]: interfaces ([ListStore], [QueueStore]) that say what the linked
      structures promise; [Logic]: reasoning about handlers: [returns] (total
      correctness), [keeps] (invariants across switches) and equality of outcomes.
    - [KList] ([list.c]), [KQueue] ([queue.c]), [KPipe] ([pipe.c]): the operations on nodes and
      pointers, as they are written, and their refinement of lists.
    - [Memory]: address translation with a TLB, register writes, and user memory as
      the kernel sees it; [Frames]: [AllocatePFN] and [DeallocatePFN] ([kernel.c]), and the
      interface [FrameAllocator] they offer.
    - [Process] ([process.c]), [ContextSwitch] ([contextswitch.c]), [Sched] ([SwapProcess] and
      [CheckBlocked]), [LoadProgram] ([load_program.c]), [Boot] ([kernel.c]).
    - [SyscallsProc], [SyscallsIO], [SyscallsSync]: [syscalls.c]; [Traps]: [traphandlers.c].
    - [Machine]: the vector of handlers, the suspended computations, and the steps of the
      whole machine.

    These files hold definitions with the theorems on single operations.  The ones below
    define no more code: they compose operations.

    - [Fork] ([KernelFork] with [init_process], [CopyUPT] and [KCCopy]); [Exec] (which calls
      end); [LoadArgs], [Loader], [Loaded] (the arguments, the page tables and the memory
      [LoadProgram] leaves); [LoadFail] (a load without enough frames).
    - [BootMem] and [BootGlobals]: the memory and the structures [KernelStart] sets up;
      [BootRun]: the whole boot, with the idle process and the first program.
    - [Exit]: [KernelExit] and [KernelWait]; [Pipes] and [UserPipes]: the pipe calls in the
      kernel and from a program; [Terminal]: input and output, with the terminal's interrupts.
    - [Turns]: the clock and the scheduler over many ticks; [Invariants]: a type invariant
      of every reachable machine.
    - [UserMem]: [mem*] and [str*] of [etc/yuserlib/common] over the mapped bytes of a
      program and the processor's direction flag; [UserCtype]: [ctypes.c] and
      [include/ctype.h]; [UserNum]: [strntoumax.c], [format_int] of [vsnprintf.c], the
      pseudo-random generator; [UserFmt]: [vsnprintf.c] and its callers, [TtyPrintf];
      [UserScan]: [vsscanf.c]; [UserCalls]: [calls.c], [libc.c], through the trap to the
      kernel's handler and back; [UserHeap]: [init_heap] and [grow_heap] of [libc.c].

    ** What is shown

    - Data structures: the lists are stacks and the queues FIFO queues
      ([list_ops_refine_stack], [queue_ops_refine_fifo]); the list of pipes
      ([add_pipe_appends], [get_pipe_correct], [remove_pipe_correct]); the pointer a pop
      leaves dangling ([list_iter_after_pop_dangling]).
    - Memory: [allocate_frames_correct], [free_frames_correct], [free_addr_space_correct],
      [CopyUPT_correct] (a copied address space has the same bytes in other frames),
      [KernelBrk_grow], [KernelBrk_shrink], [KernelBrk_rejects].
    - Boot: [boot_memory_identity] (the kernel's addresses mean the same before and after
      virtual memory is switched on), [SetUpGlobals_establishes] (the queues, the free list,
      the terminals, the locks and the condition variables are what the other theorems assume),
      [KernelStart_boots] (from power-on to two processes in memory, in frames apart).
    - Programs: [LoadProgram_builds] (the address space, the text, the data and the arguments on
      the stack), [LoadProgram_runs_out] (what is leaked and freed twice when frames run
      out), [KernelExec_terminates], [KernelFork_forks] (the child is a copy of the parent,
      in frames of its own).
    - Processes and scheduling: [init_process_correct], [KCSwitch_maps_next_stack],
      [SwapProcess_round_robin], [wake_blocked_correct] (the clock's wake-up refines one
      pass of a specification), [delay_runs_out] (a delay of n ticks ends at pass n + 1),
      [clock_serves_in_turn] (the process at place i of the ready queue runs after i + 1
      ticks), [TrapMemoryHandler_grows_stack], [KernelDelay_blocks].
    - The end of a process: [exit_wait_roundtrip] (the parent gets the status the child
      exited with), [KernelWait_reaps], [KernelExit_use_after_free] (an orphan is freed while
      it still runs), [KernelExit_orphan_use_after_free].
    - Pipes, terminals, locks and condition variables: [pipe_through_the_kernel] (the bytes a
      program writes are those it reads, from the library down to the buffer),
      [pipe_write_then_read], [tty_refines_lines], [KernelTtyWrite_transmits],
      [pipe_wake_all_misdirected], [head_pipe_unusable], [unknown_pipe_id],
      [no_lock_ever_acquired], [first_cvar_out_of_bounds].
    - The machine: [reachable_kernel_wf], by rule induction on the steps: the tables, buffers,
      page table entries and counters keep their sizes and ranges in every reachable
      machine, whatever user programs do and however handlers interleave.
    - The user library: [memmove_correct], [memset_direction], [memmem_first],
      [strcmp_correct], [ctype_classes], [format_int_correct], [print_read_roundtrip],
      [vsnprintf_correct] (the text in the buffer is the one a specification of format
      strings gives), [TtyPrintf_writes_text], [printf_scanf_roundtrip],
      [scanset_swallows_format], [grow_heap_extends] (the heap stays tiled by its blocks).
    - Program and kernel together: [unimplemented_calls_echo], [pipe_through_the_kernel],
      [break_agrees_with_kernel] (the break of a program and the limit of its heap in the
      kernel agree after any sequence of calls).

    ** Bounds and fuel

    Loops over a structure are structural.  A loop over NUL-terminated memory
    has the number of mapped bytes (plus one) as fuel: a walk that takes more steps
    would have left the mapped memory before.  [vsnprintf] looks at a character at most
    three times and [vsscanf] at most twice, hence the factors there; the theorems
    show the results are reached.  Counts given by the program ([UINT_MAX] widths) are
    cut to the same bound.  The loops of [syscalls.c] that wait for a condition take a
    [fuel] parameter, which running out of is a fault; theorems about them say how much
    is enough.

    ** Parameters

    Code outside the sources is a parameter with its documented behaviour as a
    class: [Libc] (the support library's [malloc] and [helper_new_pid], with [LibcLaws]; [MallocTotal]
    says that memory suffices), [FileSystem] (the host's files and [LoadInfo]), [Image] (the
    addresses of the kernel's sections), [Compiler] (the value a function that ends
    without [return] delivers).  Each class has a concrete instance, which the
    witnesses use.  The witness of a theorem, [<theorem>_witness], applies it to a
    concrete input.

    ** Not modelled

    - The hardware itself, beyond the contract in [Memory], and tracing
      ([TracePrintf]), which only prints.
    - [atoi], [atol] and the files [isalnum.c] to [toupper.c]: they expand [atox.h] and
      [ctypefunc.h], which are not part of the sources (the class functions themselves are in
      [include/ctype.h] and are modelled).  The allocator [new_heap.c] is not part of them
      either: the size of its header and its mark are parameters of [UserHeap].
    - [lkra] and the heap checker's calls in [calls.c]: diagnostics.
    - [queue_remove], [queue_find] and [queue_delete]: their bodies are empty and nothing
      calls them; [TrapDiskHandler] does nothing.
    - The programs in [progs] and [sample], and [test_traces]: they exercise the kernel by
      hand and are judged by reading the trace; the calls they make are modelled.
    - Headers that only declare functions.

    ** What is not proved

    [Fork], [Exec], [Exit] and [Pipes] prove what one handler does up to the switch or the
    copy it makes, and [Machine] composes handlers; only [Invariants] and [Turns] follow
    many processes at once.  [KernelTtyWrite_transmits] is about a terminal that no other
    process is writing to. *)

From Stdlib Require Import ZArith Lia.
From stdpp Require Import base gmap list strings fin_maps.

Open Scope Z_scope.

(** ** Machine integers

    The kernel is compiled with [-m32]: [int] and [long] are 32-bit two's
    complement, [u_long] and pointers 32-bit unsigned. *)

Definition u32 (z : Z) : Z := z mod 2 ^ 32.

Definition i32 (z : Z) : Z := (z + 2 ^ 31) mod 2 ^ 32 - 2 ^ 31.

(** [b] as the [int] the C comparison operators produce. *)
Definition b2z (b : bool) : Z := if b then 1 else 0.

(** ** Arrays

    A C array is a list; an index outside it is undefined behaviour, which the
    callers turn into a fault.  [zget]/[zset] are the bounds-checked accesses at a
    C [int] index. *)

Definition zget {A} (l : list A) (i : Z) : option A :=
  if bool_decide (0 <= i) then l !! Z.to_nat i else None.

Definition zset {A} (i : Z) (x : A) (l : list A) : option (list A) :=
  if bool_decide (0 <= i < Z.of_nat (length l)) then Some (<[Z.to_nat i := x]> l) else None.

(** [zrange lo n] is the list of the [n] indices [lo, lo+1, ...]. *)
Fixpoint zrange (lo : Z) (n : nat) : list Z :=
  match n with
  | O => []
  | S n' => lo :: zrange (lo + 1) n'
  end.

(** Indices visited by [for (i = lo; i < hi; i++)]. *)
Definition zseq (lo hi : Z) : list Z := zrange lo (Z.to_nat (hi - lo)).

(** [last ns] with a default: the tail pointer of a chain of nodes. *)
Definition last_or (d : Z) (ns : list Z) : Z := List.last ns d.

Definition head_or (d : Z) (ns : list Z) : Z := List.hd d ns.
Arguments last_or : simpl never.

(** ** Tactics *)

Create HintDb yalnix.
Create Rewrite HintDb yalnix_rw.

(** Case analysis on the outermost [if]/[match] of the goal, keeping the equation. *)
Ltac case_on :=
  match goal with
  | |- context [if ?b then _ else _] => let E := fresh "E" in destruct b eqn:E
  | |- context [match ?x with _ => _ end] => let E := fresh "E" in destruct x eqn:E
  end.

(** Turn boolean comparisons in the context into propositions. *)
Ltac bool_to_prop :=
  repeat match goal with
  | H : (_ =? _) = true |- _ => apply Z.eqb_eq in H
  | H : (_ =? _) = false |- _ => apply Z.eqb_neq in H
  | H : (_ <? _) = true |- _ => apply Z.ltb_lt in H
  | H : (_ <? _) = false |- _ => apply Z.ltb_ge in H
  | H : (_ <=? _) = true |- _ => apply Z.leb_le in H
  | H : (_ <=? _) = false |- _ => apply Z.leb_gt in H
  | H : (_ && _)%bool = true |- _ => apply andb_prop in H as [? ?]
  | H : (_ || _)%bool = false |- _ => apply orb_false_elim in H as [? ?]
  | H : negb _ = true |- _ => apply negb_true_iff in H
  | H : negb _ = false |- _ => apply negb_false_iff in H
  end.

(** ** Lemmas on machine integers *)

Lemma u32_range z : 0 <= u32 z < 2 ^ 32.
Proof. unfold u32. apply Z.mod_pos_bound. lia. Qed.

Lemma i32_range z : - 2 ^ 31 <= i32 z < 2 ^ 31.
Proof. unfold i32. pose proof (Z.mod_pos_bound (z + 2 ^ 31) (2 ^ 32) ltac:(lia)). lia. Qed.

Lemma u32_id z : 0 <= z < 2 ^ 32 -> u32 z = z.
Proof. intros ?. unfold u32. by apply Z.mod_small. Qed.

Lemma i32_id z : - 2 ^ 31 <= z < 2 ^ 31 -> i32 z = z.
Proof. intros. unfold i32. rewrite Z.mod_small; lia. Qed.

Lemma i32_u32 z : i32 (u32 z) = i32 z.
Proof. unfold i32, u32. rewrite Zplus_mod_idemp_l. done. Qed.

Lemma u32_i32 z : u32 (i32 z) = u32 z.
Proof.
  unfold u32, i32. rewrite Zminus_mod_idemp_l. f_equal. lia.
Qed.

(** ** Lemmas on arrays *)

Section arrays.
Context {A : Type}.
Implicit Types (l : list A) (x y : A).

Lemma zget_Some l i x : zget l i = Some x -> 0 <= i < Z.of_nat (length l).
Proof.
  unfold zget. case_bool_decide; [|done]. intros Hl%lookup_lt_Some. lia.
Qed.

Lemma zget_is_Some l i : 0 <= i < Z.of_nat (length l) -> is_Some (zget l i).
Proof.
  intros. unfold zget. rewrite bool_decide_true by lia. apply lookup_lt_is_Some. lia.
Qed.

Lemma zset_Some l i x : 0 <= i < Z.of_nat (length l) ->
  zset i x l = Some (<[Z.to_nat i := x]> l).
Proof. intros. unfold zset. by rewrite bool_decide_true. Qed.

Lemma zset_inv l l' i x : zset i x l = Some l' ->
  0 <= i < Z.of_nat (length l) /\ l' = <[Z.to_nat i := x]> l.
Proof. unfold zset. case_bool_decide; [|done]. by intros [= <-]. Qed.

Lemma zset_length l l' i x : zset i x l = Some l' -> length l' = length l.
Proof. intros [? ->]%zset_inv. apply length_insert. Qed.

Lemma zget_zset_eq l l' i x : zset i x l = Some l' -> zget l' i = Some x.
Proof.
  intros [? ->]%zset_inv. unfold zget. rewrite bool_decide_true by lia.
  apply list_lookup_insert_eq. lia.
Qed.

Lemma zget_zset_ne l l' i j x : zset i x l = Some l' -> i <> j -> zget l' j = zget l j.
Proof.
  intros [? ->]%zset_inv ?. unfold zget. case_bool_decide; [|done].
  apply list_lookup_insert_ne. lia.
Qed.

Lemma zget_ext l l' :
  length l = length l' ->
  (forall i, 0 <= i < Z.of_nat (length l) -> zget l i = zget l' i) -> l = l'.
Proof.
  intros Hlen H. apply list_eq. intros i.
  destruct (decide (i < length l)%nat) as [Hi|Hi].
  - specialize (H (Z.of_nat i) ltac:(lia)). unfold zget in H.
    rewrite !bool_decide_true, Nat2Z.id in H by lia. done.
  - rewrite !lookup_ge_None_2 by lia. done.
Qed.

Lemma zget_replicate n x i : 0 <= i < Z.of_nat n -> zget (replicate n x) i = Some x.
Proof.
  intros. unfold zget. rewrite bool_decide_true by lia. apply lookup_replicate_2. lia.
Qed.

Lemma zget_app l l' x : zget (l ++ x :: l') (Z.of_nat (length l)) = Some x.
Proof.
  unfold zget. rewrite bool_decide_true, Nat2Z.id by lia. by apply list_lookup_middle.
Qed.

Lemma insert_app l l' x y : <[length l := y]> (l ++ x :: l') = l ++ y :: l'.
Proof. rewrite <- (Nat.add_0_r (length l)). by rewrite insert_app_r. Qed.

End arrays.

Lemma zrange_length lo n : length (zrange lo n) = n.
Proof. revert lo. induction n; intros; simpl; [done|]. by rewrite IHn. Qed.

Lemma elem_of_zrange lo n i : i ∈ zrange lo n <-> lo <= i < lo + Z.of_nat n.
Proof.
  revert lo. induction n as [|n IH]; intros lo; simpl.
  - split; [intros []%not_elem_of_nil | lia].
  - rewrite elem_of_cons, IH. lia.
Qed.

Lemma zrange_NoDup lo n : NoDup (zrange lo n).
Proof.
  revert lo. induction n as [|n IH]; intros lo; simpl; [constructor|].
  constructor; [|apply IH]. rewrite elem_of_zrange. lia.
Qed.

Lemma zrange_app lo n m : zrange lo (n + m) = zrange lo n ++ zrange (lo + Z.of_nat n) m.
Proof.
  revert lo. induction n as [|n IH]; intros lo.
  - cbn [Nat.add zrange app]. by rewrite Z.add_0_r.
  - cbn [Nat.add zrange app]. rewrite IH. do 3 f_equal. lia.
Qed.

Lemma zrange_shift_map {B} (f g : Z -> B) lo n :
  (forall i, f (1 + i) = g i) -> map f (zrange (lo + 1) n) = map g (zrange lo n).
Proof.
  intros H. revert lo. induction n as [|n IH]; intros lo; cbn [zrange map]; [done|].
  rewrite IH. f_equal. rewrite Z.add_comm. apply H.
Qed.

Lemma zget_app_l {A} (l l' : list A) i : i < Z.of_nat (length l) -> zget (l ++ l') i = zget l i.
Proof. intros Hi. unfold zget. case_bool_decide; [|done]. apply lookup_app_l. lia. Qed.

Lemma zget_app_r {A} (l l' : list A) i : Z.of_nat (length l) <= i -> zget (l ++ l') i = zget l' (i - Z.of_nat (length l)).
Proof.
  intros Hi. unfold zget. rewrite !bool_decide_true by lia. rewrite lookup_app_r by lia. f_equal. lia.
Qed.

Lemma zget_fmap {A B} (f : A -> B) l i : zget (map f l) i = f <$> zget l i.
Proof. unfold zget. case_bool_decide; [|done]. apply list_lookup_fmap. Qed.

Lemma zget_take {A} (l : list A) n i : i < Z.of_nat n -> zget (take n l) i = zget l i.
Proof. intros Hi. unfold zget. case_bool_decide; [|done]. rewrite lookup_take_lt by lia. done. Qed.

Lemma zget_drop {A} (l : list A) n i : 0 <= i -> zget (drop n l) i = zget l (Z.of_nat n + i).
Proof. intros Hi. unfold zget. rewrite !bool_decide_true by lia. rewrite lookup_drop. f_equal. lia. Qed.

(** Find the list of a concatenation an index falls in. *)
Ltac zg Hlt Hld := repeat first [rewrite zget_app_l by (rewrite ?Hlt, ?Hld; lia) | rewrite zget_app_r by (rewrite ?Hlt, ?Hld; lia)].

Lemma lookup_zrange n : forall lo (i : nat), (i < n)%nat -> zrange lo n !! i = Some (lo + Z.of_nat i).
Proof.
  induction n as [|n IH]; intros lo i Hi; [lia|]. destruct i as [|i]; cbn; [f_equal; lia|].
  rewrite IH by lia. f_equal. lia.
Qed.

Lemma elem_of_zseq lo hi i : i ∈ zseq lo hi <-> lo <= i < hi.
Proof. unfold zseq. rewrite elem_of_zrange. lia. Qed.

Lemma zseq_NoDup lo hi : NoDup (zseq lo hi).
Proof. apply zrange_NoDup. Qed.

Lemma zseq_nil lo hi : hi <= lo -> zseq lo hi = [].
Proof. intros. unfold zseq. by replace (Z.to_nat (hi - lo)) with 0%nat by lia. Qed.

Lemma zseq_cons lo hi : lo < hi -> zseq lo hi = lo :: zseq (lo + 1) hi.
Proof.
  intros. unfold zseq.
  replace (Z.to_nat (hi - lo)) with (S (Z.to_nat (hi - (lo + 1)))) by lia. done.
Qed.

(** ** Lemmas on chains *)

Lemma last_or_snoc d ns n : last_or d (ns ++ [n]) = n.
Proof. unfold last_or. apply last_last. Qed.

Lemma last_or_cons d n ns : last_or d (n :: ns) = last_or n ns.
Proof.
  unfold last_or. destruct ns as [|m ns]; [done|].
  change (List.last (m :: ns) d = List.last (m :: ns) n).
  clear. revert m. induction ns as [|k ns IH]; intros m; [done|]. apply IH.
Qed.

Lemma last_or_elem d ns : ns <> [] -> last_or d ns ∈ ns.
Proof.
  destruct ns as [|n ns _] using rev_ind; [done|].
  intros _. rewrite last_or_snoc. set_solver.
Qed.

Lemma elem_of_rev {A} (x : A) l : x ∈ rev l <-> x ∈ l.
Proof. rewrite !list_elem_of_In. symmetry. apply in_rev. Qed.

#[export] Hint Resolve zseq_NoDup zrange_NoDup : yalnix.
#[export] Hint Rewrite last_or_snoc zrange_length @length_insert : yalnix_rw.
