(* ===== verification/Hardware.v ===== *)
(** * The machine the kernel runs on

    The constants, page arithmetic, page-table entries, user contexts and
    registers of [include/hardware.h], the kernel-call numbers of
    [include/yalnix.h], and the kernel's own codes of [include.h]. *)

From Stdlib Require Import ZArith Lia.
From stdpp Require Import base gmap list.
From S2P Require Import Prelude.

Open Scope Z_scope.

(** ** Pages and the virtual memory layout *)

Definition PAGESIZE : Z := 0x2000.
Definition PAGEOFFSET : Z := PAGESIZE - 1.
Definition PAGEMASK : Z := Z.lnot PAGEOFFSET.
Definition PAGESHIFT : Z := 13.

Definition UP_TO_PAGE (n : Z) : Z := Z.land (i32 (i32 n + PAGEOFFSET)) PAGEMASK.
Definition DOWN_TO_PAGE (n : Z) : Z := Z.land (i32 n) PAGEMASK.

Definition VMEM_REGION_SIZE : Z := 0x100000.
Definition VMEM_BASE : Z := 0.
Definition VMEM_0_BASE : Z := VMEM_BASE.
Definition VMEM_0_SIZE : Z := VMEM_REGION_SIZE.
Definition VMEM_0_LIMIT : Z := VMEM_0_BASE + VMEM_0_SIZE.
Definition VMEM_1_BASE : Z := VMEM_0_LIMIT.
Definition VMEM_1_SIZE : Z := VMEM_REGION_SIZE.
Definition VMEM_1_LIMIT : Z := VMEM_1_BASE + VMEM_1_SIZE.
Definition MAX_PT_LEN : Z := Z.shiftr VMEM_REGION_SIZE PAGESHIFT.
Definition PMEM_BASE : Z := 0.

Definition KERNEL_STACK_LIMIT : Z := VMEM_0_LIMIT.
Definition KERNEL_STACK_MAXSIZE : Z := 2 * PAGESIZE.
Definition KERNEL_STACK_BASE : Z := DOWN_TO_PAGE (KERNEL_STACK_LIMIT - KERNEL_STACK_MAXSIZE).

(** [include.h] *)
Definition KERNEL_PT_SIZE : Z := VMEM_0_SIZE / PAGESIZE.
Definition USER_PT_SIZE : Z := VMEM_1_SIZE / PAGESIZE.
Definition KERNEL_STACK_SIZE : Z := Z.shiftr (KERNEL_STACK_LIMIT - KERNEL_STACK_BASE) PAGESHIFT.

(** ** Page table entries

    The bit fields are 1, 3 and 24 bits wide: a store keeps the low bits. *)

Record pte := mkPte { valid : Z; prot : Z; pfn : Z }.

Definition pte_zero : pte := mkPte 0 0 0.
Definition set_valid (v : Z) (e : pte) : pte := mkPte (Z.land v 1) (prot e) (pfn e).
Definition set_prot (v : Z) (e : pte) : pte := mkPte (valid e) (Z.land v 7) (pfn e).
Definition set_pfn (v : Z) (e : pte) : pte := mkPte (valid e) (prot e) (Z.land v 0xFFFFFF).

(** The values the bit fields of an entry can hold. *)
Definition pte_ok (e : pte) : Prop := 0 <= valid e < 2 /\ 0 <= prot e < 8 /\ 0 <= pfn e < 2 ^ 24.

#[export] Instance pte_eq_dec : EqDecision pte.
Proof. solve_decision. Defined.

Definition PROT_READ : Z := 1.
Definition PROT_WRITE : Z := 2.

(** ** User and kernel contexts *)

Definition GREGS : Z := 8.

Record UserContext := mkUserContext {
  uc_vector : Z; uc_code : Z; uc_addr : Z; uc_pc : Z; uc_sp : Z; uc_ebp : Z;
  uc_regs : list Z }.

Definition uctxt_zero : UserContext := mkUserContext 0 0 0 0 0 0 (replicate 8 0).
Definition uc_set_pc v (u : UserContext) : UserContext :=
  mkUserContext (uc_vector u) (uc_code u) (uc_addr u) v (uc_sp u) (uc_ebp u) (uc_regs u).
Definition uc_set_sp v (u : UserContext) : UserContext :=
  mkUserContext (uc_vector u) (uc_code u) (uc_addr u) (uc_pc u) v (uc_ebp u) (uc_regs u).
Definition uc_set_regs v (u : UserContext) : UserContext :=
  mkUserContext (uc_vector u) (uc_code u) (uc_addr u) (uc_pc u) (uc_sp u) (uc_ebp u) v.

(** The kernel context is opaque to the kernel, which only copies it: a token. *)
Definition KernelContext : Type := Z.

(** ** Trap vectors *)

Definition TRAP_KERNEL : Z := 0.
Definition TRAP_CLOCK : Z := 1.
Definition TRAP_ILLEGAL : Z := 2.
Definition TRAP_MEMORY : Z := 3.
Definition TRAP_MATH : Z := 4.
Definition TRAP_TTY_RECEIVE : Z := 5.
Definition TRAP_TTY_TRANSMIT : Z := 6.
Definition TRAP_DISK : Z := 7.
Definition TRAP_VECTOR_SIZE : Z := 16.

(** ** Registers and TLB commands *)

Definition TLB_FLUSH_ALL : Z := -1.
Definition TLB_FLUSH_0 : Z := -2.
Definition TLB_FLUSH_1 : Z := -3.
Definition TLB_FLUSH_KSTACK : Z := -4.

Definition NUM_TERMINALS : Z := 4.
Definition TERMINAL_MAX_LINE : Z := 1024.
Definition INITIAL_STACK_FRAME_SIZE : Z := 0.
Definition POST_ARGV_NULL_SPACE : Z := 0x20.

(** ** Return codes ([ylib.h], [ykernel.h]) *)

Definition NULL : Z := 0.
Definition SUCCESS : Z := 0.
Definition ERROR : Z := -1.
Definition KILL : Z := -2.

(** ** Kernel-call numbers ([include/yalnix.h]) *)

Definition YALNIX_PREFIX : Z := 0xabcdef00.
Definition yalnix_call (n : Z) : Z := Z.lor n YALNIX_PREFIX.
Definition YALNIX_FORK := yalnix_call 0x1.
Definition YALNIX_EXEC := yalnix_call 0x2.
Definition YALNIX_EXIT := yalnix_call 0x3.
Definition YALNIX_WAIT := yalnix_call 0x4.
Definition YALNIX_GETPID := yalnix_call 0x5.
Definition YALNIX_BRK := yalnix_call 0x6.
Definition YALNIX_DELAY := yalnix_call 0x7.
Definition YALNIX_TTY_READ := yalnix_call 0x21.
Definition YALNIX_TTY_WRITE := yalnix_call 0x22.
Definition YALNIX_PIPE_INIT := yalnix_call 0x48.
Definition YALNIX_PIPE_READ := yalnix_call 0x49.
Definition YALNIX_PIPE_WRITE := yalnix_call 0x4A.
Definition YALNIX_LOCK_INIT := yalnix_call 0x63.
Definition YALNIX_LOCK_ACQUIRE := yalnix_call 0x64.
Definition YALNIX_LOCK_RELEASE := yalnix_call 0x65.
Definition YALNIX_CVAR_INIT := yalnix_call 0x66.
Definition YALNIX_CVAR_SIGNAL := yalnix_call 0x67.
Definition YALNIX_CVAR_BROADCAST := yalnix_call 0x68.
Definition YALNIX_CVAR_WAIT := yalnix_call 0x69.
Definition YALNIX_RECLAIM := yalnix_call 0x6A.
Definition PIPE_BUFFER_LEN : Z := 256.

(** ** The kernel's codes ([include.h]) *)

Definition VALID_FRAME : Z := 1.
Definition INVALID_FRAME : Z := 0.
Definition VM_ENABLED : Z := 1.
Definition VM_DISABLED : Z := 0.
Definition X_NO_W_R : Z := 5.
Definition NO_X_NO_W_NO_R : Z := 0.
Definition NO_X_W_R : Z := 3.
Definition NOT_BLOCKED : Z := 0.
Definition BLOCKED_DELAY : Z := 1.
Definition BLOCKED_WAIT : Z := 2.
Definition BLOCKED_TTY_READ : Z := 3.
Definition BLOCKED_TTY_WRITE : Z := 4.
Definition BLOCKED_TTY_TRANSMIT : Z := 5.
Definition BLOCKED_PIPE_READ : Z := 6.
Definition BLOCKED_PIPE_WRITE : Z := 7.
Definition BLOCKED_LOCK_ACQUIRE : Z := 8.
Definition TERMINAL_OPEN : Z := 1.
Definition TERMINAL_CLOSED : Z := 0.
Definition PIPE_FREE : Z := 0.
Definition PIPE_NOT_FREE : Z := 1.
Definition UNUSED_LOCK : Z := 0.
Definition FREE_LOCK : Z := 0.
Definition UNUSED_CVAR : Z := 0.
Definition USED_CVAR : Z := 0.

(** [kernel.h] *)
Definition MAX_LOCKS : Z := 100.
Definition MAX_CVARS : Z := 5000.

(** ** Page arithmetic *)

(** Clearing the low bits. *)
Lemma land_lnot_ones z k : 0 <= k -> Z.land z (Z.lnot (Z.ones k)) = z - z mod 2 ^ k.
Proof.
  intros Hk. rewrite <- Z.land_ones by lia.
  rewrite <- Z.ldiff_land. pose proof (Z.sub_nocarry_ldiff z (Z.land z (Z.ones k))) as H.
  rewrite H.
  - apply Z.bits_inj'. intros n Hn. rewrite !Z.ldiff_spec, Z.land_spec.
    destruct (Z.testbit z n); simpl; [|done]. by destruct (Z.testbit _ n).
  - apply Z.bits_inj'. intros n Hn. rewrite Z.ldiff_spec, Z.land_spec, Z.bits_0.
    destruct (Z.testbit z n), (Z.testbit (Z.ones k) n); done.
Qed.

Lemma land_PAGEMASK z : Z.land z PAGEMASK = z - z mod PAGESIZE.
Proof. exact (land_lnot_ones z 13 ltac:(done)). Qed.

Lemma DOWN_TO_PAGE_spec n : - 2 ^ 31 <= n < 2 ^ 31 ->
  DOWN_TO_PAGE n mod PAGESIZE = 0 /\ DOWN_TO_PAGE n <= n < DOWN_TO_PAGE n + PAGESIZE.
Proof.
  intros. unfold DOWN_TO_PAGE. rewrite land_PAGEMASK, i32_id by lia.
  pose proof (Z.mod_pos_bound n PAGESIZE ltac:(reflexivity)).
  split; [|lia]. rewrite Zminus_mod_idemp_r. by rewrite Z.sub_diag.
Qed.

Lemma UP_TO_PAGE_spec n : - 2 ^ 31 <= n < 2 ^ 31 - PAGEOFFSET ->
  UP_TO_PAGE n mod PAGESIZE = 0 /\ UP_TO_PAGE n - PAGESIZE < n <= UP_TO_PAGE n.
Proof.
  intros Hn. unfold UP_TO_PAGE. rewrite land_PAGEMASK.
  unfold PAGEOFFSET in *. change PAGESIZE with 8192 in *.
  rewrite (i32_id n) by lia. rewrite i32_id by lia.
  pose proof (Z.mod_pos_bound (n + (8192 - 1)) 8192 ltac:(lia)).
  split; [|lia]. rewrite Zminus_mod_idemp_r. by rewrite Z.sub_diag.
Qed.

Lemma shiftr_page z : Z.shiftr z PAGESHIFT = z / PAGESIZE.
Proof. rewrite Z.shiftr_div_pow2 by done. done. Qed.

Lemma DOWN_page_index n : - 2 ^ 31 <= n < 2 ^ 31 ->
  Z.shiftr (DOWN_TO_PAGE n) PAGESHIFT = n / PAGESIZE.
Proof.
  intros Hn. rewrite shiftr_page.
  destruct (DOWN_TO_PAGE_spec n Hn) as [H1 H2].
  change PAGESIZE with 8192 in *.
  pose proof (Z.div_mod (DOWN_TO_PAGE n) 8192 ltac:(lia)).
  apply Z.div_unique with (r := n - DOWN_TO_PAGE n); lia.
Qed.

Lemma UP_page_index n : - 2 ^ 31 <= n < 2 ^ 31 - PAGEOFFSET ->
  Z.shiftr (UP_TO_PAGE n) PAGESHIFT = (n + PAGEOFFSET) / PAGESIZE.
Proof.
  intros Hn. rewrite shiftr_page.
  destruct (UP_TO_PAGE_spec n Hn) as [H1 H2].
  unfold PAGEOFFSET in *. change PAGESIZE with 8192 in *.
  pose proof (Z.div_mod (UP_TO_PAGE n) 8192 ltac:(lia)).
  apply Z.div_unique with (r := n + 8191 - UP_TO_PAGE n); lia.
Qed.

(** Bit-field stores that fit are exact. *)
Lemma land_1_small v : 0 <= v < 2 -> Z.land v 1 = v.
Proof. intros. change 1 with (Z.ones 1). rewrite Z.land_ones by lia. apply Z.mod_small. lia. Qed.

Lemma land_7_small v : 0 <= v < 8 -> Z.land v 7 = v.
Proof. intros. change 7 with (Z.ones 3). rewrite Z.land_ones by lia. apply Z.mod_small. lia. Qed.

Lemma land_pfn_small v : 0 <= v < 2 ^ 24 -> Z.land v 0xFFFFFF = v.
Proof.
  intros. change 0xFFFFFF with (Z.ones 24). rewrite Z.land_ones by lia. by apply Z.mod_small.
Qed.

#[export] Hint Rewrite land_1_small land_7_small land_pfn_small using lia : yalnix_rw.
