(* ===== verification/State.v ===== *)
(** * Kernel state, C objects and the handler monad

    The C objects of [process.h], [queue.h], [list.h] and [pipe.h], the kernel
    globals of [kernel.c], the machine registers, TLB and physical memory the
    kernel manipulates, and the monad in which every kernel function is
    written: state passing with C undefined behaviour as a fault and a kernel
    context switch as a suspension that carries the rest of the computation. *)

From Stdlib Require Import ZArith Lia Morphisms.
From stdpp Require Import base gmap list.
From S2P Require Import Prelude Hardware.

Open Scope Z_scope.

(** ** Heap objects

    Objects of one C type live in one finite map from addresses, [NULL] is 0.
    A read or write of an address that holds no object of the type (a null,
    dangling or freed pointer) is a fault. *)

(** [queue.h] *)
Record qnode := mkQnode {
  qn_id : Z;
  qn_data : Z;
  qn_next : Z }.

Definition set_qn_id (v : Z) (r : qnode) : qnode :=
  mkQnode v (qn_data r) (qn_next r).
Definition set_qn_data (v : Z) (r : qnode) : qnode :=
  mkQnode (qn_id r) v (qn_next r).
Definition set_qn_next (v : Z) (r : qnode) : qnode :=
  mkQnode (qn_id r) (qn_data r) v.

Record queue := mkQueue {
  q_id : Z;
  q_size : Z;
  q_head : Z;
  q_tail : Z }.

Definition set_q_id (v : Z) (r : queue) : queue :=
  mkQueue v (q_size r) (q_head r) (q_tail r).
Definition set_q_size (v : Z) (r : queue) : queue :=
  mkQueue (q_id r) v (q_head r) (q_tail r).
Definition set_q_head (v : Z) (r : queue) : queue :=
  mkQueue (q_id r) (q_size r) v (q_tail r).
Definition set_q_tail (v : Z) (r : queue) : queue :=
  mkQueue (q_id r) (q_size r) (q_head r) v.

(** [list.h] *)
Record lnode := mkLnode {
  ln_data : Z;
  ln_next : Z;
  ln_prev : Z }.

Definition set_ln_data (v : Z) (r : lnode) : lnode :=
  mkLnode v (ln_next r) (ln_prev r).
Definition set_ln_next (v : Z) (r : lnode) : lnode :=
  mkLnode (ln_data r) v (ln_prev r).
Definition set_ln_prev (v : Z) (r : lnode) : lnode :=
  mkLnode (ln_data r) (ln_next r) v.

Record klist := mkList {
  l_head : Z;
  l_tail : Z;
  l_size : Z }.

Definition set_l_head (v : Z) (r : klist) : klist :=
  mkList v (l_tail r) (l_size r).
Definition set_l_tail (v : Z) (r : klist) : klist :=
  mkList (l_head r) v (l_size r).
Definition set_l_size (v : Z) (r : klist) : klist :=
  mkList (l_head r) (l_tail r) v.

(** [pipe.h].  The [queue] field of the head pipe is never initialised by the
    code: [None] is an indeterminate pointer. *)
Record pipe := mkPipe {
  pp_buf : list Z;
  pp_len : Z;
  pp_id : Z;
  pp_next : Z;
  pp_used : Z;
  pp_queue : option Z }.

Definition set_pp_buf (v : list Z) (r : pipe) : pipe :=
  mkPipe v (pp_len r) (pp_id r) (pp_next r) (pp_used r) (pp_queue r).
Definition set_pp_len (v : Z) (r : pipe) : pipe :=
  mkPipe (pp_buf r) v (pp_id r) (pp_next r) (pp_used r) (pp_queue r).
Definition set_pp_id (v : Z) (r : pipe) : pipe :=
  mkPipe (pp_buf r) (pp_len r) v (pp_next r) (pp_used r) (pp_queue r).
Definition set_pp_next (v : Z) (r : pipe) : pipe :=
  mkPipe (pp_buf r) (pp_len r) (pp_id r) v (pp_used r) (pp_queue r).
Definition set_pp_used (v : Z) (r : pipe) : pipe :=
  mkPipe (pp_buf r) (pp_len r) (pp_id r) (pp_next r) v (pp_queue r).
Definition set_pp_queue (v : option Z) (r : pipe) : pipe :=
  mkPipe (pp_buf r) (pp_len r) (pp_id r) (pp_next r) (pp_used r) v.

(** [process.h] *)
Record pcb := mkPcb {
  pid : Z;
  ppid : Z;
  num_children : Z;
  clock_ticks : Z;
  exit_code : Z;
  user_context : UserContext;
  kernel_context : KernelContext;
  user_page_table : list pte;
  user_stack_pt_index : Z;
  user_heap_pt_index : Z;
  user_text_pt_index : Z;
  user_data_pt_index : Z;
  kernel_stack_pt : list pte;
  blocked_code : Z;
  tty_terminal : Z;
  return_code : Z }.

Definition set_pid (v : Z) (r : pcb) : pcb :=
  mkPcb v (ppid r) (num_children r) (clock_ticks r) (exit_code r) (user_context r) (kernel_context
    r) (user_page_table r) (user_stack_pt_index r) (user_heap_pt_index r) (user_text_pt_index r)
    (user_data_pt_index r) (kernel_stack_pt r) (blocked_code r) (tty_terminal r) (return_code r).
Definition set_ppid (v : Z) (r : pcb) : pcb :=
  mkPcb (pid r) v (num_children r) (clock_ticks r) (exit_code r) (user_context r) (kernel_context
    r) (user_page_table r) (user_stack_pt_index r) (user_heap_pt_index r) (user_text_pt_index r)
    (user_data_pt_index r) (kernel_stack_pt r) (blocked_code r) (tty_terminal r) (return_code r).
Definition set_num_children (v : Z) (r : pcb) : pcb :=
  mkPcb (pid r) (ppid r) v (clock_ticks r) (exit_code r) (user_context r) (kernel_context r)
    (user_page_table r) (user_stack_pt_index r) (user_heap_pt_index r) (user_text_pt_index r)
    (user_data_pt_index r) (kernel_stack_pt r) (blocked_code r) (tty_terminal r) (return_code r).
Definition set_clock_ticks (v : Z) (r : pcb) : pcb :=
  mkPcb (pid r) (ppid r) (num_children r) v (exit_code r) (user_context r) (kernel_context r)
    (user_page_table r) (user_stack_pt_index r) (user_heap_pt_index r) (user_text_pt_index r)
    (user_data_pt_index r) (kernel_stack_pt r) (blocked_code r) (tty_terminal r) (return_code r).
Definition set_exit_code (v : Z) (r : pcb) : pcb :=
  mkPcb (pid r) (ppid r) (num_children r) (clock_ticks r) v (user_context r) (kernel_context r)
    (user_page_table r) (user_stack_pt_index r) (user_heap_pt_index r) (user_text_pt_index r)
    (user_data_pt_index r) (kernel_stack_pt r) (blocked_code r) (tty_terminal r) (return_code r).
Definition set_user_context (v : UserContext) (r : pcb) : pcb :=
  mkPcb (pid r) (ppid r) (num_children r) (clock_ticks r) (exit_code r) v (kernel_context r)
    (user_page_table r) (user_stack_pt_index r) (user_heap_pt_index r) (user_text_pt_index r)
    (user_data_pt_index r) (kernel_stack_pt r) (blocked_code r) (tty_terminal r) (return_code r).
Definition set_kernel_context (v : KernelContext) (r : pcb) : pcb :=
  mkPcb (pid r) (ppid r) (num_children r) (clock_ticks r) (exit_code r) (user_context r) v
    (user_page_table r) (user_stack_pt_index r) (user_heap_pt_index r) (user_text_pt_index r)
    (user_data_pt_index r) (kernel_stack_pt r) (blocked_code r) (tty_terminal r) (return_code r).
Definition set_user_page_table (v : list pte) (r : pcb) : pcb :=
  mkPcb (pid r) (ppid r) (num_children r) (clock_ticks r) (exit_code r) (user_context r)
    (kernel_context r) v (user_stack_pt_index r) (user_heap_pt_index r) (user_text_pt_index r)
    (user_data_pt_index r) (kernel_stack_pt r) (blocked_code r) (tty_terminal r) (return_code r).
Definition set_user_stack_pt_index (v : Z) (r : pcb) : pcb :=
  mkPcb (pid r) (ppid r) (num_children r) (clock_ticks r) (exit_code r) (user_context r)
    (kernel_context r) (user_page_table r) v (user_heap_pt_index r) (user_text_pt_index r)
    (user_data_pt_index r) (kernel_stack_pt r) (blocked_code r) (tty_terminal r) (return_code r).
Definition set_user_heap_pt_index (v : Z) (r : pcb) : pcb :=
  mkPcb (pid r) (ppid r) (num_children r) (clock_ticks r) (exit_code r) (user_context r)
    (kernel_context r) (user_page_table r) (user_stack_pt_index r) v (user_text_pt_index r)
    (user_data_pt_index r) (kernel_stack_pt r) (blocked_code r) (tty_terminal r) (return_code r).
Definition set_user_text_pt_index (v : Z) (r : pcb) : pcb :=
  mkPcb (pid r) (ppid r) (num_children r) (clock_ticks r) (exit_code r) (user_context r)
    (kernel_context r) (user_page_table r) (user_stack_pt_index r) (user_heap_pt_index r) v
    (user_data_pt_index r) (kernel_stack_pt r) (blocked_code r) (tty_terminal r) (return_code r).
Definition set_user_data_pt_index (v : Z) (r : pcb) : pcb :=
  mkPcb (pid r) (ppid r) (num_children r) (clock_ticks r) (exit_code r) (user_context r)
    (kernel_context r) (user_page_table r) (user_stack_pt_index r) (user_heap_pt_index r)
    (user_text_pt_index r) v (kernel_stack_pt r) (blocked_code r) (tty_terminal r) (return_code
    r).
Definition set_kernel_stack_pt (v : list pte) (r : pcb) : pcb :=
  mkPcb (pid r) (ppid r) (num_children r) (clock_ticks r) (exit_code r) (user_context r)
    (kernel_context r) (user_page_table r) (user_stack_pt_index r) (user_heap_pt_index r)
    (user_text_pt_index r) (user_data_pt_index r) v (blocked_code r) (tty_terminal r) (return_code
    r).
Definition set_blocked_code (v : Z) (r : pcb) : pcb :=
  mkPcb (pid r) (ppid r) (num_children r) (clock_ticks r) (exit_code r) (user_context r)
    (kernel_context r) (user_page_table r) (user_stack_pt_index r) (user_heap_pt_index r)
    (user_text_pt_index r) (user_data_pt_index r) (kernel_stack_pt r) v (tty_terminal r)
    (return_code r).
Definition set_tty_terminal (v : Z) (r : pcb) : pcb :=
  mkPcb (pid r) (ppid r) (num_children r) (clock_ticks r) (exit_code r) (user_context r)
    (kernel_context r) (user_page_table r) (user_stack_pt_index r) (user_heap_pt_index r)
    (user_text_pt_index r) (user_data_pt_index r) (kernel_stack_pt r) (blocked_code r) v
    (return_code r).
Definition set_return_code (v : Z) (r : pcb) : pcb :=
  mkPcb (pid r) (ppid r) (num_children r) (clock_ticks r) (exit_code r) (user_context r)
    (kernel_context r) (user_page_table r) (user_stack_pt_index r) (user_heap_pt_index r)
    (user_text_pt_index r) (user_data_pt_index r) (kernel_stack_pt r) (blocked_code r)
    (tty_terminal r) v.

(** A [pte_t *] is null, a [malloc]ed table, or one of the two tables inside a PCB. *)
Inductive pt_ptr :=
  | PtNull
  | PtHeap (a : Z)
  | PtUser (p : Z)
  | PtKstack (p : Z).

#[export] Instance pt_ptr_eq_dec : EqDecision pt_ptr.
Proof. solve_decision. Defined.

(** The objects of [queue.c] and of [list.c]. *)
Record qheap := mkQheap {
  queues : gmap Z queue;
  qnodes : gmap Z qnode }.

Definition set_queues (v : gmap Z queue) (r : qheap) : qheap :=
  mkQheap v (qnodes r).
Definition set_qnodes (v : gmap Z qnode) (r : qheap) : qheap :=
  mkQheap (queues r) v.

Record lheap := mkLheap {
  lists : gmap Z klist;
  lnodes : gmap Z lnode }.

Definition set_lists (v : gmap Z klist) (r : lheap) : lheap :=
  mkLheap v (lnodes r).
Definition set_lnodes (v : gmap Z lnode) (r : lheap) : lheap :=
  mkLheap (lists r) v.

(** ** Hardware registers, TLB, memory and devices

    [tlb] records for a virtual page whether the TLB may hold a translation for
    it: absent, it holds none; [true], one that agrees with the page table;
    [false], one that the page table has since changed.  [frames] is physical
    memory by frame and offset (bytes never written read as 0); [tty_out] the
    [TtyTransmit] operations started, latest first. *)
Record khw := mkHw {
  r_vm : Z;
  r_ptbr0 : pt_ptr;
  r_ptlr0 : Z;
  r_ptbr1 : pt_ptr;
  r_ptlr1 : Z;
  r_vector : bool;
  tlb : gmap Z bool;
  frames : gmap Z (gmap Z Z);
  tty_out : list (Z * list Z);
  pid_tick : nat }.

Definition set_r_vm (v : Z) (r : khw) : khw :=
  mkHw v (r_ptbr0 r) (r_ptlr0 r) (r_ptbr1 r) (r_ptlr1 r) (r_vector r) (tlb r) (frames r) (tty_out
    r) (pid_tick r).
Definition set_r_ptbr0 (v : pt_ptr) (r : khw) : khw :=
  mkHw (r_vm r) v (r_ptlr0 r) (r_ptbr1 r) (r_ptlr1 r) (r_vector r) (tlb r) (frames r) (tty_out r)
    (pid_tick r).
Definition set_r_ptlr0 (v : Z) (r : khw) : khw :=
  mkHw (r_vm r) (r_ptbr0 r) v (r_ptbr1 r) (r_ptlr1 r) (r_vector r) (tlb r) (frames r) (tty_out r)
    (pid_tick r).
Definition set_r_ptbr1 (v : pt_ptr) (r : khw) : khw :=
  mkHw (r_vm r) (r_ptbr0 r) (r_ptlr0 r) v (r_ptlr1 r) (r_vector r) (tlb r) (frames r) (tty_out r)
    (pid_tick r).
Definition set_r_ptlr1 (v : Z) (r : khw) : khw :=
  mkHw (r_vm r) (r_ptbr0 r) (r_ptlr0 r) (r_ptbr1 r) v (r_vector r) (tlb r) (frames r) (tty_out r)
    (pid_tick r).
Definition set_r_vector (v : bool) (r : khw) : khw :=
  mkHw (r_vm r) (r_ptbr0 r) (r_ptlr0 r) (r_ptbr1 r) (r_ptlr1 r) v (tlb r) (frames r) (tty_out r)
    (pid_tick r).
Definition set_tlb (v : gmap Z bool) (r : khw) : khw :=
  mkHw (r_vm r) (r_ptbr0 r) (r_ptlr0 r) (r_ptbr1 r) (r_ptlr1 r) (r_vector r) v (frames r) (tty_out
    r) (pid_tick r).
Definition set_frames (v : gmap Z (gmap Z Z)) (r : khw) : khw :=
  mkHw (r_vm r) (r_ptbr0 r) (r_ptlr0 r) (r_ptbr1 r) (r_ptlr1 r) (r_vector r) (tlb r) v (tty_out r)
    (pid_tick r).
Definition set_tty_out (v : list (Z * list Z)) (r : khw) : khw :=
  mkHw (r_vm r) (r_ptbr0 r) (r_ptlr0 r) (r_ptbr1 r) (r_ptlr1 r) (r_vector r) (tlb r) (frames r) v
    (pid_tick r).
Definition set_pid_tick (v : nat) (r : khw) : khw :=
  mkHw (r_vm r) (r_ptbr0 r) (r_ptlr0 r) (r_ptbr1 r) (r_ptlr1 r) (r_vector r) (tlb r) (frames r)
    (tty_out r) v.

(** ** The kernel's globals ([kernel.c], lines 25-48) *)
Record kglob := mkGlob {
  kernel_brk : Z;
  num_of_frames : Z;
  activePCB : Z;
  idlePCB : Z;
  ready_q : Z;
  blocked_q : Z;
  defunct_q : Z;
  pfn_list : Z;
  lock_list : Z;
  cvar_list : Z;
  global_clock_ticks : Z;
  head_pipe : Z;
  ttyReadQueues : list Z;
  ttyWriteQueues : list Z;
  ttyReadbuffers : list Z;
  ttyWriteTrackers : list Z;
  ttyReadTrackers : list Z;
  lock_status : list Z;
  cvar_status : list Z;
  lockAquireQueues : list Z;
  cvarWaitQueues : list Z }.

Definition set_kernel_brk (v : Z) (r : kglob) : kglob :=
  mkGlob v (num_of_frames r) (activePCB r) (idlePCB r) (ready_q r) (blocked_q r) (defunct_q r)
    (pfn_list r) (lock_list r) (cvar_list r) (global_clock_ticks r) (head_pipe r) (ttyReadQueues
    r) (ttyWriteQueues r) (ttyReadbuffers r) (ttyWriteTrackers r) (ttyReadTrackers r) (lock_status
    r) (cvar_status r) (lockAquireQueues r) (cvarWaitQueues r).
Definition set_num_of_frames (v : Z) (r : kglob) : kglob :=
  mkGlob (kernel_brk r) v (activePCB r) (idlePCB r) (ready_q r) (blocked_q r) (defunct_q r)
    (pfn_list r) (lock_list r) (cvar_list r) (global_clock_ticks r) (head_pipe r) (ttyReadQueues
    r) (ttyWriteQueues r) (ttyReadbuffers r) (ttyWriteTrackers r) (ttyReadTrackers r) (lock_status
    r) (cvar_status r) (lockAquireQueues r) (cvarWaitQueues r).
Definition set_activePCB (v : Z) (r : kglob) : kglob :=
  mkGlob (kernel_brk r) (num_of_frames r) v (idlePCB r) (ready_q r) (blocked_q r) (defunct_q r)
    (pfn_list r) (lock_list r) (cvar_list r) (global_clock_ticks r) (head_pipe r) (ttyReadQueues
    r) (ttyWriteQueues r) (ttyReadbuffers r) (ttyWriteTrackers r) (ttyReadTrackers r) (lock_status
    r) (cvar_status r) (lockAquireQueues r) (cvarWaitQueues r).
Definition set_idlePCB (v : Z) (r : kglob) : kglob :=
  mkGlob (kernel_brk r) (num_of_frames r) (activePCB r) v (ready_q r) (blocked_q r) (defunct_q r)
    (pfn_list r) (lock_list r) (cvar_list r) (global_clock_ticks r) (head_pipe r) (ttyReadQueues
    r) (ttyWriteQueues r) (ttyReadbuffers r) (ttyWriteTrackers r) (ttyReadTrackers r) (lock_status
    r) (cvar_status r) (lockAquireQueues r) (cvarWaitQueues r).
Definition set_ready_q (v : Z) (r : kglob) : kglob :=
  mkGlob (kernel_brk r) (num_of_frames r) (activePCB r) (idlePCB r) v (blocked_q r) (defunct_q r)
    (pfn_list r) (lock_list r) (cvar_list r) (global_clock_ticks r) (head_pipe r) (ttyReadQueues
    r) (ttyWriteQueues r) (ttyReadbuffers r) (ttyWriteTrackers r) (ttyReadTrackers r) (lock_status
    r) (cvar_status r) (lockAquireQueues r) (cvarWaitQueues r).
Definition set_blocked_q (v : Z) (r : kglob) : kglob :=
  mkGlob (kernel_brk r) (num_of_frames r) (activePCB r) (idlePCB r) (ready_q r) v (defunct_q r)
    (pfn_list r) (lock_list r) (cvar_list r) (global_clock_ticks r) (head_pipe r) (ttyReadQueues
    r) (ttyWriteQueues r) (ttyReadbuffers r) (ttyWriteTrackers r) (ttyReadTrackers r) (lock_status
    r) (cvar_status r) (lockAquireQueues r) (cvarWaitQueues r).
Definition set_defunct_q (v : Z) (r : kglob) : kglob :=
  mkGlob (kernel_brk r) (num_of_frames r) (activePCB r) (idlePCB r) (ready_q r) (blocked_q r) v
    (pfn_list r) (lock_list r) (cvar_list r) (global_clock_ticks r) (head_pipe r) (ttyReadQueues
    r) (ttyWriteQueues r) (ttyReadbuffers r) (ttyWriteTrackers r) (ttyReadTrackers r) (lock_status
    r) (cvar_status r) (lockAquireQueues r) (cvarWaitQueues r).
Definition set_pfn_list (v : Z) (r : kglob) : kglob :=
  mkGlob (kernel_brk r) (num_of_frames r) (activePCB r) (idlePCB r) (ready_q r) (blocked_q r)
    (defunct_q r) v (lock_list r) (cvar_list r) (global_clock_ticks r) (head_pipe r)
    (ttyReadQueues r) (ttyWriteQueues r) (ttyReadbuffers r) (ttyWriteTrackers r) (ttyReadTrackers
    r) (lock_status r) (cvar_status r) (lockAquireQueues r) (cvarWaitQueues r).
Definition set_lock_list (v : Z) (r : kglob) : kglob :=
  mkGlob (kernel_brk r) (num_of_frames r) (activePCB r) (idlePCB r) (ready_q r) (blocked_q r)
    (defunct_q r) (pfn_list r) v (cvar_list r) (global_clock_ticks r) (head_pipe r) (ttyReadQueues
    r) (ttyWriteQueues r) (ttyReadbuffers r) (ttyWriteTrackers r) (ttyReadTrackers r) (lock_status
    r) (cvar_status r) (lockAquireQueues r) (cvarWaitQueues r).
Definition set_cvar_list (v : Z) (r : kglob) : kglob :=
  mkGlob (kernel_brk r) (num_of_frames r) (activePCB r) (idlePCB r) (ready_q r) (blocked_q r)
    (defunct_q r) (pfn_list r) (lock_list r) v (global_clock_ticks r) (head_pipe r) (ttyReadQueues
    r) (ttyWriteQueues r) (ttyReadbuffers r) (ttyWriteTrackers r) (ttyReadTrackers r) (lock_status
    r) (cvar_status r) (lockAquireQueues r) (cvarWaitQueues r).
Definition set_global_clock_ticks (v : Z) (r : kglob) : kglob :=
  mkGlob (kernel_brk r) (num_of_frames r) (activePCB r) (idlePCB r) (ready_q r) (blocked_q r)
    (defunct_q r) (pfn_list r) (lock_list r) (cvar_list r) v (head_pipe r) (ttyReadQueues r)
    (ttyWriteQueues r) (ttyReadbuffers r) (ttyWriteTrackers r) (ttyReadTrackers r) (lock_status r)
    (cvar_status r) (lockAquireQueues r) (cvarWaitQueues r).
Definition set_head_pipe (v : Z) (r : kglob) : kglob :=
  mkGlob (kernel_brk r) (num_of_frames r) (activePCB r) (idlePCB r) (ready_q r) (blocked_q r)
    (defunct_q r) (pfn_list r) (lock_list r) (cvar_list r) (global_clock_ticks r) v (ttyReadQueues
    r) (ttyWriteQueues r) (ttyReadbuffers r) (ttyWriteTrackers r) (ttyReadTrackers r) (lock_status
    r) (cvar_status r) (lockAquireQueues r) (cvarWaitQueues r).
Definition set_ttyReadQueues (v : list Z) (r : kglob) : kglob :=
  mkGlob (kernel_brk r) (num_of_frames r) (activePCB r) (idlePCB r) (ready_q r) (blocked_q r)
    (defunct_q r) (pfn_list r) (lock_list r) (cvar_list r) (global_clock_ticks r) (head_pipe r) v
    (ttyWriteQueues r) (ttyReadbuffers r) (ttyWriteTrackers r) (ttyReadTrackers r) (lock_status r)
    (cvar_status r) (lockAquireQueues r) (cvarWaitQueues r).
Definition set_ttyWriteQueues (v : list Z) (r : kglob) : kglob :=
  mkGlob (kernel_brk r) (num_of_frames r) (activePCB r) (idlePCB r) (ready_q r) (blocked_q r)
    (defunct_q r) (pfn_list r) (lock_list r) (cvar_list r) (global_clock_ticks r) (head_pipe r)
    (ttyReadQueues r) v (ttyReadbuffers r) (ttyWriteTrackers r) (ttyReadTrackers r) (lock_status
    r) (cvar_status r) (lockAquireQueues r) (cvarWaitQueues r).
Definition set_ttyReadbuffers (v : list Z) (r : kglob) : kglob :=
  mkGlob (kernel_brk r) (num_of_frames r) (activePCB r) (idlePCB r) (ready_q r) (blocked_q r)
    (defunct_q r) (pfn_list r) (lock_list r) (cvar_list r) (global_clock_ticks r) (head_pipe r)
    (ttyReadQueues r) (ttyWriteQueues r) v (ttyWriteTrackers r) (ttyReadTrackers r) (lock_status
    r) (cvar_status r) (lockAquireQueues r) (cvarWaitQueues r).
Definition set_ttyWriteTrackers (v : list Z) (r : kglob) : kglob :=
  mkGlob (kernel_brk r) (num_of_frames r) (activePCB r) (idlePCB r) (ready_q r) (blocked_q r)
    (defunct_q r) (pfn_list r) (lock_list r) (cvar_list r) (global_clock_ticks r) (head_pipe r)
    (ttyReadQueues r) (ttyWriteQueues r) (ttyReadbuffers r) v (ttyReadTrackers r) (lock_status r)
    (cvar_status r) (lockAquireQueues r) (cvarWaitQueues r).
Definition set_ttyReadTrackers (v : list Z) (r : kglob) : kglob :=
  mkGlob (kernel_brk r) (num_of_frames r) (activePCB r) (idlePCB r) (ready_q r) (blocked_q r)
    (defunct_q r) (pfn_list r) (lock_list r) (cvar_list r) (global_clock_ticks r) (head_pipe r)
    (ttyReadQueues r) (ttyWriteQueues r) (ttyReadbuffers r) (ttyWriteTrackers r) v (lock_status r)
    (cvar_status r) (lockAquireQueues r) (cvarWaitQueues r).
Definition set_lock_status (v : list Z) (r : kglob) : kglob :=
  mkGlob (kernel_brk r) (num_of_frames r) (activePCB r) (idlePCB r) (ready_q r) (blocked_q r)
    (defunct_q r) (pfn_list r) (lock_list r) (cvar_list r) (global_clock_ticks r) (head_pipe r)
    (ttyReadQueues r) (ttyWriteQueues r) (ttyReadbuffers r) (ttyWriteTrackers r) (ttyReadTrackers
    r) v (cvar_status r) (lockAquireQueues r) (cvarWaitQueues r).
Definition set_cvar_status (v : list Z) (r : kglob) : kglob :=
  mkGlob (kernel_brk r) (num_of_frames r) (activePCB r) (idlePCB r) (ready_q r) (blocked_q r)
    (defunct_q r) (pfn_list r) (lock_list r) (cvar_list r) (global_clock_ticks r) (head_pipe r)
    (ttyReadQueues r) (ttyWriteQueues r) (ttyReadbuffers r) (ttyWriteTrackers r) (ttyReadTrackers
    r) (lock_status r) v (lockAquireQueues r) (cvarWaitQueues r).
Definition set_lockAquireQueues (v : list Z) (r : kglob) : kglob :=
  mkGlob (kernel_brk r) (num_of_frames r) (activePCB r) (idlePCB r) (ready_q r) (blocked_q r)
    (defunct_q r) (pfn_list r) (lock_list r) (cvar_list r) (global_clock_ticks r) (head_pipe r)
    (ttyReadQueues r) (ttyWriteQueues r) (ttyReadbuffers r) (ttyWriteTrackers r) (ttyReadTrackers
    r) (lock_status r) (cvar_status r) v (cvarWaitQueues r).
Definition set_cvarWaitQueues (v : list Z) (r : kglob) : kglob :=
  mkGlob (kernel_brk r) (num_of_frames r) (activePCB r) (idlePCB r) (ready_q r) (blocked_q r)
    (defunct_q r) (pfn_list r) (lock_list r) (cvar_list r) (global_clock_ticks r) (head_pipe r)
    (ttyReadQueues r) (ttyWriteQueues r) (ttyReadbuffers r) (ttyWriteTrackers r) (ttyReadTrackers
    r) (lock_status r) (cvar_status r) (lockAquireQueues r) v.

(** ** The whole state

    [uc] is the user context the current trap's [ctx] argument points to;
    [mtick] counts the calls of [malloc]. *)
Record kstate := mkState {
  pcbs : gmap Z pcb;
  qst : qheap;
  lst : lheap;
  pipes : gmap Z pipe;
  ptabs : gmap Z (list pte);
  bufs : gmap Z (list Z);
  mtick : nat;
  hw : khw;
  gl : kglob;
  uc : UserContext }.

Definition set_pcbs (v : gmap Z pcb) (r : kstate) : kstate :=
  mkState v (qst r) (lst r) (pipes r) (ptabs r) (bufs r) (mtick r) (hw r) (gl r) (uc r).
Definition set_qst (v : qheap) (r : kstate) : kstate :=
  mkState (pcbs r) v (lst r) (pipes r) (ptabs r) (bufs r) (mtick r) (hw r) (gl r) (uc r).
Definition set_lst (v : lheap) (r : kstate) : kstate :=
  mkState (pcbs r) (qst r) v (pipes r) (ptabs r) (bufs r) (mtick r) (hw r) (gl r) (uc r).
Definition set_pipes (v : gmap Z pipe) (r : kstate) : kstate :=
  mkState (pcbs r) (qst r) (lst r) v (ptabs r) (bufs r) (mtick r) (hw r) (gl r) (uc r).
Definition set_ptabs (v : gmap Z (list pte)) (r : kstate) : kstate :=
  mkState (pcbs r) (qst r) (lst r) (pipes r) v (bufs r) (mtick r) (hw r) (gl r) (uc r).
Definition set_bufs (v : gmap Z (list Z)) (r : kstate) : kstate :=
  mkState (pcbs r) (qst r) (lst r) (pipes r) (ptabs r) v (mtick r) (hw r) (gl r) (uc r).
Definition set_mtick (v : nat) (r : kstate) : kstate :=
  mkState (pcbs r) (qst r) (lst r) (pipes r) (ptabs r) (bufs r) v (hw r) (gl r) (uc r).
Definition set_hw (v : khw) (r : kstate) : kstate :=
  mkState (pcbs r) (qst r) (lst r) (pipes r) (ptabs r) (bufs r) (mtick r) v (gl r) (uc r).
Definition set_gl (v : kglob) (r : kstate) : kstate :=
  mkState (pcbs r) (qst r) (lst r) (pipes r) (ptabs r) (bufs r) (mtick r) (hw r) v (uc r).
Definition set_uc (v : UserContext) (r : kstate) : kstate :=
  mkState (pcbs r) (qst r) (lst r) (pipes r) (ptabs r) (bufs r) (mtick r) (hw r) (gl r) v.

(** The addresses of the live heap blocks. *)
Definition live (s : kstate) : gset Z :=
  dom (pcbs s) ∪ dom (queues (qst s)) ∪ dom (qnodes (qst s)) ∪ dom (lists (lst s))
  ∪ dom (lnodes (lst s)) ∪ dom (pipes s) ∪ dom (ptabs s) ∪ dom (bufs s).

(** ** Outcomes and the monad *)

Inductive fault :=
  | FNull        (* null pointer dereferenced *)
  | FBadPtr      (* dangling pointer dereferenced *)
  | FOob         (* array index out of bounds *)
  | FSegv        (* access through an invalid or protected page *)
  | FStale       (* access through a translation the TLB may hold stale *)
  | FKernelMem   (* store through a user pointer into region 0 *)
  | FIndet       (* an indeterminate value used *)
  | FFuel        (* a loop's fuel ran out *)
  | FHalt.       (* the machine was halted *)

#[export] Instance fault_eq_dec : EqDecision fault.
Proof. solve_decision. Defined.

(** A kernel function returns, faults, or reaches [KernelContextSwitch]: [Switch]
    saves the rest of the computation for [from] and gives the machine to [to];
    [Clone] gives a copy of it to [child] and goes on. *)
Inductive outcome (A : Type) : Type :=
  | Ret (a : A) (s : kstate)
  | Fault (f : fault)
  | Switch (from to : Z) (s : kstate) (k : kstate -> outcome A)
  | Clone (child : Z) (s : kstate) (k : kstate -> outcome A).
Arguments Ret {A} a s.
Arguments Fault {A} f.
Arguments Switch {A} from to s k.
Arguments Clone {A} child s k.

Definition M (A : Type) : Type := kstate -> outcome A.

Definition ret {A} (a : A) : M A := fun s => Ret a s.
Definition raise {A} (f : fault) : M A := fun _ => Fault f.

Fixpoint obind {A B} (o : outcome A) (f : A -> M B) : outcome B :=
  match o with
  | Ret a s => f a s
  | Fault e => Fault e
  | Switch p n s k => Switch p n s (fun s' => obind (k s') f)
  | Clone c s k => Clone c s (fun s' => obind (k s') f)
  end.

Definition bind {A B} (m : M A) (f : A -> M B) : M B := fun s => obind (m s) f.

Declare Scope kmonad_scope.
Delimit Scope kmonad_scope with kmonad.
Bind Scope kmonad_scope with M.
Notation "'let!' x ':=' m 'in' k" := (bind m (fun x => k))
  (at level 10, x binder, m at level 100, k at level 200,
   format "'[v' 'let!'  x  ':='  m  'in' '//' k ']'") : kmonad_scope.
Notation "m ;; k" := (bind m (fun _ => k))
  (at level 100, right associativity, format "'[v' m  ;; '//' k ']'") : kmonad_scope.
Open Scope kmonad_scope.

Definition gets {A} (f : kstate -> A) : M A := fun s => Ret (f s) s.
Definition modify (f : kstate -> kstate) : M unit := fun s => Ret tt (f s).

(** A pointer of the code dereferenced in the map of its type. *)
Definition deref {A} (f : kstate -> gmap Z A) (a : Z) : M A := fun s =>
  match f s !! a with
  | Some x => Ret x s
  | None => Fault (if a =? NULL then FNull else FBadPtr)
  end.

(** An option computed by a bounds-checked access. *)
Definition in_bounds {A} (o : option A) : M A :=
  match o with Some x => ret x | None => raise FOob end.

Definition arr_get {A} (f : kstate -> list A) (i : Z) : M A :=
  let! l := gets f in in_bounds (zget l i).

(** A value the code may leave indeterminate, used. *)
Definition determinate {A} (o : option A) : M A :=
  match o with Some x => ret x | None => raise FIndet end.

(** [for] loops over a fixed list of indices, plain and with early return. *)
Fixpoint mfor (ixs : list Z) (body : Z -> M unit) : M unit :=
  match ixs with
  | [] => ret tt
  | i :: ixs' => body i ;; mfor ixs' body
  end.

Fixpoint mfor_ret {R} (ixs : list Z) (body : Z -> M (option R)) : M (option R) :=
  match ixs with
  | [] => ret None
  | i :: ixs' =>
      let! r := body i in
      match r with
      | Some v => ret (Some v)
      | None => mfor_ret ixs' body
      end
  end.

(** A [for] loop that updates a local variable and may return: [inl] is an early return. *)
Fixpoint mfor_acc {A R} (ixs : list Z) (acc : A) (body : Z -> A -> M (R + A)) : M (R + A) :=
  match ixs with
  | [] => ret (inr acc)
  | i :: ixs' =>
      let! r := body i acc in
      match r with
      | inl v => ret (inl v)
      | inr acc' => mfor_acc ixs' acc' body
      end
  end.

(** [while (cond) body], and [for (i = i0; cond; i++) body] with a condition
    evaluated again at each step, left early when the body says so. *)
Fixpoint mwhile (fuel : nat) (cond : M bool) (body : M unit) : M unit :=
  let! b := cond in
  if b then
    match fuel with
    | O => raise FFuel
    | S fuel' => body ;; mwhile fuel' cond body
    end
  else ret tt.

Fixpoint mloop (fuel : nat) (i : Z) (cond : Z -> M bool) (body : Z -> M bool) : M unit :=
  let! b := cond i in
  if b then
    match fuel with
    | O => raise FFuel
    | S fuel' =>
        let! brk := body i in
        if brk then ret tt else mloop fuel' (i + 1) cond body
    end
  else ret tt.

(** [m], a part of a function body that may [return], followed by the rest of the body. *)
Definition orelse {R} (m : M (option R)) (k : M R) : M R :=
  let! r := m in match r with Some v => ret v | None => k end.
Notation "'returning!' m 'in' k" := (orelse m k)
  (at level 10, m at level 100, k at level 200) : kmonad_scope.


(** ** State access *)

Definition get_pcb (p : Z) : M pcb := deref pcbs p.
Definition put_pcb (a : Z) (p : pcb) (s : kstate) : kstate := set_pcbs (<[a := p]> (pcbs s)) s.
Definition upd_pcb (p : Z) (f : pcb -> pcb) : M unit :=
  let! x := get_pcb p in modify (put_pcb p (f x)).

Definition upd_gl (f : kglob -> kglob) : M unit := modify (fun s => set_gl (f (gl s)) s).
Definition upd_hw (f : khw -> khw) : M unit := modify (fun s => set_hw (f (hw s)) s).

(** The [UserContext *] argument of a handler: null, or a pointer to [uc]. *)
Definition get_uc (uctxt : Z) : M UserContext :=
  if uctxt =? NULL then raise FNull else gets uc.
Definition upd_uc (uctxt : Z) (f : UserContext -> UserContext) : M unit :=
  if uctxt =? NULL then raise FNull else modify (fun s => set_uc (f (uc s)) s).

(** The global variables of [kernel.c], read from the state. *)
Definition active (s : kstate) : Z := activePCB (gl s).
Definition idle (s : kstate) : Z := idlePCB (gl s).

(** ** The C library

    [malloc] and [helper_new_pid] are in the support library, which is not part
    of the sources: the address the n-th call of [malloc] returns when the blocks
    of a given set are live, the pid of the n-th process, and what a fresh block for
    a PCB contains are parameters. *)

Class Libc := {
  malloc_choice : nat -> gset Z -> Z;
  new_pid : nat -> Z;
  raw_pcb : nat -> pcb }.

(** What the code relies on: a block is null or a fresh positive address, pids
    are non-negative and not reused.  The arrays of a PCB have their declared sizes
    and the bit fields of their elements hold what bit fields can hold. *)
Class LibcLaws (L : Libc) : Prop := {
  malloc_fresh : forall n l, malloc_choice n l = NULL \/ (0 < malloc_choice n l /\ malloc_choice n l ∉ l);
  new_pid_nonneg : forall n, 0 <= new_pid n;
  new_pid_inj : forall n m, new_pid n = new_pid m -> n = m;
  raw_pcb_tables : forall n, length (user_page_table (raw_pcb n)) = Z.to_nat USER_PT_SIZE /\
    length (kernel_stack_pt (raw_pcb n)) = Z.to_nat KERNEL_STACK_SIZE;
  raw_pcb_fields : forall n, Forall pte_ok (user_page_table (raw_pcb n)) /\ Forall pte_ok (kernel_stack_pt (raw_pcb n)) }.

(** The heap is not exhausted. *)
Class MallocTotal (L : Libc) : Prop := malloc_total : forall n l, malloc_choice n l <> NULL.

Definition malloc `{L : Libc} {A} (put : Z -> A -> kstate -> kstate) (init : A) : M Z := fun s =>
  let a := malloc_choice (mtick s) (live s) in
  let s1 := set_mtick (S (mtick s)) s in
  Ret a (if a =? NULL then s1 else put a init s1).

Definition put_queue (a : Z) (q : queue) (s : kstate) : kstate :=
  set_qst (set_queues (<[a := q]> (queues (qst s))) (qst s)) s.
Definition put_qnode (a : Z) (n : qnode) (s : kstate) : kstate :=
  set_qst (set_qnodes (<[a := n]> (qnodes (qst s))) (qst s)) s.
Definition put_list (a : Z) (l : klist) (s : kstate) : kstate :=
  set_lst (set_lists (<[a := l]> (lists (lst s))) (lst s)) s.
Definition put_lnode (a : Z) (n : lnode) (s : kstate) : kstate :=
  set_lst (set_lnodes (<[a := n]> (lnodes (lst s))) (lst s)) s.
Definition put_pipe (a : Z) (p : pipe) (s : kstate) : kstate := set_pipes (<[a := p]> (pipes s)) s.
Definition put_pt (a : Z) (t : list pte) (s : kstate) : kstate := set_ptabs (<[a := t]> (ptabs s)) s.
Definition put_buf (a : Z) (b : list Z) (s : kstate) : kstate := set_bufs (<[a := b]> (bufs s)) s.

(** ** Kernel context switches

    The saved computation resumes with the user context of its own kernel stack. *)

Definition ctx_switch (from to : Z) : M unit := fun s =>
  Switch from to s (fun s' => Ret tt (set_uc (uc s) s')).
Definition ctx_clone (child : Z) : M unit := fun s =>
  Clone child s (fun s' => Ret tt (set_uc (uc s) s')).

(** The C image before [KernelStart]: nothing allocated, globals zero, virtual
    memory disabled. *)
Definition init_glob : kglob :=
  mkGlob 0 0 NULL NULL NULL NULL NULL NULL NULL NULL 0 NULL
    (replicate 4 NULL) (replicate 4 NULL) (replicate 4 NULL) (replicate 4 0) (replicate 4 0)
    (replicate 100 0) (replicate 5000 0) (replicate 100 NULL) (replicate 5000 NULL).
Definition init_hw : khw := mkHw VM_DISABLED PtNull 0 PtNull 0 false ∅ ∅ [] 0.
Definition init_state : kstate :=
  mkState ∅ (mkQheap ∅ ∅) (mkLheap ∅ ∅) ∅ ∅ ∅ 0 init_hw init_glob uctxt_zero.

(** A PCB of zeros. *)
Definition pcb_zero : pcb :=
  mkPcb 0 0 0 0 0 uctxt_zero 0 (replicate (Z.to_nat USER_PT_SIZE) pte_zero) 0 0 0 0
    (replicate (Z.to_nat KERNEL_STACK_SIZE) pte_zero) 0 0 0.

(** A bump allocator of zeroed blocks and a counter of pids: an instance of the library. *)
Definition bump_libc : Libc := {|
  malloc_choice := fun _ l => 1 + set_fold Z.max 0 l;
  new_pid := fun n => Z.of_nat n;
  raw_pcb := fun _ => pcb_zero |}.
