(* ===== verification/Store.v ===== *)
(** * Heap structures with disjoint footprints

    Shared by the linked lists and the queues: a view [V] gives the abstract
    value of the structure at each address, [rep h a ns x] says that in the heap
    [h] the structure at [a] is built of the nodes [ns] and holds [x]. *)

From Stdlib Require Import ZArith Lia.
From stdpp Require Import base gmap list.
From S2P Require Import Prelude Hardware.

Open Scope Z_scope.

(** Footprints that share no node. *)
Definition fdisj (F : gmap Z (list Z)) : Prop :=
  forall a b na nb n, a <> b -> F !! a = Some na -> F !! b = Some nb -> n ∈ na -> n ∉ nb.

(** Footprints whose nodes, listed together, do not repeat. *)
Lemma fdisj_concat F : NoDup (concat (map snd (map_to_list F))) -> fdisj F.
Proof.
  intros Hn a b na nb n Hab Ha Hb Hin Hin'. apply elem_of_map_to_list in Ha, Hb.
  revert Hn Ha Hb. generalize (map_to_list F) as l. induction l as [|[c nc] l IH]; intros Hn Ha Hb.
  - by apply not_elem_of_nil in Ha.
  - cbn in Hn. apply NoDup_app in Hn as (_ & Hd & Hn).
    assert (Hl : forall k nk, (k, nk) ∈ l -> n ∈ nk -> n ∈ concat (map snd l)).
    { intros k nk Hk Hnk. apply list_elem_of_In, in_concat. exists nk.
      rewrite <- !list_elem_of_In. split; [|done]. apply list_elem_of_In, in_map_iff. exists (k, nk).
      by rewrite <- list_elem_of_In. }
    apply elem_of_cons in Ha as [[= <- <-]|Ha], Hb as [[= <- <-]|Hb]; [done|..].
    + by apply (Hd n Hin), (Hl b nb).
    + by apply (Hd n Hin'), (Hl a na).
    + by apply IH.
Qed.

Section store.
Context {H X : Type} (rep : H -> Z -> list Z -> X -> Prop).

Definition store_of (F : gmap Z (list Z)) (h : H) (V : gmap Z X) : Prop :=
  fdisj F /\ dom F ⊆ dom V /\
  forall a x, V !! a = Some x -> a <> NULL /\ exists ns, F !! a = Some ns /\ rep h a ns x.

Definition store (h : H) (V : gmap Z X) : Prop := exists F, store_of F h V.

Lemma fdisj_insert F l (ns : list Z) :
  fdisj F -> (forall m n nb, m <> l -> F !! m = Some nb -> n ∈ ns -> n ∉ nb) ->
  fdisj (<[l := ns]> F).
Proof.
  intros HF Hn a b na nb n Hab Ha Hb Hin Hin'.
  destruct (decide (a = l)) as [->|Hal].
  - rewrite lookup_insert_eq in Ha. rewrite lookup_insert_ne in Hb by congruence. simplify_eq.
    by eapply Hn.
  - rewrite lookup_insert_ne in Ha by congruence. destruct (decide (b = l)) as [->|Hbl].
    + rewrite lookup_insert_eq in Hb. simplify_eq. by eapply (Hn a).
    + rewrite lookup_insert_ne in Hb by congruence. exact (HF a b na nb n Hab Ha Hb Hin Hin').
Qed.

Lemma dom_insert_mono {A B} (m : gmap Z A) (m' : gmap Z B) i x y :
  dom m ⊆ dom m' -> dom (<[i := x]> m) ⊆ dom (<[i := y]> m').
Proof.
  intros Hs j. rewrite !dom_insert, !elem_of_union. intros [?|?]; [by left|]. right. by apply Hs.
Qed.

Lemma dom_delete_mono {A B} (m : gmap Z A) (m' : gmap Z B) i :
  dom m ⊆ dom m' -> dom (delete i m) ⊆ dom (delete i m').
Proof.
  intros Hs j. rewrite !dom_delete, !elem_of_difference. intros [? ?]. split; [by apply Hs|done].
Qed.

Lemma store_lookup h V a x : store h V -> V !! a = Some x -> a <> NULL /\ exists ns, rep h a ns x.
Proof. intros (F & _ & _ & Hr) Ha. destruct (Hr _ _ Ha) as (? & ns & _ & ?). eauto. Qed.

(** An operation on the structure at [l] that only touches its own footprint and
    fresh nodes updates the view at [l] and nowhere else. *)
Lemma store_update h h' V F l ns ns' x x' :
  store_of F h V -> V !! l = Some x -> F !! l = Some ns -> rep h' l ns' x' ->
  (forall m y ms, m <> l -> V !! m = Some y -> F !! m = Some ms ->
    (forall n, n ∈ ms -> (n ∉ ns) /\ (n ∉ ns')) -> rep h m ms y -> rep h' m ms y) ->
  (forall m y ms n, V !! m = Some y -> F !! m = Some ms -> n ∈ ns' -> n ∉ ns -> n ∉ ms) ->
  store h' (<[l := x']> V).
Proof.
  intros (HF & Hdom & Hr) Hl HFl Hrep Hframe Hfresh.
  assert (Hsep : forall m n nb, m <> l -> F !! m = Some nb -> n ∈ ns' -> n ∉ nb).
  { intros m n nb Hm Hnb Hn. destruct (decide (n ∈ ns)).
    - by eapply (HF l m).
    - assert (m ∈ dom V) as [y ?]%elem_of_dom by (apply Hdom, elem_of_dom; eauto). eauto. }
  exists (<[l := ns']> F). split; [by apply fdisj_insert|]. split.
  { by apply dom_insert_mono. }
  intros m y Hm. destruct (decide (m = l)) as [->|Hml].
  - rewrite lookup_insert_eq in Hm. rewrite lookup_insert_eq. simplify_eq. split; [by eapply Hr|]. eauto.
  - rewrite lookup_insert_ne in Hm by congruence. rewrite lookup_insert_ne by congruence. destruct (Hr _ _ Hm) as (? & ms & Hms & Hy).
    split; [done|]. exists ms. split; [done|]. eapply Hframe; [done..| |done].
    intros n Hn. split; intros Hn'.
    + exact (HF m l ms ns n Hml Hms HFl Hn Hn').
    + exact (Hsep m n ms Hml Hms Hn' Hn).
Qed.

(** A structure built at a fresh address from no nodes joins the store. *)
Lemma store_new h h' V l x :
  store h V -> V !! l = None -> l <> NULL -> rep h' l [] x ->
  (forall m ms y, m <> l -> rep h m ms y -> rep h' m ms y) ->
  store h' (<[l := x]> V).
Proof.
  intros (F & HF & Hdom & Hr) Hl Hnn Hrep Hframe.
  exists (<[l := []]> F). split; [|split].
  - apply fdisj_insert; [done|]. by intros ????? ?%not_elem_of_nil.
  - by apply dom_insert_mono.
  - intros m y Hm. destruct (decide (m = l)) as [->|Hml].
    + rewrite lookup_insert_eq in Hm. rewrite lookup_insert_eq. simplify_eq. eauto.
    + rewrite lookup_insert_ne in Hm by congruence. rewrite lookup_insert_ne by congruence. destruct (Hr _ _ Hm) as (? & ms & ? & ?).
      split; [done|]. exists ms. split; [done|]. by apply Hframe.
Qed.

Lemma store_empty h : store h ∅.
Proof.
  exists ∅. split; [|split].
  - intros a b na nb n _ []%lookup_empty_Some.
  - by rewrite !dom_empty_L.
  - intros a x []%lookup_empty_Some.
Qed.

Lemma store_weaken h V l : store h V -> store h (delete l V).
Proof.
  intros (F & HF & Hdom & Hr). exists (delete l F). split; [|split].
  - intros a b na nb n Hab [? Ha]%lookup_delete_Some [? Hb]%lookup_delete_Some.
    exact (HF a b na nb n Hab Ha Hb).
  - by apply dom_delete_mono.
  - intros a x [? Ha]%lookup_delete_Some. destruct (Hr _ _ Ha) as (? & ns & ? & ?).
    split; [done|]. exists ns. rewrite lookup_delete_ne by done. done.
Qed.

End store.
