(* ===== verification/Logic.v ===== *)
(** * Reasoning about handlers

    Total correctness ([returns]), invariants kept across context switches
    ([keeps]), and the equivalence of outcomes whose continuations agree
    pointwise ([oeq], [meq]) with the monad laws it validates. *)

From Stdlib Require Import ZArith Lia Morphisms.
From stdpp Require Import base gmap list.
From S2P Require Import Prelude Hardware State.

Open Scope Z_scope.

(** ** Reasoning about outcomes *)

(** Total correctness of a computation that neither faults nor switches. *)
Definition oret {A} (o : outcome A) (Q : A -> kstate -> Prop) : Prop :=
  match o with Ret a s => Q a s | _ => False end.

Definition returns {A} (m : M A) (s : kstate) (Q : A -> kstate -> Prop) : Prop := oret (m s) Q.

(** [m] keeps the invariant [I] at every return and at every context switch,
    whatever [I]-state it is resumed in. *)
Fixpoint okeeps {A} (I : kstate -> Prop) (o : outcome A) : Prop :=
  match o with
  | Ret _ s => I s
  | Fault _ => True
  | Switch _ _ s k => I s /\ forall s', I s' -> okeeps I (k s')
  | Clone _ s k => I s /\ forall s', I s' -> okeeps I (k s')
  end.

Definition keeps {A} (I : kstate -> Prop) (m : M A) : Prop := forall s, I s -> okeeps I (m s).

(** Outcomes that agree up to the extension of their continuations. *)
Inductive oeq {A} : outcome A -> outcome A -> Prop :=
  | oeq_ret a s : oeq (Ret a s) (Ret a s)
  | oeq_fault f : oeq (Fault f) (Fault f)
  | oeq_switch p n s k k' : (forall t, oeq (k t) (k' t)) -> oeq (Switch p n s k) (Switch p n s k')
  | oeq_clone c s k k' : (forall t, oeq (k t) (k' t)) -> oeq (Clone c s k) (Clone c s k').

Definition meq {A} (m m' : M A) : Prop := forall s, oeq (m s) (m' s).

#[export] Instance oeq_equivalence {A} : Equivalence (@oeq A).
Proof.
  split.
  - intros o. induction o; by constructor.
  - intros o o'. induction 1; by constructor.
  - intros o1 o2 o3 H. revert o3. induction H; intros o3 H3; inversion H3; subst; constructor; eauto.
Qed.

#[export] Instance meq_equivalence {A} : Equivalence (@meq A).
Proof.
  split.
  - intros m s. reflexivity.
  - intros m m' H s. symmetry. apply H.
  - intros m1 m2 m3 H1 H2 s. etransitivity; [apply H1 | apply H2].
Qed.

Lemma obind_oeq {A B} (o o' : outcome A) (f f' : A -> M B) :
  oeq o o' -> (forall a, meq (f a) (f' a)) -> oeq (obind o f) (obind o' f').
Proof. intros H Hf. induction H; simpl; try constructor; auto. apply Hf. Qed.

#[export] Instance bind_proper {A B} :
  Proper (meq ==> pointwise_relation A meq ==> meq) (@bind A B).
Proof. intros m m' Hm f f' Hf s. apply obind_oeq; [apply Hm | apply Hf]. Qed.

#[export] Instance okeeps_proper {A} (I : kstate -> Prop) : Proper (oeq ==> iff) (@okeeps A I).
Proof.
  intros o o' H. induction H as [| |p n s k k' _ IH|c s k k' _ IH]; simpl; try tauto.
  - split; intros [? Hk]; (split; [done|]); intros t Ht; apply IH; auto.
  - split; intros [? Hk]; (split; [done|]); intros t Ht; apply IH; auto.
Qed.

(** The monad laws, up to [meq]. *)
Lemma bind_ret_l {A B} (a : A) (f : A -> M B) : meq (bind (ret a) f) (f a).
Proof. intros s. reflexivity. Qed.

Lemma bind_ret_r {A} (m : M A) : meq (bind m ret) m.
Proof. intros s. unfold bind. induction (m s); simpl; try constructor; auto. Qed.

Lemma bind_assoc {A B C} (m : M A) (f : A -> M B) (g : B -> M C) :
  meq (bind (bind m f) g) (bind m (fun a => bind (f a) g)).
Proof.
  intros s. unfold bind. induction (m s); simpl; try constructor; auto. reflexivity.
Qed.

Lemma obind_okeeps {A B} (I : kstate -> Prop) (o : outcome A) (f : A -> M B) :
  okeeps I o -> (forall a, keeps I (f a)) -> okeeps I (obind o f).
Proof.
  intros Ho Hf. induction o; simpl in *.
  - by apply Hf.
  - done.
  - destruct Ho as [? Hk]; split; [done|]; auto.
  - destruct Ho as [? Hk]; split; [done|]; auto.
Qed.

(** States and registers that agree on every component are equal. *)
Lemma kstate_eq s t : pcbs s = pcbs t -> qst s = qst t -> lst s = lst t -> pipes s = pipes t ->
  ptabs s = ptabs t -> bufs s = bufs t -> mtick s = mtick t -> hw s = hw t -> gl s = gl t -> uc s = uc t -> s = t.
Proof. destruct s, t. cbn. by intros -> -> -> -> -> -> -> -> -> ->. Qed.

Lemma khw_eq h g : r_vm h = r_vm g -> r_ptbr0 h = r_ptbr0 g -> r_ptlr0 h = r_ptlr0 g -> r_ptbr1 h = r_ptbr1 g ->
  r_ptlr1 h = r_ptlr1 g -> r_vector h = r_vector g -> tlb h = tlb g -> frames h = frames g ->
  tty_out h = tty_out g -> pid_tick h = pid_tick g -> h = g.
Proof. destruct h, g. cbn. by intros -> -> -> -> -> -> -> -> -> ->. Qed.

(** *** Rules for [returns] *)

Section returns_rules.
Context {A B : Type}.
Implicit Types (Q : B -> kstate -> Prop).

Lemma returns_bind (m : M A) (f : A -> M B) s Q :
  returns m s (fun a s' => returns (f a) s' Q) -> returns (bind m f) s Q.
Proof. unfold returns, bind. by destruct (m s). Qed.

Lemma returns_mono (m : M A) s (P P' : A -> kstate -> Prop) :
  returns m s P -> (forall a s', P a s' -> P' a s') -> returns m s P'.
Proof. unfold returns. destruct (m s); simpl; auto. Qed.

Lemma returns_eq (m : M A) s (P : A -> kstate -> Prop) :
  returns m s P <-> exists a s', m s = Ret a s' /\ P a s'.
Proof.
  unfold returns. destruct (m s); simpl; (split; [|intros (? & ? & [=] & ?); by subst]);
    intros H; [by eexists _, _ | done..].
Qed.

Lemma returns_exec (m : M A) s a s' (P : A -> kstate -> Prop) :
  m s = Ret a s' -> P a s' -> returns m s P.
Proof. unfold returns. by intros ->. Qed.

Lemma returns_eqm (m m' : M A) s (P : A -> kstate -> Prop) : m s = m' s -> returns m' s P -> returns m s P.
Proof. unfold returns. by intros ->. Qed.

Lemma returns_ret (a : A) s (P : A -> kstate -> Prop) : P a s -> returns (ret a) s P.
Proof. done. Qed.

Lemma returns_deref (f : kstate -> gmap Z A) a x s (P : A -> kstate -> Prop) :
  f s !! a = Some x -> P x s -> returns (deref f a) s P.
Proof. unfold returns, deref. by intros ->. Qed.

Lemma returns_in_bounds (o : option A) x s (P : A -> kstate -> Prop) :
  o = Some x -> P x s -> returns (in_bounds o) s P.
Proof. by intros ->. Qed.

End returns_rules.

Lemma returns_arr_get {A} (f : kstate -> list A) i x s (P : A -> kstate -> Prop) :
  zget (f s) i = Some x -> P x s -> returns (arr_get f i) s P.
Proof. intros. apply returns_bind. by eapply returns_in_bounds. Qed.

Lemma returns_gets {A} (f : kstate -> A) s (P : A -> kstate -> Prop) :
  P (f s) s -> returns (gets f) s P.
Proof. done. Qed.

Lemma returns_modify f s (P : unit -> kstate -> Prop) : P tt (f s) -> returns (modify f) s P.
Proof. done. Qed.

Lemma returns_orelse_some {R} (m : M (option R)) k s (P : R -> kstate -> Prop) :
  returns m s (fun r s' => match r with Some v => P v s' | None => returns k s' P end) ->
  returns (orelse m k) s P.
Proof.
  intros H. apply returns_bind. eapply returns_mono; [exact H|]. by intros [v|] s' Hv.
Qed.

Lemma orelse_ret {R} (m : M (option R)) k s v s' : m s = Ret (Some v) s' -> orelse m k s = Ret v s'.
Proof. unfold orelse, bind. by intros ->. Qed.

Lemma returns_upd_pcb p f x s (P : unit -> kstate -> Prop) :
  pcbs s !! p = Some x -> P tt (put_pcb p (f x) s) -> returns (upd_pcb p f) s P.
Proof. intros. apply returns_bind. by eapply returns_deref. Qed.

Lemma put_pcb_twice p x y s : put_pcb p x (put_pcb p y s) = put_pcb p x s.
Proof. destruct s. unfold put_pcb, set_pcbs. cbn. by rewrite insert_insert_eq. Qed.

Lemma put_pcb_same p x s : pcbs s !! p = Some x -> put_pcb p x s = s.
Proof. destruct s. unfold put_pcb, set_pcbs. cbn. intros. by rewrite insert_id. Qed.

Lemma lst_put_pcb p x s : lst (put_pcb p x s) = lst s.
Proof. done. Qed.

Lemma gl_put_pcb p x s : gl (put_pcb p x s) = gl s.
Proof. done. Qed.

Lemma hw_put_pcb p x s : hw (put_pcb p x s) = hw s.
Proof. done. Qed.

Lemma returns_mfor ixs body (Inv : list Z -> kstate -> Prop) s :
  Inv ixs s ->
  (forall i r s, Inv (i :: r) s -> returns (body i) s (fun _ s' => Inv r s')) ->
  returns (mfor ixs body) s (fun _ s' => Inv [] s').
Proof.
  intros H Hb. revert s H. induction ixs as [|i r IH]; intros s H; [done|].
  apply returns_bind. eapply returns_mono; [by apply Hb|]. intros [] s' H'. by apply IH.
Qed.

(** A [for] loop that runs to its end. *)
Lemma returns_mfor_ret {R} ixs (body : Z -> M (option R)) (Inv : list Z -> kstate -> Prop) s :
  Inv ixs s ->
  (forall i r s, Inv (i :: r) s -> returns (body i) s (fun o s' => o = None /\ Inv r s')) ->
  returns (mfor_ret ixs body) s (fun o s' => o = None /\ Inv [] s').
Proof.
  intros H Hb. revert s H. induction ixs as [|i r IH]; intros s H; [done|].
  apply returns_bind. eapply returns_mono; [by apply Hb|]. intros o s' [-> H']. by apply IH.
Qed.

(** *** Rules for [keeps] *)

Section keeps_rules.
Context (I : kstate -> Prop).

Lemma keeps_bind {A B} (m : M A) (f : A -> M B) :
  keeps I m -> (forall a, keeps I (f a)) -> keeps I (bind m f).
Proof. intros Hm Hf s Hs. apply obind_okeeps; auto. Qed.

Lemma keeps_ret {A} (a : A) : keeps I (ret a).
Proof. by intros s Hs. Qed.

Lemma keeps_raise {A} f : keeps I (raise (A := A) f).
Proof. by intros s Hs. Qed.

Lemma keeps_gets {A} (f : kstate -> A) : keeps I (gets f).
Proof. by intros s Hs. Qed.

Lemma keeps_deref {A} (f : kstate -> gmap Z A) a : keeps I (deref f a).
Proof. intros s Hs. unfold deref. by destruct (f s !! a). Qed.

Lemma keeps_in_bounds {A} (o : option A) : keeps I (in_bounds o).
Proof. destruct o; [apply keeps_ret | apply keeps_raise]. Qed.

Lemma keeps_determinate {A} (o : option A) : keeps I (determinate o).
Proof. destruct o; [apply keeps_ret | apply keeps_raise]. Qed.

Lemma keeps_arr_get {A} (f : kstate -> list A) i : keeps I (arr_get f i).
Proof. apply keeps_bind; [apply keeps_gets | intros; apply keeps_in_bounds]. Qed.

Lemma keeps_modify f : (forall s, I s -> I (f s)) -> keeps I (modify f).
Proof. intros H s Hs. by apply H. Qed.

Lemma keeps_mfor ixs body : (forall i, keeps I (body i)) -> keeps I (mfor ixs body).
Proof.
  intros H. induction ixs; [apply keeps_ret | apply keeps_bind; auto].
Qed.

Lemma keeps_mfor_ret {R} ixs (body : Z -> M (option R)) :
  (forall i, keeps I (body i)) -> keeps I (mfor_ret ixs body).
Proof.
  intros H. induction ixs; [apply keeps_ret | apply keeps_bind; auto].
  intros [?|]; [apply keeps_ret | done].
Qed.

Lemma keeps_orelse {R} (m : M (option R)) (k : M R) :
  keeps I m -> keeps I k -> keeps I (orelse m k).
Proof. intros. apply keeps_bind; [done|]. intros [?|]; [apply keeps_ret | done]. Qed.

Lemma keeps_ctx_switch p n : (forall s u, I s -> I (set_uc u s)) -> keeps I (ctx_switch p n).
Proof. intros Hu s Hs. simpl. split; [done|]. intros s' Hs'. by apply Hu. Qed.

Lemma keeps_ctx_clone c : (forall s u, I s -> I (set_uc u s)) -> keeps I (ctx_clone c).
Proof. intros Hu s Hs. simpl. split; [done|]. intros s' Hs'. by apply Hu. Qed.

End keeps_rules.

(** *** Computations that reach a context switch *)

(** [m] suspends itself: [P] holds of who is suspended, what runs next, the state
    at the switch and the rest of the computation. *)
Definition switches {A} (m : M A) (s : kstate)
    (P : Z -> Z -> kstate -> (kstate -> outcome A) -> Prop) : Prop :=
  match m s with Switch p n t k => P p n t k | _ => False end.

Lemma switches_after {A B} (m : M A) (f : A -> M B) s P :
  returns m s (fun a s' => switches (f a) s' P) -> switches (bind m f) s P.
Proof. unfold returns, switches, bind. by destruct (m s). Qed.

Lemma switches_before {A B} (m : M A) (f : A -> M B) s P :
  switches m s (fun p n t k => P p n t (fun u => obind (k u) f)) -> switches (bind m f) s P.
Proof. unfold switches, bind. by destruct (m s). Qed.

Lemma switches_orelse {R} (m : M (option R)) k s P :
  returns m s (fun r s' => r = None /\ switches k s' P) -> switches (orelse m k) s P.
Proof.
  intros H. apply switches_after. eapply returns_mono; [exact H|]. by intros r s' [-> Hk].
Qed.

Lemma switches_mono {A} (m : M A) s (P P' : Z -> Z -> kstate -> (kstate -> outcome A) -> Prop) :
  switches m s P -> (forall p n t k, P p n t k -> P' p n t k) -> switches m s P'.
Proof. unfold switches. destruct (m s); auto. Qed.

(** [m] hands a copy of itself to a new process: [P] holds of the process, the
    state at that point and the rest of the computation. *)
Definition clones {A} (m : M A) (s : kstate) (P : Z -> kstate -> (kstate -> outcome A) -> Prop) : Prop :=
  match m s with Clone c t k => P c t k | _ => False end.

Lemma clones_after {A B} (m : M A) (f : A -> M B) s P :
  returns m s (fun a s' => clones (f a) s' P) -> clones (bind m f) s P.
Proof. unfold returns, clones, bind. by destruct (m s). Qed.

Lemma clones_before {A B} (m : M A) (f : A -> M B) s P :
  clones m s (fun c t k => P c t (fun u => obind (k u) f)) -> clones (bind m f) s P.
Proof. unfold clones, bind. by destruct (m s). Qed.

Lemma clones_orelse {R} (m : M (option R)) k s P :
  returns m s (fun r s' => r = None /\ clones k s' P) -> clones (orelse m k) s P.
Proof.
  intros H. apply clones_after. eapply returns_mono; [exact H|]. by intros r s' [-> Hk].
Qed.

Lemma clones_mono {A} (m : M A) s (P P' : Z -> kstate -> (kstate -> outcome A) -> Prop) :
  clones m s P -> (forall c t k, P c t k -> P' c t k) -> clones m s P'.
Proof. unfold clones. destruct (m s); auto. Qed.

(** *** Computations that fault *)

Lemma faults_after {A B} (m : M A) (f : A -> M B) s e :
  returns m s (fun a s' => f a s' = Fault e) -> bind m f s = Fault e.
Proof. unfold returns, bind. by destruct (m s). Qed.

Lemma faults_before {A B} (m : M A) (f : A -> M B) s e : m s = Fault e -> bind m f s = Fault e.
Proof. unfold bind. by intros ->. Qed.

Lemma bind_exec {A B} (m : M A) (f : A -> M B) s a s' : m s = Ret a s' -> bind m f s = f a s'.
Proof. unfold bind. by intros ->. Qed.

Lemma bind_gets {A B} (g : kstate -> A) (f : A -> M B) s : bind (gets g) f s = f (g s) s.
Proof. done. Qed.

Lemma bind_ret {A B} (a : A) (f : A -> M B) s : bind (ret a) f s = f a s.
Proof. done. Qed.

Lemma deref_ok {A} (f : kstate -> gmap Z A) a x s : f s !! a = Some x -> deref f a s = Ret x s.
Proof. unfold deref. by intros ->. Qed.

Lemma upd_pcb_ok p f x s : pcbs s !! p = Some x -> upd_pcb p f s = Ret tt (put_pcb p (f x) s).
Proof. unfold upd_pcb, get_pcb, bind, deref. by intros ->. Qed.

#[export] Instance bump_libc_laws : LibcLaws bump_libc.
Proof.
  assert (Hmax : forall l : gset Z, 0 <= set_fold Z.max 0 l /\ forall x, x ∈ l -> x <= set_fold Z.max 0 l).
  { apply (set_fold_ind_L (fun b (X : gset Z) => 0 <= b /\ forall x, x ∈ X -> x <= b)).
    - split; [lia|]. set_solver.
    - intros x X r Hx [H0 H]. split; [lia|]. intros y. rewrite elem_of_union, elem_of_singleton.
      intros [-> | Hy%H]; lia. }
  split; simpl.
  - intros _ l. right. destruct (Hmax l) as [H0 H]. split; [lia|]. intros Hin%H. lia.
  - lia.
  - lia.
  - done.
  - intros _. split; [apply (Forall_replicate pte_ok (Z.to_nat USER_PT_SIZE))|
      apply (Forall_replicate pte_ok (Z.to_nat KERNEL_STACK_SIZE))]; done.
Qed.

#[export] Instance bump_libc_total : MallocTotal bump_libc.
Proof.
  intros n l. simpl. pose proof (malloc_fresh (L := bump_libc) n l) as H. simpl in H.
  assert (0 <= set_fold Z.max 0 l) by (destruct H as [H|[H _]]; unfold NULL in *; [|lia]; lia || idtac;
    clear H; apply (set_fold_ind_L (fun b (_ : gset Z) => 0 <= b)); lia).
  unfold NULL. lia.
Qed.

#[export] Hint Resolve keeps_ret keeps_raise keeps_gets keeps_deref keeps_in_bounds
  keeps_determinate keeps_arr_get : yalnix.

#[export] Hint Rewrite lst_put_pcb gl_put_pcb hw_put_pcb : yalnix_rw.

(** One step of symbolic execution of a [returns] goal. *)
Ltac rstep :=
  lazymatch goal with
  | |- returns (bind _ _) _ _ => apply returns_bind
  | |- returns (orelse _ _) _ _ => apply returns_orelse_some
  | |- returns (ret _) _ _ => apply returns_ret
  | |- returns (gets _) _ _ => apply returns_gets
  | |- returns (modify _) _ _ => apply returns_modify
  | |- returns (deref _ _) _ _ => eapply returns_deref
  | |- returns (get_pcb _) _ _ => eapply returns_deref
  | |- returns (arr_get _ _) _ _ => eapply returns_arr_get
  | |- returns (in_bounds _) _ _ => eapply returns_in_bounds
  | |- returns (upd_pcb _ _) _ _ => eapply returns_upd_pcb
  | |- returns (upd_gl _) _ _ => apply returns_modify
  | |- returns (upd_hw _) _ _ => apply returns_modify
  end.

(** Solve a lookup side condition by computation and the hypotheses. *)
Ltac lk :=
  cbn;
  repeat first
    [ rewrite lookup_insert_eq
    | rewrite lookup_insert_ne by (done || congruence)
    | rewrite lookup_delete_ne by (done || congruence) ];
  first [ eassumption | reflexivity ].

(** Execute as far as the side conditions are solved. *)
Ltac rsteps := repeat (first [rstep; [] | rstep; [lk|]]; cbv beta zeta).
