(* ===== verification/KList.v ===== *)
(** * Linked lists ([list.h], [list.c])

    The doubly linked list of the frame, lock and condition-variable free lists,
    at the level of nodes and pointers; the stack it implements ([lstore]); and
    the interface [ListStore] its clients rely on. *)

From Stdlib Require Import ZArith Lia.
From stdpp Require Import base gmap list.
From S2P Require Import Prelude Hardware State Store Logic.

Open Scope Z_scope.

(** ** The operations *)

Definition get_list (l : Z) : M klist := deref (fun s => lists (lst s)) l.
Definition upd_list (l : Z) (f : klist -> klist) : M unit :=
  let! x := get_list l in modify (put_list l (f x)).
Definition get_lnode (n : Z) : M lnode := deref (fun s => lnodes (lst s)) n.
Definition upd_lnode (n : Z) (f : lnode -> lnode) : M unit :=
  let! x := get_lnode n in modify (put_lnode n (f x)).
Definition free_lnode (n : Z) : M unit :=
  get_lnode n ;; modify (fun s => set_lst (set_lnodes (delete n (lnodes (lst s))) (lst s)) s).

(** What the caller of a value-returning function receives when control falls
    off the function's end, given the last pointer the function computed: C leaves
    it undefined, the compiler decides. *)
Class Compiler := { fallthrough : Z -> Z }.

(** The code relies on the pointer still being in the return register. *)
Class CompilerLaws (C : Compiler) : Prop := { fallthrough_last : forall a, fallthrough a = a }.

Section list_ops.
Context `{L : Libc}.

Definition lnode_init (item : Z) : M Z := malloc put_lnode (mkLnode item NULL NULL).

Definition lnode_delete (node : Z) (del : option (Z -> M unit)) : M unit :=
  if node =? NULL then ret tt
  else match del with
       | Some f => let! n := get_lnode node in f (ln_data n) ;; free_lnode node
       | None => free_lnode node
       end.

(** [list_init] has no [return] statement. *)
Definition list_init `{C : Compiler} : M Z :=
  let! list := malloc put_list (mkList NULL NULL 0) in
  upd_list list (set_l_head NULL) ;;
  upd_list list (set_l_tail NULL) ;;
  upd_list list (set_l_size 0) ;;
  ret (fallthrough list).

Definition list_add (list item : Z) : M Z :=
  if list =? NULL then ret ERROR else
  let! node := lnode_init item in
  if node =? NULL then ret ERROR else
  let! l := get_list list in
  (if l_head l =? NULL then
     upd_list list (set_l_head node) ;;
     upd_list list (fun l => set_l_tail (l_head l) l)
   else
     upd_lnode node (set_ln_prev (l_tail l)) ;;
     upd_lnode (l_tail l) (set_ln_next node) ;;
     let! t := get_lnode (l_tail l) in
     upd_list list (set_l_tail (ln_next t))) ;;
  upd_list list (fun l => set_l_size (l_size l + 1) l) ;;
  let! l := get_list list in
  ret (l_size l).

Definition list_pop (list : Z) : M Z :=
  if list =? NULL then ret NULL else
  let! l := get_list list in
  if l_tail l =? NULL then ret NULL else
  let node := l_tail l in
  let! n := get_lnode node in
  upd_list list (set_l_tail (ln_prev n)) ;;
  (if ln_prev n =? NULL then upd_list list (set_l_head NULL) else ret tt) ;;
  upd_list list (fun l => set_l_size (l_size l - 1) l) ;;
  let data := ln_data n in
  lnode_delete node None ;;
  ret data.

Fixpoint list_iter_from (fuel : nat) (node : Z) (iter : Z -> M unit) : M unit :=
  if node =? NULL then ret tt else
  match fuel with
  | O => raise FFuel
  | S fuel' =>
      let! n := get_lnode node in
      iter (ln_data n) ;;
      let! n' := get_lnode node in
      list_iter_from fuel' (ln_next n') iter
  end.

Definition list_iter (fuel : nat) (list : Z) (iter : option (Z -> M unit)) : M unit :=
  match iter with
  | Some f =>
      if list =? NULL then ret tt
      else let! l := get_list list in list_iter_from fuel (l_head l) f
  | None => ret tt
  end.

End list_ops.

(** ** The stack a list represents

    [bchain m t ns xs]: from [t], following [prev], the nodes are [ns] and their
    data [xs].  The [next] pointers play no part: [list_pop] leaves the new
    tail's [next] dangling. *)

Fixpoint bchain (m : gmap Z lnode) (t : Z) (ns xs : list Z) : Prop :=
  match ns, xs with
  | [], [] => t = NULL
  | n :: ns', x :: xs' =>
      t = n /\ n <> NULL /\ exists nx pv, m !! n = Some (mkLnode x nx pv) /\ bchain m pv ns' xs'
  | _, _ => False
  end.

Definition lrep (h : lheap) (l : Z) (ns xs : list Z) : Prop :=
  lists h !! l = Some (mkList (last_or NULL ns) (head_or NULL ns) (Z.of_nat (length xs))) /\
  bchain (lnodes h) (head_or NULL ns) ns xs /\ NoDup ns.

(** The lists of the view [V], top of the stack first, live in [h] with disjoint nodes. *)
Definition lstore : lheap -> gmap Z (list Z) -> Prop := store lrep.

(** Stack operations and their effect on the abstract stack. *)
Inductive lop := LAdd (x : Z) | LPop.

Definition lop_spec (o : lop) (xs : list Z) : Z * list Z :=
  match o with
  | LAdd x => (Z.of_nat (length xs) + 1, x :: xs)
  | LPop => (head_or NULL xs, tail xs)
  end.

Fixpoint lops_spec (os : list lop) (xs : list Z) : list Z * list Z :=
  match os with
  | [] => ([], xs)
  | o :: os' =>
      let '(r, xs1) := lop_spec o xs in
      let '(rs, xs2) := lops_spec os' xs1 in (r :: rs, xs2)
  end.

Definition run_lop `{L : Libc} (l : Z) (o : lop) : M Z :=
  match o with LAdd x => list_add l x | LPop => list_pop l end.

Fixpoint run_lops `{L : Libc} (l : Z) (os : list lop) : M (list Z) :=
  match os with
  | [] => ret []
  | o :: os' => let! r := run_lop l o in let! rs := run_lops l os' in ret (r :: rs)
  end.

(** [fchain m a ns xs e]: from [a], following [next], the nodes are [ns], their
    data [xs], and the last [next] is [e]. *)
Fixpoint fchain (m : gmap Z lnode) (a : Z) (ns xs : list Z) (e : Z) : Prop :=
  match ns, xs with
  | [], [] => a = e
  | n :: ns', x :: xs' =>
      a = n /\ n <> NULL /\ exists nx pv, m !! n = Some (mkLnode x nx pv) /\ fchain m nx ns' xs' e
  | _, _ => False
  end.

(** A list as [list_init] and [list_add] build it: linked in both directions. *)
Definition lfull (h : lheap) (l : Z) (ns xs : list Z) : Prop :=
  lrep h l ns xs /\ fchain (lnodes h) (last_or NULL ns) (rev ns) (rev xs) NULL.

(** What a list implementation promises its clients: a view of each list as a
    stack, which [list_add] pushes on (or leaves alone and returns [ERROR], when
    the heap is exhausted) and [list_pop] pops. *)
Class ListStore (L : Libc) (R : lheap -> gmap Z (list Z) -> Prop) : Prop := {
  ls_add : forall s V l xs x, R (lst s) V -> V !! l = Some xs ->
    returns (list_add l x) s (fun r s' => exists h, s' = set_lst h (set_mtick (S (mtick s)) s) /\
      ((r = Z.of_nat (length xs) + 1 /\ R h (<[l := x :: xs]> V)) \/
       (r = ERROR /\ R h V /\ malloc_choice (mtick s) (live s) = NULL)));
  ls_pop : forall s V l xs, R (lst s) V -> V !! l = Some xs ->
    returns (list_pop l) s (fun r s' => exists h, s' = set_lst h s /\
      r = head_or NULL xs /\ R h (<[l := tail xs]> V));
  ls_size : forall h V l xs, R h V -> V !! l = Some xs ->
    exists k, lists h !! l = Some k /\ l_size k = Z.of_nat (length xs) }.

(** ** Chains of nodes *)

Lemma bchain_length m t ns xs : bchain m t ns xs -> length ns = length xs.
Proof.
  revert t xs. induction ns as [|n ns IH]; intros t [|x xs]; simpl; try done.
  intros (_ & _ & nx & pv & _ & H). f_equal. by eapply IH.
Qed.

Lemma bchain_head m t ns xs : bchain m t ns xs -> t = head_or NULL ns.
Proof. destruct ns, xs; simpl; tauto. Qed.

Lemma bchain_nonnull m t ns xs n : bchain m t ns xs -> n ∈ ns -> n <> NULL.
Proof.
  revert t xs. induction ns as [|k ns IH]; intros t [|x xs]; cbn [bchain]; try done.
  - by intros _ ?%not_elem_of_nil.
  - intros (_ & Hk & nx & pv & _ & H) [->|Hn]%elem_of_cons; [done|]. by eapply IH.
Qed.

Lemma bchain_dom m t ns xs n : bchain m t ns xs -> n ∈ ns -> n ∈ dom m.
Proof.
  revert t xs. induction ns as [|k ns IH]; intros t [|x xs]; cbn [bchain]; try done.
  - by intros _ ?%not_elem_of_nil.
  - intros (_ & Hk & nx & pv & E & H) [->|Hn]%elem_of_cons; [by apply elem_of_dom|].
    by eapply IH.
Qed.

(** A chain survives any change of [next] pointers and of nodes outside it. *)
Lemma bchain_frame m m' t ns xs :
  bchain m t ns xs ->
  (forall n x nx pv, n ∈ ns -> m !! n = Some (mkLnode x nx pv) ->
    exists nx', m' !! n = Some (mkLnode x nx' pv)) ->
  bchain m' t ns xs.
Proof.
  revert t xs. induction ns as [|n ns IH]; intros t [|x xs]; simpl; try done.
  intros (-> & Hn & nx & pv & E & H) Hf. do 2 (split; [done|]).
  destruct (Hf n x nx pv) as [nx' E']; [set_solver | done |].
  exists nx', pv. split; [done|]. eapply IH; [done|]. intros. eapply Hf; [set_solver | done].
Qed.

Lemma bchain_insert m t ns xs a y :
  bchain m t ns xs -> a ∉ ns -> bchain (<[a := y]> m) t ns xs.
Proof.
  intros H Ha. eapply bchain_frame; [done|]. intros n x nx pv Hn E. exists nx.
  rewrite lookup_insert_ne; [done|]. by intros ->.
Qed.

Lemma bchain_set_next m t ns xs a nx :
  bchain m t ns xs -> forall y, m !! a = Some y -> bchain (<[a := set_ln_next nx y]> m) t ns xs.
Proof.
  intros H y Ey. eapply bchain_frame; [done|]. intros n x nx' pv Hn E.
  destruct (decide (a = n)) as [->|].
  - rewrite lookup_insert_eq. simplify_eq. by eexists.
  - rewrite lookup_insert_ne; eauto.
Qed.

Lemma bchain_delete m t ns xs a : bchain m t ns xs -> a ∉ ns -> bchain (delete a m) t ns xs.
Proof.
  intros H Ha. eapply bchain_frame; [done|]. intros n x nx pv Hn E. exists nx.
  rewrite lookup_delete_ne; [done|]. by intros ->.
Qed.

Lemma last_or_null ns : (forall n, n ∈ ns -> n <> NULL) -> last_or NULL ns = NULL <-> ns = [].
Proof.
  intros H. split; [|by intros ->]. intros E. destruct ns as [|n ns]; [done|].
  destruct (H (last_or NULL (n :: ns))); [by apply last_or_elem | done].
Qed.

Lemma last_or_tail n ns d : ns <> [] -> last_or d (n :: ns) = last_or d ns.
Proof. destruct ns; [done|]. intros _. by rewrite !last_or_cons. Qed.

(** A fresh block is in no footprint. *)
Lemma fresh_not_in s (F V : gmap Z (list Z)) a l xs ns n :
  store_of lrep F (lst s) V -> a ∉ live s -> V !! l = Some xs -> F !! l = Some ns ->
  n ∈ ns -> a <> n.
Proof.
  intros (_ & _ & H) Ha Hl HF Hin ->. destruct (H _ _ Hl) as (_ & ns' & HF' & _ & Hc & _).
  simplify_eq. apply Ha. unfold live.
  pose proof (bchain_dom _ _ _ _ _ Hc Hin). rewrite !elem_of_union. tauto.
Qed.

(** ** The operations on the representation *)

Section ops.
Context `{L : Libc} {LL : LibcLaws L}.

Lemma lrep_cons_next h l n ns xs : lrep h l (n :: ns) xs ->
  exists x xs' nx pv, xs = x :: xs' /\ n <> NULL /\ lnodes h !! n = Some (mkLnode x nx pv) /\
    bchain (lnodes h) pv ns xs' /\ (n ∉ ns) /\ NoDup ns /\
    lists h !! l = Some (mkList (last_or n ns) n (Z.of_nat (length xs') + 1)).
Proof.
  intros (El & Hc & Hnd). destruct xs as [|x xs]; [done|].
  destruct Hc as (_ & Hn & nx & pv & E & Hc). apply NoDup_cons in Hnd as [? ?].
  exists x, xs, nx, pv. do 6 (split; [done|]). rewrite El. f_equal.
  rewrite last_or_cons. f_equal. cbn [length]. lia.
Qed.

(** The heap after a node [a] holding [x] has been pushed. *)
Lemma lrep_push h h' l ns xs a x nx :
  lrep h l ns xs -> a <> NULL -> a ∉ ns ->
  lnodes h' !! a = Some (mkLnode x nx (head_or NULL ns)) ->
  (forall n y ny pv, n ∈ ns -> lnodes h !! n = Some (mkLnode y ny pv) ->
    exists ny', lnodes h' !! n = Some (mkLnode y ny' pv)) ->
  lists h' !! l = Some (mkList (last_or a ns) a (Z.of_nat (length xs) + 1)) ->
  lrep h' l (a :: ns) (x :: xs).
Proof.
  intros (El & Hc & Hnd) Ha Hin Ea Hf El'. split; [|split].
  - rewrite El'. rewrite last_or_cons. cbn [length head_or List.hd]. do 2 f_equal. lia.
  - cbn [bchain head_or List.hd]. do 2 (split; [done|]). eexists _, _. split; [exact Ea|].
    by eapply bchain_frame.
  - by constructor.
Qed.

Lemma list_add_spec s l ns xs x :
  l <> NULL -> lrep (lst s) l ns xs ->
  returns (list_add l x) s (fun r s' => exists h, s' = set_lst h (set_mtick (S (mtick s)) s) /\
    ((r = ERROR /\ h = lst s /\ malloc_choice (mtick s) (live s) = NULL) \/
     exists a, a = malloc_choice (mtick s) (live s) /\ a <> NULL /\ (a ∉ live s) /\
       r = Z.of_nat (length xs) + 1 /\ lrep h l (a :: ns) (x :: xs) /\
       (forall m, m <> l -> lists h !! m = lists (lst s) !! m) /\
       (forall n, n ∉ a :: ns -> lnodes h !! n = lnodes (lst s) !! n))).
Proof.
  intros Hl Hrep. unfold list_add, upd_list, upd_lnode, get_list, get_lnode. destruct (Z.eqb_spec l NULL); [done|].
  rstep. unfold lnode_init, malloc, returns at 1. cbn [oret].
  destruct (malloc_fresh (mtick s) (live s)) as [E|[Hpos Hfresh]].
  - rewrite E. cbn [Z.eqb NULL]. rstep. exists (lst s). split; [|by left]. by destruct s.
  - remember (malloc_choice (mtick s) (live s)) as a eqn:Hma.
    assert (Ha : a <> NULL) by (unfold NULL; lia).
    destruct (Z.eqb_spec a NULL); [done|].
    assert (Hans : a ∉ ns).
    { intros Hin. apply Hfresh. destruct Hrep as (_ & Hc & _).
      pose proof (bchain_dom _ _ _ _ _ Hc Hin). unfold live. rewrite !elem_of_union. tauto. }
    destruct ns as [|t ns].
    + pose proof Hrep as (El & Hc & Hnd). destruct xs; [|done]. rsteps. cbn [l_head]. change (last_or NULL [] =? NULL) with true. cbv iota.
      rsteps. eexists. split; [reflexivity|]. right. exists a. do 4 (split; [done|]). split; [|split].
      * eapply lrep_push; [done..| | |]; cbn; [lk | set_solver | lk].
      * intros m Hm. lk.
      * intros m [? _]%not_elem_of_cons. lk.
    + destruct (lrep_cons_next _ _ _ _ _ Hrep) as (x0 & xs' & nx & pv & -> & Ht & Et & Hc & Htn & Hnd & El).
      rsteps. cbn [l_head]. destruct (Z.eqb_spec (last_or t ns) NULL) as [E|E].
      { destruct Hrep as (_ & Hc' & _). rewrite <- (last_or_cons NULL) in E.
        apply last_or_null in E; [done|]. intros m. by eapply bchain_nonnull. }
      assert (a <> t) by (intros ->; apply Hans; set_solver).
      rsteps. eexists. split; [reflexivity|]. right. exists a. do 3 (split; [done|]).
      split; [cbn; lia|]. split; [|split].
      * eapply lrep_push; [done..| | |]; cbn -[Z.of_nat length].
        -- lk.
        -- intros m y ny pv' Hm Em. destruct (decide (m = t)) as [->|].
           ++ rewrite lookup_insert_eq. simplify_eq. by eexists.
           ++ exists ny. rewrite !lookup_insert_ne; [done|congruence..].
        -- rewrite lookup_insert_eq, last_or_cons. unfold set_l_size, set_l_tail.
           cbn -[Z.of_nat]. do 2 f_equal. cbn [length]. lia.
      * intros m Hm. lk.
      * intros m [? [? _]%not_elem_of_cons]%not_elem_of_cons. lk.
Qed.

Lemma list_pop_spec s l ns xs :
  l <> NULL -> lrep (lst s) l ns xs ->
  returns (list_pop l) s (fun r s' => exists h, s' = set_lst h s /\
    r = head_or NULL xs /\ lrep h l (tail ns) (tail xs) /\
    (forall m, m <> l -> lists h !! m = lists (lst s) !! m) /\
    (forall n, n ∉ ns -> lnodes h !! n = lnodes (lst s) !! n) /\
    (forall n, n ∈ tail ns -> lnodes h !! n = lnodes (lst s) !! n) /\
    (ns <> [] -> lnodes h !! head_or NULL ns = None)).
Proof.
  intros Hl Hrep. unfold list_pop, upd_list, get_list, get_lnode.
  destruct (Z.eqb_spec l NULL); [done|].
  destruct ns as [|t ns].
  - pose proof Hrep as (El & Hc & Hnd). destruct xs; [|done]. rsteps.
    cbn [l_tail head_or List.hd Z.eqb NULL]. rsteps. exists (lst s).
    split; [by destruct s|]. split; [done|].
    split; [exact Hrep|]. by do 3 (split; [auto|]).
  - destruct (lrep_cons_next _ _ _ _ _ Hrep) as (x0 & xs' & nx & pv & -> & Ht & Et & Hc & Htn & Hnd & El).
    rsteps. cbn [l_tail]. destruct (Z.eqb_spec t NULL); [done|]. rsteps. cbn [ln_prev].
    assert (Hpv : pv = head_or NULL ns) by (by eapply bchain_head).
    assert (Hdel : bchain (delete t (lnodes (lst s))) (head_or NULL ns) ns xs').
    { rewrite <- Hpv. by apply bchain_delete. }
    assert (Hrest : forall n, n ∈ ns -> delete t (lnodes (lst s)) !! n = lnodes (lst s) !! n).
    { intros m Hm. apply lookup_delete_ne. by intros ->. }
    assert (Hother : forall n, n ∉ t :: ns -> delete t (lnodes (lst s)) !! n = lnodes (lst s) !! n).
    { intros m [? _]%not_elem_of_cons. by apply lookup_delete_ne. }
    unfold lnode_delete, free_lnode, get_lnode. destruct (Z.eqb_spec t NULL); [done|].
    destruct (Z.eqb_spec pv NULL) as [E|E].
    + assert (ns = []) as ->.
      { destruct ns as [|k ns]; [done|]. destruct (bchain_nonnull _ _ _ _ k Hc); [set_solver|].
        by rewrite Hpv in E. }
      destruct xs'; [|done]. rsteps. eexists. split; [reflexivity|]. split; [done|].
      split; [|split; [|split; [done|split; [done|]]]].
      * split; [|by split]. cbn -[Z.of_nat]. rewrite lookup_insert_eq. rewrite E. done.
      * intros m Hm. lk.
      * intros _. cbn. apply lookup_delete_eq.
    + rsteps. eexists. split; [reflexivity|]. split; [done|].
      split; [|split; [|split; [done|split; [done|]]]].
      * split; [|by split]. cbn -[Z.of_nat]. rewrite lookup_insert_eq. rewrite Hpv.
        unfold set_l_size, set_l_tail. cbn -[Z.of_nat]. f_equal. f_equal; [|lia].
        destruct ns; [by destruct E|]. by rewrite !last_or_cons.
      * intros m Hm. lk.
      * intros _. cbn. apply lookup_delete_eq.
Qed.

End ops.

(** ** The store of lists *)

(** Other lists keep their representation when only the footprint of [l] changes. *)
Lemma lrep_other h h' l ns xs :
  lists h' !! l = lists h !! l ->
  (forall n, n ∈ ns -> lnodes h' !! n = lnodes h !! n) -> lrep h l ns xs -> lrep h' l ns xs.
Proof.
  intros Hl Hn (El & Hc & Hnd). split; [by rewrite Hl|]. split; [|done].
  eapply bchain_frame; [done|]. intros n x nx pv Hin E. exists nx. by rewrite Hn.
Qed.

#[export] Instance lstore_ListStore (L : Libc) (LL : LibcLaws L) : ListStore L lstore.
Proof.
  split.
  - intros s V l xs x (F & HS) Hl. pose proof HS as (HF & Hd & H).
    destruct (H _ _ Hl) as (Hnn & ns & HFl & Hrep).
    eapply returns_mono; [by apply list_add_spec|]. cbv beta.
    intros r s' (h & -> & [(-> & -> & E)|(a & _ & Ha & Hfr & -> & Hrep' & Hls & Hns)]).
    + exists (lst s). split; [done|]. right. split; [done|]. split; [by exists F|done].
    + exists h. split; [done|]. left. split; [done|]. eapply store_update; [done..| |].
      * intros m ys ms Hm Hys Hms Hn. apply lrep_other; [by apply Hls|]. intros n Hin.
        apply Hns, not_elem_of_cons. destruct (Hn n Hin). split; [|done].
        intros ->. by eapply fresh_not_in.
      * intros m ys ms n Hm HFm [->|?]%elem_of_cons Hn Hin; [|done]. by eapply fresh_not_in.
  - intros s V l xs (F & HS) Hl. pose proof HS as (HF & Hd & H).
    destruct (H _ _ Hl) as (Hnn & ns & HFl & Hrep).
    eapply returns_mono; [by apply list_pop_spec|]. cbv beta.
    intros r s' (h & -> & -> & Hrep' & Hls & Hns & _ & _). exists h. do 2 (split; [done|]).
    assert (forall n, n ∈ tail ns -> n ∈ ns) by (destruct ns; [done|]; by right).
    eapply store_update; [done..| |].
    + intros m ys ms Hm Hys Hms Hn. apply lrep_other; [by apply Hls|]. intros n Hin.
      apply Hns. by destruct (Hn n Hin).
    + intros m ys ms n _ _ Hn Hn'. destruct Hn'. auto.
  - intros h V l xs HR Hl. destruct (store_lookup _ _ _ _ _ HR Hl) as (_ & ns & El & _).
    eexists. by split.
Qed.

(** ** The operations as a stack *)

Section stack.
Context `{L : Libc} {LL : LibcLaws L}.

(** C19: while the heap lasts, any sequence of [list_add] and [list_pop] on a list
    returns what the same operations on a stack return, leaves the list holding
    that stack, changes no other list and nothing but the list heap and the
    allocator. *)
Theorem list_ops_refine_stack s V l xs os :
  MallocTotal L -> lstore (lst s) V -> V !! l = Some xs ->
  returns (run_lops l os) s (fun rs s' =>
    exists h n ys, s' = set_lst h (set_mtick n s) /\ lops_spec os xs = (rs, ys) /\
      lstore h (<[l := ys]> V)).
Proof.
  intros MT. revert s V xs. induction os as [|o os IH]; intros s V xs HV Hl.
  - cbn [run_lops]. rstep. exists (lst s), (mtick s), xs. split; [by destruct s|]. split; [done|].
    by rewrite insert_id.
  - cbn [run_lops lops_spec]. rstep.
    apply returns_mono with (P := fun r s' => exists h n, s' = set_lst h (set_mtick n s) /\
      r = (lop_spec o xs).1 /\ lstore h (<[l := (lop_spec o xs).2]> V)).
    + destruct o as [x|]; cbn [run_lop lop_spec fst snd].
      * eapply returns_mono; [by eapply (ls_add (R := lstore))|]. cbv beta.
        intros r s' (h & -> & [[-> ?]|(_ & _ & E)]); [by eexists _, _|]. by destruct (MT _ _ E).
      * eapply returns_mono; [by eapply (ls_pop (R := lstore))|]. cbv beta.
        intros r s' (h & -> & -> & ?). exists h, (mtick s). by destruct s.
    + intros r s1 (h & n & -> & -> & HV1). rstep.
      eapply returns_mono; [eapply (IH _ (<[l := (lop_spec o xs).2]> V)); [done|lk]|]. cbv beta.
      intros rs s' (h' & n' & ys & -> & E & HV'). rstep.
      exists h', n', ys. split; [done|]. destruct (lop_spec o xs) as [r1 xs1]; cbn [fst snd] in *.
      rewrite E. split; [done|]. by rewrite insert_insert_eq in HV'.
Qed.

(** A visitor that leaves the list heap alone. *)
Definition visits (f : Z -> M unit) : Prop :=
  forall x s, exists s', f x s = Ret tt s' /\ lst s' = lst s.

Lemma list_iter_from_chain f : visits f -> forall ns xs fuel a e s,
  fchain (lnodes (lst s)) a ns xs e -> exists s', lst s' = lst s /\
    list_iter_from (length ns + fuel) a f s = list_iter_from fuel e f s'.
Proof.
  intros Hf. induction ns as [|n ns IH]; intros [|x xs] fuel a e s; cbn [fchain]; try done.
  - intros ->. by exists s.
  - intros (-> & Hn & nx & pv & E & Hc).
    destruct (Hf x s) as (s1 & E1 & Hs1).
    destruct (IH xs fuel nx e s1) as (s2 & Hs2 & E2); [by rewrite Hs1|].
    exists s2. split; [congruence|]. rewrite <- E2. cbn [length plus list_iter_from].
    destruct (Z.eqb_spec n NULL); [done|].
    unfold bind, get_lnode, deref. rewrite E. cbn [obind ln_data]. rewrite E1. cbn [obind].
    rewrite Hs1, E. done.
Qed.

Lemma fchain_app m a ns1 ns2 xs1 xs2 e : length ns1 = length xs1 ->
  fchain m a (ns1 ++ ns2) (xs1 ++ xs2) e <->
  exists b, fchain m a ns1 xs1 b /\ fchain m b ns2 xs2 e.
Proof.
  revert a xs1. induction ns1 as [|n ns1 IH]; intros a [|x xs1] Hlen; try done.
  - cbn. split; [by exists a|]. by intros (b & -> & ?).
  - injection Hlen as Hlen. cbn [app fchain]. split.
    + intros (-> & Hn & nx & pv & E & H). apply IH in H as (b & ? & ?); [|done].
      exists b. split; [|done]. do 2 (split; [done|]). by eexists _, _.
    + intros (b & (-> & Hn & nx & pv & E & H) & H2). do 2 (split; [done|]). eexists _, _.
      split; [done|]. apply IH; [done|]. by exists b.
Qed.

Lemma fchain_frame m m' a ns xs e :
  fchain m a ns xs e -> (forall n, n ∈ ns -> m' !! n = m !! n) -> fchain m' a ns xs e.
Proof.
  revert a xs. induction ns as [|n ns IH]; intros a [|x xs]; cbn [fchain]; try done.
  intros (-> & Hn & nx & pv & E & H) Hf. do 2 (split; [done|]). eexists _, _.
  split; [rewrite Hf; [done | by left]|]. apply IH; [done|]. intros. apply Hf. by right.
Qed.

(** [list_pop] leaves the [next] of the new tail pointing at the freed node:
    after a pop from a list of two or more items built by [list_add], iterating
    over the list visits every remaining item and then dereferences the freed
    node, whatever (list-preserving) function it applies. *)
Theorem list_iter_after_pop_dangling s l ns xs f fuel :
  l <> NULL -> lfull (lst s) l ns xs -> (2 <= length xs)%nat -> visits f ->
  (length xs <= fuel)%nat ->
  (list_pop l ;; list_iter fuel l (Some f)) s = Fault FBadPtr.
Proof.
  intros Hl [Hrep Hf] Hlen Hv Hfuel.
  destruct ns as [|t [|t2 ns]]; destruct xs as [|x [|x2 xs]]; cbn [length] in *; try lia;
    try (by destruct Hrep as (_ & Hc & _); apply bchain_length in Hc).
  pose proof (list_pop_spec s l _ _ Hl Hrep) as Hpop.
  apply returns_eq in Hpop as (r & s' & E & h & -> & _ & Hrep' & _ & _ & Hsame & Hdel).
  unfold bind. rewrite E. cbn [obind]. clear E. specialize (Hdel ltac:(done)). cbn [tail head_or List.hd] in *.
  change (rev (t :: t2 :: ns)) with (rev (t2 :: ns) ++ [t]) in Hf.
  change (rev (x :: x2 :: xs)) with (rev (x2 :: xs) ++ [x]) in Hf.
  assert (Hlr : length (rev (t2 :: ns)) = length (rev (x2 :: xs))).
  { rewrite !length_rev. destruct Hrep' as (_ & Hc & _). by eapply bchain_length. }
  apply fchain_app in Hf as (b & Hf & -> & Ht & _); [|done].
  eapply (fchain_frame _ (lnodes h)) in Hf; [|intros n Hn; apply Hsame; by apply elem_of_rev].
  destruct Hrep' as (El & _ & _). rewrite !last_or_cons in Hf. rewrite last_or_cons in El.
  destruct (list_iter_from_chain f Hv (rev (t2 :: ns)) (rev (x2 :: xs))
    (fuel - length (x2 :: xs)) _ _ (set_lst h s) Hf) as (s2 & Hs2 & E).
  unfold list_iter. destruct (Z.eqb_spec l NULL); [done|].
  unfold bind, get_list, deref. cbn [lst set_lst]. rewrite El. cbn [obind l_head].
  rewrite Hlr, length_rev in E. replace (length (x2 :: xs) + (fuel - length (x2 :: xs)))%nat with fuel in E
    by (cbn [length]; lia).
  rewrite E. destruct (fuel - length (x2 :: xs))%nat eqn:Efuel; [cbn [length] in Efuel; lia|].
  cbn [list_iter_from]. destruct (Z.eqb_spec t NULL); [done|].
  unfold bind, get_lnode, deref. rewrite Hs2. cbn [lst set_lst]. rewrite Hdel.
  cbn [obind]. by destruct (Z.eqb_spec t NULL).
Qed.

End stack.

(** ** Witnesses *)

Definition ex_lists : lheap :=
  mkLheap {[ 1 := mkList 2 3 2 ]} {[ 2 := mkLnode 70 3 NULL; 3 := mkLnode 71 NULL 2 ]}.

Lemma ex_lists_lrep : lfull ex_lists 1 [3; 2] [71; 70].
Proof.
  split; [split; [done|split]|].
  - cbn. by repeat (do 2 (split; [done|]); eexists _, _; split; [reflexivity|]).
  - by apply (bool_decide_unpack _).
  - cbn. by repeat (do 2 (split; [done|]); eexists _, _; split; [reflexivity|]).
Qed.

Lemma ex_lists_lstore : lstore ex_lists {[ 1 := [71; 70] ]}.
Proof.
  exists {[ 1 := [3; 2] ]}. split; [|split].
  - intros a b na nb n Hab [<- <-]%lookup_singleton_Some [<- <-]%lookup_singleton_Some. done.
  - by rewrite !dom_singleton_L.
  - intros a x [<- <-]%lookup_singleton_Some. split; [done|]. exists [3; 2].
    split; [apply lookup_singleton_eq|]. apply ex_lists_lrep.
Qed.

Lemma list_ops_refine_stack_witness :
  returns (run_lops (L := bump_libc) 1 [LPop; LAdd 5; LAdd 6; LPop]) (set_lst ex_lists init_state)
    (fun rs s' => exists h n ys, s' = set_lst h (set_mtick n (set_lst ex_lists init_state)) /\
      lops_spec [LPop; LAdd 5; LAdd 6; LPop] [71; 70] = (rs, ys) /\
      lstore h (<[1 := ys]> {[ 1 := [71; 70] ]})).
Proof.
  apply (@list_ops_refine_stack bump_libc bump_libc_laws).
  - exact bump_libc_total.
  - exact ex_lists_lstore.
  - reflexivity.
Defined.

Lemma list_iter_after_pop_dangling_witness :
  (list_pop 1 ;; list_iter 5 1 (Some (fun _ => ret tt))) (set_lst ex_lists init_state) = Fault FBadPtr.
Proof.
  apply (list_iter_after_pop_dangling (L := bump_libc) _ _ [3; 2] [71; 70]).
  - done.
  - exact ex_lists_lrep.
  - cbn. lia.
  - intros x s. by exists s.
  - cbn. lia.
Defined.
