(* ===== verification/KQueue.v ===== *)
(** * Process queues ([queue.h], [queue.c])

    The singly linked queues of process control blocks, at the level of nodes
    and pointers; the first-in first-out queue they implement ([qstore]); and the
    interface [QueueStore] the scheduler and the system calls rely on. *)

From Stdlib Require Import ZArith Lia.
From stdpp Require Import base gmap list.
From S2P Require Import Prelude Hardware State Store Logic.

Open Scope Z_scope.

(** ** The operations *)

Definition get_queue (q : Z) : M queue := deref (fun s => queues (qst s)) q.
Definition upd_queue (q : Z) (f : queue -> queue) : M unit :=
  let! x := get_queue q in modify (put_queue q (f x)).
Definition get_qnode (n : Z) : M qnode := deref (fun s => qnodes (qst s)) n.
Definition upd_qnode (n : Z) (f : qnode -> qnode) : M unit :=
  let! x := get_qnode n in modify (put_qnode n (f x)).
Definition free_qnode (n : Z) : M unit :=
  get_qnode n ;; modify (fun s => set_qst (set_qnodes (delete n (qnodes (qst s))) (qst s)) s).

(** [q->size] read by the callers. *)
Definition size_of (q : Z) : M Z := let! x := get_queue q in ret (q_size x).

Section queue_ops.
Context `{L : Libc}.

Definition queue_init : M Z := malloc put_queue (mkQueue 0 0 NULL NULL).

Definition qnode_init (id data : Z) : M Z :=
  if data =? NULL then ret NULL else malloc put_qnode (mkQnode id data NULL).

Definition qnode_delete (node : Z) (dataDelete : option (Z -> M unit)) : M unit :=
  if node =? NULL then ret tt
  else match dataDelete with
       | Some f => let! n := get_qnode node in f (qn_data n) ;; free_qnode node
       | None => free_qnode node
       end.

Definition queue_add (queue data id : Z) : M Z :=
  if (queue =? NULL) || (data =? NULL) then ret ERROR else
  let! node := qnode_init id data in
  if node =? NULL then ret ERROR else
  let! q := get_queue queue in
  (if q_head q =? NULL then
     upd_queue queue (set_q_head node) ;;
     upd_queue queue (set_q_tail node)
   else
     upd_qnode (q_tail q) (set_qn_next node) ;;
     let! t := get_qnode (q_tail q) in
     upd_queue queue (set_q_tail (qn_next t))) ;;
  upd_queue queue (fun q => set_q_size (q_size q + 1) q) ;;
  ret 0.

Definition queue_pop (queue : Z) : M Z :=
  if queue =? NULL then ret NULL else
  let! q := get_queue queue in
  if q_head q =? NULL then ret NULL else
  let node := q_head q in
  let! n := get_qnode node in
  upd_queue queue (set_q_head (qn_next n)) ;;
  (if qn_next n =? NULL then upd_queue queue (set_q_tail NULL) else ret tt) ;;
  upd_queue queue (fun q => set_q_size (q_size q - 1) q) ;;
  let data := qn_data n in
  qnode_delete node None ;;
  ret data.

Definition queue_peek (queue : Z) : M Z :=
  if queue =? NULL then ret NULL else
  let! q := get_queue queue in
  if q_size q =? 0 then ret NULL else
  let! n := get_qnode (q_head q) in
  ret (qn_data n).

Definition queue_size (queue : Z) : M Z :=
  if queue =? NULL then ret ERROR else size_of queue.

End queue_ops.

(** ** The FIFO queue a queue represents

    [qseg m a ns xs e]: from [a], following [next], the nodes are [ns], their
    (id, data) pairs [xs], and the last [next] is [e]. *)

Fixpoint qseg (m : gmap Z qnode) (a : Z) (ns : list Z) (xs : list (Z * Z)) (e : Z) : Prop :=
  match ns, xs with
  | [], [] => a = e
  | n :: ns', x :: xs' =>
      a = n /\ n <> NULL /\ x.2 <> NULL /\
      exists nx, m !! n = Some (mkQnode x.1 x.2 nx) /\ qseg m nx ns' xs' e
  | _, _ => False
  end.

Definition qrep (h : qheap) (q : Z) (ns : list Z) (xs : list (Z * Z)) : Prop :=
  (exists i, queues h !! q =
    Some (mkQueue i (Z.of_nat (length xs)) (head_or NULL ns) (last_or NULL ns))) /\
  qseg (qnodes h) (head_or NULL ns) ns xs NULL /\ NoDup ns.

(** The queues of the view [V], front first, live in [h] with disjoint nodes. *)
Definition qstore : qheap -> gmap Z (list (Z * Z)) -> Prop := store qrep.

(** The PCB a pop or a peek returns. *)
Definition front (xs : list (Z * Z)) : Z := head_or NULL (map snd xs).

(** What a queue implementation promises its clients. *)
Class QueueStore (L : Libc) (R : qheap -> gmap Z (list (Z * Z)) -> Prop) : Prop := {
  qs_add : forall s V q xs d i, R (qst s) V -> V !! q = Some xs -> d <> NULL ->
    returns (queue_add q d i) s (fun r s' =>
      exists h, s' = set_qst h (set_mtick (S (mtick s)) s) /\
      ((r = 0 /\ R h (<[q := xs ++ [(i, d)]]> V)) \/
       (r = ERROR /\ R h V /\ malloc_choice (mtick s) (live s) = NULL)));
  qs_pop : forall s V q xs, R (qst s) V -> V !! q = Some xs ->
    returns (queue_pop q) s (fun r s' => exists h, s' = set_qst h s /\
      r = front xs /\ R h (<[q := tail xs]> V));
  qs_peek : forall s V q xs, R (qst s) V -> V !! q = Some xs ->
    returns (queue_peek q) s (fun r s' => s' = s /\ r = front xs);
  qs_size : forall h V q xs, R h V -> V !! q = Some xs ->
    exists k, queues h !! q = Some k /\ q_size k = Z.of_nat (length xs);
  qs_nonnull : forall h V q xs, R h V -> V !! q = Some xs ->
    q <> NULL /\ Forall (fun x => x.2 <> NULL) xs }.

(** Queue operations and their effect on the abstract queue. *)
Inductive qop := QAdd (data id : Z) | QPop | QPeek | QSize.

Definition qop_spec (o : qop) (xs : list (Z * Z)) : Z * list (Z * Z) :=
  match o with
  | QAdd d i => if d =? NULL then (ERROR, xs) else (0, xs ++ [(i, d)])
  | QPop => (front xs, tail xs)
  | QPeek => (front xs, xs)
  | QSize => (Z.of_nat (length xs), xs)
  end.

Fixpoint qops_spec (os : list qop) (xs : list (Z * Z)) : list Z * list (Z * Z) :=
  match os with
  | [] => ([], xs)
  | o :: os' =>
      let '(r, xs1) := qop_spec o xs in
      let '(rs, xs2) := qops_spec os' xs1 in (r :: rs, xs2)
  end.

Definition run_qop `{L : Libc} (q : Z) (o : qop) : M Z :=
  match o with
  | QAdd d i => queue_add q d i
  | QPop => queue_pop q
  | QPeek => queue_peek q
  | QSize => queue_size q
  end.

Fixpoint run_qops `{L : Libc} (q : Z) (os : list qop) : M (list Z) :=
  match os with
  | [] => ret []
  | o :: os' => let! r := run_qop q o in let! rs := run_qops q os' in ret (r :: rs)
  end.

(** ** Segments *)

Lemma qseg_length m a ns xs e : qseg m a ns xs e -> length ns = length xs.
Proof.
  revert a xs. induction ns as [|n ns IH]; intros a [|x xs]; simpl; try done.
  intros (_ & _ & _ & nx & _ & H). f_equal. by eapply IH.
Qed.

Lemma qseg_dom m a ns xs e n : qseg m a ns xs e -> n ∈ ns -> n ∈ dom m.
Proof.
  revert a xs. induction ns as [|k ns IH]; intros a [|x xs]; cbn [qseg]; try done.
  - by intros _ ?%not_elem_of_nil.
  - intros (_ & Hk & _ & nx & E & H) [->|Hn]%elem_of_cons; [by apply elem_of_dom|]. by eapply IH.
Qed.

Lemma qseg_nonnull m a ns xs e : qseg m a ns xs e ->
  Forall (fun n => n <> NULL) ns /\ Forall (fun x => x.2 <> NULL) xs.
Proof.
  revert a xs. induction ns as [|k ns IH]; intros a [|x xs]; cbn [qseg]; try done.
  intros (_ & Hk & Hx & nx & E & H). destruct (IH _ _ H). by split; constructor.
Qed.

Lemma qseg_frame m m' a ns xs e :
  qseg m a ns xs e -> (forall n, n ∈ ns -> m' !! n = m !! n) -> qseg m' a ns xs e.
Proof.
  revert a xs. induction ns as [|n ns IH]; intros a [|x xs]; cbn [qseg]; try done.
  intros (-> & Hn & Hx & nx & E & H) Hf. do 3 (split; [done|]). exists nx.
  split; [rewrite Hf; [done | by left]|]. apply IH; [done|]. intros. apply Hf. by right.
Qed.

Lemma qseg_app m a ns1 ns2 xs1 xs2 e : length ns1 = length xs1 ->
  qseg m a (ns1 ++ ns2) (xs1 ++ xs2) e <-> exists b, qseg m a ns1 xs1 b /\ qseg m b ns2 xs2 e.
Proof.
  revert a xs1. induction ns1 as [|n ns1 IH]; intros a [|x xs1] Hlen; try done.
  - cbn. split; [by exists a|]. by intros (b & -> & ?).
  - injection Hlen as Hlen. cbn [app qseg]. split.
    + intros (-> & Hn & Hx & nx & E & H). apply IH in H as (b & ? & ?); [|done].
      exists b. split; [|done]. do 3 (split; [done|]). by exists nx.
    + intros (b & (-> & Hn & Hx & nx & E & H) & H2). do 3 (split; [done|]). exists nx.
      split; [done|]. apply IH; [done|]. by exists b.
Qed.

(** Linking a new last node [a] behind the old last node [t]. *)
Lemma qseg_snoc m b ns t xs x a y :
  qseg m b (ns ++ [t]) (xs ++ [x]) NULL -> a ∉ ns ++ [t] -> a <> NULL -> y.2 <> NULL ->
  NoDup (ns ++ [t]) ->
  qseg (<[t := mkQnode x.1 x.2 a]> (<[a := mkQnode y.1 y.2 NULL]> m)) b
    ((ns ++ [t]) ++ [a]) ((xs ++ [x]) ++ [y]) NULL.
Proof.
  intros H Ha Hnn Hy Hnd.
  assert (Hlen : length ns = length xs).
  { apply qseg_length in H. rewrite !length_app in H. cbn in H. lia. }
  apply NoDup_app in Hnd as (_ & Hnt & _).
  assert (Hat : a <> t) by (intros ->; apply Ha; set_solver).
  assert (Hans : a ∉ ns) by (intros ?; apply Ha; set_solver).
  apply qseg_app in H as (c & H1 & H2); [|done]. cbn [qseg] in H2.
  destruct H2 as (-> & Ht & Hx & nx & E & _).
  apply qseg_app; [rewrite !length_app; cbn; lia|]. exists a. split.
  - apply qseg_app; [done|]. exists t. split.
    + eapply qseg_frame; [done|]. intros n Hn.
      rewrite !lookup_insert_ne; [done| |].
      * by intros ->.
      * intros ->. apply (Hnt _ Hn). by left.
    + cbn [qseg]. do 3 (split; [done|]). exists a. split; [apply lookup_insert_eq|done].
  - cbn [qseg]. do 3 (split; [done|]). exists NULL. split; [|done].
    rewrite lookup_insert_ne by congruence. apply lookup_insert_eq.
Qed.

(** A fresh block is in no footprint. *)
Lemma fresh_not_in_q s F V a q xs ns n :
  store_of qrep F (qst s) V -> a ∉ live s -> V !! q = Some xs -> F !! q = Some ns ->
  n ∈ ns -> a <> n.
Proof.
  intros (_ & _ & H) Ha Hl HF Hin ->. destruct (H _ _ Hl) as (_ & ns' & HF' & _ & Hc & _).
  simplify_eq. apply Ha. unfold live.
  pose proof (qseg_dom _ _ _ _ _ _ Hc Hin). rewrite !elem_of_union. tauto.
Qed.

(** ** The operations on the representation *)

Section ops.
Context `{L : Libc} {LL : LibcLaws L}.

Lemma queue_add_spec s q ns xs d i :
  q <> NULL -> d <> NULL -> qrep (qst s) q ns xs ->
  returns (queue_add q d i) s (fun r s' => exists h, s' = set_qst h (set_mtick (S (mtick s)) s) /\
    ((r = ERROR /\ h = qst s /\ malloc_choice (mtick s) (live s) = NULL) \/
     exists a, a <> NULL /\ (a ∉ live s) /\ r = 0 /\ qrep h q (ns ++ [a]) (xs ++ [(i, d)]) /\
       (forall m, m <> q -> queues h !! m = queues (qst s) !! m) /\
       (forall n, n ∉ ns ++ [a] -> qnodes h !! n = qnodes (qst s) !! n))).
Proof.
  intros Hq Hd Hrep. unfold queue_add, upd_queue, upd_qnode, get_queue, get_qnode, qnode_init.
  destruct (Z.eqb_spec q NULL); [done|]. destruct (Z.eqb_spec d NULL); [done|]. cbn [orb].
  rstep. unfold malloc, returns at 1. cbn [oret].
  destruct (malloc_fresh (mtick s) (live s)) as [E|[Hpos Hfresh]].
  - rewrite E. cbn [Z.eqb NULL]. rstep. exists (qst s). split; [by destruct s|]. by left.
  - remember (malloc_choice (mtick s) (live s)) as a eqn:Hma.
    assert (Ha : a <> NULL) by (unfold NULL; lia).
    destruct (Z.eqb_spec a NULL); [done|].
    pose proof Hrep as ((j & Eq) & Hc & Hnd).
    assert (Hans : a ∉ ns).
    { intros Hin. apply Hfresh. pose proof (qseg_dom _ _ _ _ _ _ Hc Hin).
      unfold live. rewrite !elem_of_union. tauto. }
    destruct ns as [|t ns _] using rev_ind.
    + destruct xs; [|done]. rsteps. cbn [q_head]. change (head_or NULL [] =? NULL) with true. cbv iota.
      rsteps. eexists. split; [reflexivity|]. right. exists a. do 3 (split; [done|]). split; [|split].
      * split; [exists j; lk|]. split; [|by apply (NoDup_singleton a)].
        cbn. do 3 (split; [done|]). exists NULL. split; [lk|done].
      * intros m Hm. lk.
      * intros m [? _]%not_elem_of_cons. lk.
    + destruct xs as [|[k x] xs _] using rev_ind.
      { apply qseg_length in Hc. rewrite length_app in Hc. cbn in Hc. lia. }
      assert (Hhd : head_or NULL (ns ++ [t]) <> NULL).
      { apply qseg_nonnull in Hc as [Hc _]. destruct ns; [by apply Forall_inv in Hc|].
        by apply Forall_inv in Hc. }
      rewrite last_or_snoc in Eq.
      assert (Hat : a <> t) by (intros ->; apply Hans; apply elem_of_app; right; by left).
      pose proof (qseg_snoc _ _ _ _ _ _ a (i, d) Hc Hans Ha Hd Hnd) as Hnew.
      assert (Et : exists nx, qnodes (qst s) !! t = Some (mkQnode k x nx)).
      { assert (Hlen : length ns = length xs).
        { apply qseg_length in Hc. rewrite !length_app in Hc. cbn in Hc. lia. }
        apply qseg_app in Hc as (b & _ & Hc); [|done]. destruct Hc as (_ & _ & _ & nx & E & _). eauto. }
      destruct Et as [nx Et].
      rsteps. cbn [q_head]. destruct (Z.eqb_spec (head_or NULL (ns ++ [t])) NULL); [done|].
      rsteps. eexists. split; [reflexivity|]. right. exists a. do 3 (split; [done|]). split; [|split].
      * split; [|split].
        -- exists j. cbn -[Z.of_nat length]. rewrite lookup_insert_eq, last_or_snoc.
           unfold set_q_size, set_q_tail. cbn -[Z.of_nat length]. do 2 f_equal.
           ++ rewrite !length_app. cbn. lia.
           ++ by destruct ns.
        -- replace (head_or NULL ((ns ++ [t]) ++ [a])) with (head_or NULL (ns ++ [t])) by (by destruct ns).
           exact Hnew.
        -- apply NoDup_app. split; [done|]. split; [|apply NoDup_singleton].
           intros m Hm Hma2%list_elem_of_singleton. by subst m.
      * intros m Hm. lk.
      * intros m Hm. cbn. rewrite !lookup_insert_ne; [done| |].
        -- intros ->. apply Hm. apply elem_of_app. right. by left.
        -- intros ->. apply Hm. apply elem_of_app. left. apply elem_of_app. right. by left.
Qed.

Lemma queue_pop_spec s q ns xs :
  q <> NULL -> qrep (qst s) q ns xs ->
  returns (queue_pop q) s (fun r s' => exists h, s' = set_qst h s /\
    r = front xs /\ qrep h q (tail ns) (tail xs) /\
    (forall m, m <> q -> queues h !! m = queues (qst s) !! m) /\
    (forall n, n ∉ ns -> qnodes h !! n = qnodes (qst s) !! n)).
Proof.
  intros Hq Hrep. unfold queue_pop, upd_queue, get_queue, get_qnode.
  destruct (Z.eqb_spec q NULL); [done|]. pose proof Hrep as ((j & Eq) & Hc & Hnd).
  destruct ns as [|t ns]; destruct xs as [|[k x] xs]; try done.
  - rsteps. cbn [q_head head_or List.hd Z.eqb NULL]. rsteps. exists (qst s). by destruct s.
  - destruct Hc as (_ & Ht & Hx & nx & Et & Hc). apply NoDup_cons in Hnd as [Htn Hnd].
    rsteps. cbn [q_head head_or List.hd]. destruct (Z.eqb_spec t NULL); [done|]. rsteps. cbn [qn_next].
    unfold qnode_delete, free_qnode, get_qnode. destruct (Z.eqb_spec t NULL); [done|].
    assert (Hnx : nx = head_or NULL ns) by (destruct ns, xs; cbn in Hc |- *; tauto).
    assert (Hc' : qseg (delete t (qnodes (qst s))) nx ns xs NULL).
    { eapply qseg_frame; [done|]. intros m Hm. apply lookup_delete_ne. by intros ->. }
    assert (Hother : forall n, n ∉ t :: ns -> delete t (qnodes (qst s)) !! n = qnodes (qst s) !! n).
    { intros m [? _]%not_elem_of_cons. by apply lookup_delete_ne. }
    destruct (Z.eqb_spec nx NULL) as [E|E].
    + assert (ns = []) as ->.
      { destruct ns as [|b ns]; [done|]. apply qseg_nonnull in Hc as [Hc _].
        apply Forall_inv in Hc. cbn in Hnx. congruence. }
      destruct xs; [|done]. rsteps. eexists. split; [reflexivity|]. split; [done|].
      split; [|split; [intros m Hm; lk|done]].
      split; [|by split]. exists j. cbn. rewrite lookup_insert_eq. by rewrite Hnx.
    + rsteps. eexists. split; [reflexivity|]. split; [done|].
      split; [|split; [intros m Hm; lk|done]].
      rewrite Hnx in Hc'. split; [|by split]. exists j. cbn -[Z.of_nat length]. rewrite lookup_insert_eq.
      unfold set_q_size, set_q_head. cbn -[Z.of_nat length]. do 2 f_equal; [|done|].
      * cbn [length]. lia.
      * destruct ns; [by destruct E|]. by rewrite !last_or_cons.
Qed.

Lemma queue_peek_spec s q ns xs :
  q <> NULL -> qrep (qst s) q ns xs ->
  returns (queue_peek q) s (fun r s' => s' = s /\ r = front xs).
Proof.
  intros Hq ((j & Eq) & Hc & Hnd). unfold queue_peek, get_queue, get_qnode.
  destruct (Z.eqb_spec q NULL); [done|]. destruct ns as [|t ns]; destruct xs as [|[k x] xs]; try done.
  - by rsteps.
  - destruct Hc as (_ & Ht & Hx & nx & Et & Hc). rsteps. cbn [q_size].
    destruct (Z.eqb_spec (Z.of_nat (length ((k, x) :: xs))) 0); [cbn in *; lia|]. by rsteps.
Qed.

End ops.

(** ** The store of queues *)

Lemma qrep_other h h' q ns xs :
  queues h' !! q = queues h !! q ->
  (forall n, n ∈ ns -> qnodes h' !! n = qnodes h !! n) -> qrep h q ns xs -> qrep h' q ns xs.
Proof.
  intros Hl Hn ((j & El) & Hc & Hnd). split; [exists j; by rewrite Hl|]. split; [|done].
  by eapply qseg_frame.
Qed.

#[export] Instance qstore_QueueStore (L : Libc) (LL : LibcLaws L) : QueueStore L qstore.
Proof.
  split.
  - intros s V q xs d i (F & HS) Hl Hd'. pose proof HS as (HF & Hd & H).
    destruct (H _ _ Hl) as (Hnn & ns & HFl & Hrep).
    eapply returns_mono; [by apply queue_add_spec|]. cbv beta.
    intros r s' (h & -> & [(-> & -> & E)|(a & Ha & Hfr & -> & Hrep' & Hls & Hns)]).
    + exists (qst s). split; [done|]. right. split; [done|]. split; [by exists F|done].
    + exists h. split; [done|]. left. split; [done|]. eapply store_update; [done..| |].
      * intros m ys ms Hm Hys Hms Hn. apply qrep_other; [by apply Hls|]. intros n Hin.
        apply Hns. by destruct (Hn n Hin).
      * intros m ys ms n Hm HFm [?|Hna%list_elem_of_singleton]%elem_of_app Hn Hin; [done|]; subst n.
        by eapply fresh_not_in_q.
  - intros s V q xs (F & HS) Hl. pose proof HS as (HF & Hd & H).
    destruct (H _ _ Hl) as (Hnn & ns & HFl & Hrep).
    eapply returns_mono; [by apply queue_pop_spec|]. cbv beta.
    intros r s' (h & -> & -> & Hrep' & Hls & Hns). exists h. do 2 (split; [done|]).
    assert (forall n, n ∈ tail ns -> n ∈ ns) by (destruct ns; [done|]; by right).
    eapply store_update; [done..| |].
    + intros m ys ms Hm Hys Hms Hn. apply qrep_other; [by apply Hls|]. intros n Hin.
      apply Hns. by destruct (Hn n Hin).
    + intros m ys ms n _ _ Hn Hn'. destruct Hn'. auto.
  - intros s V q xs HR Hl. destruct (store_lookup _ _ _ _ _ HR Hl) as (Hnn & ns & Hrep).
    by eapply queue_peek_spec.
  - intros h V q xs HR Hl. destruct (store_lookup _ _ _ _ _ HR Hl) as (_ & ns & (j & El) & _).
    eexists. by split.
  - intros h V q xs HR Hl. destruct (store_lookup _ _ _ _ _ HR Hl) as (? & ns & _ & Hc & _).
    split; [done|]. by eapply qseg_nonnull.
Qed.

(** [queue_init] creates an empty queue, whatever other queues there are. *)
Lemma queue_init_spec `{L : Libc} {LL : LibcLaws L} s V :
  qstore (qst s) V -> dom V ⊆ live s ->
  returns queue_init s (fun r s' => exists h, s' = set_qst h (set_mtick (S (mtick s)) s) /\
    ((r = NULL /\ h = qst s /\ ~ MallocTotal L) \/ (r <> NULL /\ (r ∉ live s) /\ V !! r = None /\ qstore h (<[r := []]> V)))).
Proof.
  intros HV Hdom. unfold queue_init, malloc, returns. cbn [oret].
  destruct (malloc_fresh (mtick s) (live s)) as [E|[Hpos Hfresh]].
  - rewrite E. exists (qst s). split; [by destruct s|]. left. do 2 (split; [done|]). intros MT. by destruct (MT _ _ E).
  - remember (malloc_choice (mtick s) (live s)) as a eqn:Hma.
    assert (Ha : a <> NULL) by (unfold NULL; lia).
    destruct (Z.eqb_spec a NULL); [done|]. eexists. split; [reflexivity|]. right.
    assert (HVa : V !! a = None).
    { apply not_elem_of_dom. intros ?. by apply Hfresh, Hdom. }
    do 3 (split; [done|]). eapply store_new; [done..| |].
    + split; [exists 0; cbn; apply lookup_insert_eq|]. split; [done|constructor].
    + intros m ms y Hm. apply qrep_other; [|done]. cbn. by rewrite lookup_insert_ne by congruence.
Qed.

(** ** The operations as a first-in first-out queue *)

(** C18: while the heap lasts, any sequence of [queue_add], [queue_pop],
    [queue_peek] and [queue_size] on a queue returns what the same operations on
    a first-in first-out queue return (adding [NULL] is refused with [ERROR]),
    leaves the queue holding that sequence, changes no other queue and nothing but
    the queue heap and the allocator. *)
Theorem queue_ops_refine_fifo `{L : Libc} {LL : LibcLaws L} s V q xs os :
  MallocTotal L -> qstore (qst s) V -> V !! q = Some xs ->
  returns (run_qops q os) s (fun rs s' =>
    exists h n ys, s' = set_qst h (set_mtick n s) /\ qops_spec os xs = (rs, ys) /\
      qstore h (<[q := ys]> V)).
Proof.
  intros MT. revert s V xs. induction os as [|o os IH]; intros s V xs HV Hl.
  - cbn [run_qops]. rstep. exists (qst s), (mtick s), xs. split; [by destruct s|]. split; [done|].
    by rewrite insert_id.
  - cbn [run_qops qops_spec]. rstep.
    apply returns_mono with (P := fun r s' => exists h n, s' = set_qst h (set_mtick n s) /\
      r = (qop_spec o xs).1 /\ qstore h (<[q := (qop_spec o xs).2]> V)).
    + assert (Hsame : s = set_qst (qst s) (set_mtick (mtick s) s)) by (by destruct s).
      destruct (qs_nonnull _ _ _ _ HV Hl) as [Hq _].
      destruct o as [d i| | |]; cbn [run_qop qop_spec fst snd].
      * destruct (Z.eqb_spec d NULL) as [->|Hd].
        { unfold queue_add. rewrite orb_true_r. rstep. exists (qst s), (mtick s).
          cbn [fst snd]. by rewrite insert_id. }
        eapply returns_mono; [by eapply (qs_add (R := qstore))|]. cbv beta.
        intros r s' (h & -> & [[-> ?]|(_ & _ & E)]); [by eexists _, _|]. by destruct (MT _ _ E).
      * eapply returns_mono; [by eapply (qs_pop (R := qstore))|]. cbv beta.
        intros r s' (h & -> & -> & ?). exists h, (mtick s). by destruct s.
      * eapply returns_mono; [by eapply (qs_peek (R := qstore))|]. cbv beta.
        intros r s' (-> & ->). exists (qst s), (mtick s). by rewrite insert_id.
      * unfold queue_size, size_of, get_queue. destruct (Z.eqb_spec q NULL); [done|].
        destruct (qs_size _ _ _ _ HV Hl) as (k & Ek & Hk). rsteps.
        exists (qst s), (mtick s). by rewrite insert_id.
    + intros r s1 (h & n & -> & -> & HV1). rstep.
      eapply returns_mono; [eapply (IH _ (<[q := (qop_spec o xs).2]> V)); [done|lk]|]. cbv beta.
      intros rs s' (h' & n' & ys & -> & E & HV'). rstep.
      exists h', n', ys. split; [done|]. destruct (qop_spec o xs) as [r1 xs1]; cbn [fst snd] in *.
      rewrite E. split; [done|]. by rewrite insert_insert_eq in HV'.
Qed.

(** A concrete heap checked against a concrete view. *)
Fixpoint qsegb (m : gmap Z qnode) (a : Z) (ns : list Z) (xs : list (Z * Z)) (e : Z) : bool :=
  match ns, xs with
  | [], [] => a =? e
  | n :: ns', x :: xs' =>
      (a =? n) && negb (n =? NULL) && negb (x.2 =? NULL) &&
      match m !! n with
      | Some nd => (qn_id nd =? x.1) && (qn_data nd =? x.2) && qsegb m (qn_next nd) ns' xs' e
      | None => false
      end
  | _, _ => false
  end.

Definition qrepb (h : qheap) (q : Z) (ns : list Z) (xs : list (Z * Z)) : bool :=
  match queues h !! q with
  | Some k => (q_size k =? Z.of_nat (length xs)) && (q_head k =? head_or NULL ns) && (q_tail k =? last_or NULL ns)
  | None => false
  end && qsegb (qnodes h) (head_or NULL ns) ns xs NULL && bool_decide (NoDup ns).

Definition qstoreb (F : gmap Z (list Z)) (h : qheap) (V : gmap Z (list (Z * Z))) : bool :=
  bool_decide (NoDup (concat (map snd (map_to_list F)))) && bool_decide (dom F ⊆ dom V) &&
  forallb (fun x => negb (x.1 =? NULL) &&
    match F !! x.1 with Some ns => qrepb h x.1 ns x.2 | None => false end) (map_to_list V).

Lemma qsegb_ok m ns : forall a xs e, qsegb m a ns xs e = true -> qseg m a ns xs e.
Proof.
  induction ns as [|n ns IH]; intros a [|[i d] xs] e H; cbn in *; try done.
  - by apply Z.eqb_eq.
  - destruct (m !! n) as [[i' d' nx]|]; [|by rewrite andb_false_r in H]. cbn in H.
    bool_to_prop. subst. do 3 (split; [done|]). exists nx. split; [done|]. by apply IH.
Qed.

Lemma qrepb_ok h q ns xs : qrepb h q ns xs = true -> qrep h q ns xs.
Proof.
  unfold qrepb. destruct (queues h !! q) as [[i sz hd tl]|] eqn:E; [|done]. cbn.
  intros [[[[Hs Hh]%andb_prop Ht]%andb_prop Hq]%andb_prop Hn%bool_decide_eq_true]%andb_prop. bool_to_prop.
  subst. split; [by exists i|]. split; [by apply qsegb_ok|done].
Qed.

Lemma qstoreb_ok F h V : qstoreb F h V = true -> qstore h V.
Proof.
  intros [[Hn%bool_decide_eq_true Hd%bool_decide_eq_true]%andb_prop Hall]%andb_prop. exists F.
  split; [by apply fdisj_concat|]. split; [done|]. intros a x Hx. rewrite forallb_forall in Hall.
  specialize (Hall (a, x)). rewrite <- list_elem_of_In, elem_of_map_to_list in Hall.
  specialize (Hall Hx). cbn in Hall. apply andb_prop in Hall as [Ha Hr]. bool_to_prop. split; [done|].
  destruct (F !! a) as [ns|]; [|done]. exists ns. split; [done|]. by apply qrepb_ok.
Qed.

(** ** Witnesses *)

Definition ex_queues : qheap :=
  mkQheap {[ 1 := mkQueue 0 2 2 3 ]} {[ 2 := mkQnode 7 70 3; 3 := mkQnode 8 80 NULL ]}.

Lemma ex_queues_qstore : qstore ex_queues {[ 1 := [(7, 70); (8, 80)] ]}.
Proof. apply (qstoreb_ok {[ 1 := [2; 3] ]}). vm_compute. reflexivity. Qed.

Lemma queue_ops_refine_fifo_witness :
  returns (run_qops (L := bump_libc) 1 [QPop; QAdd 90 9; QPeek; QAdd 0 1; QSize; QPop])
    (set_qst ex_queues init_state)
    (fun rs s' => exists h n ys, s' = set_qst h (set_mtick n (set_qst ex_queues init_state)) /\
      qops_spec [QPop; QAdd 90 9; QPeek; QAdd 0 1; QSize; QPop] [(7, 70); (8, 80)] = (rs, ys) /\
      qstore h (<[1 := ys]> {[ 1 := [(7, 70); (8, 80)] ]})).
Proof.
  apply (@queue_ops_refine_fifo bump_libc bump_libc_laws).
  - exact bump_libc_total.
  - exact ex_queues_qstore.
  - reflexivity.
Defined.
