(* ===== verification/KPipe.v ===== *)
(** * The list of pipes ([pipe.h], [pipe.c])

    The singly linked list of pipes behind [head_pipe]: creation, lookup by id,
    insertion and removal, on the representation [prep] (the pipes from the head
    on, with strictly increasing ids). *)

From Stdlib Require Import ZArith Lia Sorted.
From stdpp Require Import base gmap list sorting.
From S2P Require Import Prelude Hardware State Logic Store KQueue.

Open Scope Z_scope.

(** ** The operations *)

Definition get_pipe_obj (p : Z) : M pipe := deref pipes p.
Definition upd_pipe (p : Z) (f : pipe -> pipe) : M unit :=
  let! x := get_pipe_obj p in modify (put_pipe p (f x)).
Definition free_pipe (p : Z) : M unit :=
  get_pipe_obj p ;; modify (fun s => set_pipes (delete p (pipes s)) s).

(** The walks along the list take at most as many steps as there are pipes. *)
Definition pipe_fuel (s : kstate) : nat := size (pipes s).

(** [memset(pipe->buf, 0, PIPE_BUFFER_LEN)] *)
Definition zero_buf : list Z := replicate (Z.to_nat PIPE_BUFFER_LEN) 0.
#[global] Arguments zero_buf : simpl never.

(** A pipe as [malloc] returns it; every field but [queue] is written before it is read. *)
Definition pipe_raw : pipe := mkPipe (zero_buf) 0 0 NULL PIPE_FREE None.

Section pipe_ops.
Context `{L : Libc}.

(** The field [queue] is left as [malloc] returned it. *)
Definition init_head_pipe : M Z :=
  let! pipe := malloc put_pipe pipe_raw in
  if pipe =? NULL then ret NULL else
  upd_pipe pipe (set_pp_id (MAX_LOCKS + MAX_CVARS + 1)) ;;
  upd_pipe pipe (set_pp_next NULL) ;;
  upd_pipe pipe (set_pp_len 0) ;;
  upd_pipe pipe (set_pp_used PIPE_FREE) ;;
  upd_pipe pipe (set_pp_buf (zero_buf)) ;;
  ret pipe.

(** [while (curr_pipe->next != NULL) curr_pipe = curr_pipe->next;] *)
Fixpoint last_pipe (fuel : nat) (curr : Z) : M Z :=
  let! c := get_pipe_obj curr in
  if pp_next c =? NULL then ret curr else
  match fuel with
  | O => raise FFuel
  | S fuel' => last_pipe fuel' (pp_next c)
  end.

Definition add_pipe (head_pipe : Z) : M Z :=
  let! new_pipe := malloc put_pipe pipe_raw in
  if new_pipe =? NULL then ret ERROR else
  if head_pipe =? NULL then ret ERROR else
  upd_pipe new_pipe (set_pp_next NULL) ;;
  upd_pipe new_pipe (set_pp_len 0) ;;
  upd_pipe new_pipe (set_pp_used PIPE_FREE) ;;
  upd_pipe new_pipe (set_pp_buf (zero_buf)) ;;
  let! q := queue_init in
  upd_pipe new_pipe (set_pp_queue (Some q)) ;;
  let! fuel := gets pipe_fuel in
  let! curr := last_pipe fuel head_pipe in
  upd_pipe curr (set_pp_next new_pipe) ;;
  let! c := get_pipe_obj curr in
  upd_pipe new_pipe (set_pp_id (pp_id c + 1)) ;;
  let! n := get_pipe_obj new_pipe in
  ret (pp_id n).

(** The search of [remove_pipe]: the pipe found and the (uninitialised at
    first) local [pipe_before]; [None] when the list ends. *)
Fixpoint find_pipe_before (fuel : nat) (before : option Z) (curr id : Z) : M (option (option Z * Z)) :=
  let! c := get_pipe_obj curr in
  if pp_id c =? id then ret (Some (before, curr)) else
  if pp_next c =? NULL then ret None else
  match fuel with
  | O => raise FFuel
  | S fuel' => find_pipe_before fuel' (Some curr) (pp_next c) id
  end.

Definition remove_pipe (head_pipe id : Z) : M Z :=
  let! fuel := gets pipe_fuel in
  let! found := find_pipe_before fuel None head_pipe id in
  match found with
  | None => ret ERROR
  | Some (pipe_before, curr) =>
      let! c := get_pipe_obj curr in
      (if pp_next c =? NULL then
         let! b := determinate pipe_before in upd_pipe b (set_pp_next NULL)
       else
         let! b := determinate pipe_before in upd_pipe b (set_pp_next (pp_next c))) ;;
      free_pipe curr ;;
      ret 0
  end.

Fixpoint get_pipe_loop (fuel : nat) (curr id : Z) : M Z :=
  let! c := get_pipe_obj curr in
  if pp_id c =? id then ret curr else
  if pp_next c =? NULL then ret NULL else
  match fuel with
  | O => raise FFuel
  | S fuel' => get_pipe_loop fuel' (pp_next c) id
  end.

Definition get_pipe (head_pipe id : Z) : M Z :=
  let! fuel := gets pipe_fuel in get_pipe_loop fuel head_pipe id.

End pipe_ops.

(** ** The list of pipes

    From [a], following [next]: the pipes with their addresses and contents. *)

Fixpoint pchain (m : gmap Z pipe) (a : Z) (ps : list (Z * Z)) : Prop :=
  match ps with
  | [] => a = NULL
  | (p, i) :: ps' =>
      a = p /\ p <> NULL /\ exists x, m !! p = Some x /\ pp_id x = i /\ pchain m (pp_next x) ps'
  end.

(** The pipes behind the head: (address, id) pairs with strictly increasing ids. *)
Definition prep (m : gmap Z pipe) (head : Z) (ps : list (Z * Z)) : Prop :=
  head <> NULL /\ pchain m head ps /\ StronglySorted Z.lt (map snd ps).

(** The address of the pipe with the given id, or [NULL]. *)
Fixpoint pipe_addr (ps : list (Z * Z)) (id : Z) : Z :=
  match ps with
  | [] => NULL
  | (p, i) :: ps' => if i =? id then p else pipe_addr ps' id
  end.

Definition drop_pipe (ps : list (Z * Z)) (id : Z) : list (Z * Z) :=
  List.filter (fun x => negb (x.2 =? id)) ps.

(** ** Lemmas on the chain *)

Lemma pchain_elem m a ps p i : pchain m a ps -> (p, i) ∈ ps ->
  p <> NULL /\ exists x, m !! p = Some x /\ pp_id x = i.
Proof.
  revert a. induction ps as [|[p1 i1] ps IH]; intros a; cbn [pchain]; [by intros _ ?%not_elem_of_nil|].
  intros (-> & Hp & x & E & Hi & H) [[= -> ->]|Hin]%elem_of_cons; eauto.
Qed.

Lemma pchain_nodup m a ps : pchain m a ps -> StronglySorted Z.lt (map snd ps) -> NoDup (map fst ps).
Proof.
  revert a. induction ps as [|[p i] ps IH]; intros a; cbn [pchain map]; [constructor|].
  intros (-> & Hp & x & E & Hi & H) [Hs Hall]%StronglySorted_inv. constructor; [|by eapply IH].
  intros ([p' i'] & Heq & Hin)%list_elem_of_fmap. cbn in Heq. subst p'.
  destruct (pchain_elem _ _ _ _ _ H Hin) as (_ & x' & E' & Hi').
  rewrite Forall_forall in Hall. specialize (Hall i'). cbn in Hall.
  assert (i < i') by (apply Hall, list_elem_of_fmap; exists (p, i'); done). simplify_eq. lia.
Qed.

Lemma pchain_frame m m' a ps :
  pchain m a ps -> (forall p, p ∈ map fst ps -> m' !! p = m !! p) -> pchain m' a ps.
Proof.
  revert a. induction ps as [|[p i] ps IH]; intros a; cbn [pchain map]; [done|].
  intros (-> & Hp & x & E & Hi & H) Hf. do 2 (split; [done|]). exists x.
  split; [rewrite Hf; [done | by left]|]. split; [done|]. apply IH; [done|]. intros. apply Hf. by right.
Qed.

Lemma pchain_size m a ps : pchain m a ps -> StronglySorted Z.lt (map snd ps) ->
  (length ps <= size m)%nat.
Proof.
  intros Hc Hs. pose proof (pchain_nodup _ _ _ Hc Hs) as Hnd.
  rewrite <- (length_map fst). rewrite <- (size_list_to_set (C := gset Z) (map fst ps) Hnd).
  rewrite <- size_dom. apply subseteq_size. intros p Hp.
  apply elem_of_list_to_set, list_elem_of_fmap in Hp as ([p' i] & -> & Hin).
  destruct (pchain_elem _ _ _ _ _ Hc Hin) as (_ & x & E & _). by apply elem_of_dom.
Qed.

Lemma pipe_addr_not_in ps id : id ∉ map snd ps -> pipe_addr ps id = NULL.
Proof.
  induction ps as [|[p i] ps IH]; cbn [map pipe_addr]; [done|].
  intros [? ?]%not_elem_of_cons. destruct (Z.eqb_spec i id); [cbn in *; congruence|]. auto.
Qed.

Lemma drop_pipe_not_in ps id : id ∉ map snd ps -> drop_pipe ps id = ps.
Proof.
  induction ps as [|[p i] ps IH]; cbn [map drop_pipe List.filter snd]; [done|].
  intros [? ?]%not_elem_of_cons. destruct (Z.eqb_spec i id); [congruence|]. cbn.
  f_equal. by apply IH.
Qed.

(** A chain split at a pipe. *)
Lemma pchain_app m a ps1 ps2 : pchain m a (ps1 ++ ps2) ->
  exists b, (ps1 = [] -> b = a) /\ pchain m b ps2 /\
    (forall p i ps, ps1 = ps ++ [(p, i)] -> exists x, m !! p = Some x /\ pp_id x = i /\ pp_next x = b).
Proof.
  revert a. induction ps1 as [|[p i] ps1 IH]; intros a; cbn [app pchain].
  - intros H. exists a. split; [done|]. split; [done|]. by intros ?? [|].
  - intros (-> & Hp & x & E & Hi & H). destruct (IH _ H) as (b & Hb & Hc & Hl).
    exists b. split; [done|]. split; [done|]. intros p' i' ps Heq.
    destruct ps as [|y ps]; cbn in Heq; simplify_eq.
    + exists x. split; [done|]. split; [done|]. symmetry. by apply Hb.
    + by eapply Hl.
Qed.

(** Relinking the last pipe of the first part to another chain. *)
Lemma pchain_relink m a ps p i x ps2 ps3 b :
  pchain m a (ps ++ (p, i) :: ps2) -> m !! p = Some x -> p ∉ map fst ps ->
  p ∉ map fst ps3 -> pchain m b ps3 ->
  pchain (<[p := set_pp_next b x]> m) a (ps ++ (p, i) :: ps3).
Proof.
  revert a. induction ps as [|[p' i'] ps IH]; intros a; cbn [app pchain map].
  - intros (-> & Hp & x' & E & Hi & H) Ex _ Hn3 H3. simplify_eq. do 2 (split; [done|]).
    eexists. split; [apply lookup_insert_eq|]. split; [done|]. cbn.
    eapply pchain_frame; [done|]. intros p1 Hp1. apply lookup_insert_ne. by intros ->.
  - intros (-> & Hp & x' & E & Hi & H) Ex [? ?]%not_elem_of_cons Hn3 H3. do 2 (split; [done|]).
    exists x'. split; [by rewrite lookup_insert_ne|]. split; [done|]. by apply IH.
Qed.

(** The walks reach the pipe they look for. *)
Lemma get_pipe_loop_spec s id ps a fuel :
  pchain (pipes s) a ps -> ps <> [] -> (length ps <= fuel)%nat ->
  get_pipe_loop fuel a id s = Ret (pipe_addr ps id) s.
Proof.
  revert a fuel. induction ps as [|[p i] ps IH]; intros a fuel; [done|]. cbn [pchain length pipe_addr].
  intros (-> & Hp & x & E & <- & H) _ Hf. destruct fuel as [|fuel]; [lia|].
  cbn [get_pipe_loop]. unfold bind, get_pipe_obj, deref. rewrite E. cbn [obind].
  destruct (Z.eqb_spec (pp_id x) id); [done|].
  destruct ps as [|[p' i'] ps]; cbn [pchain] in H.
  - by rewrite H.
  - destruct (Z.eqb_spec (pp_next x) NULL); [exfalso; destruct H as (? & ? & _); congruence|].
    apply IH; [done|done|lia].
Qed.

Lemma last_pipe_spec s ps p i a fuel :
  pchain (pipes s) a (ps ++ [(p, i)]) -> (length ps < fuel)%nat ->
  last_pipe fuel a s = Ret p s.
Proof.
  revert a fuel. induction ps as [|[p' i'] ps IH]; intros a fuel; cbn [app pchain length].
  - intros (-> & Hp & x & E & <- & H) Hf. destruct fuel as [|fuel]; [lia|].
    cbn [last_pipe]. unfold bind, get_pipe_obj, deref. rewrite E. cbn [obind]. by rewrite H.
  - intros (-> & Hp & x & E & <- & H) Hf. destruct fuel as [|fuel]; [lia|].
    cbn [last_pipe]. unfold bind, get_pipe_obj, deref. rewrite E. cbn [obind].
    destruct (Z.eqb_spec (pp_next x) NULL) as [En|].
    + exfalso. destruct ps as [|[]]; cbn in H; destruct H as (? & ? & _); congruence.
    + apply IH; [done|lia].
Qed.

Lemma find_pipe_before_spec s id ps1 p ps2 b a fuel :
  pchain (pipes s) a (ps1 ++ (p, id) :: ps2) -> id ∉ map snd ps1 -> (length ps1 < fuel)%nat ->
  find_pipe_before fuel b a id s =
    Ret (Some (match last ps1 with Some x => Some (fst x) | None => b end, p)) s.
Proof.
  revert a b fuel. induction ps1 as [|[p' i'] ps IH]; intros a b fuel; cbn [app pchain length map].
  - intros (-> & Hp & x & E & <- & H) _ Hf. destruct fuel as [|fuel]; [lia|].
    cbn [find_pipe_before]. unfold bind, get_pipe_obj, deref. rewrite E. cbn [obind]. by rewrite Z.eqb_refl.
  - intros (-> & Hp & x & E & <- & H) [? ?]%not_elem_of_cons Hf. destruct fuel as [|fuel]; [lia|].
    cbn [find_pipe_before]. unfold bind at 1, get_pipe_obj, deref. rewrite E. cbn [obind].
    destruct (Z.eqb_spec (pp_id x) id); [cbn in *; congruence|].
    destruct (Z.eqb_spec (pp_next x) NULL) as [En|].
    + exfalso. destruct ps as [|[]]; cbn in H; destruct H as (? & ? & _); congruence.
    + rewrite (IH _ (Some p')); [|done|done|lia]. rewrite last_cons. by destruct (last ps).
Qed.

Lemma find_pipe_before_none s id ps b a fuel :
  pchain (pipes s) a ps -> ps <> [] -> id ∉ map snd ps -> (length ps <= fuel)%nat ->
  find_pipe_before fuel b a id s = Ret None s.
Proof.
  revert a b fuel. induction ps as [|[p i] ps IH]; intros a b fuel; [done|]. cbn [pchain length map].
  intros (-> & Hp & x & E & <- & H) _ [? ?]%not_elem_of_cons Hf. destruct fuel as [|fuel]; [lia|].
  cbn [find_pipe_before]. unfold bind at 1, get_pipe_obj, deref. rewrite E. cbn [obind].
  destruct (Z.eqb_spec (pp_id x) id); [cbn in *; congruence|].
  destruct ps as [|[p' i'] ps]; cbn [pchain] in H.
  - by rewrite H.
  - destruct (Z.eqb_spec (pp_next x) NULL); [exfalso; destruct H as (? & ? & _); congruence|].
    apply IH; [done|done|done|cbn in *; lia].
Qed.

Lemma drop_pipe_app ps1 ps2 id : drop_pipe (ps1 ++ ps2) id = drop_pipe ps1 id ++ drop_pipe ps2 id.
Proof. apply List.filter_app. Qed.

Lemma pipe_addr_app ps1 ps2 id : id ∉ map snd ps1 -> pipe_addr (ps1 ++ ps2) id = pipe_addr ps2 id.
Proof.
  induction ps1 as [|[p i] ps1 IH]; cbn [map app pipe_addr]; [done|].
  intros [Hi ?]%not_elem_of_cons. cbn in Hi. destruct (Z.eqb_spec i id); [congruence|]. auto.
Qed.

Lemma put_pipe_twice a x y s : put_pipe a x (put_pipe a y s) = put_pipe a x s.
Proof. destruct s. unfold put_pipe. cbn. by rewrite insert_insert_eq. Qed.

Lemma live_put_pipe a x n s : live s ⊆ live (put_pipe a x (set_mtick n s)).
Proof.
  intros y. unfold live. cbn. rewrite !elem_of_union, dom_insert, elem_of_union. tauto.
Qed.

Lemma prep_nonempty m head ps : prep m head ps -> ps <> [].
Proof. intros (Hn & Hc & _) ->. by apply Hn. Qed.

Lemma pchain_fst_dom m a ps p : pchain m a ps -> p ∈ map fst ps -> p ∈ dom m.
Proof.
  intros Hc ([p' i] & -> & Hin)%list_elem_of_fmap.
  destruct (pchain_elem _ _ _ _ _ Hc Hin) as (_ & x & E & _). by apply elem_of_dom.
Qed.

(** The list split at an id. *)
Lemma ids_split (ps : list (Z * Z)) id : id ∈ map snd ps ->
  exists ps1 p ps2, ps = ps1 ++ (p, id) :: ps2 /\ id ∉ map snd ps1.
Proof.
  induction ps as [|[p i] ps IH]; cbn [map]; [by intros ?%not_elem_of_nil|].
  intros Hin. destruct (decide (i = id)) as [->|Hne].
  - exists [], p, ps. split; [done|]. apply not_elem_of_nil.
  - apply elem_of_cons in Hin as [?|Hin]; [cbn in *; congruence|].
    destruct (IH Hin) as (ps1 & p' & ps2 & -> & Hn). exists ((p, i) :: ps1), p', ps2.
    split; [done|]. apply not_elem_of_cons. cbn. split; [congruence|done].
Qed.

Lemma sorted_app_inv (l1 l2 : list Z) x : StronglySorted Z.lt (l1 ++ x :: l2) ->
  StronglySorted Z.lt (l1 ++ l2) /\ x ∉ l2.
Proof.
  induction l1 as [|y l1 IH]; cbn [app]; intros [Hs Hall]%StronglySorted_inv.
  - split; [done|]. intros Hin. rewrite Forall_forall in Hall. specialize (Hall _ Hin). lia.
  - destruct (IH Hs) as [Hs' Hx]. split; [|done]. constructor; [done|].
    rewrite Forall_app, Forall_cons in *. tauto.
Qed.

Lemma sorted_snoc (l : list Z) x : StronglySorted Z.lt l -> (forall y, y ∈ l -> y < x) ->
  StronglySorted Z.lt (l ++ [x]).
Proof.
  induction l as [|y l IH]; cbn [app]; intros Hs Hx; [by repeat constructor|].
  apply StronglySorted_inv in Hs as [Hs Hall]. constructor.
  - apply IH; [done|]. intros z Hz. apply Hx. by right.
  - rewrite Forall_app. split; [done|]. constructor; [|done]. apply Hx. by left.
Qed.

Lemma sorted_last_max (l : list Z) x : StronglySorted Z.lt (l ++ [x]) ->
  forall y, y ∈ l ++ [x] -> y < x + 1.
Proof.
  induction l as [|z l IH]; cbn [app]; intros [Hs Hall]%StronglySorted_inv y Hy.
  - apply list_elem_of_singleton in Hy. lia.
  - apply elem_of_cons in Hy as [->|Hy]; [|by apply IH].
    rewrite Forall_forall in Hall. assert (z < x) by (apply Hall, elem_of_app; right; by left). lia.
Qed.

(** The chain, the list and the address after the pipe [p] behind [b] is unlinked. *)
Lemma unlink_pipe s head ps1 b j p id ps2 :
  pchain (pipes s) head ((ps1 ++ [(b, j)]) ++ (p, id) :: ps2) ->
  StronglySorted Z.lt (map snd ((ps1 ++ [(b, j)]) ++ (p, id) :: ps2)) ->
  id ∉ map snd (ps1 ++ [(b, j)]) ->
  exists xb xp, b <> p /\ pipes s !! b = Some xb /\ pipes s !! p = Some xp /\ 
    pchain (delete p (<[b := set_pp_next (pp_next xp) xb]> (pipes s))) head ((ps1 ++ [(b, j)]) ++ ps2) /\
    drop_pipe ((ps1 ++ [(b, j)]) ++ (p, id) :: ps2) id = (ps1 ++ [(b, j)]) ++ ps2 /\
    pipe_addr ((ps1 ++ [(b, j)]) ++ (p, id) :: ps2) id = p.
Proof.
  intros Hc Hs Hi.
  destruct (pchain_app _ _ _ _ Hc) as (nb & _ & Hc2 & Hlast).
  destruct (Hlast b j ps1 eq_refl) as (xb & Eb & Hj & Hnb).
  cbn [pchain] in Hc2. destruct Hc2 as (-> & Hp & xp & Ep & Hid & Hc2).
  pose proof (pchain_nodup _ _ _ Hc Hs) as Hnd.
  rewrite !map_app in Hnd. cbn [map fst] in Hnd.
  apply NoDup_app in Hnd as (Hnd1 & Hd & Hnd2). apply NoDup_cons in Hnd2 as [Hp2 Hnd2].
  apply NoDup_app in Hnd1 as (_ & Hb1 & _).
  assert (Hbp : b <> p).
  { intros ->. apply (Hd p); [apply elem_of_app; right; by left | by left]. }
  assert (Hbn1 : b ∉ map fst ps1) by (intros Hin; apply (Hb1 _ Hin); by left).
  assert (Hbn2 : b ∉ map fst ps2).
  { intros Hin. apply (Hd b); [apply elem_of_app; right; by left | by right]. }
  assert (Hpn1 : p ∉ map fst (ps1 ++ [(b, j)])).
  { rewrite map_app. intros Hin. apply (Hd p Hin). by left. }
  assert (Hchain : pchain (delete p (<[b := set_pp_next (pp_next xp) xb]> (pipes s))) head
    ((ps1 ++ [(b, j)]) ++ ps2)).
  { rewrite <- app_assoc. cbn [app]. eapply pchain_frame.
    - eapply pchain_relink; [|exact Eb|done|done|exact Hc2]. rewrite <- app_assoc in Hc. exact Hc.
    - intros q Hq. apply lookup_delete_ne. intros <-. rewrite map_app in Hq.
      apply elem_of_app in Hq as [Hq|[?|Hq]%elem_of_cons]; [|cbn in *; congruence|done].
      apply Hpn1. rewrite map_app. apply elem_of_app. by left. }
  assert (Hdrop : drop_pipe ((ps1 ++ [(b, j)]) ++ (p, id) :: ps2) id = (ps1 ++ [(b, j)]) ++ ps2).
  { rewrite map_app in Hs. cbn [map snd] in Hs. apply sorted_app_inv in Hs as [_ Hs2].
    rewrite drop_pipe_app, (drop_pipe_not_in _ _ Hi). f_equal. cbn. rewrite Z.eqb_refl. cbn.
    by apply drop_pipe_not_in. }
  assert (Haddr : pipe_addr ((ps1 ++ [(b, j)]) ++ (p, id) :: ps2) id = p).
  { rewrite pipe_addr_app by done. cbn. by rewrite Z.eqb_refl. }
  by exists xb, xp.
Qed.

Lemma remove_pipe_found s head ps1 b j p id ps2 :
  head <> NULL ->
  pchain (pipes s) head ((ps1 ++ [(b, j)]) ++ (p, id) :: ps2) ->
  StronglySorted Z.lt (map snd ((ps1 ++ [(b, j)]) ++ (p, id) :: ps2)) ->
  id ∉ map snd (ps1 ++ [(b, j)]) ->
  let ps := (ps1 ++ [(b, j)]) ++ (p, id) :: ps2 in
  returns (remove_pipe head id) s (fun r s' =>
    exists m, s' = set_pipes m s /\ r = 0 /\ prep m head (drop_pipe ps id) /\
      m !! pipe_addr ps id = None /\
      (forall p x, p <> pipe_addr ps id -> pipes s !! p = Some x ->
        exists nx, m !! p = Some (set_pp_next nx x))).
Proof.
  intros Hh Hc Hs Hi ps. subst ps. pose proof (pchain_size _ _ _ Hc Hs) as Hsz.
  destruct (unlink_pipe _ _ _ _ _ _ _ _ Hc Hs Hi) as (xb & xp & Hbp & Eb & Ep & Hchain & -> & ->).
  unfold remove_pipe. rstep. rstep. rstep. eapply returns_exec.
  { apply (find_pipe_before_spec _ _ (ps1 ++ [(b, j)]) p ps2); [done|done|].
    unfold pipe_fuel. rewrite length_app in Hsz. cbn [length] in *. lia. }
  cbv beta iota. rewrite last_snoc. unfold upd_pipe, free_pipe, get_pipe_obj. cbn [fst].
  apply returns_mono with (P := fun r s' => r = 0 /\
    s' = set_pipes (delete p (<[b := set_pp_next (pp_next xp) xb]> (pipes s))) s).
  { rsteps. destruct (Z.eqb_spec (pp_next xp) NULL) as [En|]; unfold determinate; rsteps.
    - rewrite En. by destruct s.
    - by destruct s. }
  intros r s' [-> ->]. eexists. split; [reflexivity|]. split; [done|]. split; [|split].
  + split; [done|]. split; [exact Hchain|].
    rewrite map_app in Hs |- *. cbn [map snd] in Hs. by apply sorted_app_inv in Hs as [Hs _].
  + apply lookup_delete_eq.
  + intros q y Hq Ey. rewrite lookup_delete_ne by congruence. destruct (decide (q = b)) as [->|].
    * rewrite lookup_insert_eq. rewrite Eb in Ey. injection Ey as <-. by eexists.
    * rewrite lookup_insert_ne by congruence. exists (pp_next y). rewrite Ey. by destruct y.
Qed.

(** ** The operations *)

Lemma get_pipe_spec s head ps id : prep (pipes s) head ps -> get_pipe head id s = Ret (pipe_addr ps id) s.
Proof.
  intros H. pose proof (prep_nonempty _ _ _ H) as Hne. destruct H as (_ & Hc & Hs).
  unfold get_pipe, bind, gets. cbn [obind]. apply get_pipe_loop_spec; [done|done|].
  by eapply pchain_size.
Qed.

(** [get_pipe] on a well-formed list of pipes returns the pipe with the given
    id, [NULL] exactly when there is none, and changes nothing; the head pipe is
    found like any other. *)
Theorem get_pipe_correct s head ps id :
  prep (pipes s) head ps ->
  exists p, get_pipe head id s = Ret p s /\
    (p = NULL <-> id ∉ map snd ps) /\ (p <> NULL -> exists x, pipes s !! p = Some x /\ pp_id x = id).
Proof.
  intros H. exists (pipe_addr ps id). split; [by apply get_pipe_spec|]. destruct H as (_ & Hc & _).
  clear -Hc. revert head Hc. induction ps as [|[p i] ps IH]; intros head Hc; cbn [pipe_addr map snd].
  - split; [|done]. split; [intros _; apply not_elem_of_nil|done].
  - destruct Hc as (-> & Hp & x & Hx & Hi & Hc). destruct (Z.eqb_spec i id) as [<-|Hne].
    + split; [|by exists x]. split; [done|]. intros H. destruct H. by left.
    + destruct (IH _ Hc) as [IH1 IH2]. split; [|done]. rewrite not_elem_of_cons, IH1.
      split; [intros ?; split; [congruence|done]|by intros [_ ?]].
Qed.

(** [add_pipe] on a well-formed list either fails for lack of memory, leaving
    the list alone, or appends an empty pipe whose id is one more than the last
    and returns that id; the list stays well-formed, no other pipe changes but for the
    link, and neither do the processes, the page tables, the globals and the hardware. *)
Theorem add_pipe_appends `{L : Libc} {LL : LibcLaws L} s head ps k V :
  prep (pipes s) head ps -> last (map snd ps) = Some k ->
  qstore (qst s) V -> dom V ⊆ live s ->
  returns (add_pipe head) s (fun r s' =>
    (r = ERROR /\ s' = set_mtick (S (mtick s)) s /\ ~ MallocTotal L) \/
    (r = k + 1 /\ exists p q,
      prep (pipes s') head (ps ++ [(p, k + 1)]) /\ (p ∉ live s) /\
      pipes s' !! p = Some (mkPipe (zero_buf) 0 (k + 1) NULL PIPE_FREE (Some q)) /\
      (forall p' x, pipes s !! p' = Some x -> exists nx, pipes s' !! p' = Some (set_pp_next nx x)) /\
      ((q = NULL /\ ~ MallocTotal L) \/ (q <> NULL /\ V !! q = None /\ qstore (qst s') (<[q := []]> V))) /\
      (hw s' = hw s /\ gl s' = gl s /\ pcbs s' = pcbs s /\ ptabs s' = ptabs s /\ uc s' = uc s))).
Proof.
  intros (Hh & Hc & Hs) Hk HV Hdom.
  destruct ps as [|[b k'] ps _] using rev_ind; [done|].
  rewrite map_app in Hk. cbn [map snd] in Hk. rewrite last_snoc in Hk. injection Hk as ->.
  unfold add_pipe. rstep. unfold malloc at 1, returns at 1. cbn [oret].
  destruct (malloc_fresh (mtick s) (live s)) as [E|[Hpos Hfresh]].
  { rewrite E. cbn [Z.eqb NULL]. rstep. left. do 2 (split; [done|]). intros MT. by destruct (MT _ _ E). }
  remember (malloc_choice (mtick s) (live s)) as a eqn:Hma.
  assert (Ha : a <> NULL) by (unfold NULL; lia). clear Hma.
  destruct (Z.eqb_spec a NULL); [done|]. destruct (Z.eqb_spec head NULL); [done|].
  assert (Hnew : a ∉ map fst (ps ++ [(b, k)])).
  { intros Hin. apply Hfresh. pose proof (pchain_fst_dom _ _ _ _ Hc Hin).
    unfold live. rewrite !elem_of_union. tauto. }
  assert (Hb : b ∈ map fst (ps ++ [(b, k)])) by (rewrite map_app; apply elem_of_app; right; by left).
  assert (Hab : a <> b) by (intros ->; done).
  assert (Hbx : exists x, pipes s !! b = Some x /\ pp_id x = k).
  { destruct (pchain_elem _ _ _ b k Hc) as (_ & x & ? & ?); [apply elem_of_app; right; by left|]. eauto. }
  destruct Hbx as (x & Ex & <-).
  unfold upd_pipe, get_pipe_obj. rsteps. rewrite !put_pipe_twice.
  eapply returns_mono.
  { apply (queue_init_spec _ V); [done|]. etransitivity; [exact Hdom|]. apply live_put_pipe. }
  cbv beta. intros q s2 (h & -> & Hq).
  assert (Hc1 : pchain (<[a := set_pp_queue (Some q) pipe_raw]> (<[a := pipe_raw]> (pipes s))) head
    (ps ++ [(b, pp_id x)])).
  { eapply pchain_frame; [done|]. intros p Hp. rewrite !lookup_insert_ne; [done|congruence..]. }
  rsteps. eapply returns_exec.
  { eapply last_pipe_spec; [exact Hc1|]. eapply Nat.lt_le_trans; [|exact (pchain_size _ _ _ Hc1 Hs)].
    rewrite length_app. cbn. lia. }
  rsteps. right. split; [done|]. exists a, q.
  cbn [pipes qst put_pipe set_pipes set_qst set_mtick].
  assert (Hm : forall A A0 A1 A2, <[a := A]> (<[b := A1]> (<[a := A2]> (<[a := A0]> (pipes s)))) =
    <[b := A1]> (<[a := A]> (pipes s))).
  { intros. rewrite (insert_insert_ne _ a b), !insert_insert_eq by done. done. }
  rewrite Hm. split; [|split; [done|split; [|split; [|split; [|done]]]]].
  - split; [done|]. split.
    + rewrite <- app_assoc. cbn [app].
      eapply (pchain_relink _ _ _ _ _ _ [] [(a, pp_id x + 1)]).
      * eapply pchain_frame; [exact Hc|]. intros p Hp. apply lookup_insert_ne. by intros ->.
      * by rewrite lookup_insert_ne.
      * apply (pchain_nodup _ _ _ Hc) in Hs as Hnd. rewrite map_app in Hnd.
        apply NoDup_app in Hnd as (_ & Hd & _). intros Hin. apply (Hd _ Hin). by left.
      * cbn. by intros ->%list_elem_of_singleton.
      * do 2 (split; [done|]). eexists. split; [apply lookup_insert_eq|]. done.
    + rewrite map_app. apply sorted_snoc; [done|]. rewrite map_app in Hs |- *. by apply sorted_last_max.
  - rewrite lookup_insert_ne by done. by rewrite lookup_insert_eq.
  - intros p y Ey. assert (a <> p).
    { intros ->. apply Hfresh. unfold live. rewrite !elem_of_union. do 2 left. right. by apply elem_of_dom. }
    destruct (decide (p = b)) as [->|].
    + simplify_eq. exists a. by rewrite lookup_insert_eq.
    + exists (pp_next y). rewrite !lookup_insert_ne by done. rewrite Ey. by destruct y.
  - destruct Hq as [(-> & _ & HM)|(Hq0 & _ & Hn & HQ)]; [by left|]. by right.
Qed.

(** [remove_pipe] on a well-formed list returns [ERROR] and changes nothing
    when no pipe has the id; unlinks and frees the pipe when one behind the head
    has it; and uses the uninitialised [pipe_before] when the head has it. *)
Theorem remove_pipe_correct s head ps id :
  prep (pipes s) head ps ->
  (id ∉ map snd ps -> remove_pipe head id s = Ret ERROR s) /\
  (id ∈ map snd (tail ps) -> returns (remove_pipe head id) s (fun r s' =>
    exists m, s' = set_pipes m s /\ r = 0 /\ prep m head (drop_pipe ps id) /\
      m !! pipe_addr ps id = None /\
      (forall p x, p <> pipe_addr ps id -> pipes s !! p = Some x ->
        exists nx, m !! p = Some (set_pp_next nx x)))) /\
  (head_or 0 (map snd ps) = id -> remove_pipe head id s = Fault FIndet).
Proof.
  intros Hp. pose proof (prep_nonempty _ _ _ Hp) as Hne. destruct Hp as (Hh & Hc & Hs).
  pose proof (pchain_size _ _ _ Hc Hs) as Hsz. split; [|split].
  - intros Hid. unfold remove_pipe, bind, gets. cbn [obind].
    by rewrite (find_pipe_before_none _ _ ps).
  - intros Hid.
    destruct (ids_split (tail ps) id Hid) as (ps1' & p & ps2 & Et & Hn1).
    destruct ps as [|[h i] ps']; [done|]. cbn [tail] in Et. subst ps'.
    change ((h, i) :: ps1' ++ (p, id) :: ps2) with (((h, i) :: ps1') ++ (p, id) :: ps2) in *.
    assert (Hi : id ∉ map snd ((h, i) :: ps1')).
    { cbn. apply not_elem_of_cons. split; [|done]. intros ->.
      cbn [app map snd] in Hs. apply StronglySorted_inv in Hs as [_ Hall]. rewrite Forall_forall in Hall.
      assert (i < i); [|lia]. apply Hall. rewrite map_app. apply elem_of_app. right. by left. }
    remember ((h, i) :: ps1') as ps1 eqn:Eps1.
    destruct ps1 as [|[b j] ps1 _] using rev_ind; [done|]. clear h i ps1' Eps1 Hid Hn1.
    by apply remove_pipe_found.
  - intros Hid. destruct ps as [|[p i] ps]; [done|]. cbn in Hid. subst i.
    unfold remove_pipe, bind at 1, gets. cbn [obind].
    unfold bind at 1. rewrite (find_pipe_before_spec _ _ [] p ps); [|done|apply not_elem_of_nil|unfold pipe_fuel; cbn -[size] in *; lia].
    cbn [last obind]. destruct Hc as (_ & _ & x & E & _). unfold bind, get_pipe_obj, deref.
    rewrite E. cbn [obind]. by destruct (pp_next x =? NULL).
Qed.

(** ** Witnesses *)

Definition ex_pipes : kstate :=
  set_pipes {[ 10 := mkPipe zero_buf 0 5101 11 PIPE_FREE None;
               11 := mkPipe zero_buf 0 5102 12 PIPE_FREE (Some NULL);
               12 := mkPipe zero_buf 0 5103 NULL PIPE_FREE (Some NULL) ]} init_state.

Lemma ex_pipes_prep : prep (pipes ex_pipes) 10 [(10, 5101); (11, 5102); (12, 5103)].
Proof.
  split; [done|split].
  - cbn. by repeat (do 2 (split; [done|]); eexists; split; [reflexivity|]; split; [done|]).
  - cbn. repeat constructor.
Qed.

Lemma get_pipe_correct_witness :
  exists p, get_pipe 10 5103 ex_pipes = Ret p ex_pipes /\
    (p = NULL <-> 5103 ∉ [5101; 5102; 5103]) /\ (p <> NULL -> exists x, pipes ex_pipes !! p = Some x /\ pp_id x = 5103).
Proof. apply (get_pipe_correct ex_pipes 10 [(10, 5101); (11, 5102); (12, 5103)]), ex_pipes_prep. Defined.

Lemma add_pipe_appends_witness :
  returns (add_pipe (L := bump_libc) 10) ex_pipes (fun r s' =>
    (r = ERROR /\ s' = set_mtick (S (mtick ex_pipes)) ex_pipes /\ ~ MallocTotal bump_libc) \/
    (r = 5103 + 1 /\ exists p q,
      prep (pipes s') 10 ([(10, 5101); (11, 5102); (12, 5103)] ++ [(p, 5103 + 1)]) /\ (p ∉ live ex_pipes) /\
      pipes s' !! p = Some (mkPipe zero_buf 0 (5103 + 1) NULL PIPE_FREE (Some q)) /\
      (forall p' x, pipes ex_pipes !! p' = Some x -> exists nx, pipes s' !! p' = Some (set_pp_next nx x)) /\
      ((q = NULL /\ ~ MallocTotal bump_libc) \/
        (q <> NULL /\ (∅ : gmap Z (list (Z * Z))) !! q = None /\ qstore (qst s') (<[q := []]> ∅))) /\
      (hw s' = hw ex_pipes /\ gl s' = gl ex_pipes /\ pcbs s' = pcbs ex_pipes /\ ptabs s' = ptabs ex_pipes /\ uc s' = uc ex_pipes))).
Proof.
  apply (@add_pipe_appends bump_libc bump_libc_laws _ _ _ 5103 ∅).
  - exact ex_pipes_prep.
  - reflexivity.
  - apply store_empty.
  - rewrite dom_empty_L. intros x []%not_elem_of_empty.
Defined.

Lemma remove_pipe_correct_witness :
  returns (remove_pipe 10 5102) ex_pipes (fun r s' =>
    exists m, s' = set_pipes m ex_pipes /\ r = 0 /\ prep m 10 [(10, 5101); (12, 5103)] /\
      m !! 11 = None /\
      (forall p x, p <> 11 -> pipes ex_pipes !! p = Some x ->
        exists nx, m !! p = Some (set_pp_next nx x))).
Proof.
  apply (remove_pipe_correct ex_pipes 10 [(10, 5101); (11, 5102); (12, 5103)] 5102).
  - exact ex_pipes_prep.
  - cbn. left.
Defined.
