(* ===== verification/Memory.v ===== *)
(** * Registers, TLB, page tables and virtual memory

    The privileged registers ([WriteRegister], [ReadRegister]), the page tables
    the kernel edits through [pte_t *] pointers, address translation through the
    active tables and the TLB, and the copies the kernel makes through virtual
    addresses ([memcpy], [memset], stores through user pointers). *)

From Stdlib Require Import ZArith Lia.
From stdpp Require Import base gmap list.
From S2P Require Import Prelude Hardware State Logic.

Open Scope Z_scope.

(** ** Page tables *)

Definition pt_table (t : pt_ptr) (s : kstate) : option (list pte) :=
  match t with
  | PtNull => None
  | PtHeap a => ptabs s !! a
  | PtUser p => user_page_table <$> pcbs s !! p
  | PtKstack p => kernel_stack_pt <$> pcbs s !! p
  end.

Definition pt_put_table (t : pt_ptr) (l : list pte) (s : kstate) : kstate :=
  match t with
  | PtNull => s
  | PtHeap a => set_ptabs (<[a := l]> (ptabs s)) s
  | PtUser p => set_pcbs (alter (set_user_page_table l) p (pcbs s)) s
  | PtKstack p => set_pcbs (alter (set_kernel_stack_pt l) p (pcbs s)) s
  end.

(** A [pte_t *] dereferenced. *)
Definition get_table (t : pt_ptr) : M (list pte) := fun s =>
  match pt_table t s with
  | Some l => Ret l s
  | None => Fault (match t with PtNull => FNull | _ => FBadPtr end)
  end.

Definition pt_get (t : pt_ptr) (i : Z) : M pte :=
  let! l := get_table t in in_bounds (zget l i).

(** ** The TLB *)

Definition region0_vpn (v : Z) : bool := v <? MAX_PT_LEN.
Definition kstack_vpn (v : Z) : bool :=
  (Z.shiftr KERNEL_STACK_BASE PAGESHIFT <=? v) && (v <? Z.shiftr KERNEL_STACK_LIMIT PAGESHIFT).

(** The cached translations of the pages [P] no longer agree with the tables. *)
Definition tlb_mark (P : Z -> bool) (c : gmap Z bool) : gmap Z bool :=
  map_imap (fun v b => Some (if P v then false else b)) c.

Definition tlb_drop (P : Z -> bool) (c : gmap Z bool) : gmap Z bool :=
  filter (fun x => P x.1 = false) c.

(** The virtual page the entry [i] of [t] translates, when [t] is an active table. *)
Definition active_page (t : pt_ptr) (i : Z) (h : khw) : Z -> bool := fun v =>
  (bool_decide (t = r_ptbr0 h) && (v =? i)) ||
  (bool_decide (t = r_ptbr1 h) && (v =? MAX_PT_LEN + i)).

(** A store to a page-table entry; a change of an entry of an active table
    leaves the TLB's translation of that page behind. *)
Definition pt_upd (t : pt_ptr) (i : Z) (f : pte -> pte) : M unit :=
  let! l := get_table t in
  let! e := in_bounds (zget l i) in
  let e' := f e in
  modify (pt_put_table t (<[Z.to_nat i := e']> l)) ;;
  if decide (e = e') then ret tt
  else upd_hw (fun h => set_tlb (tlb_mark (active_page t i h) (tlb h)) h).

(** ** Registers *)

Inductive reg_write :=
  | REG_VM_ENABLE (v : Z)
  | REG_PTBR0 (t : pt_ptr)
  | REG_PTLR0 (n : Z)
  | REG_PTBR1 (t : pt_ptr)
  | REG_PTLR1 (n : Z)
  | REG_VECTOR_BASE
  | REG_TLB_FLUSH (a : Z).

(** The pages whose translations [WriteRegister(REG_TLB_FLUSH, a)] discards. *)
Definition flushed (a v : Z) : bool :=
  if a =? TLB_FLUSH_ALL then true
  else if a =? TLB_FLUSH_0 then region0_vpn v
  else if a =? TLB_FLUSH_1 then negb (region0_vpn v)
  else if a =? TLB_FLUSH_KSTACK then kstack_vpn v
  else v =? Z.shiftr a PAGESHIFT.

Definition write_reg (r : reg_write) (h : khw) : khw :=
  match r with
  | REG_VM_ENABLE v => set_r_vm v h
  | REG_PTBR0 t => set_r_ptbr0 t
      (if decide (t = r_ptbr0 h) then h else set_tlb (tlb_mark region0_vpn (tlb h)) h)
  | REG_PTLR0 n => set_r_ptlr0 n h
  | REG_PTBR1 t => set_r_ptbr1 t
      (if decide (t = r_ptbr1 h) then h
       else set_tlb (tlb_mark (fun v => negb (region0_vpn v)) (tlb h)) h)
  | REG_PTLR1 n => set_r_ptlr1 n h
  | REG_VECTOR_BASE => set_r_vector true h
  | REG_TLB_FLUSH a => set_tlb (tlb_drop (flushed a) (tlb h)) h
  end.

Definition WriteRegister (r : reg_write) : M unit := upd_hw (write_reg r).

(** ** Address translation *)

Definition vpn (a : Z) : Z := Z.shiftr a PAGESHIFT.

Definition page_entry (s : kstate) (v : Z) : option pte :=
  let h := hw s in
  if bool_decide (0 <= v < MAX_PT_LEN) then
    if v <? r_ptlr0 h then l ← pt_table (r_ptbr0 h) s; zget l v else None
  else if bool_decide (MAX_PT_LEN <= v < 2 * MAX_PT_LEN) then
    if v - MAX_PT_LEN <? r_ptlr1 h then l ← pt_table (r_ptbr1 h) s; zget l (v - MAX_PT_LEN) else None
  else None.

(** The protection bit an access needs. *)
Definition prot_bit (write : bool) : Z := if write then 1 else 0.

Definition permits (write : bool) (e : pte) : bool :=
  (valid e =? VALID_FRAME) && Z.testbit (prot e) (prot_bit write).

(** The frame behind the virtual address [a], for an access of the given kind.
    A translation cached since before the page table changed makes the
    access unpredictable. *)
Definition translate (write : bool) (a : Z) : M Z := fun s =>
  if r_vm (hw s) =? VM_DISABLED then Ret (vpn a) s else
  match tlb (hw s) !! vpn a with
  | Some false => Fault FStale
  | _ =>
      match page_entry s (vpn a) with
      | Some e =>
          if permits write e
          then Ret (pfn e) (set_hw (set_tlb (<[vpn a := true]> (tlb (hw s))) (hw s)) s)
          else Fault FSegv
      | None => Fault FSegv
      end
  end.

(** ** Physical memory *)

Definition frame_of (h : khw) (f : Z) : gmap Z Z := default ∅ (frames h !! f).
Definition fbyte (h : khw) (f o : Z) : Z := default 0 (frame_of h f !! o).
Definition fput (f o b : Z) (h : khw) : khw :=
  set_frames (<[f := <[o := b]> (frame_of h f)]> (frames h)) h.

(** ** Accesses through user pointers

    The kernel dereferences the pointers a process passes.  In region 1 they
    reach the process's memory; in region 0 they would reach the kernel's own
    objects, which have no bytes in this model: a fault of its own. *)

Definition user_ptr (a : Z) : M unit :=
  if a <? VMEM_1_BASE then raise FKernelMem else ret tt.

Definition read_byte (a : Z) : M Z :=
  user_ptr a ;;
  let! f := translate false a in
  gets (fun s => fbyte (hw s) f (a mod PAGESIZE)).

Definition write_byte (a b : Z) : M unit :=
  user_ptr a ;;
  let! f := translate true a in
  upd_hw (fput f (a mod PAGESIZE) (b mod 256)).

(** [memcpy(a, kernel bytes, n)] and [memcpy(kernel, a, n)], byte by byte. *)
Fixpoint write_bytes (a : Z) (bs : list Z) : M unit :=
  match bs with
  | [] => ret tt
  | b :: bs' => write_byte a b ;; write_bytes (a + 1) bs'
  end.

Fixpoint read_bytes (a : Z) (n : nat) : M (list Z) :=
  match n with
  | O => ret []
  | S n' => let! b := read_byte a in let! bs := read_bytes (a + 1) n' in ret (b :: bs)
  end.

(** An [int] in memory: four bytes, little-endian, two's complement. *)
Definition int_bytes (v : Z) : list Z :=
  map (fun k => Z.land (Z.shiftr (u32 v) (8 * k)) 255) [0; 1; 2; 3].

Definition bytes_int (bs : list Z) : Z :=
  i32 (foldr (fun b acc => b + 256 * acc) 0 bs).

Definition store_int (a v : Z) : M unit := write_bytes a (int_bytes v).
Definition load_int (a : Z) : M Z := let! bs := read_bytes a 4 in ret (bytes_int bs).

(** [memcpy(dst, src, PAGESIZE)] for page-aligned addresses. *)
Definition copy_page (dst src : Z) : M unit :=
  let! fs := translate false src in
  let! fd := translate true dst in
  upd_hw (fun h => set_frames (<[fd := frame_of h fs]> (frames h)) h).

(** ** Lemmas: page tables *)

Lemma pt_table_put_eq t l s : is_Some (pt_table t s) -> pt_table t (pt_put_table t l s) = Some l.
Proof.
  destruct t as [|a|p|p]; cbn.
  - by intros [? [=]].
  - intros _. apply lookup_insert_eq.
  - intros [? E]. rewrite lookup_alter_eq. by destruct (pcbs s !! p).
  - intros [? E]. rewrite lookup_alter_eq. by destruct (pcbs s !! p).
Qed.

Lemma pt_table_put_ne t t' l s : t <> t' -> pt_table t' (pt_put_table t l s) = pt_table t' s.
Proof.
  intros Hne. destruct t as [|a|p|p], t' as [|a'|p'|p']; cbn; try done.
  - apply lookup_insert_ne. congruence.
  - rewrite lookup_alter_ne; [done|congruence].
  - destruct (decide (p = p')) as [->|]; [|by rewrite lookup_alter_ne].
    rewrite lookup_alter_eq. by destruct (pcbs s !! p').
  - destruct (decide (p = p')) as [->|]; [|by rewrite lookup_alter_ne].
    rewrite lookup_alter_eq. by destruct (pcbs s !! p').
  - rewrite lookup_alter_ne; [done|congruence].
Qed.

Lemma pt_put_table_twice t l l' s : pt_put_table t l (pt_put_table t l' s) = pt_put_table t l s.
Proof.
  destruct t as [|a|p|p], s; cbn; try done.
  - unfold set_ptabs. cbn. by rewrite insert_insert_eq.
  - unfold set_pcbs. cbn. rewrite alter_alter_eq. done.
  - unfold set_pcbs. cbn. rewrite alter_alter_eq. done.
Qed.

Lemma pt_put_same t l s : pt_table t s = Some l -> pt_put_table t l s = s.
Proof.
  destruct t as [|a|p|p], s as [m]; cbn; intros Ht; [done| | |].
  - unfold set_ptabs. cbn. by rewrite insert_id.
  - unfold set_pcbs. cbn. f_equal. apply alter_id. intros x E. rewrite E in Ht. destruct x.
    cbn in Ht. unfold set_user_page_table. cbn. congruence.
  - unfold set_pcbs. cbn. f_equal. apply alter_id. intros x E. rewrite E in Ht. destruct x.
    cbn in Ht. unfold set_kernel_stack_pt. cbn. congruence.
Qed.

Lemma pt_put_user p x l s : pcbs s !! p = Some x ->
  pt_put_table (PtUser p) l s = put_pcb p (set_user_page_table l x) s.
Proof.
  intros E. cbn. unfold put_pcb. f_equal. apply map_eq. intros q.
  destruct (decide (q = p)) as [->|].
  - by rewrite lookup_alter_eq, lookup_insert_eq, E.
  - by rewrite lookup_alter_ne, lookup_insert_ne.
Qed.

Lemma pt_put_kstack p x l s : pcbs s !! p = Some x ->
  pt_put_table (PtKstack p) l s = put_pcb p (set_kernel_stack_pt l x) s.
Proof.
  intros E. cbn. unfold put_pcb. f_equal. apply map_eq. intros q.
  destruct (decide (q = p)) as [->|].
  - by rewrite lookup_alter_eq, lookup_insert_eq, E.
  - by rewrite lookup_alter_ne, lookup_insert_ne.
Qed.

(** The components of the state a page-table update leaves alone. *)
Lemma pt_put_table_others t l s : let s' := pt_put_table t l s in
  qst s' = qst s /\ lst s' = lst s /\ pipes s' = pipes s /\ bufs s' = bufs s /\
  mtick s' = mtick s /\ hw s' = hw s /\ gl s' = gl s /\ uc s' = uc s.
Proof. by destruct t. Qed.

(** ** Lemmas: the TLB *)

Lemma lookup_tlb_mark P c v :
  tlb_mark P c !! v = (fun b => if P v then false else b) <$> c !! v.
Proof. unfold tlb_mark. rewrite map_lookup_imap. by destruct (c !! v). Qed.

Lemma lookup_tlb_drop P c v : tlb_drop P c !! v = if P v then None else c !! v.
Proof.
  unfold tlb_drop. destruct (P v) eqn:E.
  - apply map_lookup_filter_None. right. intros x _. cbn. congruence.
  - destruct (c !! v) as [b|] eqn:Ec.
    + by apply map_lookup_filter_Some.
    + apply map_lookup_filter_None. by left.
Qed.

Lemma tlb_mark_none P c : (forall v, P v = false) -> tlb_mark P c = c.
Proof.
  intros H. apply map_eq. intros v. rewrite lookup_tlb_mark, H. by destruct (c !! v).
Qed.

(** An update of any table: at most the translations of the updated page become stale. *)
Lemma pt_upd_spec t i f s l e :
  pt_table t s = Some l -> zget l i = Some e ->
  exists c, pt_upd t i f s =
      Ret tt (set_hw (set_tlb c (hw s)) (pt_put_table t (<[Z.to_nat i := f e]> l) s)) /\
    forall v, active_page t i (hw s) v = false -> c !! v = tlb (hw s) !! v.
Proof.
  intros Ht He. unfold pt_upd, bind, get_table. rewrite Ht. cbn [obind]. rewrite He.
  cbn [in_bounds ret obind]. unfold modify. cbn [obind].
  set (s1 := pt_put_table _ _ _).
  assert (Hh : hw s1 = hw s) by (by apply pt_put_table_others).
  destruct (decide (e = f e)).
  - exists (tlb (hw s)). split; [|done]. unfold ret. f_equal. rewrite <- Hh.
    by destruct s1 as [???????[]].
  - eexists. unfold upd_hw, modify. rewrite Hh. split; [reflexivity|].
    intros v Hv. rewrite lookup_tlb_mark, Hv. by destruct (tlb (hw s) !! v).
Qed.

(** The state with another table at [t] and other translations in the TLB. *)
Definition tab_upd (t : pt_ptr) (l : list pte) (c : gmap Z bool) (s : kstate) : kstate :=
  set_hw (set_tlb c (hw s)) (pt_put_table t l s).

Lemma tab_upd_twice t l l' c c' s : tab_upd t l' c' (tab_upd t l c s) = tab_upd t l' c' s.
Proof.
  unfold tab_upd. destruct t as [|a|p|p], s; unfold set_hw, set_ptabs, set_pcbs; cbn; try done.
  - by rewrite insert_insert_eq.
  - by rewrite alter_alter_eq.
  - by rewrite alter_alter_eq.
Qed.

Lemma tab_upd_lst t l c h s : tab_upd t l c (set_lst h s) = set_lst h (tab_upd t l c s).
Proof. by destruct t, s. Qed.

Lemma tab_upd_mtick t l c n s : tab_upd t l c (set_mtick n s) = set_mtick n (tab_upd t l c s).
Proof. by destruct t, s. Qed.

Lemma pt_table_tab_upd t l c s : is_Some (pt_table t s) -> pt_table t (tab_upd t l c s) = Some l.
Proof. intros H. unfold tab_upd. destruct t; exact (pt_table_put_eq _ _ _ H). Qed.

Lemma tab_upd_same t l s : pt_table t s = Some l -> tab_upd t l (tlb (hw s)) s = s.
Proof. intros H. unfold tab_upd. rewrite pt_put_same by done. by destruct s as [???????[]]. Qed.

Lemma hw_tab_upd t l c s : hw (tab_upd t l c s) = set_tlb c (hw s).
Proof. done. Qed.

Lemma gl_tab_upd t l c s : gl (tab_upd t l c s) = gl s.
Proof. by destruct t. Qed.

Lemma lst_tab_upd t l c s : lst (tab_upd t l c s) = lst s.
Proof. by destruct t. Qed.

(** Translations outside a set of pages are as they were; those of the pages are
    stale when the pages' entries have changed. *)
Definition tlb_off (P : Z -> bool) (c c' : gmap Z bool) : Prop := forall v, P v = false -> c' !! v = c !! v.
Definition tlb_stale (P : Z -> bool) (c c' : gmap Z bool) : Prop :=
  forall v, P v = true -> c' !! v = (fun _ => false) <$> c !! v.

Lemma tlb_off_trans P c1 c2 c3 : tlb_off P c1 c2 -> tlb_off P c2 c3 -> tlb_off P c1 c3.
Proof. intros H1 H2 v Hv. by rewrite H2, H1. Qed.

Lemma tlb_off_mono (P P' : Z -> bool) c c' : (forall v, P' v = false -> P v = false) ->
  tlb_off P c c' -> tlb_off P' c c'.
Proof. intros H Hc v Hv. by apply Hc, H. Qed.

(** The TLB after an entry [e] of an active table has become [e']. *)
Definition tlb_step (P : Z -> bool) (e e' : pte) (c : gmap Z bool) : gmap Z bool :=
  if decide (e = e') then c else tlb_mark P c.

Lemma tlb_step_off P e e' c : tlb_off P c (tlb_step P e e' c).
Proof.
  intros v Hv. unfold tlb_step. destruct (decide _); [done|].
  rewrite lookup_tlb_mark, Hv. by destruct (c !! v).
Qed.

Lemma tlb_step_on P e e' c v : P v = true ->
  tlb_step P e e' c !! v = if decide (e = e') then c !! v else (fun _ => false) <$> c !! v.
Proof. intros Hv. unfold tlb_step. destruct (decide _); [done|]. by rewrite lookup_tlb_mark, Hv. Qed.

Lemma tlb_step3_stale P e0 e1 e2 e3 c : e3 <> e0 ->
  tlb_stale P c (tlb_step P e2 e3 (tlb_step P e1 e2 (tlb_step P e0 e1 c))).
Proof.
  intros Hne v Hv. rewrite !tlb_step_on by done.
  repeat destruct (decide _); subst; try done; by destruct (c !! v).
Qed.

Lemma pt_upd_at t l e l' f s : pt_table t s = Some (l ++ e :: l') ->
  pt_upd t (Z.of_nat (length l)) f s = Ret tt (tab_upd t (l ++ f e :: l')
    (tlb_step (active_page t (Z.of_nat (length l)) (hw s)) e (f e) (tlb (hw s))) s).
Proof.
  intros Ht. unfold pt_upd, bind, get_table. rewrite Ht. cbn [obind]. rewrite zget_app.
  cbn [in_bounds ret obind]. unfold modify. rewrite Nat2Z.id, insert_app. cbn [obind].
  destruct (pt_put_table_others t (l ++ f e :: l') s) as (_ & _ & _ & _ & _ & Hh & _).
  unfold tlb_step, tab_upd. destruct (decide (e = f e)); unfold ret, upd_hw, modify; f_equal.
  - rewrite <- Hh. by destruct (pt_put_table t (l ++ f e :: l') s) as [???????[]].
  - by rewrite Hh.
Qed.

(** Three updates of one entry in a row, then the rest. *)
Lemma returns_pt_upd3 {A} t l e l' f g k (m : M A) s (P : A -> kstate -> Prop) :
  pt_table t s = Some (l ++ e :: l') ->
  let i := Z.of_nat (length l) in
  (forall c, tlb_off (active_page t i (hw s)) (tlb (hw s)) c ->
    (k (g (f e)) <> e -> tlb_stale (active_page t i (hw s)) (tlb (hw s)) c) ->
    returns m (tab_upd t (l ++ k (g (f e)) :: l') c s) P) ->
  returns (pt_upd t i f ;; pt_upd t i g ;; pt_upd t i k ;; m) s P.
Proof.
  intros Ht i Hm. assert (Hs : is_Some (pt_table t s)) by (by rewrite Ht).
  apply returns_bind. eapply returns_exec; [by apply pt_upd_at|].
  apply returns_bind. eapply returns_exec; [by apply pt_upd_at, pt_table_tab_upd|]. rewrite tab_upd_twice.
  apply returns_bind. eapply returns_exec; [by apply pt_upd_at, pt_table_tab_upd|]. rewrite tab_upd_twice.
  apply Hm.
  - eapply tlb_off_trans; [apply tlb_step_off|]. eapply tlb_off_trans; [apply tlb_step_off|apply tlb_step_off].
  - intros Hne. by apply tlb_step3_stale.
Qed.

Lemma returns_pt_get t i l e s (P : pte -> kstate -> Prop) :
  pt_table t s = Some l -> zget l i = Some e -> P e s -> returns (pt_get t i) s P.
Proof.
  intros Ht He HP. apply returns_bind. eapply returns_exec; [unfold get_table; by rewrite Ht|].
  by eapply returns_in_bounds.
Qed.

(** Updates of a table that is not active. *)
Definition inactive (t : pt_ptr) (s : kstate) : Prop := t <> r_ptbr0 (hw s) /\ t <> r_ptbr1 (hw s).

Lemma pt_upd_inactive t l e l' f s :
  pt_table t s = Some (l ++ e :: l') -> inactive t s ->
  pt_upd t (Z.of_nat (length l)) f s = Ret tt (pt_put_table t (l ++ f e :: l') s).
Proof.
  intros Ht [H0 H1]. unfold pt_upd, bind, get_table. rewrite Ht. cbn [obind].
  rewrite zget_app. cbn [in_bounds ret obind]. unfold modify. rewrite Nat2Z.id, insert_app. cbn [obind].
  destruct (pt_put_table_others t (l ++ f e :: l') s) as (_ & _ & _ & _ & _ & Hh & _).
  destruct (decide (e = f e)); [done|]. unfold upd_hw, modify. rewrite Hh. f_equal.
  rewrite tlb_mark_none.
  - destruct t, s as [???????[] ??]; done.
  - intros v. unfold active_page. by rewrite !bool_decide_false.
Qed.

Lemma inactive_put t t' l s : inactive t (pt_put_table t' l s) <-> inactive t s.
Proof.
  unfold inactive. by destruct (pt_put_table_others t' l s) as (_ & _ & _ & _ & _ & -> & _).
Qed.

(** Three updates of one entry in a row. *)
Lemma pt_upd3_inactive t l e l' f g k s :
  pt_table t s = Some (l ++ e :: l') -> inactive t s ->
  (let i := Z.of_nat (length l) in pt_upd t i f ;; pt_upd t i g ;; pt_upd t i k) s =
    Ret tt (pt_put_table t (l ++ k (g (f e)) :: l') s).
Proof.
  intros Ht Hi. cbv zeta. unfold bind. rewrite (pt_upd_inactive _ _ _ _ _ _ Ht Hi). cbn [obind].
  rewrite (pt_upd_inactive _ l (f e) l'); [|by apply pt_table_put_eq|by apply inactive_put].
  rewrite pt_put_table_twice. cbn [obind].
  rewrite (pt_upd_inactive _ l (g (f e)) l'); [|by apply pt_table_put_eq|by apply inactive_put].
  by rewrite pt_put_table_twice.
Qed.

(** A loop that updates every entry of a table. *)
Lemma mfor_pt_upd t (fs : list (pte -> pte)) (body : Z -> M unit) s l rest :
  (forall i s l e l', pt_table t s = Some (l ++ e :: l') -> inactive t s -> i = Z.of_nat (length l) ->
    body i s = Ret tt (pt_put_table t (l ++ foldl (fun x f => f x) e fs :: l') s)) ->
  pt_table t s = Some (l ++ rest) -> inactive t s ->
  mfor (zrange (Z.of_nat (length l)) (length rest)) body s =
    Ret tt (pt_put_table t (l ++ map (fun e => foldl (fun x f => f x) e fs) rest) s).
Proof.
  intros Hb. revert s l. induction rest as [|e rest IH]; intros s l Ht Hi; cbn [length zrange mfor map].
  - unfold ret. f_equal. symmetry. by apply pt_put_same.
  - unfold bind. rewrite (Hb _ s l e rest); [|done..]. cbn [obind].
    set (e' := foldl _ _ _). set (s1 := pt_put_table _ _ _).
    assert (Ht1 : pt_table t s1 = Some ((l ++ [e']) ++ rest)).
    { rewrite <- app_assoc. apply pt_table_put_eq. eauto. }
    replace (Z.of_nat (length l) + 1) with (Z.of_nat (length (l ++ [e']))) by (rewrite length_app; cbn; lia).
    rewrite (IH s1 (l ++ [e'])); [|done|by apply inactive_put].
    unfold s1. by rewrite pt_put_table_twice, <- app_assoc.
Qed.

(** ** Lemmas: physical memory *)

Lemma fbyte_fput h f o b f' o' :
  fbyte (fput f o b h) f' o' = if bool_decide (f = f' /\ o = o') then b else fbyte h f' o'.
Proof.
  unfold fbyte, fput, frame_of at 1. cbn. destruct (decide (f = f')) as [->|Hf].
  - rewrite lookup_insert_eq. cbn. destruct (decide (o = o')) as [->|Ho].
    + rewrite lookup_insert_eq. by rewrite bool_decide_true.
    + rewrite lookup_insert_ne by done. rewrite bool_decide_false by tauto. done.
  - rewrite lookup_insert_ne by done. rewrite bool_decide_false by tauto. done.
Qed.

(** ** Copies to and from user memory *)

(** The byte of physical memory behind [a]. *)
Definition phys (s : kstate) (a : Z) : Z * Z :=
  (default 0 (pfn <$> page_entry s (vpn a)), a mod PAGESIZE).

(** The [n] bytes at [a] are mapped in region 1 with the given access and no
    translation of them is stale. *)
Definition uaccess (write : bool) (s : kstate) (a : Z) (n : nat) : Prop :=
  r_vm (hw s) = VM_ENABLED /\ VMEM_1_BASE <= a /\
  forall i, 0 <= i < Z.of_nat n ->
    tlb (hw s) !! vpn (a + i) <> Some false /\
    exists e, page_entry s (vpn (a + i)) = Some e /\ permits write e = true.

(** No two of the [n] bytes at [a] share a byte of physical memory. *)
Definition unaliased (s : kstate) (a : Z) (n : nat) : Prop :=
  forall i j, 0 <= i < Z.of_nat n -> 0 <= j < Z.of_nat n -> phys s (a + i) = phys s (a + j) -> i = j.

(** The user bytes at [a]. *)
Definition ubytes (s : kstate) (a : Z) (n : nat) : list Z :=
  map (fun i => fbyte (hw s) (phys s (a + i)).1 (phys s (a + i)).2) (zrange 0 n).

(** [h'] differs from [h] in the contents of frames, and in pages newly cached. *)
Definition hw_mem_only (h h' : khw) : Prop :=
  exists c m, h' = set_tlb c (set_frames m h) /\
    forall v, c !! v = tlb h !! v \/ c !! v = Some true /\ tlb h !! v <> Some false.

Lemma hw_mem_only_refl h : hw_mem_only h h.
Proof. exists (tlb h), (frames h). split; [by destruct h|]. by left. Qed.

Lemma hw_mem_only_trans h1 h2 h3 : hw_mem_only h1 h2 -> hw_mem_only h2 h3 -> hw_mem_only h1 h3.
Proof.
  intros (c & m & -> & H1) (c' & m' & -> & H2). exists c', m'. split; [by destruct h1|].
  intros v. specialize (H1 v). specialize (H2 v). cbn in H2. destruct H1 as [H1|[H1 H1']].
  - rewrite <- H1. done.
  - right. split; [|done]. rewrite H1 in H2. by destruct H2 as [H2|[H2 _]].
Qed.

Lemma page_entry_mem_only s h v : hw_mem_only (hw s) h -> page_entry (set_hw h s) v = page_entry s v.
Proof. by intros (c & m & -> & _). Qed.

Lemma phys_mem_only s h a : hw_mem_only (hw s) h -> phys (set_hw h s) a = phys s a.
Proof. intros H. unfold phys. by rewrite page_entry_mem_only. Qed.

Lemma uaccess_mem_only write s h a n :
  hw_mem_only (hw s) h -> uaccess write s a n -> uaccess write (set_hw h s) a n.
Proof.
  intros Hm (Hv & Ha & H). destruct (Hm) as (c & m & -> & Hc). split; [done|]. split; [done|].
  intros i Hi. rewrite page_entry_mem_only by done. destruct (H i Hi) as [Ht He]. split; [|done].
  cbn. destruct (Hc (vpn (a + i))) as [->|[-> _]]; done.
Qed.

Lemma uaccess_tail write s a n : uaccess write s a (S n) -> uaccess write s (a + 1) n.
Proof.
  intros (Hv & Ha & H). split; [done|]. split; [lia|]. intros i Hi.
  replace (a + 1 + i) with (a + (1 + i)) by lia. apply H. lia.
Qed.

Lemma uaccess_app write s a n m :
  uaccess write s a (n + m) -> uaccess write s a n /\ uaccess write s (a + Z.of_nat n) m.
Proof.
  intros (Hv & Ha & H). split; (split; [done|]).
  - split; [done|]. intros i Hi. apply H. lia.
  - split; [lia|]. intros i Hi. rewrite <- Z.add_assoc. apply H. lia.
Qed.

Lemma translate_ok write s a e :
  r_vm (hw s) = VM_ENABLED -> tlb (hw s) !! vpn a <> Some false ->
  page_entry s (vpn a) = Some e -> permits write e = true ->
  translate write a s =
    Ret (pfn e) (set_hw (set_tlb (<[vpn a := true]> (tlb (hw s))) (hw s)) s).
Proof.
  intros Hv Ht He Hp. unfold translate. rewrite Hv, He, Hp. cbn [Z.eqb VM_ENABLED VM_DISABLED].
  by destruct (tlb (hw s) !! vpn a) as [[]|].
Qed.

Lemma vpn_page i o : 0 <= o < PAGESIZE -> vpn (Z.shiftl i PAGESHIFT + o) = i.
Proof.
  intros Ho. unfold vpn. rewrite shiftr_page, Z.shiftl_mul_pow2 by done.
  change PAGESIZE with 8192 in *. change (2 ^ PAGESHIFT) with 8192. 
  symmetry. apply Z.div_unique with (r := o); lia.
Qed.

Lemma vpn_shiftl i : vpn (Z.shiftl i PAGESHIFT) = i.
Proof. rewrite <- (Z.add_0_r (Z.shiftl _ _)). by apply vpn_page. Qed.

(** Flushing one page of region 0 or 1. *)
Lemma flushed_page i v : 0 <= i -> flushed (Z.shiftl i PAGESHIFT) v = (v =? i).
Proof.
  intros Hi. unfold flushed. assert (0 <= Z.shiftl i PAGESHIFT) by (by apply Z.shiftl_nonneg).
  unfold TLB_FLUSH_ALL, TLB_FLUSH_0, TLB_FLUSH_1, TLB_FLUSH_KSTACK.
  do 4 (match goal with |- context [?x =? ?y] => destruct (Z.eqb_spec x y); [lia|] end).
  f_equal. apply vpn_shiftl.
Qed.

(** A page copied through two translations that are not stale. *)
Lemma returns_copy_page s sv dv es ed (P : unit -> kstate -> Prop) : r_vm (hw s) = VM_ENABLED ->
  tlb (hw s) !! sv <> Some false -> page_entry s sv = Some es -> permits false es = true ->
  tlb (hw s) !! dv <> Some false -> page_entry s dv = Some ed -> permits true ed = true ->
  P tt (set_hw (set_frames (<[pfn ed := frame_of (hw s) (pfn es)]> (frames (hw s)))
    (set_tlb (<[dv := true]> (<[sv := true]> (tlb (hw s)))) (hw s))) s) ->
  returns (copy_page (Z.shiftl dv PAGESHIFT) (Z.shiftl sv PAGESHIFT)) s P.
Proof.
  intros Hvm Hts Hes Hps Htd Hed Hpd HP. unfold copy_page. apply returns_bind.
  eapply returns_exec; [apply translate_ok; rewrite ?vpn_shiftl; [exact Hvm|exact Hts|exact Hes|exact Hps]|].
  rewrite vpn_shiftl. apply returns_bind. eapply returns_exec.
  - apply translate_ok; rewrite ?vpn_shiftl; [exact Hvm| |exact Hed|exact Hpd].
    cbn [hw set_hw tlb set_tlb]. destruct (decide (dv = sv)) as [->|]; [by rewrite lookup_insert_eq|by rewrite lookup_insert_ne].
  - rewrite vpn_shiftl. apply returns_modify. exact HP.
Qed.

Lemma translate_spec write s a n :
  uaccess write s a (S n) ->
  translate write a s =
    Ret (phys s a).1 (set_hw (set_tlb (<[vpn a := true]> (tlb (hw s))) (hw s)) s).
Proof.
  intros (Hv & Ha & H). destruct (H 0) as [Ht (e & He & Hp)]; [lia|]. rewrite Z.add_0_r in *.
  unfold translate. rewrite Hv. cbn [Z.eqb VM_ENABLED VM_DISABLED].
  unfold phys. rewrite He, Hp. cbn. destruct (tlb (hw s) !! vpn a) as [[]|]; done.
Qed.

Lemma hw_tlb_fill s a : tlb (hw s) !! vpn a <> Some false ->
  hw_mem_only (hw s) (set_tlb (<[vpn a := true]> (tlb (hw s))) (hw s)).
Proof.
  intros Ht. exists (<[vpn a := true]> (tlb (hw s))), (frames (hw s)). split; [by destruct (hw s)|].
  intros v. destruct (decide (v = vpn a)) as [->|].
  - right. by rewrite lookup_insert_eq.
  - left. by rewrite lookup_insert_ne.
Qed.

Lemma hw_fput_only h f o b : hw_mem_only h (fput f o b h).
Proof. exists (tlb h), (frames (fput f o b h)). split; [by destruct h|]. by left. Qed.

(** Writing the bytes [bs] at [a] puts them there, byte for byte (modulo 256), and
    changes no other byte of physical memory. *)
Lemma write_bytes_spec bs s a :
  uaccess true s a (length bs) -> unaliased s a (length bs) ->
  returns (write_bytes a bs) s (fun _ s' => exists h, s' = set_hw h s /\ hw_mem_only (hw s) h /\
    ubytes s' a (length bs) = map (fun b => b mod 256) bs /\
    (forall f o, (forall i, 0 <= i < Z.of_nat (length bs) -> phys s (a + i) <> (f, o)) ->
      fbyte h f o = fbyte (hw s) f o)).
Proof.
  revert s a. induction bs as [|b bs IH]; intros s a Hacc Hun; cbn [write_bytes length].
  - rstep. exists (hw s). split; [by destruct s|]. split; [apply hw_mem_only_refl|]. done.
  - rstep. unfold write_byte, user_ptr.
    destruct (Hacc) as (_ & Ha & H0). destruct (Z.ltb_spec a VMEM_1_BASE); [lia|]. rsteps.
    eapply returns_exec; [by eapply translate_spec|]. rsteps. cbn [hw set_hw].
    set (h1 := fput _ _ _ _).
    assert (Hm1 : hw_mem_only (hw s) h1).
    { eapply hw_mem_only_trans; [apply (hw_tlb_fill s a)|apply hw_fput_only].
      destruct (H0 0) as [Ht _]; [cbn; lia|]. by rewrite Z.add_0_r in Ht. }
    change (set_hw h1 (set_hw _ s)) with (set_hw h1 s).
    eapply returns_mono; [apply (IH (set_hw h1 s) (a + 1))|].
    + apply uaccess_mem_only; [done|]. by apply uaccess_tail.
    + intros i j Hi Hj. rewrite !phys_mem_only by done. intros E.
      assert (i + 1 = j + 1); [|lia]. apply Hun; [cbn; lia..|].
      by replace (a + (i + 1)) with (a + 1 + i) by lia; replace (a + (j + 1)) with (a + 1 + j) by lia.
    + intros _ s' (h & -> & Hm & Hb & Hf). exists h. split; [done|].
      change (set_hw h (set_hw h1 s)) with (set_hw h s) in *. change (hw (set_hw h1 s)) with h1 in *.
      assert (Hm2 : hw_mem_only (hw s) h) by (by eapply hw_mem_only_trans).
      split; [done|]. split.
      * unfold ubytes in *. cbn [length zrange map]. change (hw (set_hw h s)) with h in *. f_equal.
        -- rewrite Z.add_0_r, phys_mem_only by done. rewrite Hf.
           ++ unfold h1. rewrite fbyte_fput, bool_decide_true; [done|]. by unfold phys.
           ++ intros i Hi. rewrite phys_mem_only by done. intros E. 
              rewrite <- surjective_pairing in E.
              assert (i + 1 = 0); [|lia]. apply Hun; [cbn; lia..|]. rewrite Z.add_0_r.
              by replace (a + (i + 1)) with (a + 1 + i) by lia.
        -- rewrite <- Hb. apply zrange_shift_map. intros i.
           rewrite !phys_mem_only by done.
           by replace (a + (1 + i)) with (a + 1 + i) by lia.
      * intros f o Hfo. rewrite Hf.
        -- unfold h1. rewrite fbyte_fput, bool_decide_false; [done|].
           intros [E1 E2]. apply (Hfo 0); [cbn; lia|]. rewrite Z.add_0_r.
           unfold phys in *. cbn in *. congruence.
        -- intros i Hi. rewrite phys_mem_only by done. replace (a + 1 + i) with (a + (i + 1)) by lia.
           apply Hfo. cbn. lia.
Qed.

Lemma read_bytes_spec n s a :
  uaccess false s a n ->
  returns (read_bytes a n) s (fun r s' => exists h, s' = set_hw h s /\ hw_mem_only (hw s) h /\
    frames h = frames (hw s) /\ r = ubytes s a n).
Proof.
  revert s a. induction n as [|n IH]; intros s a Hacc; cbn [read_bytes].
  - rstep. exists (hw s). split; [by destruct s|]. split; [apply hw_mem_only_refl|]. done.
  - rstep. unfold read_byte, user_ptr.
    destruct (Hacc) as (_ & Ha & H0). destruct (Z.ltb_spec a VMEM_1_BASE); [lia|]. rsteps.
    eapply returns_exec; [by eapply translate_spec|]. rsteps.
    set (h1 := set_tlb _ _).
    assert (Hm1 : hw_mem_only (hw s) h1).
    { apply hw_tlb_fill. destruct (H0 0) as [Ht _]; [lia|]. by rewrite Z.add_0_r in Ht. }
    eapply returns_mono; [apply (IH (set_hw h1 s) (a + 1))|].
    + apply uaccess_mem_only; [done|]. by apply uaccess_tail.
    + intros r s' (h & -> & Hm & Hf & ->). rstep.
      change (hw (set_hw h1 s)) with h1 in *. exists h. split; [done|].
      split; [by eapply hw_mem_only_trans|]. split; [by rewrite Hf|].
      unfold ubytes. cbn [zrange map]. f_equal.
      * rewrite Z.add_0_r. unfold phys. done.
      * symmetry. apply zrange_shift_map. intros i. rewrite !phys_mem_only by done.
        by replace (a + (1 + i)) with (a + 1 + i) by lia.
Qed.

(** An [int] stored is the [int] loaded. *)
Lemma bytes_int_int_bytes v : bytes_int (int_bytes v) = i32 v.
Proof.
  unfold bytes_int, int_bytes. cbn [map foldr]. rewrite <- (i32_u32 v).
  pose proof (u32_range v) as Hr. set (x := u32 v) in *. f_equal.
  change 255 with (Z.ones 8). rewrite !Z.land_ones, !Z.shiftr_div_pow2 by lia.
  change (8 * 0) with 0. change (8 * 1) with 8. change (8 * 2) with 16. change (8 * 3) with 24.
  change (2 ^ 0) with 1. change (2 ^ 8) with 256. change (2 ^ 16) with 65536.
  change (2 ^ 24) with 16777216. rewrite Z.div_1_r.
  pose proof (Z.div_mod x 256). pose proof (Z.div_mod (x / 256) 256).
  pose proof (Z.div_mod (x / 65536) 256).
  assert (x / 65536 = x / 256 / 256) by (by rewrite Z.div_div by lia).
  assert (x / 16777216 = x / 65536 / 256) by (by rewrite Z.div_div by lia).
  assert (x / 16777216 mod 256 = x / 16777216); [|lia].
  apply Z.mod_small. split; [apply Z.div_pos; lia|]. apply Z.div_lt_upper_bound; lia.
Qed.

Lemma int_bytes_mod v : map (fun b => b mod 256) (int_bytes v) = int_bytes v.
Proof.
  unfold int_bytes. rewrite map_map. apply map_ext. intros k.
  change 255 with (Z.ones 8). rewrite Z.land_ones by lia. apply Z.mod_mod. lia.
Qed.

Lemma store_int_spec s a v :
  uaccess true s a 4 -> unaliased s a 4 ->
  returns (store_int a v) s (fun _ s' => exists h, s' = set_hw h s /\ hw_mem_only (hw s) h /\
    bytes_int (ubytes s' a 4) = i32 v).
Proof.
  intros Hacc Hun. eapply returns_mono; [by apply write_bytes_spec|]. cbv beta.
  intros _ s' (h & -> & Hm & Hb & _). exists h. do 2 (split; [done|]).
  change (length (int_bytes v)) with 4%nat in Hb. rewrite Hb, int_bytes_mod. apply bytes_int_int_bytes.
Qed.

(** States with the same hardware and the same page tables have the same user memory. *)
Definition same_memory (s s' : kstate) : Prop :=
  hw s' = hw s /\ forall t, pt_table t s' = pt_table t s.

Lemma page_entry_same s s' v : same_memory s s' -> page_entry s' v = page_entry s v.
Proof. intros [Hh Ht]. unfold page_entry. rewrite Hh. by rewrite !Ht. Qed.

Lemma phys_same s s' a : same_memory s s' -> phys s' a = phys s a.
Proof. intros H. unfold phys. by rewrite (page_entry_same s s'). Qed.

Lemma uaccess_same write s s' a n : same_memory s s' -> uaccess write s a n -> uaccess write s' a n.
Proof.
  intros H (Hv & Ha & Hi). pose proof H as [Hh _]. split; [by rewrite Hh|]. split; [done|].
  intros i Hlt. rewrite Hh, (page_entry_same s s') by done. by apply Hi.
Qed.

Lemma unaliased_same s s' a n : same_memory s s' -> unaliased s a n -> unaliased s' a n.
Proof. intros H Hu i j Hi Hj. rewrite !(phys_same s s') by done. by apply Hu. Qed.

Lemma ubytes_same s s' a n : same_memory s s' -> ubytes s' a n = ubytes s a n.
Proof.
  intros H. unfold ubytes. pose proof H as [Hh _]. rewrite Hh. apply map_ext. intros i.
  by rewrite (phys_same s s').
Qed.

(** A store to a field of a PCB that is not a page table. *)
Lemma same_memory_put_pcb s p x x' : pcbs s !! p = Some x ->
  user_page_table x' = user_page_table x -> kernel_stack_pt x' = kernel_stack_pt x ->
  same_memory s (put_pcb p x' s).
Proof.
  intros Hx Hu Hk. split; [done|]. intros [|a|q|q]; cbn; try done;
    (destruct (decide (q = p)) as [->|]; [rewrite lookup_insert_eq, Hx; cbn; by rewrite ?Hu, ?Hk|by rewrite lookup_insert_ne]).
Qed.

Lemma same_memory_refl s : same_memory s s.
Proof. by split. Qed.

Lemma same_memory_trans s1 s2 s3 : same_memory s1 s2 -> same_memory s2 s3 -> same_memory s1 s3.
Proof. intros [H1 T1] [H2 T2]. split; [congruence|]. intros t. by rewrite T2. Qed.

Lemma same_memory_queues s h n : same_memory s (set_qst h (set_mtick n s)).
Proof. split; [done|]. by intros []. Qed.
