(* ===== verification/Frames.v ===== *)
(** * The page frame allocator ([AllocatePFN], [DeallocatePFN] of [kernel.c])

    A stack of free frames on [pfn_list], proved against the interface
    [ListStore] of the linked lists. *)

From Stdlib Require Import ZArith Lia.
From stdpp Require Import base gmap list.
From S2P Require Import Prelude Hardware State Logic KList.

Open Scope Z_scope.

(** ** The operations *)

Section frame_ops.
Context `{L : Libc}.

Definition AllocatePFN : M Z :=
  let! pl := gets (fun s => pfn_list (gl s)) in
  let! l := get_list pl in
  if l_size l =? 0 then ret ERROR else
  let! pfn := list_pop pl in
  if (pfn =? NULL) || (pfn =? -1) then ret ERROR else
  ret pfn.

Definition DeallocatePFN (pfn : Z) : M Z :=
  let! pl := gets (fun s => pfn_list (gl s)) in
  let! r := list_add pl pfn in
  if r =? -1 then ret ERROR else ret 0.

(** [n] frames, or [None] as soon as one cannot be had. *)
Fixpoint allocate_frames (n : nat) : M (option (list Z)) :=
  match n with
  | O => ret (Some [])
  | S n' =>
      let! pfn := AllocatePFN in
      if pfn =? ERROR then ret None else
      let! r := allocate_frames n' in
      ret (option_map (cons pfn) r)
  end.

Fixpoint free_frames (fs : list Z) : M Z :=
  match fs with
  | [] => ret 0
  | f :: fs' => let! r := DeallocatePFN f in if r =? ERROR then ret ERROR else free_frames fs'
  end.

End frame_ops.

(** A frame the allocator may hand out: not the frames it takes for failure codes. *)
Definition good_frame (f : Z) : Prop := f <> NULL /\ f <> ERROR.

(** What the frame allocator promises the virtual memory code: [F s fl] says that
    [fl] are the free frames, next to be handed out first, [F_frame] that
    only the list heap and the allocator's clock matter. *)
Class FrameAllocator (L : Libc) (F : kstate -> list Z -> Prop) : Prop := {
  fa_alloc : forall s f fl, F s (f :: fl) -> good_frame f ->
    returns AllocatePFN s (fun r s' => exists h, s' = set_lst h s /\ r = f /\ F s' fl);
  fa_alloc_none : forall s, F s [] -> AllocatePFN s = Ret ERROR s;
  fa_free : forall s f fl, MallocTotal L -> F s fl ->
    returns (DeallocatePFN f) s (fun r s' => exists h, s' = set_lst h (set_mtick (S (mtick s)) s) /\
      r = 0 /\ F s' (f :: fl));
  fa_frame : forall s s' fl, lst s' = lst s -> pfn_list (gl s') = pfn_list (gl s) -> F s fl -> F s' fl }.

(** The free list held in a store of lists. *)
Definition free_list (R : lheap -> gmap Z (list Z) -> Prop) (V : gmap Z (list Z))
    (s : kstate) (fl : list Z) : Prop :=
  R (lst s) (<[pfn_list (gl s) := fl]> V).

Section implementation.
Context `{L : Libc} {LL : LibcLaws L} {R : lheap -> gmap Z (list Z) -> Prop} {LS : ListStore L R}.

#[export] Instance free_list_allocator V : FrameAllocator L (free_list R V).
Proof.
  split.
  - intros s f fl HF [H0 H1]. unfold AllocatePFN. rsteps.
    destruct (ls_size _ _ _ _ HF (lookup_insert_eq _ _ _)) as (k & Ek & Hk).
    unfold get_list at 1. rsteps. rewrite Hk.
    destruct (Z.eqb_spec (Z.of_nat (length (f :: fl))) 0); [cbn in *; lia|]. rstep.
    eapply returns_mono; [eapply (ls_pop (R := R)); [exact HF|apply lookup_insert_eq]|]. cbv beta.
    intros r s' (h & -> & -> & HR). cbn [head_or List.hd].
    destruct (Z.eqb_spec f NULL); [done|]. destruct (Z.eqb_spec f (-1)); [done|]. cbn [orb]. rstep.
    exists h. do 2 (split; [done|]). unfold free_list. cbn [tail] in HR. by rewrite insert_insert_eq in HR.
  - intros s HF. unfold AllocatePFN, bind, gets. cbn [obind].
    destruct (ls_size _ _ _ _ HF (lookup_insert_eq _ _ _)) as (k & Ek & Hk).
    unfold get_list, deref. rewrite Ek. cbn [obind]. by rewrite Hk.
  - intros s f fl MT HF. unfold DeallocatePFN. rsteps.
    eapply returns_mono; [eapply (ls_add (R := R)); [exact HF|apply lookup_insert_eq]|]. cbv beta.
    intros r s' (h & -> & [[-> HR]|(_ & _ & E)]); [|by destruct (MT _ _ E)].
    destruct (Z.eqb_spec (Z.of_nat (length fl) + 1) (-1)); [lia|]. rstep. exists h.
    do 2 (split; [done|]). unfold free_list. by rewrite insert_insert_eq in HR.
  - intros s s' fl E1 E2. unfold free_list. by rewrite E1, E2.
Qed.

End implementation.

Section clients.
Context `{L : Libc} {F : kstate -> list Z -> Prop} {FA : FrameAllocator L F}.

(** C24: with [n] good frames free, [n] allocations succeed and hand out the first
    [n] free frames in order, pairwise distinct when the free frames are, leaving
    the others free; with fewer than [n] the allocation fails, and nothing but the
    list heap changes either way. *)
Theorem allocate_frames_correct n s fl :
  F s fl -> NoDup fl -> Forall good_frame fl ->
  returns (allocate_frames n) s (fun r s' => exists h, s' = set_lst h s /\
    match r with
    | Some fs => fs = take n fl /\ length fs = n /\ NoDup fs /\ F s' (drop n fl) /\
        (forall f, f ∈ fs -> f ∉ drop n fl)
    | None => (length fl < n)%nat /\ F s' []
    end).
Proof.
  revert s fl. induction n as [|n IH]; intros s fl HF Hnd Hg; cbn [allocate_frames].
  - rstep. exists (lst s). split; [by destruct s|]. rewrite take_0, drop_0.
    do 2 (split; [done|]). split; [constructor|]. split; [by eapply fa_frame|]. by intros f ?%not_elem_of_nil.
  - rstep. destruct fl as [|f fl].
    + eapply returns_exec; [by apply fa_alloc_none|]. cbn [Z.eqb ERROR Pos.eqb]. rstep.
      exists (lst s). split; [by destruct s|]. split; [cbn; lia|]. done.
    + inversion Hg; subst. eapply returns_mono; [by eapply fa_alloc|]. cbv beta.
      intros r s1 (h & -> & -> & HF1). apply NoDup_cons in Hnd as [Hf Hnd].
      destruct (Z.eqb_spec f ERROR) as [->|]; [by destruct H1|]. rstep.
      eapply returns_mono; [by apply (IH _ fl)|]. cbv beta.
      intros r s' (h' & -> & Hr). rstep. exists h'. split; [done|].
      destruct r as [fs|]; cbn [option_map].
      * destruct Hr as (-> & Hlen & Hnd' & HF' & Hd). cbn [take drop length].
        split; [done|]. split; [by rewrite Hlen|]. split; [|split; [done|]].
        -- constructor; [|done]. intros Hin. apply Hf. rewrite <- (take_drop n fl). apply elem_of_app. by left.
        -- intros g [->|Hg']%elem_of_cons; [|by apply Hd].
           intros Hin. apply Hf. rewrite <- (take_drop n fl). apply elem_of_app. by right.
      * destruct Hr as [Hlen HF']. cbn. split; [lia|done].
Qed.

(** Freeing frames puts them back in front of the free list, the last one
    freed first. *)
Theorem free_frames_correct fs s fl :
  MallocTotal L -> F s fl ->
  returns (free_frames fs) s (fun r s' => exists h n, s' = set_lst h (set_mtick n s) /\
    r = 0 /\ F s' (rev fs ++ fl)).
Proof.
  intros MT. revert s fl. induction fs as [|f fs IH]; intros s fl HF; cbn [free_frames rev].
  - rstep. exists (lst s), (mtick s). split; [by destruct s|]. done.
  - rstep. eapply returns_mono; [by apply (fa_free s f fl)|]. cbv beta.
    intros r s1 (h & -> & -> & HF1). cbn [Z.eqb ERROR].
    eapply returns_mono; [by apply (IH _ (f :: fl))|]. cbv beta.
    intros r s' (h' & n & -> & -> & HF'). exists h', n. do 2 (split; [done|]). by rewrite <- app_assoc.
Qed.

End clients.

(** ** Witnesses *)

(** Frames 71 and 70 are free. *)
Definition ex_free_state : kstate :=
  set_gl (set_pfn_list 1 init_glob) (set_lst ex_lists init_state).

Lemma ex_free : free_list lstore ∅ ex_free_state [71; 70].
Proof. exact ex_lists_lstore. Qed.

Lemma allocate_frames_correct_witness :
  returns (allocate_frames 2) ex_free_state (fun r s' => exists h, s' = set_lst h ex_free_state /\
    match r with
    | Some fs => fs = [71; 70] /\ length fs = 2%nat /\ NoDup fs /\ free_list lstore ∅ s' [] /\
        (forall f, f ∈ fs -> f ∉ [])
    | None => (length [71; 70] < 2)%nat /\ free_list lstore ∅ s' []
    end).
Proof.
  apply (allocate_frames_correct (L := bump_libc) (F := free_list lstore ∅) 2 ex_free_state [71; 70]).
  - exact ex_free.
  - by apply (bool_decide_unpack _).
  - repeat constructor; done.
Defined.

Lemma free_frames_correct_witness :
  returns (free_frames (L := bump_libc) [80; 81]) ex_free_state (fun r s' => exists h n,
    s' = set_lst h (set_mtick n ex_free_state) /\ r = 0 /\ free_list lstore ∅ s' [81; 80; 71; 70]).
Proof.
  apply (free_frames_correct (L := bump_libc) (F := free_list lstore ∅) [80; 81] ex_free_state [71; 70]).
  - exact bump_libc_total.
  - exact ex_free.
Defined.
