(* ===== verification/Process.v ===== *)
(** * Processes ([process.c])

    Creation and deletion of processes and the copy of an address space for
    [Fork].  [SwapProcess] is in [Sched]. *)

From Stdlib Require Import ZArith Lia.
From stdpp Require Import base gmap list.
From S2P Require Import Prelude Hardware State Logic KList Memory Frames.

Open Scope Z_scope.

(** ** The operations *)

Section process_ops.
Context `{L : Libc}.

(** The next process id. *)
Definition helper_new_pid : M Z :=
  let! n := gets (fun s => pid_tick (hw s)) in
  upd_hw (set_pid_tick (S n)) ;;
  ret (new_pid n).

Definition malloc_pcb : M Z := fun s => malloc put_pcb (raw_pcb (mtick s)) s.
Definition free_pcb (p : Z) : M unit :=
  get_pcb p ;; modify (fun s => set_pcbs (delete p (pcbs s)) s).

Definition KSTACK_VPN : Z := Z.shiftr KERNEL_STACK_BASE PAGESHIFT.

(** The body of the two loops of [free_addr_space]. *)
Definition free_valid (t : pt_ptr) (i : Z) : M (option Z) :=
  let! e := pt_get t i in
  if valid e =? VALID_FRAME then
    let! r := DeallocatePFN (pfn e) in
    if r =? ERROR then ret (Some ERROR) else ret None
  else ret None.

Definition free_addr_space (u_pt k_stack : pt_ptr) : M Z :=
  if decide (u_pt = PtNull \/ k_stack = PtNull) then ret ERROR else
  returning! mfor_ret (zseq 0 KERNEL_STACK_SIZE) (free_valid k_stack) in
  returning! mfor_ret (zseq 0 USER_PT_SIZE) (free_valid u_pt) in
  ret 0.

Definition delete_process (p : Z) : M Z :=
  if p =? NULL then ret ERROR else
  free_addr_space (PtUser p) (PtKstack p) ;;
  free_pcb p ;;
  ret 0.

(** The kernel stack of a new process: fresh frames for every process but the
    first, the stack the kernel booted on for the first. *)
Definition init_kernel_stack (process : Z) : M (option Z) :=
  let! p := get_pcb process in
  if negb (pid p =? 0) then
    mfor_ret (zseq 0 KERNEL_STACK_SIZE) (fun index =>
      let! pfn := AllocatePFN in
      if pfn =? ERROR then
        free_addr_space (PtUser process) (PtKstack process) ;;
        ret (Some NULL)
      else
        pt_upd (PtKstack process) index (set_valid INVALID_FRAME) ;;
        pt_upd (PtKstack process) index (set_pfn pfn) ;;
        pt_upd (PtKstack process) index (set_prot NO_X_W_R) ;;
        ret None)
  else
    let! k_pt := gets (fun s => r_ptbr0 (hw s)) in
    mfor (zseq 0 KERNEL_STACK_SIZE) (fun i =>
      let! e := pt_get k_pt (KSTACK_VPN + i) in
      pt_upd (PtKstack process) i (set_pfn (pfn e)) ;;
      pt_upd (PtKstack process) i (set_prot NO_X_W_R) ;;
      pt_upd (PtKstack process) i (set_valid VALID_FRAME)) ;;
    ret None.

Definition init_process (uctxt : Z) : M Z :=
  let! process := malloc_pcb in
  if process =? NULL then ret NULL else
  upd_pcb process (set_num_children 0) ;;
  upd_pcb process (set_clock_ticks 0) ;;
  upd_pcb process (set_blocked_code NOT_BLOCKED) ;;
  upd_pcb process (set_exit_code 0) ;;
  upd_pcb process (set_tty_terminal 0) ;;
  upd_pcb process (set_user_context uctxt_zero) ;;
  upd_pcb process (set_kernel_context 0) ;;
  let! u := get_uc uctxt in
  upd_pcb process (set_user_context u) ;;
  let! n := helper_new_pid in
  upd_pcb process (set_pid n) ;;
  let! a := gets active in
  (if a =? NULL then
     upd_pcb process (fun p => set_ppid (pid p) p)
   else
     let! ap := get_pcb a in
     upd_pcb process (set_ppid (pid ap)) ;;
     upd_pcb a (fun p => set_num_children (num_children p + 1) p)) ;;
  mfor (zseq 0 USER_PT_SIZE) (fun index =>
    pt_upd (PtUser process) index (set_valid INVALID_FRAME) ;;
    pt_upd (PtUser process) index (set_pfn 0) ;;
    pt_upd (PtUser process) index (set_prot NO_X_NO_W_NO_R)) ;;
  returning! init_kernel_stack process in
  upd_pcb process (set_user_stack_pt_index 0) ;;
  upd_pcb process (set_user_heap_pt_index 0) ;;
  upd_pcb process (set_user_text_pt_index 0) ;;
  upd_pcb process (set_user_data_pt_index 0) ;;
  ret process.

(** One page of [CopyUPT]'s loop. *)
Definition copy_user_page (u_pt1 u_pt2 k_pt : pt_ptr) (reserved i : Z) : M (option Z) :=
  let r1_base := Z.shiftr VMEM_1_BASE PAGESHIFT in
  let! e1 := pt_get u_pt1 i in
  if valid e1 =? VALID_FRAME then
    let! pfn := AllocatePFN in
    if pfn =? -1 then ret (Some ERROR) else
    pt_upd k_pt reserved (set_pfn pfn) ;;
    pt_upd u_pt2 i (set_pfn pfn) ;;
    pt_upd u_pt2 i (set_prot NO_X_W_R) ;;
    pt_upd u_pt2 i (set_valid VALID_FRAME) ;;
    let dst := Z.shiftl reserved PAGESHIFT in
    let src := Z.shiftl (r1_base + i) PAGESHIFT in
    WriteRegister (REG_TLB_FLUSH dst) ;;
    copy_page dst src ;;
    let! e1 := pt_get u_pt1 i in
    pt_upd u_pt2 i (set_prot (prot e1)) ;;
    ret None
  else ret None.

Definition CopyUPT (u_pt1 u_pt2 k_pt : pt_ptr) (reserved_kernel_index : Z) : M Z :=
  if decide (u_pt1 = PtNull \/ u_pt2 = PtNull \/ k_pt = PtNull) then ret ERROR else
  if reserved_kernel_index <? 0 then ret ERROR else
  returning! mfor_ret (zseq 0 USER_PT_SIZE)
    (copy_user_page u_pt1 u_pt2 k_pt reserved_kernel_index) in
  ret 0.

End process_ops.

(** ** What the operations compute *)

(** The frames the valid entries of a table refer to. *)
Definition valid_pfns (l : list pte) : list Z :=
  map pfn (List.filter (fun e => valid e =? VALID_FRAME) l).

(** The child's table after the copy of [src] with the free frames [fl]. *)
Fixpoint copy_ptes (src dst : list pte) (fl : list Z) : list pte :=
  match src, dst with
  | e1 :: src', e2 :: dst' =>
      if valid e1 =? VALID_FRAME then
        match fl with
        | f :: fl' => mkPte VALID_FRAME (Z.land (prot e1) 7) f :: copy_ptes src' dst' fl'
        | [] => e2 :: dst'
        end
      else e2 :: copy_ptes src' dst' fl
  | _, _ => dst
  end.

(** ** Lemmas *)

Section process_lemmas.
Context `{L : Libc} {F : kstate -> list Z -> Prop} {FA : FrameAllocator L F}.

Lemma pt_table_heap t h n s : pt_table t (set_lst h (set_mtick n s)) = pt_table t s.
Proof. by destruct t. Qed.

(** The loop of [free_addr_space] over the rest of a table. *)
Lemma free_valid_loop t rest l s fl :
  MallocTotal L -> F s fl -> pt_table t s = Some (l ++ rest) ->
  returns (mfor_ret (zrange (Z.of_nat (length l)) (length rest)) (free_valid t)) s
    (fun o s' => o = None /\ exists h n, s' = set_lst h (set_mtick n s) /\ F s' (rev (valid_pfns rest) ++ fl)).
Proof.
  intros MT. revert l s fl. induction rest as [|e rest IH]; intros l s fl HF Ht.
  - cbn. split; [done|]. exists (lst s), (mtick s). split; [by destruct s|]. done.
  - cbn [length zrange mfor_ret]. rstep.
    apply returns_mono with (P := fun o s1 => o = None /\ exists h n, s1 = set_lst h (set_mtick n s) /\
      F s1 (rev (valid_pfns [e]) ++ fl)).
    + unfold free_valid, pt_get. rstep. rstep. eapply returns_exec.
      { unfold get_table. by rewrite Ht. }
      rstep; [apply zget_app|]. unfold valid_pfns. cbn [List.filter].
      destruct (valid e =? VALID_FRAME); cbn [map rev app].
      * rstep. eapply returns_mono; [by apply (fa_free s (pfn e) fl)|]. cbv beta.
        intros r s1 (h & -> & -> & HF1). cbn [Z.eqb ERROR]. rstep. split; [done|]. by exists h, (S (mtick s)).
      * rstep. split; [done|]. exists (lst s), (mtick s). by destruct s.
    + intros o s1 (-> & h & n & -> & HF1).
      replace (Z.of_nat (length l) + 1) with (Z.of_nat (length (l ++ [e]))) by (rewrite length_app; cbn; lia).
      eapply returns_mono; [eapply (IH (l ++ [e])); [exact HF1|]|].
      * rewrite pt_table_heap, <- app_assoc. exact Ht.
      * cbv beta. intros o s' (-> & h' & n' & -> & HF'). split; [done|]. exists h', n'. split; [done|].
        rewrite app_assoc, <- rev_app_distr in HF'. unfold valid_pfns in *. cbn [List.filter] in *.
        by destruct (valid e =? VALID_FRAME).
Qed.

Lemma free_addr_space_spec s u_pt k_stack ul kl fl :
  MallocTotal L -> F s fl ->
  pt_table u_pt s = Some ul -> length ul = Z.to_nat USER_PT_SIZE ->
  pt_table k_stack s = Some kl -> length kl = Z.to_nat KERNEL_STACK_SIZE ->
  returns (free_addr_space u_pt k_stack) s (fun r s' => exists h n, s' = set_lst h (set_mtick n s) /\
    r = 0 /\ F s' (rev (valid_pfns kl ++ valid_pfns ul) ++ fl)).
Proof.
  intros MT HF Hu Hul Hk Hkl. unfold free_addr_space.
  destruct (decide _) as [[->| ->]|_]; [done..|].
  rstep. unfold zseq. rewrite !Z.sub_0_r, <- Hkl. change 0 with (Z.of_nat (length (@nil pte))) at 1.
  eapply returns_mono; [by apply (free_valid_loop k_stack kl [] s fl)|]. cbv beta.
  intros o s1 (-> & h & n & -> & HF1). rstep. rewrite <- Hul. change 0 with (Z.of_nat (length (@nil pte))) at 1.
  eapply returns_mono; [apply (free_valid_loop u_pt ul [] _ _ MT HF1); by rewrite pt_table_heap|]. cbv beta.
  intros o s2 (-> & h2 & n2 & -> & HF2). rstep. exists h2, n2. do 2 (split; [done|]).
  by rewrite rev_app_distr, <- app_assoc.
Qed.

(** C25: [free_addr_space] gives every frame of a valid entry of the two tables back
    to the free list, the kernel stack's first, and changes nothing else.  The
    entries stay valid: freeing the address space once more, as the exit after a
    failed [Exec] does, puts every frame on the free list a second time. *)
Theorem free_addr_space_correct s u_pt k_stack ul kl fl :
  MallocTotal L -> F s fl ->
  pt_table u_pt s = Some ul -> length ul = Z.to_nat USER_PT_SIZE ->
  pt_table k_stack s = Some kl -> length kl = Z.to_nat KERNEL_STACK_SIZE ->
  let freed := rev (valid_pfns kl ++ valid_pfns ul) in
  returns (free_addr_space u_pt k_stack) s (fun r s' => r = 0 /\
    (exists h n, s' = set_lst h (set_mtick n s)) /\ F s' (freed ++ fl) /\
    returns (free_addr_space u_pt k_stack) s' (fun r s'' => r = 0 /\ F s'' (freed ++ freed ++ fl))).
Proof.
  intros MT HF Hu Hul Hk Hkl freed. eapply returns_mono; [by apply (free_addr_space_spec s u_pt k_stack ul kl fl)|].
  cbv beta. intros r s' (h & n & -> & -> & HF'). split; [done|]. split; [by exists h, n|]. split; [done|].
  eapply returns_mono; [apply (free_addr_space_spec _ u_pt k_stack ul kl _ MT HF')|].
  1, 3: by rewrite pt_table_heap. 1, 2: done.
  cbv beta. intros r s'' (_ & _ & _ & -> & HF''). done.
Qed.

End process_lemmas.

(** ** The copy of an address space *)

(** What [CopyUPT] leaves alone besides the tables, the free list, the frames and the TLB. *)
Definition same_rest (s s' : kstate) : Prop :=
  qst s' = qst s /\ pipes s' = pipes s /\ bufs s' = bufs s /\ mtick s' = mtick s /\
  gl s' = gl s /\ uc s' = uc s.

(** The machine as [CopyUPT] finds it: the parent [P] runs on its own table, the
    kernel's table is [K], whose entry [ri] is the reserved page. *)
Record copy_ready (s : kstate) (P C K ri : Z) (u1 u2 : list pte) : Prop := {
  cr_vm : r_vm (hw s) = VM_ENABLED;
  cr_b0 : r_ptbr0 (hw s) = PtHeap K;
  cr_l0 : r_ptlr0 (hw s) = MAX_PT_LEN;
  cr_b1 : r_ptbr1 (hw s) = PtUser P;
  cr_l1 : r_ptlr1 (hw s) = MAX_PT_LEN;
  cr_ne : P <> C;
  cr_u1 : pt_table (PtUser P) s = Some u1;
  cr_u2 : pt_table (PtUser C) s = Some u2;
  cr_len1 : length u1 = Z.to_nat USER_PT_SIZE;
  cr_len2 : length u2 = Z.to_nat USER_PT_SIZE;
  cr_ri : 0 <= ri < MAX_PT_LEN;
  cr_k : exists kt ek, ptabs s !! K = Some kt /\ zget kt ri = Some ek /\
    valid ek = VALID_FRAME /\ prot ek = NO_X_W_R;
  cr_tlb : forall v, MAX_PT_LEN <= v -> tlb (hw s) !! v <> Some false }.

(** The kernel tables but for the reserved entry. *)
Definition reserved_only (K ri : Z) (s s' : kstate) : Prop :=
  exists kt kt', ptabs s !! K = Some kt /\ ptabs s' = <[K := kt']> (ptabs s) /\
    forall e, <[Z.to_nat ri := e]> kt' = <[Z.to_nat ri := e]> kt.

(** The TLB but for the reserved page and for pages newly cached. *)
Definition tlb_window (ri : Z) (c c' : gmap Z bool) : Prop :=
  (forall v, v < MAX_PT_LEN -> v <> ri -> c' !! v = c !! v) /\
  (forall v, MAX_PT_LEN <= v -> c !! v <> Some false -> c' !! v <> Some false).

(** The state changes of [CopyUPT]: the child's table, the reserved entry's
    frame, frames and the TLB. *)
Record copied (s s' : kstate) (C K ri : Z) (u2 : list pte) : Prop := {
  cp_pcbs : pcbs s' = alter (set_user_page_table u2) C (pcbs s);
  cp_rest : same_rest s s';
  cp_ptabs : reserved_only K ri s s';
  cp_hw : exists c m, hw s' = set_tlb c (set_frames m (hw s)) /\ tlb_window ri (tlb (hw s)) c }.

Lemma valid_pfns_cons e l :
  valid_pfns (e :: l) = (if valid e =? VALID_FRAME then [pfn e] else []) ++ valid_pfns l.
Proof. unfold valid_pfns. cbn. by destruct (valid e =? VALID_FRAME). Qed.

Lemma valid_pfns_elem l j e : l !! j = Some e -> valid e = VALID_FRAME -> pfn e ∈ valid_pfns l.
Proof.
  intros E Hv. apply list_elem_of_In, in_map_iff. exists e. split; [done|].
  apply filter_In. split; [by eapply list_elem_of_In, list_elem_of_lookup_2|]. by apply Z.eqb_eq.
Qed.

Lemma valid_pfns_app l l' : valid_pfns (l ++ l') = valid_pfns l ++ valid_pfns l'.
Proof. unfold valid_pfns. by rewrite List.filter_app, map_app. Qed.

(** A frame number that fits the [pfn] field and is not a failure code. *)
Definition frame24 (f : Z) : Prop := 0 < f < 2 ^ 24.

Lemma frame24_good f : frame24 f -> good_frame f.
Proof. unfold frame24, good_frame, NULL, ERROR. lia. Qed.

Section copy.
Context `{L : Libc} {F : kstate -> list Z -> Prop} {FA : FrameAllocator L F}.

(** The copy of a page after the flush: the reserved entry [ek] of the kernel's table
    [kt] maps the frame [f], and the child's table is [u]. *)
Definition copy_window (s : kstate) (C K ri : Z) (kt u : list pte) (ek : pte) (f : Z) (c : gmap Z bool) (h : lheap) : kstate :=
  let s2 := tab_upd (PtHeap K) (<[Z.to_nat ri := set_pfn f ek]> kt) c (set_lst h s) in
  let s3 := pt_put_table (PtUser C) u s2 in
  set_hw (write_reg (REG_TLB_FLUSH (Z.shiftl ri PAGESHIFT)) (hw s3)) s3.

Lemma copy_window_spec s P C K ri u1 u2 kt u ek f c h : copy_ready s P C K ri u1 u2 ->
  ptabs s !! K = Some kt -> zget kt ri = Some ek ->
  (forall v, active_page (PtHeap K) ri (hw s) v = false -> c !! v = tlb (hw s) !! v) ->
  let s4 := copy_window s C K ri kt u ek f c h in
  pt_table (PtUser P) s4 = Some u1 /\ pt_table (PtUser C) s4 = Some u /\
  (forall i e, zget u1 i = Some e -> page_entry s4 (MAX_PT_LEN + i) = Some e) /\
  page_entry s4 ri = Some (set_pfn f ek) /\
  forall v, tlb (hw s4) !! v = if v =? ri then None else tlb (hw s) !! v.
Proof.
  intros [Hvm Hb0 Hl0 Hb1 Hl1 Hne Hu1 Hu2 Hlen1 Hlen2 Hri _ Htlb] Hk Hek Hc s4.
  assert (Hp4 : pt_table (PtUser P) s4 = Some u1).
  { etransitivity; [|exact Hu1]. refine (pt_table_put_ne (PtUser C) (PtUser P) u (tab_upd _ _ _ _) _). congruence. }
  split; [exact Hp4|]. split; [by refine (pt_table_put_eq (PtUser C) u (tab_upd _ _ _ _) _); exists u2|].
  change MAX_PT_LEN with 128 in *. split; [|split].
  - intros i e He. pose proof (zget_Some _ _ _ He) as Hi. rewrite Hlen1 in Hi.
    change (Z.of_nat (Z.to_nat USER_PT_SIZE)) with 128 in Hi. unfold page_entry. change MAX_PT_LEN with 128.
    rewrite bool_decide_false, bool_decide_true by lia. change (r_ptlr1 (hw s4)) with (r_ptlr1 (hw s)).
    change (r_ptbr1 (hw s4)) with (r_ptbr1 (hw s)). rewrite Hl1, Hb1, Hp4. change MAX_PT_LEN with 128.
    replace (128 + i - 128) with i by lia. by destruct (Z.ltb_spec i 128); [|lia].
  - unfold page_entry. change MAX_PT_LEN with 128. rewrite bool_decide_true by lia.
    change (r_ptlr0 (hw s4)) with (r_ptlr0 (hw s)). change (r_ptbr0 (hw s4)) with (r_ptbr0 (hw s)). rewrite Hl0, Hb0.
    destruct (Z.ltb_spec ri 128); [|lia]. change (pt_table (PtHeap K) s4) with (<[K := <[Z.to_nat ri := set_pfn f ek]> kt]> (ptabs s) !! K).
    rewrite lookup_insert_eq. eapply zget_zset_eq, zset_Some. by eapply zget_Some.
  - intros v. change (tlb (hw s4)) with (tlb_drop (flushed (Z.shiftl ri PAGESHIFT)) c).
    rewrite lookup_tlb_drop, flushed_page by lia. destruct (Z.eqb_spec v ri) as [|Hv]; [done|].
    apply Hc. unfold active_page. rewrite Hb1, (bool_decide_false (PtHeap K = PtUser P)) by congruence.
    destruct (Z.eqb_spec v ri); [done|]. by rewrite andb_false_r.
Qed.

(** The machine is ready for the next page when the child's table, the reserved entry,
    the frames and the cache are all that changed. *)
Lemma copy_closes s s' P C K ri u1 u2 u kt ek f c m : copy_ready s P C K ri u1 u2 ->
  ptabs s !! K = Some kt -> zget kt ri = Some ek -> length u = length u2 ->
  pcbs s' = alter (set_user_page_table u) C (pcbs s) -> same_rest s s' ->
  ptabs s' = <[K := <[Z.to_nat ri := set_pfn f ek]> kt]> (ptabs s) ->
  hw s' = set_tlb c (set_frames m (hw s)) -> tlb_window ri (tlb (hw s)) c ->
  copy_ready s' P C K ri u1 u /\ copied s s' C K ri u.
Proof.
  intros [Hvm Hb0 Hl0 Hb1 Hl1 Hne Hu1 Hu2 Hlen1 Hlen2 Hri (kt' & ek' & Hk' & Hek' & Hv & Hp) Htlb] Hk Hek Hlen Ep Er Et Eh Hw.
  assert (kt' = kt) as -> by congruence. assert (ek' = ek) as -> by congruence. split.
  - split; rewrite ?Eh, ?Ep; try done; cbn [pt_table]; rewrite ?Ep.
    + by rewrite lookup_alter_ne.
    + cbn [pt_table] in Hu2. rewrite lookup_alter_eq. by destruct (pcbs s !! C).
    + by rewrite Hlen.
    + exists (<[Z.to_nat ri := set_pfn f ek]> kt), (set_pfn f ek). rewrite Et, lookup_insert_eq. split; [done|]. split; [|done].
      eapply zget_zset_eq, zset_Some. by eapply zget_Some.
    + intros v Hv'. apply Hw; [done|]. by apply Htlb.
  - split; [done|done| |by exists c, m]. exists kt, (<[Z.to_nat ri := set_pfn f ek]> kt). do 2 (split; [done|]).
    intros e. apply list_insert_insert_eq.
Qed.

Lemma copy_user_page_valid s P C K ri u1 l2 e2 r2 e1 f fl :
  copy_ready s P C K ri u1 (l2 ++ e2 :: r2) -> zget u1 (Z.of_nat (length l2)) = Some e1 ->
  permits false e1 = true -> F s (f :: fl) -> frame24 f ->
  returns (copy_user_page (PtUser P) (PtUser C) (PtHeap K) ri (Z.of_nat (length l2))) s
    (fun o s' => let u2 := l2 ++ mkPte VALID_FRAME (Z.land (prot e1) 7) f :: r2 in
      o = None /\ copy_ready s' P C K ri u1 u2 /\ copied s s' C K ri u2 /\ F s' fl /\
      frames (hw s') = <[f := frame_of (hw s) (pfn e1)]> (frames (hw s))).
Proof.
  intros R He1 Hperm HF Hf. pose proof R as [Hvm Hb0 Hl0 Hb1 Hl1 Hne Hu1 Hu2 Hlen1 Hlen2 Hri (kt & ek & Hk & Hek & Hvk & Hpk) Htlb].
  set (i := Z.of_nat (length l2)) in *.
  assert (Hv1 : (valid e1 =? VALID_FRAME) = true) by (unfold permits in Hperm; by apply andb_prop in Hperm as [? _]).
  assert (Hpfn : Z.land f 0xFFFFFF = f) by (apply land_pfn_small; unfold frame24 in Hf; lia).
  assert (Hin : forall s', r_ptbr0 (hw s') = PtHeap K -> r_ptbr1 (hw s') = PtUser P -> inactive (PtUser C) s').
  { intros s' E0 E1. unfold inactive. rewrite E0, E1. split; congruence. }
  unfold copy_user_page, pt_get. rsteps. eapply returns_exec; [unfold get_table; by rewrite Hu1|].
  rstep; [exact He1|]. rewrite Hv1. rstep.
  eapply returns_mono; [apply (fa_alloc s f fl); [done|by apply frame24_good]|]. cbv beta.
  intros r s1 (h & -> & -> & HF1). destruct (Z.eqb_spec f (-1)); [unfold frame24 in Hf; lia|].
  destruct (pt_upd_spec (PtHeap K) ri (set_pfn f) (set_lst h s) kt ek Hk Hek) as (c & E & Hc).
  rstep. eapply returns_exec; [exact E|]. clear E. fold (tab_upd (PtHeap K) (<[Z.to_nat ri := set_pfn f ek]> kt) c (set_lst h s)).
  rstep. eapply returns_exec; [apply pt_upd_inactive; [exact Hu2|by apply Hin]|].
  do 2 (rstep; eapply returns_exec; [apply pt_upd_inactive; [by apply pt_table_put_eq; exists (l2 ++ e2 :: r2)|by apply Hin]|];
    rewrite pt_put_table_twice).
  cbv beta zeta. set (e3 := set_valid _ _). rstep. apply returns_modify. cbv beta.
  change (set_hw _ _) with (copy_window s C K ri kt (l2 ++ e3 :: r2) ek f c h).
  destruct (copy_window_spec s P C K ri u1 _ kt (l2 ++ e3 :: r2) ek f c h R Hk Hek Hc) as (Hp4 & Hc4 & Hsrc & Hdst & H4).
  set (s4 := copy_window _ _ _ _ _ _ _ _ _ _) in *. change (Z.shiftr VMEM_1_BASE PAGESHIFT) with MAX_PT_LEN.
  change MAX_PT_LEN with 128 in *. assert (Hi : 0 <= i) by lia.
  rstep. eapply returns_copy_page; [exact Hvm| |by apply Hsrc|exact Hperm| |exact Hdst|unfold permits; cbn; by rewrite Hvk, Hpk|].
  { rewrite H4. destruct (Z.eqb_spec (128 + i) ri); [lia|]. apply Htlb. lia. }
  { by rewrite H4, Z.eqb_refl. }
  cbn [pfn set_pfn]. rewrite Hpfn. set (s7 := set_hw _ s4).
  rstep. rstep. eapply returns_exec; [unfold get_table; change (pt_table (PtUser P) s7) with (pt_table (PtUser P) s4); by rewrite Hp4|].
  rstep; [exact He1|]. rstep. eapply returns_exec; [apply pt_upd_inactive; [exact Hc4|by apply Hin]|].
  rstep. unfold e3, set_prot, set_valid, set_pfn. cbn [valid prot pfn]. rewrite Hpfn. change (Z.land VALID_FRAME 1) with VALID_FRAME.
  set (u2 := l2 ++ _ :: r2). split; [done|].
  set (s8 := pt_put_table _ _ s7).
  destruct (copy_closes s s8 P C K ri u1 _ u2 kt ek f (<[ri := true]> (<[128 + i := true]> (tlb (hw s4))))
    (<[f := frame_of (hw s) (pfn e1)]> (frames (hw s))) R Hk Hek) as [R' C']; try done.
  { unfold u2. by rewrite !length_app. }
  { change (pcbs s8) with (alter (set_user_page_table u2) C (alter (set_user_page_table (l2 ++ e3 :: r2)) C (pcbs s))).
    by rewrite alter_alter_eq. }
  { split; intros v Hv; change MAX_PT_LEN with 128 in Hv; [intros Hvr|intros Ht].
    - rewrite !lookup_insert_ne, H4 by lia. by destruct (Z.eqb_spec v ri).
    - rewrite lookup_insert_ne by lia. destruct (decide (v = 128 + i)) as [->|]; [by rewrite lookup_insert_eq|].
      rewrite lookup_insert_ne, H4 by done. by destruct (Z.eqb_spec v ri). }
  split; [exact R'|]. split; [exact C'|]. split; [|done]. eapply fa_frame; [| |exact HF1]; done.
Qed.

Lemma copied_trans s s1 s2 C K ri u u' :
  copied s s1 C K ri u -> copied s1 s2 C K ri u' -> copied s s2 C K ri u'.
Proof.
  intros [P1 (?&?&?&?&?&?) (kt & kt1 & K1 & T1 & I1) (c & m & E1 & [W1 V1])]
    [P2 (?&?&?&?&?&?) (kt1' & kt2 & K2 & T2 & I2) (c' & m' & E2 & [W2 V2])].
  rewrite T1, lookup_insert_eq in K2. injection K2 as <-. rewrite E1 in W2, V2. cbn in W2, V2. split.
  - by rewrite P2, P1, alter_alter_eq.
  - repeat split; congruence.
  - exists kt, kt2. split; [done|]. split; [by rewrite T2, T1, insert_insert_eq|]. intros e. by rewrite I2.
  - exists c', m'. split; [by rewrite E2, E1|]. split; intros v Hv Hv'; [by rewrite W2, W1|]. auto.
Qed.

Lemma copied_refl s C K ri u kt : pt_table (PtUser C) s = Some u -> ptabs s !! K = Some kt ->
  copied s s C K ri u.
Proof.
  intros Hu Hk. split; [|done| |].
  - change (pcbs s = pcbs (pt_put_table (PtUser C) u s)). by rewrite pt_put_same.
  - exists kt, kt. by rewrite insert_id.
  - exists (tlb (hw s)), (frames (hw s)). split; [by destruct (hw s)|]. by split.
Qed.

(** The loop of [CopyUPT] over the rest of the tables. *)
Lemma copy_user_pages P C K ri u1 r1 : forall l2 r2 s fl,
  copy_ready s P C K ri u1 (l2 ++ r2) -> drop (length l2) u1 = r1 -> length r1 = length r2 ->
  Forall (fun e => valid e = VALID_FRAME -> permits false e = true) r1 ->
  F s fl -> Forall frame24 fl -> NoDup fl -> (length (valid_pfns r1) <= length fl)%nat ->
  (forall f, f ∈ fl -> f ∉ valid_pfns r1) ->
  returns (mfor_ret (zrange (Z.of_nat (length l2)) (length r1))
    (copy_user_page (PtUser P) (PtUser C) (PtHeap K) ri)) s
    (fun o s' => let n := length (valid_pfns r1) in let c2 := copy_ptes r1 r2 fl in
      o = None /\ copied s s' C K ri (l2 ++ c2) /\ F s' (drop n fl) /\
      (forall f, f ∉ take n fl -> frame_of (hw s') f = frame_of (hw s) f) /\
      (forall j e1 e2, r1 !! j = Some e1 -> c2 !! j = Some e2 -> valid e1 = VALID_FRAME ->
        frame_of (hw s') (pfn e2) = frame_of (hw s) (pfn e1))).
Proof.
  induction r1 as [|e1 r1 IH]; intros l2 r2 s fl R Hu1 Hlen Hperm HF Hg Hnd Hn Hdisj.
  { destruct r2; [|done]. cbn. split; [done|]. split; [|by split].
    destruct (cr_k _ _ _ _ _ _ _ R) as (kt & _ & Hk & _). pose proof (cr_u2 _ _ _ _ _ _ _ R) as Hu2.
    rewrite app_nil_r in *. by eapply copied_refl. }
  destruct r2 as [|e2 r2]; [done|]. injection Hlen as Hlen.
  inversion Hperm as [|? ? Hp1 Hperm']; subst x l. cbn [length zrange mfor_ret].
  assert (Hget : zget u1 (Z.of_nat (length l2)) = Some e1).
  { unfold zget. rewrite bool_decide_true, Nat2Z.id by lia.
    rewrite <- (Nat.add_0_r (length l2)), <- lookup_drop, Hu1. done. }
  assert (Hdrop : drop (length (l2 ++ [e2])) u1 = r1).
  { rewrite length_app. cbn [length]. by rewrite <- drop_drop, Hu1. }
  rstep. rewrite valid_pfns_cons in *. cbn [copy_ptes].
  destruct (Z.eqb_spec (valid e1) VALID_FRAME) as [Hv|Hv].
  - destruct fl as [|f fl]; [cbn in Hn; lia|]. inversion Hg; subst x l. apply NoDup_cons in Hnd as [Hf Hnd].
    eapply returns_mono; [by eapply copy_user_page_valid; [exact R|exact Hget|auto|exact HF|]|].
    cbv beta zeta. intros o s1 (-> & R1 & Hcp & HF1 & Hfr).
    replace (Z.of_nat (length l2) + 1) with
      (Z.of_nat (length (l2 ++ [mkPte VALID_FRAME (Z.land (prot e1) 7) f]))) by (rewrite length_app; cbn; lia).
    eapply returns_mono; [apply (IH (l2 ++ [mkPte VALID_FRAME (Z.land (prot e1) 7) f]) r2 s1 fl)|]; try done.
    + by rewrite <- app_assoc.
    + by rewrite length_app in Hdrop |- *.
    + cbn in Hn. lia.
    + intros g Hg'. specialize (Hdisj g). rewrite not_elem_of_app in Hdisj. apply Hdisj. by right.
    + cbv beta zeta. intros o s' (-> & Hcp' & HF' & Hfr' & Hc').
      rewrite <- app_assoc in Hcp'. cbn [app length drop take] in *.
      assert (Hfo : forall g, frame_of (hw s1) g = if decide (g = f) then frame_of (hw s) (pfn e1) else frame_of (hw s) g).
      { intros g. unfold frame_of at 1. rewrite Hfr. destruct (decide (g = f)) as [->|].
        - by rewrite lookup_insert_eq.
        - by rewrite lookup_insert_ne. }
      split; [done|]. split; [by eapply copied_trans|]. split; [done|]. split.
      * intros g [? ?]%not_elem_of_cons. rewrite Hfr' by done. rewrite Hfo. by rewrite decide_False.
      * intros [|j] a b Ha Hb Hva; cbn in Ha, Hb.
        -- injection Ha as <-. injection Hb as <-. cbn [pfn]. rewrite Hfr'; [rewrite Hfo; by rewrite decide_True|].
           intros Hin. apply Hf. rewrite <- (take_drop (length (valid_pfns r1)) fl).
           apply elem_of_app. by left.
        -- rewrite (Hc' j a b Ha Hb Hva), Hfo, decide_False; [done|]. intros <-.
           apply (Hdisj (pfn a)); [by left|]. right. by eapply valid_pfns_elem.
  - cbn [app] in *. unfold copy_user_page at 1, pt_get at 1.
    apply returns_mono with (P := fun o s1 => o = None /\ s1 = s).
    { rstep. rstep. eapply returns_exec; [unfold get_table; by rewrite (cr_u1 _ _ _ _ _ _ _ R)|].
      rstep; [exact Hget|]. destruct (Z.eqb_spec (valid e1) VALID_FRAME); [done|]. by rstep. }
    intros o s1 [-> ->].
    replace (Z.of_nat (length l2) + 1) with (Z.of_nat (length (l2 ++ [e2]))) by (rewrite length_app; cbn; lia).
    eapply returns_mono; [apply (IH (l2 ++ [e2]) r2 s fl)|]; try done.
    + by rewrite <- app_assoc.
    + cbv beta zeta. intros o s' (-> & Hcp' & HF' & Hfr' & Hc').
      rewrite <- app_assoc in Hcp'. do 4 (split; [done|]).
      intros [|j] a b Ha Hb Hva; cbn in Ha, Hb; [injection Ha as <-; done|]. by eapply Hc'.
Qed.

Lemma CopyUPT_spec P C K ri u1 u2 s fl :
  copy_ready s P C K ri u1 u2 ->
  Forall (fun e => valid e = VALID_FRAME -> permits false e = true) u1 ->
  F s fl -> Forall frame24 fl -> NoDup fl -> (length (valid_pfns u1) <= length fl)%nat ->
  (forall f, f ∈ fl -> f ∉ valid_pfns u1) ->
  returns (CopyUPT (PtUser P) (PtUser C) (PtHeap K) ri) s (fun r s' =>
    let n := length (valid_pfns u1) in let u2' := copy_ptes u1 u2 fl in
    r = 0 /\ copied s s' C K ri u2' /\ F s' (drop n fl) /\
    (forall f, f ∉ take n fl -> frame_of (hw s') f = frame_of (hw s) f) /\
    (forall j e1 e2, u1 !! j = Some e1 -> u2' !! j = Some e2 -> valid e1 = VALID_FRAME ->
      frame_of (hw s') (pfn e2) = frame_of (hw s) (pfn e1))).
Proof.
  intros R Hp HF Hg Hnd Hn Hd. pose proof R as [Hvm Hb0 Hl0 Hb1 Hl1 Hne Hu1 Hu2 Hlen1 Hlen2 Hri _ _].
  unfold CopyUPT. destruct (decide _) as [[?|[?|?]]|_]; [done..|].
  destruct (Z.ltb_spec ri 0); [lia|]. rstep. unfold zseq. rewrite Z.sub_0_r, <- Hlen1.
  change 0 with (Z.of_nat (length (@nil pte))) at 1.
  eapply returns_mono; [apply (copy_user_pages P C K ri u1 u1 [] u2 s fl)|]; try done; [congruence|].
  cbv beta zeta. intros o s' (-> & Hcp & HF' & Hf & Hc). rstep. done.
Qed.

(** C23: [CopyUPT] on a parent and a child, with enough free frames, succeeds: every
    valid page of the parent gets a fresh frame in the child, with the parent's
    protection and a copy of the parent's page; the other entries of the child,
    the parent's table, every frame but the fresh ones, and the rest of the kernel
    state are unchanged; exactly the frames used leave the free list. *)
Theorem CopyUPT_correct P C K ri u1 u2 s fl :
  copy_ready s P C K ri u1 u2 ->
  Forall (fun e => valid e = VALID_FRAME -> permits false e = true) u1 ->
  F s fl -> Forall frame24 fl -> NoDup fl -> (length (valid_pfns u1) <= length fl)%nat ->
  (forall f, f ∈ fl -> f ∉ valid_pfns u1) ->
  returns (CopyUPT (PtUser P) (PtUser C) (PtHeap K) ri) s (fun r s' =>
    let n := length (valid_pfns u1) in let u2' := copy_ptes u1 u2 fl in
    r = 0 /\ copied s s' C K ri u2' /\ F s' (drop n fl) /\
    (forall f, f ∉ take n fl -> frame_of (hw s') f = frame_of (hw s) f) /\
    (forall j e1 e2, u1 !! j = Some e1 -> u2' !! j = Some e2 -> valid e1 = VALID_FRAME ->
      frame_of (hw s') (pfn e2) = frame_of (hw s) (pfn e1))).
Proof. apply CopyUPT_spec. Qed.

End copy.

(** ** A new process *)

Section creation.
Context `{L : Libc} {LL : LibcLaws L} {F : kstate -> list Z -> Prop} {FA : FrameAllocator L F}.

(** The stores of [init_process] to the new PCB collapse. *)
Lemma put_fields_twice p a A X Y Z h n s : p <> a ->
  put_pcb a A (put_pcb p X (put_pcb p Y (set_hw h (put_pcb p Z (set_mtick n s))))) =
  put_pcb p X (put_pcb a A (set_hw h (set_mtick n s))).
Proof.
  intros Hpa. destruct s. unfold put_pcb, set_pcbs, set_hw, set_mtick. cbn.
  by rewrite !insert_insert_eq, (insert_insert_ne _ a p) by congruence.
Qed.

Lemma put_final p a A X Y l h n s :
  put_pcb p X (set_lst l (put_pcb p Y (put_pcb a A (set_hw h (set_mtick n s))))) =
  set_lst l (set_hw h (set_mtick n (put_pcb p X (put_pcb a A s)))).
Proof.
  destruct s. unfold put_pcb, set_pcbs, set_hw, set_lst, set_mtick. cbn. by rewrite insert_insert_eq.
Qed.

Lemma init_kernel_stack_spec s p x e1 e2 f1 f2 fl :
  pcbs s !! p = Some x -> pid x <> 0 -> kernel_stack_pt x = [e1; e2] -> inactive (PtKstack p) s ->
  F s (f1 :: f2 :: fl) -> frame24 f1 -> frame24 f2 ->
  returns (init_kernel_stack p) s (fun o s' => o = None /\ F s' fl /\ exists h,
    s' = set_lst h (put_pcb p (set_kernel_stack_pt
      [mkPte INVALID_FRAME NO_X_W_R f1; mkPte INVALID_FRAME NO_X_W_R f2] x) s)).
Proof.
  intros Ex Hpid Hk Hin HF Hf1 Hf2. unfold init_kernel_stack. rsteps.
  destruct (Z.eqb_spec (pid x) 0); [done|]. cbn [negb].
  change (zseq 0 KERNEL_STACK_SIZE) with [0; 1]. cbn [mfor_ret].
  assert (Hpfn : forall f, frame24 f -> Z.land f 0xFFFFFF = f).
  { intros f Hf. apply land_pfn_small. unfold frame24 in Hf. lia. }
  assert (Hne : forall f, frame24 f -> (f =? ERROR) = false).
  { intros f Hf. apply Z.eqb_neq. unfold frame24, ERROR in *. lia. }
  assert (Hstep : forall t i f l e l' s k P, pt_table t s = Some (l ++ e :: l') -> inactive t s ->
    i = Z.of_nat (length l) ->
    returns k (pt_put_table t (l ++ set_prot NO_X_W_R (set_pfn f (set_valid INVALID_FRAME e)) :: l') s) P ->
    returns (pt_upd t i (set_valid INVALID_FRAME) ;; pt_upd t i (set_pfn f) ;;
      pt_upd t i (set_prot NO_X_W_R) ;; k) s (P : option Z -> kstate -> Prop)).
  { intros t i f l e l' s0 k P Ht Hi -> Hr. rstep. eapply returns_exec; [by apply pt_upd_inactive|].
    rstep. eapply returns_exec.
    { apply pt_upd_inactive; [by apply pt_table_put_eq|by apply inactive_put]. }
    rewrite pt_put_table_twice. rstep. eapply returns_exec.
    { apply pt_upd_inactive; [by apply pt_table_put_eq|by apply inactive_put]. }
    by rewrite pt_put_table_twice. }
  rstep. rstep. eapply returns_mono; [apply (fa_alloc s f1 (f2 :: fl)); [done|by apply frame24_good]|].
  cbv beta. intros r s1 (h & -> & -> & HF1). rewrite Hne by done.
  eapply (Hstep _ _ _ [] e1 [e2]); [cbn; by rewrite Ex; cbn; rewrite Hk|exact Hin|done|]. cbn [app].
  erewrite pt_put_kstack by exact Ex. rstep. rstep. rstep.
  assert (HF2 : F (put_pcb p (set_kernel_stack_pt [set_prot NO_X_W_R (set_pfn f1 (set_valid INVALID_FRAME e1)); e2] x)
    (set_lst h s)) (f2 :: fl)) by (by eapply fa_frame; [| |exact HF1]).
  eapply returns_mono; [apply (fa_alloc _ f2 fl); [exact HF2|by apply frame24_good]|].
  cbv beta. intros r s1 (h2 & -> & -> & HF3). rewrite Hne by done.
  eapply (Hstep _ _ _ [set_prot NO_X_W_R (set_pfn f1 (set_valid INVALID_FRAME e1))] e2 []); [|exact Hin|done|].
  { cbn. rewrite lookup_insert_eq. done. }
  erewrite pt_put_kstack by (cbn; apply lookup_insert_eq). rstep. rstep.
  unfold set_valid, set_pfn, set_prot. cbn [valid prot pfn app]. rewrite !Hpfn by done.
  split; [done|]. split; [by eapply fa_frame; [| |exact HF3]|]. exists h2.
  destruct s. unfold put_pcb, set_lst, set_pcbs. cbn. by rewrite insert_insert_eq.
Qed.

(** The page table of a new process is cleared. *)
Lemma clear_table p Y S (P : unit -> kstate -> Prop) :
  length (user_page_table Y) = Z.to_nat USER_PT_SIZE -> inactive (PtUser p) (put_pcb p Y S) ->
  P tt (put_pcb p (set_user_page_table (replicate (Z.to_nat USER_PT_SIZE) pte_zero) Y) S) ->
  returns (mfor (zseq 0 USER_PT_SIZE) (fun index =>
    pt_upd (PtUser p) index (set_valid INVALID_FRAME) ;;
    pt_upd (PtUser p) index (set_pfn 0) ;;
    pt_upd (PtUser p) index (set_prot NO_X_NO_W_NO_R))) (put_pcb p Y S) P.
Proof.
  intros Hul Hin HP. eapply returns_exec.
  { unfold zseq. rewrite Z.sub_0_r, <- Hul.
    apply (mfor_pt_upd (PtUser p) [set_valid INVALID_FRAME; set_pfn 0; set_prot NO_X_NO_W_NO_R] _ _ []).
    - intros i s0 l e l' Ht Hi ->. cbn [foldl]. by apply pt_upd3_inactive.
    - cbn. rewrite lookup_insert_eq. done.
    - exact Hin. }
  erewrite pt_put_user by (cbn; apply lookup_insert_eq). rewrite put_pcb_twice. cbn [app].
  set (ut := map _ _). assert (ut = replicate (Z.to_nat USER_PT_SIZE) pte_zero) as ->; [|exact HP].
  unfold ut. rewrite <- Hul. clear. induction (user_page_table _) as [|e l IH]; [done|].
  cbn [map length replicate]. f_equal. exact IH.
Qed.

Lemma init_process_spec s uctxt a ap K f1 f2 fl :
  uctxt <> NULL -> active s = a -> a <> NULL -> pcbs s !! a = Some ap ->
  r_ptbr0 (hw s) = PtHeap K -> r_ptbr1 (hw s) = PtUser a ->
  MallocTotal L -> new_pid (pid_tick (hw s)) <> 0 ->
  F s (f1 :: f2 :: fl) -> frame24 f1 -> frame24 f2 ->
  returns (init_process uctxt) s (fun p s' =>
    p <> NULL /\ (p ∉ live s) /\ F s' fl /\
    (exists h, s' = set_lst h (set_hw (set_pid_tick (S (pid_tick (hw s))) (hw s)) (set_mtick (S (mtick s))
      (put_pcb p (mkPcb (new_pid (pid_tick (hw s))) (pid ap) 0 0 0 (uc s) 0
           (replicate (Z.to_nat USER_PT_SIZE) pte_zero) 0 0 0 0
           [mkPte INVALID_FRAME NO_X_W_R f1; mkPte INVALID_FRAME NO_X_W_R f2] NOT_BLOCKED 0
           (return_code (raw_pcb (mtick s))))
        (put_pcb a (set_num_children (num_children ap + 1) ap) s)))))).
Proof.
  intros Huc Hact Ha Eap Hb0 Hb1 MT Hpid HF Hf1 Hf2. unfold init_process. rstep.
  unfold malloc_pcb, malloc, returns at 1. cbn [oret].
  destruct (malloc_fresh (mtick s) (live s)) as [E|[Hpos Hfresh]]; [by destruct (MT _ _ E)|].
  remember (malloc_choice (mtick s) (live s)) as p eqn:Hma. clear Hma.
  assert (Hp : p <> NULL) by (unfold NULL; lia).
  assert (Hpa : p <> a).
  { intros ->. apply Hfresh. unfold live. rewrite !elem_of_union. do 7 left. by apply elem_of_dom. }
  destruct (Z.eqb_spec p NULL); [done|]. unfold get_uc. destruct (Z.eqb_spec uctxt NULL); [done|].
  rsteps. rewrite !put_pcb_twice. unfold helper_new_pid. rsteps.
  match goal with |- context [active ?t] => change (active t) with (active s) end.
  rewrite Hact. destruct (Z.eqb_spec a NULL); [done|]. rsteps.
  set (X := set_ppid (pid ap) _).
  rewrite (put_fields_twice p a) by done. rewrite hw_put_pcb.
  destruct (raw_pcb_tables (mtick s)) as [Hul Hkl].
  set (S1 := put_pcb a _ _).
  assert (Hin : forall t Y, (t = PtUser p \/ t = PtKstack p) -> inactive t (put_pcb p Y S1)).
  { intros t Y Ht. unfold inactive. cbn. rewrite Hb0, Hb1. destruct Ht as [-> | ->]; split; congruence. }
  apply clear_table; [exact Hul|by apply Hin; left|].
  set (ut := replicate (Z.to_nat USER_PT_SIZE) pte_zero).
  destruct (kernel_stack_pt (raw_pcb (mtick s))) as [|k1 [|k2 [|]]] eqn:Ek; try done.
  rstep. eapply returns_mono.
  { apply (init_kernel_stack_spec (put_pcb p (set_user_page_table ut X) S1) p (set_user_page_table ut X) k1 k2 f1 f2 fl); try done.
    - cbn. apply lookup_insert_eq.
    - apply Hin; by right.
    - by eapply fa_frame; [| |exact HF]. }
  cbv beta. intros o s' (-> & HF' & h & ->). rewrite put_pcb_twice. rsteps. rewrite !put_pcb_twice.
  split; [done|]. split; [done|]. split; [eapply fa_frame; [| |exact HF']; [exact (eq_refl h)|exact (eq_refl (pfn_list (gl s)))]|]. exists h.
  apply put_final.
Qed.

(** [init_process], called by the active process [a] with two frames free and
    memory left, creates a process at a fresh address: a fresh pid, the caller's
    pid as its parent's, the caller's user context, an empty address space, and a
    kernel stack of the two frames (not yet valid); the caller has one more child. *)
Theorem init_process_correct s uctxt a ap K f1 f2 fl :
  uctxt <> NULL -> active s = a -> a <> NULL -> pcbs s !! a = Some ap ->
  r_ptbr0 (hw s) = PtHeap K -> r_ptbr1 (hw s) = PtUser a ->
  MallocTotal L -> new_pid (pid_tick (hw s)) <> 0 ->
  F s (f1 :: f2 :: fl) -> frame24 f1 -> frame24 f2 ->
  returns (init_process uctxt) s (fun p s' =>
    p <> NULL /\ (p ∉ live s) /\ F s' fl /\
    (exists h, s' = set_lst h (set_hw (set_pid_tick (S (pid_tick (hw s))) (hw s)) (set_mtick (S (mtick s))
      (put_pcb p (mkPcb (new_pid (pid_tick (hw s))) (pid ap) 0 0 0 (uc s) 0
           (replicate (Z.to_nat USER_PT_SIZE) pte_zero) 0 0 0 0
           [mkPte INVALID_FRAME NO_X_W_R f1; mkPte INVALID_FRAME NO_X_W_R f2] NOT_BLOCKED 0
           (return_code (raw_pcb (mtick s))))
        (put_pcb a (set_num_children (num_children ap + 1) ap) s)))))).
Proof. apply init_process_spec. Qed.

End creation.

(** ** Witnesses *)

(** Process 100 runs on a table with one page, in frame 60; 101 is empty; the
    kernel's table is 50, with page 125 reserved. *)
Definition ex_copy : kstate :=
  mkState
    {[ 100 := set_user_page_table (mkPte 1 3 60 :: replicate 127 pte_zero) (set_pid 1 pcb_zero);
       101 := pcb_zero ]}
    (mkQheap ∅ ∅) ex_lists ∅ {[ 50 := <[125%nat := mkPte 1 3 0]> (replicate 128 pte_zero) ]} ∅ 0
    (mkHw VM_ENABLED (PtHeap 50) 128 (PtUser 100) 128 false ∅ {[ 60 := {[ 5 := 77 ]} ]} [] 2)
    (set_pfn_list 1 (set_activePCB 100 init_glob)) uctxt_zero.

Lemma ex_copy_free : free_list lstore ∅ ex_copy [71; 70].
Proof. exact ex_lists_lstore. Qed.

Lemma ex_copy_ready : copy_ready ex_copy 100 101 50 125
  (mkPte 1 3 60 :: replicate 127 pte_zero) (replicate 128 pte_zero).
Proof.
  split; try done. eexists _, (mkPte 1 3 0). split; [reflexivity|]. by split.
Qed.

Lemma free_addr_space_correct_witness :
  returns (free_addr_space (L := bump_libc) (PtUser 100) (PtKstack 100)) ex_copy (fun r s' => r = 0 /\
    (exists h n, s' = set_lst h (set_mtick n ex_copy)) /\ free_list lstore ∅ s' [60; 71; 70] /\
    returns (free_addr_space (L := bump_libc) (PtUser 100) (PtKstack 100)) s' (fun r s'' =>
      r = 0 /\ free_list lstore ∅ s'' [60; 60; 71; 70])).
Proof.
  apply (free_addr_space_correct (L := bump_libc) (F := free_list lstore ∅) ex_copy (PtUser 100) (PtKstack 100)
    (mkPte 1 3 60 :: replicate 127 pte_zero) (replicate 2 pte_zero) [71; 70]); try reflexivity.
  - exact bump_libc_total.
  - exact ex_copy_free.
Defined.

Lemma CopyUPT_correct_witness :
  returns (CopyUPT (PtUser 100) (PtUser 101) (PtHeap 50) 125) ex_copy (fun r s' =>
    let u1 := mkPte 1 3 60 :: replicate 127 pte_zero in
    let n := length (valid_pfns u1) in let u2' := copy_ptes u1 (replicate 128 pte_zero) [71; 70] in
    r = 0 /\ copied ex_copy s' 101 50 125 u2' /\ free_list lstore ∅ s' (drop n [71; 70]) /\
    (forall f, f ∉ take n [71; 70] -> frame_of (hw s') f = frame_of (hw ex_copy) f) /\
    (forall j e1 e2, u1 !! j = Some e1 -> u2' !! j = Some e2 -> valid e1 = VALID_FRAME ->
      frame_of (hw s') (pfn e2) = frame_of (hw ex_copy) (pfn e1))).
Proof.
  apply (CopyUPT_correct (L := bump_libc) (F := free_list lstore ∅)).
  - exact ex_copy_ready.
  - apply Forall_cons. split; [done|]. by apply Forall_replicate.
  - exact ex_copy_free.
  - repeat constructor; done.
  - by apply (bool_decide_unpack _).
  - cbn. lia.
  - intros f Hf Hin. cbn in Hin. apply list_elem_of_singleton in Hin as ->.
    apply elem_of_cons in Hf as [?|Hf]; [done|]. by apply list_elem_of_singleton in Hf.
Defined.

Lemma init_process_correct_witness :
  returns (init_process (L := bump_libc) 1) ex_copy (fun p s' =>
    p <> NULL /\ (p ∉ live ex_copy) /\ free_list lstore ∅ s' [] /\
    (exists h, s' = set_lst h (set_hw (set_pid_tick 3 (hw ex_copy)) (set_mtick 1
      (put_pcb p (mkPcb 2 1 0 0 0 uctxt_zero 0
           (replicate (Z.to_nat USER_PT_SIZE) pte_zero) 0 0 0 0
           [mkPte INVALID_FRAME NO_X_W_R 71; mkPte INVALID_FRAME NO_X_W_R 70] NOT_BLOCKED 0 0)
        (put_pcb 100 (set_num_children 1
          (set_user_page_table (mkPte 1 3 60 :: replicate 127 pte_zero) (set_pid 1 pcb_zero))) ex_copy)))))).
Proof.
  eapply (init_process_correct (L := bump_libc) (F := free_list lstore ∅) ex_copy 1 100
    (set_user_page_table (mkPte 1 3 60 :: replicate 127 pte_zero) (set_pid 1 pcb_zero)) 50 71 70 []);
    try done.
  all: first [exact bump_libc_total | exact ex_copy_free].
Defined.
