(* ===== verification/ContextSwitch.v ===== *)
(** * Kernel context switches ([contextswitch.c])

    [KCCopy] and [KCSwitch], the two functions the kernel passes to
    [KernelContextSwitch], and the two uses it makes of it.  A kernel context is a
    token that names a suspended kernel computation: the address of the PCB it
    was saved for. *)

From Stdlib Require Import ZArith Lia.
From stdpp Require Import base gmap list.
From S2P Require Import Prelude Hardware State Logic KList Memory Frames Process.

Open Scope Z_scope.

(** ** The operations *)

(** [for (index = kernel_stack_base; index >= kernel_base; index--)]: the first
    invalid entry of the kernel's table, [-1] when there is none. *)
Definition find_invalid (k_pt : pt_ptr) : M Z :=
  let! r := mfor_ret (rev (zseq 0 (KSTACK_VPN + 1))) (fun index =>
    let! e := pt_get k_pt index in
    if valid e =? INVALID_FRAME then ret (Some index) else ret None) in
  ret (default (-1) r).

(** The body of [KCCopy]'s loop: one page of the running kernel stack goes, through
    the reserved page, into the frame that the new process has for it. *)
Definition copy_kstack_page (_src _dst : pt_ptr) (reserved allocated : Z) : M unit :=
  pt_upd _dst allocated (set_valid VALID_FRAME) ;;
  let! e := pt_get _dst allocated in
  pt_upd _src reserved (set_pfn (pfn e)) ;;
  let to := Z.shiftl reserved PAGESHIFT in
  let from := Z.shiftl (KSTACK_VPN + allocated) PAGESHIFT in
  WriteRegister (REG_TLB_FLUSH to) ;;
  copy_page to from.

(** Returns the context to go on with, [NULL] on failure. *)
Definition KCCopy (kc_in pcb : Z) : M Z :=
  if (kc_in =? NULL) || (pcb =? NULL) then ret NULL else
  upd_pcb pcb (set_kernel_context kc_in) ;;
  let _dst := PtKstack pcb in
  let! _src := gets (fun s => r_ptbr0 (hw s)) in
  let! reserved := find_invalid _src in
  if reserved =? -1 then ret NULL else
  pt_upd _src reserved (set_valid VALID_FRAME) ;;
  pt_upd _src reserved (set_prot NO_X_W_R) ;;
  mfor (zseq 0 KERNEL_STACK_SIZE) (copy_kstack_page _src _dst reserved) ;;
  pt_upd _src reserved (set_pfn 0) ;;
  pt_upd _src reserved (set_valid 0) ;;
  pt_upd _src reserved (set_prot 0) ;;
  WriteRegister (REG_TLB_FLUSH TLB_FLUSH_0) ;;
  ret kc_in.

(** The entry [i] of the next process's kernel stack goes into the kernel's table. *)
Definition install_kstack (next : Z) (k_pt : pt_ptr) (i : Z) : M unit :=
  let! e := pt_get (PtKstack next) i in
  pt_upd k_pt (KSTACK_VPN + i) (set_pfn (pfn e)) ;;
  let! e := pt_get (PtKstack next) i in
  pt_upd k_pt (KSTACK_VPN + i) (set_prot (prot e)) ;;
  let! e := pt_get (PtKstack next) i in
  pt_upd k_pt (KSTACK_VPN + i) (set_valid (valid e)).

(** Returns the saved context of the process to run next. *)
Definition KCSwitch (kc_in curr next : Z) : M Z :=
  upd_pcb curr (set_kernel_context kc_in) ;;
  let! k_pt := gets (fun s => r_ptbr0 (hw s)) in
  mfor (zseq 0 KERNEL_STACK_SIZE) (install_kstack next k_pt) ;;
  WriteRegister (REG_TLB_FLUSH TLB_FLUSH_0) ;;
  let! n := get_pcb next in
  ret (kernel_context n).

(** [KernelContextSwitch(KCSwitch, curr, next)]: the computation is suspended
    under the name of [curr], and the machine goes on with [next]'s context. *)
Definition switch_context (curr next : Z) : M unit :=
  let! kc := KCSwitch curr curr next in
  ctx_switch curr kc.

(** [KernelContextSwitch(KCCopy, child, NULL)]: the computation goes on, and a
    copy of it is suspended under the name of [child].  When [KCCopy] fails nothing
    is suspended. *)
Definition clone_context (child : Z) : M unit :=
  let! kc := KCCopy child child in
  if kc =? NULL then ret tt else ctx_clone child.

(** ** The switch *)

(** An entry as the bit fields of a table keep it. *)
Definition pte_norm (e : pte) : pte := mkPte (Z.land (valid e) 1) (Z.land (prot e) 7) (Z.land (pfn e) 0xFFFFFF).

Lemma pt_get_ok t i l e s : pt_table t s = Some l -> zget l i = Some e -> pt_get t i s = Ret e s.
Proof. intros Ht He. unfold pt_get, bind, get_table. rewrite Ht. cbn [obind]. by rewrite He. Qed.

(** An update of any table, in the form the loops need. *)
Lemma pt_upd_heap K i f s kt e (c0 : gmap Z bool) :
  ptabs s !! K = Some kt -> zget kt i = Some e ->
  (forall v, active_page (PtHeap K) i (hw s) v = false -> tlb (hw s) !! v = c0 !! v) ->
  exists c, pt_upd (PtHeap K) i f s =
      Ret tt (set_hw (set_tlb c (hw s)) (set_ptabs (<[K := <[Z.to_nat i := f e]> kt]> (ptabs s)) s)) /\
    forall v, active_page (PtHeap K) i (hw s) v = false -> c !! v = c0 !! v.
Proof.
  intros Ht He Hc0. destruct (pt_upd_spec (PtHeap K) i f s kt e Ht He) as (c & E & Hc).
  exists c. split; [exact E|]. intros v Hv. by rewrite Hc, Hc0.
Qed.

Lemma install_kstack_spec next K i s l e kt e0 :
  pt_table (PtKstack next) s = Some l -> zget l i = Some e ->
  ptabs s !! K = Some kt -> zget kt (KSTACK_VPN + i) = Some e0 ->
  exists c, install_kstack next (PtHeap K) i s =
      Ret tt (set_hw (set_tlb c (hw s))
        (set_ptabs (<[K := <[Z.to_nat (KSTACK_VPN + i) := pte_norm e]> kt]> (ptabs s)) s)) /\
    forall v, active_page (PtHeap K) (KSTACK_VPN + i) (hw s) v = false -> c !! v = tlb (hw s) !! v.
Proof.
  intros Hl He Hk He0. unfold install_kstack. set (j := KSTACK_VPN + i) in *.
  pose proof (zget_Some _ _ _ He0) as Hj.
  assert (Hset : forall (t : list pte) x, length t = length kt -> zget (<[Z.to_nat j := x]> t) j = Some x).
  { intros t x Hl'. eapply zget_zset_eq, zset_Some. lia. }
  unfold bind at 1. rewrite (pt_get_ok _ _ _ _ _ Hl He). cbn [obind].
  destruct (pt_upd_heap K j (set_pfn (pfn e)) s kt e0 (tlb (hw s)) Hk He0) as (c1 & E1 & Hc1); [done|].
  unfold bind at 1. rewrite E1. cbn [obind]. set (s1 := set_hw _ _).
  unfold bind at 1. rewrite (pt_get_ok (PtKstack next) i l e s1 Hl He). cbn [obind].
  destruct (pt_upd_heap K j (set_prot (prot e)) s1 _ _ (tlb (hw s)) (lookup_insert_eq _ _ _) (Hset _ _ eq_refl))
    as (c2 & E2 & Hc2); [exact Hc1|].
  unfold bind at 1. rewrite E2. cbn [obind]. set (s2 := set_hw _ _).
  unfold bind at 1. rewrite (pt_get_ok (PtKstack next) i l e s2 Hl He). cbn [obind].
  destruct (pt_upd_heap K j (set_valid (valid e)) s2 _ _ (tlb (hw s)) (lookup_insert_eq _ _ _)
    (Hset _ _ (length_insert _ _ _)))
    as (c3 & E3 & Hc3); [exact Hc2|].
  rewrite E3. exists c3. split; [|exact Hc3]. f_equal. unfold s2, s1.
  cbn [ptabs hw set_hw set_ptabs set_tlb]. rewrite !insert_insert_eq, !list_insert_insert_eq. reflexivity.
Qed.

(** Two and three stores in a row to the entry [i] of a heap table. *)
Lemma returns_heap_upd {A} K i f kt e (m : M A) s (P : A -> kstate -> Prop) :
  ptabs s !! K = Some kt -> zget kt i = Some e ->
  (forall c, tlb_off (active_page (PtHeap K) i (hw s)) (tlb (hw s)) c ->
    returns m (tab_upd (PtHeap K) (<[Z.to_nat i := f e]> kt) c s) P) ->
  returns (pt_upd (PtHeap K) i f ;; m) s P.
Proof.
  intros Hk He Hm. destruct (pt_upd_spec (PtHeap K) i f s kt e Hk He) as (c & E & Hc).
  apply returns_bind. eapply returns_exec; [exact E|]. by apply Hm.
Qed.

Lemma zget_insert (l : list pte) i e x : zget l i = Some e -> zget (<[Z.to_nat i := x]> l) i = Some x.
Proof. intros He. eapply zget_zset_eq, zset_Some, zget_Some, He. Qed.

Lemma returns_heap_upd2 {A} K i f g kt e (m : M A) s (P : A -> kstate -> Prop) :
  ptabs s !! K = Some kt -> zget kt i = Some e ->
  (forall c, tlb_off (active_page (PtHeap K) i (hw s)) (tlb (hw s)) c ->
    returns m (tab_upd (PtHeap K) (<[Z.to_nat i := g (f e)]> kt) c s) P) ->
  returns (pt_upd (PtHeap K) i f ;; pt_upd (PtHeap K) i g ;; m) s P.
Proof.
  intros Hk He Hm. eapply returns_heap_upd; [done..|]. intros c Hc.
  eapply returns_heap_upd; [apply lookup_insert_eq|by eapply zget_insert|]. intros c' Hc'.
  rewrite tab_upd_twice, list_insert_insert_eq. apply Hm. by eapply tlb_off_trans.
Qed.

Lemma returns_heap_upd3 {A} K i f g h kt e (m : M A) s (P : A -> kstate -> Prop) :
  ptabs s !! K = Some kt -> zget kt i = Some e ->
  (forall c, tlb_off (active_page (PtHeap K) i (hw s)) (tlb (hw s)) c ->
    returns m (tab_upd (PtHeap K) (<[Z.to_nat i := h (g (f e))]> kt) c s) P) ->
  returns (pt_upd (PtHeap K) i f ;; pt_upd (PtHeap K) i g ;; pt_upd (PtHeap K) i h ;; m) s P.
Proof.
  intros Hk He Hm. eapply returns_heap_upd; [done..|]. intros c Hc.
  eapply returns_heap_upd2; [apply lookup_insert_eq|by eapply zget_insert|]. intros c' Hc'.
  rewrite tab_upd_twice, list_insert_insert_eq. apply Hm. by eapply tlb_off_trans.
Qed.

(** *** The copy of the kernel stack *)

(** The page [find_invalid] finds in the table [kt]. *)
Definition find_free (kt : list pte) : Z :=
  default (-1) (List.find (fun i => match zget kt i with Some e => valid e =? INVALID_FRAME | None => false end)
    (rev (zseq 0 (KSTACK_VPN + 1)))).

Lemma find_loop t kt ixs s : pt_table t s = Some kt -> Forall (fun i => is_Some (zget kt i)) ixs ->
  mfor_ret ixs (fun index =>
    let! e := pt_get t index in
    if valid e =? INVALID_FRAME then ret (Some index) else ret None) s =
  Ret (List.find (fun i => match zget kt i with Some e => valid e =? INVALID_FRAME | None => false end) ixs) s.
Proof.
  intros Ht Hi. induction Hi as [|i ixs [e He] _ IH]; [done|]. cbn [mfor_ret List.find].
  unfold bind at 1 2. rewrite (pt_get_ok t i kt e s Ht He), He. cbn [obind].
  by destruct (valid e =? INVALID_FRAME).
Qed.

Lemma find_invalid_spec t kt s : pt_table t s = Some kt -> length kt = Z.to_nat KERNEL_PT_SIZE ->
  find_invalid t s = Ret (find_free kt) s.
Proof.
  intros Ht Hl. unfold find_invalid, bind. rewrite (find_loop t kt _ s Ht); [done|].
  apply Forall_forall. intros i Hi. apply zget_is_Some. rewrite Hl.
  apply list_elem_of_In, in_rev in Hi. vm_compute in Hi. change (Z.of_nat (Z.to_nat KERNEL_PT_SIZE)) with 128.
  repeat destruct Hi as [<-|Hi]; try lia.
Qed.

Lemma find_free_found kt : find_free kt <> -1 -> 0 <= find_free kt <= KSTACK_VPN /\ exists e, zget kt (find_free kt) = Some e /\ valid e = INVALID_FRAME.
Proof.
  unfold find_free. destruct (List.find _ _) as [i|] eqn:E; [|done]. intros _. change (default (-1) (Some i)) with i.
  apply find_some in E as [Hi He]. split.
  - apply in_rev, list_elem_of_In, elem_of_zseq in Hi. lia.
  - destruct (zget kt i) as [e|]; [|done]. exists e. split; [done|]. by apply Z.eqb_eq.
Qed.

Lemma find_ext {A} (f g : A -> bool) l : (forall x, f x = g x) -> List.find f l = List.find g l.
Proof. intros H. induction l as [|x l IH]; [done|]. cbn. by rewrite H, IH. Qed.

(** Which entry is found depends on the valid bits only. *)
Lemma find_free_insert kt i e e' : zget kt i = Some e -> valid e' = valid e ->
  find_free (<[Z.to_nat i := e']> kt) = find_free kt.
Proof.
  intros He Hv. unfold find_free. f_equal. apply find_ext. intros j.
  pose proof (zget_Some _ _ _ He) as Hi. pose proof (zset_Some kt i e' Hi) as Hz. destruct (decide (i = j)) as [<-|Hne].
  - by rewrite (zget_zset_eq _ _ _ _ Hz), He, Hv.
  - by rewrite (zget_zset_ne _ _ _ _ _ Hz).
Qed.

(** The machine runs on the kernel table [kt] at [K]. *)
Record on_kernel_table (s : kstate) (K : Z) (kt : list pte) : Prop := {
  kt_base : r_ptbr0 (hw s) = PtHeap K;
  kt_tab : ptabs s !! K = Some kt;
  kt_len : length kt = Z.to_nat KERNEL_PT_SIZE;
  kt_other : r_ptbr1 (hw s) <> PtHeap K }.

(** One page: the frame that [_dst] has for it gets the contents of the running
    stack's page, the rest of memory is as before. *)
Lemma copy_kstack_page_spec s C K ri l e l' kt er k :
  let i := Z.of_nat (length l) in
  on_kernel_table s K kt -> r_vm (hw s) = VM_ENABLED -> r_ptlr0 (hw s) = MAX_PT_LEN ->
  r_ptbr1 (hw s) <> PtKstack C -> pt_table (PtKstack C) s = Some (l ++ e :: l') -> 0 <= i < KERNEL_STACK_SIZE ->
  0 <= ri < KSTACK_VPN -> zget kt ri = Some er -> valid er = VALID_FRAME -> prot er = NO_X_W_R ->
  zget kt (KSTACK_VPN + i) = Some k -> permits false k = true -> tlb (hw s) !! (KSTACK_VPN + i) <> Some false ->
  frame24 (pfn e) ->
  returns (copy_kstack_page (PtHeap K) (PtKstack C) ri i) s (fun _ s' => exists c,
    s' = set_hw (set_tlb c (set_frames (<[pfn e := frame_of (hw s) (pfn k)]> (frames (hw s))) (hw s)))
      (pt_put_table (PtKstack C) (l ++ set_valid VALID_FRAME e :: l')
        (set_ptabs (<[K := <[Z.to_nat ri := set_pfn (pfn e) er]> kt]> (ptabs s)) s)) /\
    forall v, v <> ri -> c !! v = (if v =? KSTACK_VPN + i then Some true else tlb (hw s) !! v)).
Proof.
  intros i [Hb Ht Hl Ho] Hvm Hpl Hr1 Hd Hi Hri Her Hvr Hpr Hk Hp Htlb Hf.
  assert (Hpfn : Z.land (pfn e) 0xFFFFFF = pfn e) by (apply land_pfn_small; unfold frame24 in Hf; lia).
  assert (Hri' : ri < 126) by exact (proj2 Hri). assert (Hi' : 0 <= i < 2) by exact Hi.
  assert (Hin : inactive (PtKstack C) s) by (split; [rewrite Hb|]; congruence).
  unfold copy_kstack_page. rstep. eapply returns_exec; [by apply pt_upd_inactive|].
  set (s1 := pt_put_table _ _ s). set (ev := set_valid VALID_FRAME e).
  rstep. eapply returns_pt_get; [by apply pt_table_put_eq; eexists|apply zget_app|].
  destruct (pt_upd_heap K ri (set_pfn (pfn ev)) s1 kt er (tlb (hw s)) Ht Her) as (c & E & Hc); [done|].
  rstep. eapply returns_exec; [exact E|]. clear E. change (pfn ev) with (pfn e) in *.
  set (kt' := <[Z.to_nat ri := set_pfn (pfn e) er]> kt) in *.
  cbv zeta. rstep. apply returns_modify. cbv beta. set (s2 := set_hw _ _).
  assert (Hsim : forall v, active_page (PtHeap K) ri (hw s) v = false <-> v <> ri).
  { intros v. unfold active_page. rewrite Hb, (bool_decide_true (PtHeap K = PtHeap K)) by done.
    rewrite (bool_decide_false (PtHeap K = _)) by congruence. cbn [andb]. rewrite orb_false_r. apply Z.eqb_neq. }
  assert (H2 : forall v, tlb (hw s2) !! v = if v =? ri then None else tlb (hw s) !! v).
  { intros v. change (tlb (hw s2)) with (tlb_drop (flushed (Z.shiftl ri PAGESHIFT)) c).
    rewrite lookup_tlb_drop, flushed_page by lia. destruct (Z.eqb_spec v ri); [done|]. by apply Hc, Hsim. }
  assert (Hentry : forall v x, 0 <= v < 128 -> zget kt' v = Some x -> page_entry s2 v = Some x).
  { intros v x Hv Hx. unfold page_entry. change MAX_PT_LEN with 128. rewrite bool_decide_true by lia.
    change (r_ptlr0 (hw s2)) with (r_ptlr0 (hw s)). rewrite Hpl. change MAX_PT_LEN with 128.
    destruct (Z.ltb_spec v 128); [|lia]. change (r_ptbr0 (hw s2)) with (r_ptbr0 (hw s)). rewrite Hb.
    change (pt_table (PtHeap K) s2) with (<[K := kt']> (ptabs s) !! K). by rewrite lookup_insert_eq. }
  pose proof (zset_Some kt ri (set_pfn (pfn e) er) (zget_Some _ _ _ Her)) as Hz.
  set (v0 := KSTACK_VPN + i) in *. assert (Hv0 : v0 = 126 + i) by done.
  eapply returns_copy_page; [exact Hvm| |apply Hentry; [lia|]|exact Hp| |apply (Hentry ri); [lia|by eapply zget_zset_eq]| |].
  - rewrite H2. destruct (Z.eqb_spec v0 ri); [lia|done].
  - rewrite (zget_zset_ne _ _ _ _ _ Hz) by lia. exact Hk.
  - by rewrite H2, Z.eqb_refl.
  - unfold permits. cbn. by rewrite Hvr, Hpr.
  - cbn [pfn set_pfn]. rewrite Hpfn. exists (<[ri := true]> (<[v0 := true]> (tlb (hw s2)))). split; [reflexivity|].
    intros v Hv. rewrite lookup_insert_ne by done. destruct (Z.eqb_spec v v0) as [->|]; [apply lookup_insert_eq|].
    rewrite lookup_insert_ne, H2 by done. by destruct (Z.eqb_spec v ri).
Qed.

(** The entries of a heap table that an update of page [ri] leaves cached. *)
Lemma active_page_ne K ri h v : r_ptbr0 h = PtHeap K -> r_ptbr1 h <> PtHeap K -> v <> ri ->
  active_page (PtHeap K) ri h v = false.
Proof.
  intros Hb Ho Hv. unfold active_page. rewrite Hb, (bool_decide_false (PtHeap K = r_ptbr1 h)) by congruence.
  destruct (Z.eqb_spec v ri); [done|]. by rewrite andb_false_r.
Qed.

(** What [KCCopy] finds: the kernel table [kt] at [K] with a free page, the running
    kernel stack in the entries [k0] and [k1], and the frames of the new stack. *)
Record stack_ready (s : kstate) (K : Z) (kt : list pte) (k0 k1 e0 e1 : pte) : Prop := {
  sr_table : on_kernel_table s K kt;
  sr_vm : r_vm (hw s) = VM_ENABLED;
  sr_lim : r_ptlr0 (hw s) = MAX_PT_LEN;
  sr_free : find_free kt <> -1;
  sr_k0 : zget kt KSTACK_VPN = Some k0;
  sr_k1 : zget kt (KSTACK_VPN + 1) = Some k1;
  sr_p0 : permits false k0 = true;
  sr_p1 : permits false k1 = true;
  sr_t0 : tlb (hw s) !! KSTACK_VPN <> Some false;
  sr_t1 : tlb (hw s) !! (KSTACK_VPN + 1) <> Some false;
  sr_f0 : frame24 (pfn e0);
  sr_f1 : frame24 (pfn e1);
  sr_ne : pfn e0 <> pfn k1 }.

(** The two frames of the new stack after the copy. *)
Definition stack_copied (h : khw) (k0 k1 e0 e1 : pte) : gmap Z (gmap Z Z) :=
  <[pfn e1 := frame_of h (pfn k1)]> (<[pfn e0 := frame_of h (pfn k0)]> (frames h)).

(** The stores of [KCCopy] collapse. *)
Lemma copied_stack_state s C y K kt ri a b d z e0 e1 k0 k1 x' x'' c2 c3 c4 c5 c6 :
  pfn e0 <> pfn k1 -> z = pte_zero ->
  let s2 := tab_upd (PtHeap K) (<[ri := a]> kt) c2 (put_pcb C y s) in
  let s3 := set_hw (set_tlb c3 (set_frames (<[pfn e0 := frame_of (hw s2) (pfn k0)]> (frames (hw s2))) (hw s2)))
    (put_pcb C x' (set_ptabs (<[K := <[ri := b]> kt]> (ptabs s2)) s2)) in
  let s4 := set_hw (set_tlb c4 (set_frames (<[pfn e1 := frame_of (hw s3) (pfn k1)]> (frames (hw s3))) (hw s3)))
    (put_pcb C x'' (set_ptabs (<[K := <[ri := d]> kt]> (ptabs s3)) s3)) in
  let s5 := tab_upd (PtHeap K) (<[ri := z]> (<[ri := d]> kt)) c5 s4 in
  set_hw (set_tlb c6 (hw s5)) s5 =
  set_hw (set_tlb c6 (set_frames (stack_copied (hw s) k0 k1 e0 e1) (hw s)))
    (set_ptabs (<[K := <[ri := pte_zero]> kt]> (ptabs s)) (put_pcb C x'' s)).
Proof.
  intros Hne -> s2 s3 s4 s5.
  assert (Hfr : frame_of (hw s3) (pfn k1) = frame_of (hw s) (pfn k1)).
  { unfold frame_of, s3, s2. cbn [hw frames set_hw set_tlb set_frames tab_upd]. by rewrite lookup_insert_ne. }
  apply kstate_eq; cbn -[insert lookup frame_of]; try done; try by rewrite !insert_insert_eq.
  - by rewrite !list_insert_insert_eq, !insert_insert_eq.
  - apply khw_eq; try done. unfold stack_copied.
    change (<[pfn e1 := frame_of (hw s3) (pfn k1)]> (<[pfn e0 := frame_of (hw s) (pfn k0)]> (frames (hw s))) =
      <[pfn e1 := frame_of (hw s) (pfn k1)]> (<[pfn e0 := frame_of (hw s) (pfn k0)]> (frames (hw s)))). by rewrite Hfr.
Qed.

(** The copy of the two pages of the kernel stack, through the entry [er] of the kernel's
    table [kt]. *)
Lemma copy_kstack_pages s C x K ri kt er k0 k1 e0 e1 :
  on_kernel_table s K kt -> r_vm (hw s) = VM_ENABLED -> r_ptlr0 (hw s) = MAX_PT_LEN -> r_ptbr1 (hw s) <> PtKstack C ->
  pcbs s !! C = Some x -> kernel_stack_pt x = [e0; e1] ->
  0 <= ri < KSTACK_VPN -> zget kt ri = Some er -> valid er = VALID_FRAME -> prot er = NO_X_W_R ->
  zget kt KSTACK_VPN = Some k0 -> zget kt (KSTACK_VPN + 1) = Some k1 -> permits false k0 = true -> permits false k1 = true ->
  tlb (hw s) !! KSTACK_VPN <> Some false -> tlb (hw s) !! (KSTACK_VPN + 1) <> Some false ->
  frame24 (pfn e0) -> frame24 (pfn e1) ->
  returns (mfor (zseq 0 KERNEL_STACK_SIZE) (copy_kstack_page (PtHeap K) (PtKstack C) ri)) s (fun _ s' => exists c3 c4,
    let s3 := set_hw (set_tlb c3 (set_frames (<[pfn e0 := frame_of (hw s) (pfn k0)]> (frames (hw s))) (hw s)))
      (put_pcb C (set_kernel_stack_pt [set_valid VALID_FRAME e0; e1] x)
        (set_ptabs (<[K := <[Z.to_nat ri := set_pfn (pfn e0) er]> kt]> (ptabs s)) s)) in
    s' = set_hw (set_tlb c4 (set_frames (<[pfn e1 := frame_of (hw s3) (pfn k1)]> (frames (hw s3))) (hw s3)))
      (put_pcb C (set_kernel_stack_pt [set_valid VALID_FRAME e0; set_valid VALID_FRAME e1] x)
        (set_ptabs (<[K := <[Z.to_nat ri := set_pfn (pfn e1) (set_pfn (pfn e0) er)]>
          (<[Z.to_nat ri := set_pfn (pfn e0) er]> kt)]> (ptabs s3)) s3)) /\
    forall v, 128 <= v -> c4 !! v = tlb (hw s) !! v).
Proof.
  intros [Hb Ht Hl Ho] Hvm Hpl Hr1 Hx Hks Hri Her Hve Hpe Hk0 Hk1 Hp0 Hp1 Ht0 Ht1 Hf0 Hf1.
  assert (Hri' : 0 <= ri < 126) by exact Hri.
  pose proof (zset_Some kt ri (set_pfn (pfn e0) er) (zget_Some _ _ _ Her)) as Hz.
  change (zseq 0 KERNEL_STACK_SIZE) with [Z.of_nat (length (@nil pte)); Z.of_nat (length [set_valid VALID_FRAME e0])].
  cbn [mfor]. rstep. eapply returns_mono.
  { apply (copy_kstack_page_spec s C K ri [] e0 [e1] kt er k0); try done. cbn [pt_table app]. by rewrite Hx, <- Hks. }
  cbv beta. intros _ s3 (c3 & E3 & Hc3). cbn [app length] in E3. erewrite pt_put_kstack in E3 by exact Hx.
  rstep. eapply returns_mono.
  { apply (copy_kstack_page_spec s3 C K ri [set_valid VALID_FRAME e0] e1 []
      (<[Z.to_nat ri := set_pfn (pfn e0) er]> kt) (set_pfn (pfn e0) er) k1); try done; rewrite ?E3; try done.
    - split; [exact Hb|apply lookup_insert_eq|by rewrite length_insert|exact Ho].
    - cbn. by rewrite lookup_insert_eq.
    - by eapply zget_zset_eq.
    - rewrite (zget_zset_ne _ _ _ _ _ Hz) by (change KSTACK_VPN with 126; cbn; lia). exact Hk1.
    - change (c3 !! (KSTACK_VPN + 1) <> Some false). rewrite Hc3 by (change KSTACK_VPN with 126; lia). exact Ht1. }
  cbv beta. intros _ s4 (c4 & E4 & Hc4). cbn [app length] in E4. rstep.
  erewrite (pt_put_kstack C) in E4 by (rewrite E3; apply lookup_insert_eq).
  exists c3, c4. cbv zeta. rewrite <- E3. split; [exact E4|]. intros v Hv. rewrite Hc4 by lia.
  destruct (Z.eqb_spec v (KSTACK_VPN + Z.of_nat (length [set_valid VALID_FRAME e0]))) as [E|_]; [change KSTACK_VPN with 126 in E; cbn in E; lia|].
  rewrite E3. change (c3 !! v = tlb (hw s) !! v). rewrite Hc3 by lia.
  destruct (Z.eqb_spec v (KSTACK_VPN + Z.of_nat (length (@nil pte)))) as [E|_]; [change KSTACK_VPN with 126 in E; cbn in E; lia|done].
Qed.

Lemma KCCopy_spec s kc C x K kt k0 k1 e0 e1 :
  kc <> NULL -> C <> NULL -> pcbs s !! C = Some x -> kernel_stack_pt x = [e0; e1] ->
  r_ptbr1 (hw s) <> PtKstack C -> stack_ready s K kt k0 k1 e0 e1 ->
  returns (KCCopy kc C) s (fun r s' => r = kc /\ exists c,
    s' = set_hw (set_tlb c (set_frames (stack_copied (hw s) k0 k1 e0 e1) (hw s)))
      (set_ptabs (<[K := <[Z.to_nat (find_free kt) := pte_zero]> kt]> (ptabs s))
        (put_pcb C (set_kernel_stack_pt [set_valid VALID_FRAME e0; set_valid VALID_FRAME e1]
          (set_kernel_context kc x)) s)) /\
    forall v, c !! v = if region0_vpn v then None else tlb (hw s) !! v).
Proof.
  intros Hkc HC Hx Hks Hr1 [Hok Hvm Hpl Hfree Hk0 Hk1 Hp0 Hp1 Ht0 Ht1 Hf0 Hf1 Hne].
  pose proof Hok as [Hb Ht Hl Ho]. destruct (find_free_found kt Hfree) as (Hri & er & Her & Hver).
  set (ri := find_free kt) in *.
  assert (Hlt : 0 <= ri < KSTACK_VPN).
  { split; [lia|]. assert (ri <> KSTACK_VPN); [|lia]. intros E. rewrite E in Her. rewrite Her in Hk0.
    injection Hk0 as ->. unfold permits in Hp0. by rewrite Hver in Hp0. }
  assert (Hlt' : ri < 126) by exact (proj2 Hlt).
  unfold KCCopy. destruct (Z.eqb_spec kc NULL); [done|]. destruct (Z.eqb_spec C NULL); [done|]. cbn [orb].
  rstep. eapply returns_upd_pcb; [exact Hx|]. set (s1 := put_pcb C _ s).
  rstep. rstep. change (r_ptbr0 (hw s1)) with (r_ptbr0 (hw s)). rewrite Hb.
  rstep. eapply returns_exec; [by apply (find_invalid_spec (PtHeap K) kt s1)|]. fold ri.
  destruct (Z.eqb_spec ri (-1)); [done|].
  eapply returns_heap_upd2; [exact Ht|exact Her|]. intros c2 Hc2.
  set (er2 := set_prot NO_X_W_R (set_valid VALID_FRAME er)).
  set (kt2 := <[Z.to_nat ri := er2]> kt). set (s2 := tab_upd _ _ _ s1).
  assert (H2 : forall v, v <> ri -> tlb (hw s2) !! v = tlb (hw s) !! v).
  { intros v Hv. apply Hc2, active_page_ne; [exact Hb|exact Ho|done]. }
  pose proof (zset_Some kt ri er2 (zget_Some _ _ _ Her)) as Hz. fold kt2 in Hz.
  rstep. eapply returns_mono.
  { apply (copy_kstack_pages s2 C (set_kernel_context kc x) K ri kt2 er2 k0 k1 e0 e1); try done.
    - split; [exact Hb|apply lookup_insert_eq|unfold kt2; by rewrite length_insert|exact Ho].
    - apply lookup_insert_eq.
    - by eapply zget_zset_eq.
    - by rewrite (zget_zset_ne _ _ _ _ _ Hz) by (change KSTACK_VPN with 126; lia).
    - by rewrite (zget_zset_ne _ _ _ _ _ Hz) by (change KSTACK_VPN with 126; lia).
    - by rewrite H2 by (change KSTACK_VPN with 126; lia).
    - by rewrite H2 by (change KSTACK_VPN with 126; lia). }
  cbv beta. intros _ s4 (c3 & c4 & E4 & Hc4). cbv zeta in E4.
  unfold kt2 in E4. rewrite !list_insert_insert_eq in E4.
  assert (Hz4 : zset ri (set_pfn (pfn e1) (set_pfn (pfn e0) er2)) kt = Some (<[Z.to_nat ri := set_pfn (pfn e1) (set_pfn (pfn e0) er2)]> kt))
    by (by apply zset_Some, (zget_Some _ _ er)).
  eapply returns_heap_upd3; [rewrite E4; apply lookup_insert_eq|by eapply zget_zset_eq|].
  intros c5 Hc5. rstep. apply returns_modify. cbv beta. rstep. split; [done|].
  exists (tlb_drop (flushed TLB_FLUSH_0) c5). split.
  - rewrite E4. unfold s2, s1, kt2. apply copied_stack_state; [exact Hne|reflexivity].
  - intros v. rewrite lookup_tlb_drop. change (flushed TLB_FLUSH_0 v) with (region0_vpn v).
    destruct (region0_vpn v) eqn:Ev; [done|].
    assert (Hv : 128 <= v) by (unfold region0_vpn in Ev; apply Z.ltb_ge in Ev; exact Ev).
    rewrite Hc5 by (apply active_page_ne; [by rewrite E4|by rewrite E4|lia]).
    rewrite E4. change (c4 !! v = tlb (hw s) !! v). rewrite Hc4 by done. apply H2. lia.
Qed.

(** The kernel table with the kernel stack of another process. *)
Definition with_kstack (kt ks : list pte) : list pte :=
  take (Z.to_nat KSTACK_VPN) kt ++ map pte_norm ks.

Lemma with_kstack_insert (kt : list pte) e0 e1 : length kt = Z.to_nat KERNEL_PT_SIZE ->
  <[127%nat := pte_norm e1]> (<[126%nat := pte_norm e0]> kt) = with_kstack kt [e0; e1].
Proof.
  intros Hl. change (Z.to_nat KERNEL_PT_SIZE) with (126 + 2)%nat in Hl.
  unfold with_kstack. change (Z.to_nat KSTACK_VPN) with 126%nat.
  assert (Hd : length (drop 126 kt) = 2%nat) by (rewrite length_drop; lia).
  assert (Hins : forall (l : list pte) a b c d, length l = 126%nat ->
    <[127%nat := d]> (<[126%nat := c]> (l ++ [a; b])) = l ++ [c; d]).
  { intros l a b c d Hll. replace 127%nat with (length l + 1)%nat by lia.
    replace 126%nat with (length l + 0)%nat by lia. by rewrite !insert_app_r. }
  rewrite <- (take_drop 126 kt) at 1. destruct (drop 126 kt) as [|a [|b [|? ?]]]; try done.
  apply Hins. rewrite length_take. lia.
Qed.

(** What the switch leaves alone: everything but the context of [curr], the two
    kernel stack entries and the translations of region 0. *)
Definition kstack_switched (s s' : kstate) (curr K : Z) (x : pcb) (kt ks : list pte) (kc : Z) : Prop :=
  exists c, s' = set_hw (set_tlb c (hw s)) (set_ptabs (<[K := with_kstack kt ks]> (ptabs s))
      (put_pcb curr (set_kernel_context kc x) s)) /\
    forall v, c !! v = if region0_vpn v then None else tlb (hw s) !! v.

Lemma KCSwitch_spec s kc curr next x y K kt e0 e1 :
  pcbs s !! curr = Some x -> pcbs s !! next = Some y -> kernel_stack_pt y = [e0; e1] ->
  on_kernel_table s K kt ->
  returns (KCSwitch kc curr next) s (fun r s' =>
    r = (if decide (next = curr) then kc else kernel_context y) /\
    kstack_switched s s' curr K x kt [e0; e1] kc).
Proof.
  intros Hx Hy Hks [Hb Ht Hl Ho]. unfold KCSwitch. rstep. eapply returns_upd_pcb; [exact Hx|].
  set (s1 := put_pcb curr _ s).
  assert (Hn1 : exists y1, pcbs s1 !! next = Some y1 /\ kernel_stack_pt y1 = [e0; e1] /\
    kernel_context y1 = if decide (next = curr) then kc else kernel_context y).
  { destruct (decide (next = curr)) as [->|Hne].
    - exists (set_kernel_context kc x). split; [apply lookup_insert_eq|].
      rewrite Hx in Hy. injection Hy as ->. done.
    - exists y. split; [unfold s1; cbn; by rewrite lookup_insert_ne|done]. }
  destruct Hn1 as (y1 & Hy1 & Hks1 & Hkc).
  rstep. rstep. cbv beta. change (r_ptbr0 (hw s1)) with (r_ptbr0 (hw s)). rewrite Hb.
  change (zseq 0 KERNEL_STACK_SIZE) with [0; 1].
  assert (Hg : forall i, 0 <= i < 128 -> forall t : list pte, length t = length kt -> is_Some (zget t i)).
  { intros i Hi t Hlt. apply zget_is_Some. rewrite Hlt, Hl. exact Hi. }
  assert (Hpt : pt_table (PtKstack next) s1 = Some [e0; e1]).
  { change (kernel_stack_pt <$> pcbs s1 !! next = Some [e0; e1]). rewrite Hy1. cbn. by rewrite Hks1. }
  destruct (Hg (KSTACK_VPN + 0) ltac:(vm_compute; done) kt eq_refl) as [a0 Ha0].
  destruct (install_kstack_spec next K 0 s1 [e0; e1] e0 kt a0) as (c1 & E1 & Hc1); [exact Hpt|done|exact Ht|done|].
  set (s2 := set_hw _ _) in E1.
  set (kt1 := <[Z.to_nat (KSTACK_VPN + 0) := pte_norm e0]> kt) in *.
  destruct (Hg (KSTACK_VPN + 1) ltac:(vm_compute; done) kt1 ltac:(apply length_insert)) as [a1 Ha1].
  destruct (install_kstack_spec next K 1 s2 [e0; e1] e1 kt1 a1) as (c2 & E2 & Hc2);
    [exact Hpt|done|apply lookup_insert_eq|done|].
  cbn [mfor]. rstep. eapply returns_exec.
  { unfold bind at 1. rewrite E1. cbn [obind]. unfold bind at 1. rewrite E2. reflexivity. }
  rstep. apply returns_modify. rstep. eapply returns_deref; [exact Hy1|]. rstep.
  split; [exact Hkc|]. unfold kstack_switched.
  exists (tlb_drop (flushed TLB_FLUSH_0) c2). split.
  - unfold s2. cbn [hw set_hw set_ptabs ptabs write_reg set_tlb tlb]. rewrite insert_insert_eq.
    unfold kt1. rewrite <- (with_kstack_insert kt e0 e1 Hl). reflexivity.
  - intros v. rewrite lookup_tlb_drop. change (flushed TLB_FLUSH_0 v) with (region0_vpn v).
    destruct (region0_vpn v) eqn:Ev; [done|].
    assert (Ha : forall i h, 0 <= i < 128 -> r_ptbr1 h = r_ptbr1 (hw s) -> active_page (PtHeap K) i h v = false).
    { intros i h Hi Hh. unfold active_page. rewrite Hh, (bool_decide_false (PtHeap K = r_ptbr1 (hw s))) by congruence.
      unfold region0_vpn in Ev. bool_to_prop. change MAX_PT_LEN with 128 in Ev.
      destruct (Z.eqb_spec v i); [lia|]. by rewrite andb_false_r. }
    rewrite Hc2 by (apply Ha; [vm_compute; done|done]).
    change (tlb (hw s2)) with c1. apply Hc1, Ha; [vm_compute; done|done].
Qed.

(** C26: after [KCSwitch] every kernel address is translated through the kernel's
    table with the two stack pages of the process switched to, never through a
    stale translation; the context of the process switched from is saved and that
    of the next one returned, and region 1 is as before. *)
Theorem KCSwitch_maps_next_stack s kc curr next x y K kt e0 e1 :
  pcbs s !! curr = Some x -> pcbs s !! next = Some y -> kernel_stack_pt y = [e0; e1] ->
  on_kernel_table s K kt -> r_vm (hw s) = VM_ENABLED -> r_ptlr0 (hw s) = MAX_PT_LEN ->
  returns (KCSwitch kc curr next) s (fun r s' =>
    r = (if decide (next = curr) then kc else kernel_context y) /\
    pcbs s' = <[curr := set_kernel_context kc x]> (pcbs s) /\
    (forall write a e, 0 <= vpn a < MAX_PT_LEN -> zget (with_kstack kt [e0; e1]) (vpn a) = Some e ->
      permits write e = true -> exists s'', translate write a s' = Ret (pfn e) s'') /\
    (forall v, region0_vpn v = false -> tlb (hw s') !! v = tlb (hw s) !! v)).
Proof.
  intros Hx Hy Hks HK Hvm Hpl. eapply returns_mono; [by eapply KCSwitch_spec|]. cbv beta.
  intros r s' [-> (c & -> & Hc)]. split; [done|]. split; [done|]. split.
  - intros write a e Ha He Hp. eexists. apply translate_ok; [done| | |done].
    + cbn [hw set_hw set_tlb tlb]. rewrite Hc. unfold region0_vpn.
      destruct (Z.ltb_spec (vpn a) MAX_PT_LEN); [done|lia].
    + unfold page_entry. rewrite bool_decide_true by done.
      cbn [hw set_hw set_tlb r_ptlr0 r_ptbr0]. rewrite Hpl.
      destruct (Z.ltb_spec (vpn a) MAX_PT_LEN); [|lia]. destruct HK as [-> _ _ _].
      cbn [pt_table set_hw set_ptabs ptabs]. by rewrite lookup_insert_eq.
  - intros v Hv. cbn [hw set_hw set_tlb tlb]. by rewrite Hc, Hv.
Qed.

(** ** Witness *)

(** Process 60 runs, 61 has its kernel stack in the frames 31 and 32; the TLB holds
    a translation of a stack page. *)
Definition ex_switch : kstate :=
  set_ptabs {[ 50 := replicate (Z.to_nat KERNEL_PT_SIZE) (mkPte 1 3 9) ]}
    (set_hw (set_tlb {[ 126 := true ]} (set_r_ptlr0 MAX_PT_LEN (set_r_vm VM_ENABLED (set_r_ptbr0 (PtHeap 50) init_hw))))
    (set_pcbs {[ 60 := pcb_zero; 61 := set_kernel_stack_pt [mkPte 1 3 31; mkPte 1 3 32] pcb_zero ]} init_state)).

Lemma KCSwitch_maps_next_stack_witness :
  returns (KCSwitch 60 60 61) ex_switch (fun r s' => r = 0 /\
    pcbs s' = <[60 := set_kernel_context 60 pcb_zero]> (pcbs ex_switch) /\
    (forall write a e, 0 <= vpn a < MAX_PT_LEN ->
      zget (with_kstack (replicate (Z.to_nat KERNEL_PT_SIZE) (mkPte 1 3 9)) [mkPte 1 3 31; mkPte 1 3 32]) (vpn a) = Some e ->
      permits write e = true -> exists s'', translate write a s' = Ret (pfn e) s'') /\
    (forall v, region0_vpn v = false -> tlb (hw s') !! v = tlb (hw ex_switch) !! v)).
Proof.
  apply (KCSwitch_maps_next_stack ex_switch 60 60 61 pcb_zero
    (set_kernel_stack_pt [mkPte 1 3 31; mkPte 1 3 32] pcb_zero) 50); try reflexivity. by split.
Defined.
