(* ===== verification/Sched.v ===== *)
(** * Scheduling ([SwapProcess] of [process.c], [CheckBlocked] of [kernel.c])

    The round-robin switch to the next ready process, and the queue a blocked
    process belongs to. *)

From Stdlib Require Import ZArith Lia.
From stdpp Require Import base gmap list.
From S2P Require Import Prelude Hardware State Logic KList KQueue Memory Frames Process ContextSwitch.

Open Scope Z_scope.

(** ** The operations *)

Section sched_ops.
Context `{L : Libc}.

Definition qptr (f : kglob -> Z) : M Z := gets (fun s => f (gl s)).

(** [SwapProcess] once the next process has been chosen. *)
Definition swap_to (a next move uctxt : Z) : M (option Z) :=
  let! u := get_uc uctxt in
  upd_pcb a (fun p => set_user_context (uc_set_sp (uc_sp u) (user_context p)) p) ;;
  upd_pcb a (fun p => set_user_context (uc_set_pc (uc_pc u) (user_context p)) p) ;;
  WriteRegister (REG_TLB_FLUSH TLB_FLUSH_1) ;;
  WriteRegister (REG_PTBR1 (PtUser next)) ;;
  returning!
    (if negb (move =? NULL) then
       let! ap := get_pcb a in
       let! r := queue_add move a (pid ap) in
       ret (if r =? ERROR then Some (Some ERROR) else None)
     else ret None) in
  upd_gl (set_activePCB next) ;;
  switch_context a next ;;
  let! a' := gets active in
  let! ap' := get_pcb a' in
  upd_uc uctxt (uc_set_sp (uc_sp (user_context ap'))) ;;
  let! ap' := get_pcb a' in
  upd_uc uctxt (uc_set_pc (uc_pc (user_context ap'))) ;;
  ret (Some 0).

(** The result is [None] when control falls off the end of the function. *)
Definition SwapProcess (moveActive uctxt : Z) : M (option Z) :=
  if uctxt =? NULL then ret (Some ERROR) else
  let! a := gets active in
  let! i := gets idle in
  let! ap := get_pcb a in
  let! ip := get_pcb i in
  let move := if pid ap =? pid ip then NULL else moveActive in
  let! rq := qptr ready_q in
  let! n := (if pid ap =? pid ip then size_of rq else ret 1) in
  if negb ((pid ap =? pid ip) && (n =? 0)) then
    let! popped := queue_pop rq in
    let next := if popped =? NULL then i else popped in
    swap_to a next move uctxt
  else ret None.

Definition CheckBlocked (p : Z) : M Z :=
  if p =? NULL then ret NULL else
  let! x := get_pcb p in
  if blocked_code x =? BLOCKED_DELAY then
    if clock_ticks x >? 0 then
      upd_pcb p (set_clock_ticks (clock_ticks x - 1)) ;;
      qptr blocked_q
    else
      upd_pcb p (set_blocked_code NOT_BLOCKED) ;;
      qptr ready_q
  else if blocked_code x =? BLOCKED_TTY_TRANSMIT then
    let! t := arr_get (fun s => ttyWriteTrackers (gl s)) (tty_terminal x) in
    if t =? TERMINAL_OPEN then
      upd_pcb p (set_blocked_code NOT_BLOCKED) ;;
      upd_pcb p (set_tty_terminal 0) ;;
      qptr ready_q
    else ret NULL
  else qptr blocked_q.

End sched_ops.

(** What matters for a process to be switched to. *)
Definition same_kernel (z z' : pcb) : Prop :=
  kernel_stack_pt z' = kernel_stack_pt z /\ kernel_context z' = kernel_context z /\ pid z' = pid z.

(** ** Where a blocked process goes *)

Inductive verdict := ToReady | Stays | Dropped.

(** What [CheckBlocked] decides for a process, and the process afterwards. *)
Definition check_verdict (trackers : list Z) (x : pcb) : verdict * pcb :=
  if blocked_code x =? BLOCKED_DELAY then
    if clock_ticks x >? 0 then (Stays, set_clock_ticks (clock_ticks x - 1) x)
    else (ToReady, set_blocked_code NOT_BLOCKED x)
  else if blocked_code x =? BLOCKED_TTY_TRANSMIT then
    if default 0 (zget trackers (tty_terminal x)) =? TERMINAL_OPEN
    then (ToReady, set_tty_terminal 0 (set_blocked_code NOT_BLOCKED x))
    else (Dropped, x)
  else (Stays, x).

Definition verdict_queue (v : verdict) (s : kstate) : Z :=
  match v with ToReady => ready_q (gl s) | Stays => blocked_q (gl s) | Dropped => NULL end.

Definition tty_ok (s : kstate) (x : pcb) : Prop :=
  blocked_code x = BLOCKED_TTY_TRANSMIT -> is_Some (zget (ttyWriteTrackers (gl s)) (tty_terminal x)).

Lemma CheckBlocked_spec s p x :
  p <> NULL -> pcbs s !! p = Some x -> tty_ok s x ->
  let '(v, x') := check_verdict (ttyWriteTrackers (gl s)) x in
  CheckBlocked p s = Ret (verdict_queue v s) (put_pcb p x' s).
Proof.
  intros Hp Ex Ht. unfold check_verdict, CheckBlocked, upd_pcb, get_pcb, qptr, bind, gets, modify, deref.
  destruct (Z.eqb_spec p NULL); [done|]. rewrite Ex. cbn [obind].
  destruct (blocked_code x =? BLOCKED_DELAY).
  - destruct (clock_ticks x >? 0); cbn [obind]; rewrite Ex; done.
  - destruct (Z.eqb_spec (blocked_code x) BLOCKED_TTY_TRANSMIT) as [Eb|].
    + destruct (Ht Eb) as [t Et]. unfold arr_get, bind, gets. cbn [obind]. rewrite Et.
      cbn [in_bounds ret obind]. change (default 0 (Some t)) with t. destruct (t =? TERMINAL_OPEN); cbn [obind].
      * rewrite Ex. cbn [obind]. cbn. rewrite lookup_insert_eq. cbn. unfold put_pcb, set_pcbs. cbn. by rewrite insert_insert_eq.
      * by rewrite put_pcb_same.
    + by rewrite put_pcb_same.
Qed.

(** ** The switch to the next process *)

(** Who runs next: the front of the ready queue, or the idle process. *)
Definition next_ready (i : Z) (rs : list (Z * Z)) : Z :=
  match rs with [] => i | (_, p) :: _ => p end.

(** The queues once the active process, unless it is the idle one, has joined the queue [move]. *)
Definition queues_after (V : gmap Z (list (Z * Z))) (ready move : Z) (is_idle : bool)
    (a id : Z) : gmap Z (list (Z * Z)) :=
  let V1 := <[ready := tail (default [] (V !! ready))]> V in
  if is_idle || (move =? NULL) then V1
  else <[move := default [] (V1 !! move) ++ [(id, a)]]> V1.

(** The PCB of the process that is switched away from. *)
Definition saved_pcb (a : Z) (u : UserContext) (x : pcb) : pcb :=
  set_kernel_context a (set_user_context (uc_set_pc (uc_pc u) (uc_set_sp (uc_sp u) (user_context x))) x).

(** The state at the switch: the saved PCB, the new active process and its
    tables, an empty TLB, and the queues. *)
Definition swapped (s s1 : kstate) (a n K : Z) (x : pcb) (kt ks : list pte) : Prop :=
  exists h k hw', s1 = set_hw hw' (set_ptabs (<[K := with_kstack kt ks]> (ptabs s))
    (set_gl (set_activePCB n (gl s)) (put_pcb a (saved_pcb a (uc s) x) (set_qst h (set_mtick k s))))) /\
  r_ptbr1 hw' = PtUser n /\ r_ptbr0 hw' = PtHeap K /\ frames hw' = frames (hw s) /\ tty_out hw' = tty_out (hw s) /\ tlb hw' = ∅.

(** What the suspended process does when it runs again: it restores the stack
    pointer and the program counter of the process that is then active. *)
Definition resumes (u : UserContext) (k : kstate -> outcome (option Z)) : Prop :=
  forall t b w, activePCB (gl t) = b -> pcbs t !! b = Some w ->
  k t = Ret (Some 0) (set_uc (uc_set_pc (uc_pc (user_context w)) (uc_set_sp (uc_sp (user_context w)) u)) t).

Section swap.
Context `{L : Libc} {Q : qheap -> gmap Z (list (Z * Z)) -> Prop} {QS : QueueStore L Q}.

Lemma tlb_all_dropped c : tlb_drop region0_vpn (tlb_drop (fun v => negb (region0_vpn v)) c) = ∅.
Proof.
  apply map_eq. intros v. rewrite !lookup_tlb_drop, lookup_empty. by destruct (region0_vpn v).
Qed.

(** The queue the active process joins, if any. *)
Definition joined (V : gmap Z (list (Z * Z))) (move a id : Z) : gmap Z (list (Z * Z)) :=
  if move =? NULL then V else <[move := default [] (V !! move) ++ [(id, a)]]> V.

Lemma swap_resumes uctxt u : uctxt <> NULL ->
  resumes u (fun t => (let! a' := gets active in
    let! ap' := get_pcb a' in
    upd_uc uctxt (uc_set_sp (uc_sp (user_context ap'))) ;;
    let! ap' := get_pcb a' in
    upd_uc uctxt (uc_set_pc (uc_pc (user_context ap'))) ;;
    ret (Some 0)) (set_uc u t)).
Proof.
  intros Hu t b w <- Hw. unfold bind, gets, get_pcb, deref, upd_uc, active.
  cbn [obind gl set_uc pcbs]. rewrite Hw. cbn [obind].
  destruct (Z.eqb_spec uctxt NULL); [done|]. unfold modify. cbn [obind pcbs set_uc uc].
  by rewrite Hw.
Qed.

Lemma swap_to_spec s V a n move uctxt x z K kt e0 e1 :
  MallocTotal L -> uctxt <> NULL -> a <> NULL -> Q (qst s) V ->
  pcbs s !! a = Some x -> pcbs s !! n = Some z -> kernel_stack_pt z = [e0; e1] ->
  on_kernel_table s K kt -> (move = NULL \/ is_Some (V !! move)) ->
  switches (swap_to a n move uctxt) s (fun p t s1 k =>
    p = a /\ t = (if decide (n = a) then a else kernel_context z) /\
    swapped s s1 a n K x kt [e0; e1] /\ Q (qst s1) (joined V move a (pid x)) /\ resumes (uc s) k).
Proof.
  intros MT Hu Ha HQ Hx Hz Hks [Hb Ht Hl Ho] Hm. unfold swap_to, get_uc.
  destruct (Z.eqb_spec uctxt NULL); [done|].
  apply switches_after. rstep.
  apply switches_after. eapply returns_upd_pcb; [exact Hx|].
  apply switches_after. eapply returns_upd_pcb; [apply lookup_insert_eq|].
  rewrite put_pcb_twice. set (x1 := set_user_context _ (set_user_context _ x)).
  apply switches_after. apply returns_modify. apply switches_after. apply returns_modify.
  set (s1 := set_hw _ (set_hw _ _)).
  assert (Htlb : tlb (hw s1) = tlb_drop (fun v => negb (region0_vpn v)) (tlb (hw s))).
  { unfold s1. cbn [hw set_hw write_reg]. destruct (decide _); [reflexivity|].
    cbn [tlb set_tlb set_r_ptbr1]. apply map_eq. intros v. rewrite lookup_tlb_mark, lookup_tlb_drop.
    change (flushed TLB_FLUSH_1 v) with (negb (region0_vpn v)). cbn [hw set_hw put_pcb set_pcbs].
    rewrite lookup_tlb_drop. change (flushed TLB_FLUSH_1 v) with (negb (region0_vpn v)).
    destruct (negb (region0_vpn v)); [done|]. by destruct (tlb (hw s) !! v). }
  apply switches_orelse.
  assert (Hx1 : pcbs s1 !! a = Some x1) by apply lookup_insert_eq.
  set (P := fun (r : option (option Z)) s2 => r = None /\ exists h k,
    s2 = set_qst h (set_mtick k s1) /\ Q h (joined V move a (pid x))).
  eapply returns_mono with (P := P).
  { unfold P, joined. destruct (Z.eqb_spec move NULL) as [|Hne]; cbn [negb].
    - rstep. split; [done|]. exists (qst s), (mtick s). split; [done|exact HQ].
    - destruct Hm as [|[ms Hms]]; [done|]. rewrite Hms. rstep. rstep; [exact Hx1|]. rstep.
      eapply returns_mono; [eapply (qs_add (R := Q) s1); [exact HQ|exact Hms|done]|]. cbv beta.
      intros r s2 (h & -> & [[-> HQ2]|(_ & _ & E)]); [|by destruct (MT _ _ E)]. rstep.
      split; [done|]. exists h, (S (mtick s1)). done. }
  intros r s2 [-> (h & k & -> & HQ2)]. split; [done|].
  apply switches_after. apply returns_modify. cbv beta.
  set (s3 := set_gl _ _). unfold switch_context. apply switches_before, switches_after.
  assert (Hx3 : pcbs s3 !! a = Some x1) by exact Hx1.
  assert (Hz3 : exists z1, pcbs s3 !! n = Some z1 /\ kernel_stack_pt z1 = [e0; e1] /\
    (n <> a -> kernel_context z1 = kernel_context z)).
  { destruct (decide (n = a)) as [->|Hna].
    - exists x1. split; [done|]. split; [|done]. rewrite Hx in Hz. injection Hz as ->. exact Hks.
    - exists z. split; [|done]. change (pcbs s3) with (<[a := x1]> (pcbs s)). by rewrite lookup_insert_ne. }
  destruct Hz3 as (z1 & Hz1 & Hks1 & Hkc).
  eapply returns_mono; [eapply (KCSwitch_spec s3 a a n x1 z1 K kt e0 e1); try done; split; [|done..]|].
  { change (r_ptbr0 (hw s3)) with (r_ptbr0 (hw s1)). unfold s1. cbn [hw set_hw write_reg].
    by repeat destruct (decide _). }
  cbv beta. intros kc s4 [-> (c & -> & Hc)]. unfold switches, ctx_switch.
  split; [done|]. split; [by case_decide; [|apply Hkc]|]. split; [|split; [exact HQ2|by apply swap_resumes]].
  unfold swapped. exists h, k, (set_tlb c (hw s3)). split.
  { assert (Hpp : pcbs (put_pcb a (set_kernel_context a x1) s3) = <[a := saved_pcb a (uc s) x]> (pcbs s))
      by apply insert_insert_eq.
    unfold set_hw at 1, set_ptabs at 1 2 3 4 5 6 7 8 9. cbn [pcbs qst lst pipes ptabs bufs mtick hw gl uc].
    rewrite Hpp. reflexivity. }
  cbn [r_ptbr0 r_ptbr1 frames tty_out tlb set_tlb].
  assert (Hh : r_ptbr1 (hw s3) = PtUser n /\ r_ptbr0 (hw s3) = PtHeap K /\ frames (hw s3) = frames (hw s) /\
    tty_out (hw s3) = tty_out (hw s)).
  { change (hw s3) with (hw s1). unfold s1. cbn [hw set_hw write_reg]. by repeat destruct (decide _). }
  destruct Hh as (-> & -> & -> & ->). repeat split; try done. rewrite <- (tlb_all_dropped (tlb (hw s))).
  apply map_eq. intros v. rewrite Hc, lookup_tlb_drop. change (tlb (hw s3)) with (tlb (hw s1)). by rewrite Htlb.
Qed.

Lemma SwapProcess_spec s V a i move uctxt x y rs z K kt e0 e1 :
  MallocTotal L -> uctxt <> NULL -> Q (qst s) V -> V !! ready_q (gl s) = Some rs ->
  active s = a -> idle s = i -> a <> NULL -> pcbs s !! a = Some x -> pcbs s !! i = Some y ->
  pcbs s !! next_ready i rs = Some z -> kernel_stack_pt z = [e0; e1] ->
  on_kernel_table s K kt -> (move = NULL \/ is_Some (V !! move)) ->
  let is_idle := pid x =? pid y in let n := next_ready i rs in
  if is_idle && bool_decide (rs = []) then SwapProcess move uctxt s = Ret None s
  else switches (SwapProcess move uctxt) s (fun p t s1 k =>
    p = a /\ t = (if decide (n = a) then a else kernel_context z) /\
    swapped s s1 a n K x kt [e0; e1] /\
    Q (qst s1) (queues_after V (ready_q (gl s)) move is_idle a (pid x)) /\ resumes (uc s) k).
Proof.
  intros MT Hu HQ Hr <- <- Ha Hx Hy Hz Hks HK Hm is_idle n.
  destruct (qs_size _ _ _ _ HQ Hr) as (q & Eq & Hq).
  destruct (qs_nonnull _ _ _ _ HQ Hr) as [_ Hnn].
  assert (Hpop : switches (let! popped := queue_pop (ready_q (gl s)) in
      let next := if popped =? NULL then idle s else popped in
      swap_to (active s) next (if is_idle then NULL else move) uctxt) s (fun p t s1 k =>
    p = active s /\ t = (if decide (n = active s) then active s else kernel_context z) /\
    swapped s s1 (active s) n K x kt [e0; e1] /\
    Q (qst s1) (queues_after V (ready_q (gl s)) move is_idle (active s) (pid x)) /\ resumes (uc s) k)).
  { apply switches_after.
    eapply returns_mono; [by eapply (qs_pop (R := Q))|]. cbv beta. intros r s1 (h & -> & -> & HQ1).
    assert (En : (if front rs =? NULL then idle s else front rs) = n).
    { unfold n, front. destruct rs as [|[j p] rs]; [done|]. cbn. apply Forall_cons in Hnn as [Hp _].
      by destruct (Z.eqb_spec p NULL). }
    rewrite En. eapply switches_mono; [eapply (swap_to_spec (set_qst h s) _ _ n _ uctxt x z K kt e0 e1)|]; try done.
    - by destruct HK.
    - destruct is_idle; [by left|]. destruct Hm as [->|[ms Hms]]; [by left|]. right.
      destruct (decide (move = ready_q (gl s))) as [->|]; [rewrite lookup_insert_eq; by eexists|].
      rewrite lookup_insert_ne by done. by eexists.
    - cbv beta. intros p t s1 k (-> & -> & Hsw & HQ2 & Hk). split; [done|]. split; [done|].
      split; [|split; [|exact Hk]].
      + destruct Hsw as (h2 & k2 & hw2 & -> & Hw). by exists h2, k2, hw2.
      + unfold queues_after, joined in *. rewrite Hr. cbn [default].
        by destruct is_idle; cbn [orb]; [|destruct (move =? NULL)]. }
  unfold SwapProcess. destruct (Z.eqb_spec uctxt NULL); [done|]. unfold qptr, size_of, get_queue.
  destruct is_idle eqn:Ei; unfold is_idle in Ei; cbn [andb].
  - case_bool_decide as Ers.
    + subst rs. unfold bind, gets, get_pcb, deref. cbn [obind]. rewrite Hx. cbn [obind]. rewrite Hy. cbn [obind].
      rewrite Ei. cbn [obind]. rewrite Eq. cbn [obind ret]. by rewrite Hq.
    + do 2 (apply switches_after; rstep). do 2 (apply switches_after; rstep; [eassumption|]).
      apply switches_after. rstep. rewrite Ei. apply switches_after. rstep. rstep; [exact Eq|]. rstep.
      rewrite Hq. destruct (Z.eqb_spec (Z.of_nat (length rs)) 0); [by destruct rs|]. exact Hpop.
  - do 2 (apply switches_after; rstep). do 2 (apply switches_after; rstep; [eassumption|]).
    apply switches_after. rstep. rewrite Ei. apply switches_after. rstep. cbn [andb negb].
    exact Hpop.
Qed.

(** C2: [SwapProcess] is round robin: when the idle process runs and no process is
    ready it changes nothing (and returns no value); otherwise the process at
    the front of the ready queue, or the idle process, becomes active with its
    own region 1, its own kernel stack and an empty TLB, the process switched
    away from, with its stack pointer and program counter saved, joins the end of
    the given queue unless it is the idle process, and when it runs again it
    takes the stack pointer and program counter of the process then active. *)
Theorem SwapProcess_round_robin s V a i move uctxt x y rs z K kt e0 e1 :
  MallocTotal L -> uctxt <> NULL -> Q (qst s) V -> V !! ready_q (gl s) = Some rs ->
  active s = a -> idle s = i -> a <> NULL -> pcbs s !! a = Some x -> pcbs s !! i = Some y ->
  pcbs s !! next_ready i rs = Some z -> kernel_stack_pt z = [e0; e1] ->
  on_kernel_table s K kt -> (move = NULL \/ is_Some (V !! move)) ->
  let is_idle := pid x =? pid y in let n := next_ready i rs in
  if is_idle && bool_decide (rs = []) then SwapProcess move uctxt s = Ret None s
  else switches (SwapProcess move uctxt) s (fun p t s1 k =>
    p = a /\ t = (if decide (n = a) then a else kernel_context z) /\
    swapped s s1 a n K x kt [e0; e1] /\
    Q (qst s1) (queues_after V (ready_q (gl s)) move is_idle a (pid x)) /\ resumes (uc s) k).
Proof. apply SwapProcess_spec. Qed.

End swap.

(** ** Witnesses *)

(** Process 70 (pid 7) runs, 80 (pid 8) is ready, 75 (pid 0) is the idle process;
    the ready queue is 1, the blocked queue is 3, the kernel's table is at 50. *)
Definition ex_sched_q : qheap := mkQheap
  {[ 1 := mkQueue 0 1 2 2; 3 := mkQueue 0 0 NULL NULL ]} {[ 2 := mkQnode 8 80 NULL ]}.

Definition ex_sched_view : gmap Z (list (Z * Z)) := {[ 1 := [(8, 80)]; 3 := [] ]}.

Definition ex_kstack (f : Z) : list pte := [mkPte 1 3 f; mkPte 1 3 (f + 1)].

Definition ex_sched_pcbs : gmap Z pcb :=
  {[ 70 := set_kernel_stack_pt (ex_kstack 20) (set_pid 7 pcb_zero);
     75 := set_kernel_stack_pt (ex_kstack 22) pcb_zero;
     80 := set_kernel_context 80 (set_kernel_stack_pt (ex_kstack 24) (set_pid 8 pcb_zero)) ]}.

Definition ex_kt : list pte := replicate (Z.to_nat KERNEL_PT_SIZE) (mkPte 1 3 9).

Definition ex_sched : kstate :=
  set_pcbs ex_sched_pcbs (set_qst ex_sched_q (set_ptabs {[ 50 := ex_kt ]}
    (set_hw (set_r_ptbr0 (PtHeap 50) (set_r_ptbr1 (PtUser 70) init_hw))
    (set_gl (set_activePCB 70 (set_idlePCB 75 (set_ready_q 1 (set_blocked_q 3 init_glob)))) init_state)))).

Lemma ex_sched_qstore : qstore ex_sched_q ex_sched_view.
Proof. apply (qstoreb_ok {[ 1 := [2]; 3 := [] ]}). vm_compute. reflexivity. Qed.

Lemma ex_sched_table : on_kernel_table ex_sched 50 ex_kt.
Proof. by split. Qed.

Lemma SwapProcess_round_robin_witness :
  switches (SwapProcess (L := bump_libc) 3 1 ) ex_sched (fun p t s1 k => p = 70 /\ t = 80 /\
    swapped ex_sched s1 70 80 50 (set_kernel_stack_pt (ex_kstack 20) (set_pid 7 pcb_zero)) ex_kt (ex_kstack 24) /\
    qstore (qst s1) (queues_after ex_sched_view 1 3 false 70 7) /\ resumes (uc ex_sched) k).
Proof.
  apply (SwapProcess_round_robin (L := bump_libc) (Q := qstore) ex_sched ex_sched_view 70 75 3 1
    (set_kernel_stack_pt (ex_kstack 20) (set_pid 7 pcb_zero)) (set_kernel_stack_pt (ex_kstack 22) pcb_zero)
    [(8, 80)] (set_kernel_context 80 (set_kernel_stack_pt (ex_kstack 24) (set_pid 8 pcb_zero)))
    50 ex_kt (mkPte 1 3 24) (mkPte 1 3 25)).
  - exact bump_libc_total.
  - discriminate.
  - exact ex_sched_qstore.
  - reflexivity.
  - reflexivity.
  - reflexivity.
  - discriminate.
  - reflexivity.
  - reflexivity.
  - reflexivity.
  - reflexivity.
  - exact ex_sched_table.
  - right. by eexists.
Defined.
