(* ===== verification/LoadProgram.v ===== *)
(** * Loading a program ([load_program.c], [load_info.h])

    The layout of the new address space, the replacement of the old one, the
    text and data read from the file, and the argument block on the new stack. *)

From Stdlib Require Import ZArith Lia.
From stdpp Require Import base gmap list.
From S2P Require Import Prelude Hardware State Logic KList Memory Frames Process.

Open Scope Z_scope.

(** ** Files

    The host's files and [LoadInfo] are outside the sources. *)

Record load_info := mkLoadInfo {
  li_entry : Z;
  li_t_faddr : Z;
  li_t_vaddr : Z;
  li_t_npg : Z;
  li_t_end : Z;
  li_id_faddr : Z;
  li_id_vaddr : Z;
  li_id_npg : Z;
  li_id_end : Z;
  li_ud_vaddr : Z;
  li_ud_npg : Z;
  li_ud_end : Z }.

(** [open] (a descriptor, or none), [LoadInfo] (none on a format error), and the
    bytes [read] delivers from an offset. *)
Class FileSystem := {
  fs_open : list Z -> option Z;
  fs_load_info : Z -> option load_info;
  fs_read : Z -> Z -> Z -> list Z }.

(** [read] delivers at most what was asked for. *)
Class FileSystemLaws (FS : FileSystem) : Prop :=
  fs_read_len : forall fd off n, 0 <= n -> Z.of_nat (length (fs_read fd off n)) <= n.

(** ** Strings and argument vectors *)

(** The string at [a] in user memory, without its NUL. *)
Fixpoint read_cstring (fuel : nat) (a : Z) : M (list Z) :=
  match fuel with
  | O => raise FFuel
  | S fuel' =>
      let! c := read_byte a in
      if c =? 0 then ret [] else
      let! cs := read_cstring fuel' (a + 1) in ret (c :: cs)
  end.

(** A walk upwards from an address of region 1 leaves it within its size. *)
Definition region_fuel : nat := S (Z.to_nat VMEM_1_SIZE).

Definition user_string (a : Z) : M (list Z) := read_cstring region_fuel a.

(** [args]: the kernel's own argument array from an index on, or a vector in user memory. *)
Inductive argv :=
  | KernelArgs (l : list (list Z)) (from : Z)
  | UserArgs (a : Z).

(** [args[i]], [None] for NULL. *)
Definition get_arg (args : argv) (i : Z) : M (option (list Z)) :=
  match args with
  | KernelArgs l from =>
      if from + i =? Z.of_nat (length l) then ret None
      else let! x := in_bounds (zget l (from + i)) in ret (Some x)
  | UserArgs a =>
      let! p := load_int (a + 4 * i) in
      if p =? NULL then ret None else let! x := user_string (u32 p) in ret (Some x)
  end.

(** The string at offset [off] of a buffer. *)
Fixpoint cstring (l : list Z) : list Z :=
  match l with
  | [] => []
  | c :: l' => if c =? 0 then [] else c :: cstring l'
  end.

(** [for (i = 0; args[i] != NULL; i++)], from [i] on: the strings in order. *)
Fixpoint scan_args (fuel : nat) (args : argv) (i : Z) : M (list (list Z)) :=
  match fuel with
  | O => raise FFuel
  | S fuel' =>
      let! x := get_arg args i in
      match x with
      | None => ret []
      | Some c => let! cs := scan_args fuel' args (i + 1) in ret (c :: cs)
      end
  end.

(** The bytes the arguments take: [size += strlen(args[i]) + 1]. *)
Definition args_size (cs : list (list Z)) : Z :=
  foldr (fun c n => Z.of_nat (length c) + 1 + n) 0 cs.

(** The arguments as [strcpy] lays them out one after the other. *)
Definition args_bytes (cs : list (list Z)) : list Z := concat (map (fun c => c ++ [0]) cs).

(** ** The layout *)

Record layout := mkLayout {
  lo_text_pg1 : Z;
  lo_data_pg1 : Z;
  lo_data_npg : Z;
  lo_argcount : Z;
  lo_size : Z;
  lo_cp : Z;
  lo_cpp : Z;
  lo_stack_npg : Z }.

Definition compute_layout (li : load_info) (argcount size : Z) : layout :=
  let text_pg1 := Z.shiftr (u32 (li_t_vaddr li - VMEM_1_BASE)) PAGESHIFT in
  let data_pg1 := Z.shiftr (u32 (li_id_vaddr li - VMEM_1_BASE)) PAGESHIFT in
  let data_npg := i32 (li_id_npg li + li_ud_npg li) in
  let cp := VMEM_1_LIMIT - size in
  let cpp := Z.land (cp - (argcount + 3 + POST_ARGV_NULL_SPACE) * 4) (Z.lnot 7) in
  let cp2 := cpp - INITIAL_STACK_FRAME_SIZE in
  let stack_npg := Z.shiftr (VMEM_1_LIMIT - DOWN_TO_PAGE cp2) PAGESHIFT in
  mkLayout text_pg1 data_pg1 data_npg argcount size cp cpp stack_npg.

(** Room for the stack above a gap of at least a page. *)
Definition layout_fits (lo : layout) : bool :=
  lo_stack_npg lo + lo_data_pg1 lo + lo_data_npg lo <? MAX_PT_LEN.

Section load_ops.
Context `{L : Libc} `{FS : FileSystem}.

(** ** Replacing the address space *)

(** Throw away the old region 1. *)
Definition discard_page (u_pt : pt_ptr) (i : Z) : M unit :=
  let! e := pt_get u_pt i in
  if valid e =? VALID_FRAME then
    pt_upd u_pt i (set_valid INVALID_FRAME) ;;
    let! e := pt_get u_pt i in
    DeallocatePFN (pfn e) ;;
    pt_upd u_pt i (set_pfn 0)
  else ret tt.

Definition discard_region1 (u_pt : pt_ptr) : M unit :=
  mfor (zseq 0 (VMEM_1_SIZE / PAGESIZE)) (discard_page u_pt).

(** The loop that maps the pages [lo..hi-1]: the same code for text, data and stack. *)
Definition map_page (proc i : Z) : M (option Z) :=
  let u_pt := PtUser proc in
  pt_upd u_pt i (set_valid VALID_FRAME) ;;
  pt_upd u_pt i (set_prot NO_X_W_R) ;;
  let! pfn := AllocatePFN in
  if pfn =? -1 then
    free_addr_space (PtUser proc) (PtKstack proc) ;;
    ret (Some ERROR)
  else
    pt_upd u_pt i (set_pfn pfn) ;;
    ret None.

Definition map_pages (proc : Z) (lo hi : Z) : M (option Z) := mfor_ret (zseq lo hi) (map_page proc).

Definition map_text (proc : Z) (li : load_info) (lo : layout) : M (option Z) :=
  upd_pcb proc (set_user_text_pt_index (lo_text_pg1 lo)) ;;
  map_pages proc (lo_text_pg1 lo) (lo_text_pg1 lo + li_t_npg li).

Definition map_data (proc : Z) (lo : layout) : M (option Z) :=
  upd_pcb proc (set_user_data_pt_index (lo_data_pg1 lo)) ;;
  map_pages proc (lo_data_pg1 lo) (lo_data_pg1 lo + lo_data_npg lo).

Definition map_stack (proc : Z) (lo : layout) : M (option Z) :=
  upd_pcb proc (set_user_heap_pt_index (lo_data_pg1 lo + lo_data_npg lo)) ;;
  upd_pcb proc (set_user_stack_pt_index (MAX_PT_LEN - lo_stack_npg lo)) ;;
  map_pages proc (MAX_PT_LEN - lo_stack_npg lo) MAX_PT_LEN.

(** ** Filling it *)

(** [lseek] and [read] of [n] pages to [vaddr]: [KILL] when the file is short. *)
Definition read_segment (fd faddr vaddr npg : Z) : M (option Z) :=
  let segment_size := Z.shiftl npg PAGESHIFT in
  let bs := fs_read fd faddr segment_size in
  write_bytes vaddr bs ;;
  if Z.of_nat (length bs) =? segment_size then ret None else ret (Some KILL).

(** The text becomes executable and read-only. *)
Definition protect_page (u_pt : pt_ptr) (i : Z) : M unit :=
  pt_upd u_pt i (set_prot X_NO_W_R) ;;
  WriteRegister (REG_TLB_FLUSH (Z.shiftl (MAX_PT_LEN + i) PAGESHIFT)).

Definition protect_text (u_pt : pt_ptr) (li : load_info) (lo : layout) : M unit :=
  mfor (zseq (lo_text_pg1 lo) (lo_text_pg1 lo + li_t_npg li)) (protect_page u_pt).

Definition zero_bytes (a n : Z) : M unit := write_bytes a (replicate (Z.to_nat (u32 n)) 0).

(** [argv[i]] and its string for the saved arguments [buf]. *)
Fixpoint place_args (n : nat) (cpp cp : Z) (buf : list Z) : M Z :=
  match n with
  | O => ret cpp
  | S n' =>
      store_int cpp cp ;;
      let c := cstring buf in
      write_bytes cp (c ++ [0]) ;;
      place_args n' (cpp + 4) (cp + Z.of_nat (length c) + 1) (drop (S (length c)) buf)
  end.

Definition build_stack (lo : layout) (argbuf : Z) : M unit :=
  zero_bytes (lo_cpp lo) (VMEM_1_LIMIT - lo_cpp lo) ;;
  store_int (lo_cpp lo) (lo_argcount lo) ;;
  let! buf := deref bufs argbuf in
  let! cpp := place_args (Z.to_nat (lo_argcount lo)) (lo_cpp lo + 4) (lo_cp lo) buf in
  modify (fun s => set_bufs (delete argbuf (bufs s)) s) ;;
  store_int cpp NULL ;;
  store_int (cpp + 4) NULL.

(** Everything after the checks. *)
Definition load_committed (proc fd : Z) (args : argv) (li : load_info) (lo : layout) : M Z :=
  upd_pcb proc (fun p => set_user_context
    (uc_set_sp (lo_cpp lo - INITIAL_STACK_FRAME_SIZE) (user_context p)) p) ;;
  let! argbuf := malloc put_buf (replicate (Z.to_nat (lo_size lo)) 0) in
  if argbuf =? NULL then ret ERROR else
  let! cs := scan_args region_fuel args 0 in
  modify (put_buf argbuf (args_bytes cs)) ;;
  let u_pt := PtUser proc in
  WriteRegister (REG_TLB_FLUSH TLB_FLUSH_1) ;;
  WriteRegister (REG_PTBR1 u_pt) ;;
  discard_region1 u_pt ;;
  returning! map_text proc li lo in
  returning! map_data proc lo in
  returning! map_stack proc lo in
  WriteRegister (REG_TLB_FLUSH TLB_FLUSH_1) ;;
  returning! read_segment fd (li_t_faddr li) (li_t_vaddr li) (li_t_npg li) in
  returning! read_segment fd (li_id_faddr li) (li_id_vaddr li) (li_id_npg li) in
  protect_text u_pt li lo ;;
  zero_bytes (li_id_end li) (li_ud_end li - li_id_end li) ;;
  upd_pcb proc (fun p => set_user_context (uc_set_pc (li_entry li) (user_context p)) p) ;;
  build_stack lo argbuf ;;
  ret SUCCESS.

Definition LoadProgram (name : list Z) (args : argv) (proc : Z) : M Z :=
  match fs_open name with
  | None => ret ERROR
  | Some fd =>
      match fs_load_info fd with
      | None => ret (-1)
      | Some li =>
          if li_entry li <? VMEM_1_BASE then ret ERROR else
          let! cs := scan_args region_fuel args 0 in
          let lo := compute_layout li (Z.of_nat (length cs)) (args_size cs) in
          if negb (layout_fits lo) then ret ERROR
          else load_committed proc fd args li lo
      end
  end.

End load_ops.

(** A disk without files. *)
Definition ex_disk : FileSystem := {|
  fs_open := fun _ => None; fs_load_info := fun _ => None; fs_read := fun _ _ _ => [] |}.
