(* ===== verification/Boot.v ===== *)
(** * Booting the kernel ([kernel.c])

    The globals, the page tables of the two regions, the kernel's own heap limit
    and [KernelStart]. *)

From Stdlib Require Import ZArith Lia.
From stdpp Require Import base gmap list.
From S2P Require Import Prelude Hardware State Logic KList KQueue KPipe Memory Frames Process ContextSwitch Sched LoadProgram.

Open Scope Z_scope.

(** The addresses the linker provides, and whether the word after
    [InterruptVectorTable] may be overwritten. *)
Class Image := {
  kernel_data_start : Z;
  kernel_data_end : Z;
  kernel_orig_brk : Z;
  ivt_slack : bool }.

(** An entry assigned as a whole. *)
Definition entry_of (v p f : Z) : pte := set_valid v (set_prot p (set_pfn f pte_zero)).

(** [memset(t, 0, sizeof(pte_t) * n)] *)
Definition pt_clear (t : pt_ptr) (n : Z) : M unit :=
  mfor (zseq 0 n) (fun i => pt_upd t i (fun _ => pte_zero)).

Section boot_ops.
Context `{L : Libc} `{C : Compiler} `{FS : FileSystem} `{I : Image}.

(** A store to an element of a global array. *)
Definition arr_set {A} (get : kglob -> list A) (put : list A -> kglob -> kglob) (i : Z) (v : A) : M unit :=
  let! l := gets (fun s => get (gl s)) in
  let! l' := in_bounds (zset i v l) in
  upd_gl (put l').

(** One terminal of [SetUpGlobals]. *)
Definition set_up_terminal (i : Z) : M unit :=
  let! q := queue_init in
  arr_set ttyReadQueues set_ttyReadQueues i q ;;
  let! q := queue_init in
  arr_set ttyWriteQueues set_ttyWriteQueues i q ;;
  let! b := malloc put_buf (replicate (Z.to_nat TERMINAL_MAX_LINE) 0) in
  arr_set ttyReadbuffers set_ttyReadbuffers i b ;;
  arr_set ttyWriteTrackers set_ttyWriteTrackers i TERMINAL_OPEN ;;
  arr_set ttyReadTrackers set_ttyReadTrackers i 0 ;;
  (* memset(ttyReadbuffers[i], 0, TERMINAL_MAX_LINE) *)
  deref bufs b ;;
  modify (put_buf b (replicate (Z.to_nat TERMINAL_MAX_LINE) 0)).

Definition set_up_lock (i : Z) : M (option Z) :=
  let! q := queue_init in
  arr_set lockAquireQueues set_lockAquireQueues i q ;;
  arr_set lock_status set_lock_status i UNUSED_LOCK ;;
  let! ll := gets (fun s => lock_list (gl s)) in
  let! r := list_add ll i in
  ret (if r =? ERROR then Some ERROR else None).

Definition set_up_cvar (i : Z) : M unit :=
  let! q := queue_init in
  arr_set cvarWaitQueues set_cvarWaitQueues i q ;;
  arr_set cvar_status set_cvar_status i UNUSED_CVAR ;;
  let! cl := gets (fun s => cvar_list (gl s)) in
  list_add cl (MAX_LOCKS + i + 1) ;;
  ret tt.

(** The frame numbers in the order [SetUpGlobals] frees them. *)
Definition boot_frames (num_of_frames : Z) : list Z :=
  rev (zseq (Z.shiftr VMEM_1_BASE PAGESHIFT) num_of_frames).

Definition SetUpGlobals : M Z :=
  let! q := queue_init in upd_gl (set_ready_q q) ;;
  let! q := queue_init in upd_gl (set_blocked_q q) ;;
  let! q := queue_init in upd_gl (set_defunct_q q) ;;
  let! l := list_init in upd_gl (set_pfn_list l) ;;
  let! l := list_init in upd_gl (set_lock_list l) ;;
  let! l := list_init in upd_gl (set_cvar_list l) ;;
  mfor (zseq 0 NUM_TERMINALS) set_up_terminal ;;
  returning! mfor_ret (zseq 0 MAX_LOCKS) set_up_lock in
  mfor (zseq 0 MAX_CVARS) set_up_cvar ;;
  let! g := gets gl in
  if (ready_q g =? NULL) || (blocked_q g =? NULL) || (defunct_q g =? NULL) || (pfn_list g =? NULL)
  then ret ERROR else
  returning! mfor_ret (boot_frames (num_of_frames g)) (fun fr_number =>
    let! pl := gets (fun s => pfn_list (gl s)) in
    let! r := list_add pl fr_number in
    ret (if r =? ERROR then Some ERROR else None)) in
  let! hp := init_head_pipe in
  upd_gl (set_head_pipe hp) ;;
  ret 0.

(** The entry of [SetRegion0_pt] for page [pt_index]. *)
Definition region0_entry (brk pt_index : Z) : pte :=
  let vp0 := Z.shiftr VMEM_0_BASE PAGESHIFT in
  let text_vp_lowest := vp0 in
  let text_vp_highest := Z.shiftr (i32 kernel_data_start) PAGESHIFT in
  let data_vp_lowest := text_vp_highest in
  let data_vp_highest := Z.shiftr (i32 kernel_data_end) PAGESHIFT in
  let heap_vp_lowest := data_vp_highest in
  let heap_vp_highest := Z.shiftr (i32 brk) PAGESHIFT in
  let stack_vp_lowest := Z.shiftr KERNEL_STACK_BASE PAGESHIFT in
  let stack_vp_highest := Z.shiftr KERNEL_STACK_LIMIT PAGESHIFT in
  let pfn := pt_index + vp0 in
  if (text_vp_lowest - vp0 <=? pt_index) && (pt_index <? text_vp_highest - vp0)
  then entry_of VALID_FRAME X_NO_W_R pfn
  else if (data_vp_lowest - vp0 <=? pt_index) && (pt_index <? data_vp_highest - vp0)
  then entry_of VALID_FRAME NO_X_W_R pfn
  else if (heap_vp_lowest - vp0 <=? pt_index) && (pt_index <? heap_vp_highest - vp0)
  then entry_of VALID_FRAME NO_X_W_R pfn
  else if (stack_vp_lowest - vp0 <=? pt_index) && (pt_index <? stack_vp_highest - vp0)
  then entry_of VALID_FRAME NO_X_W_R pfn
  else entry_of INVALID_FRAME 0 pfn.

Definition SetRegion0_pt (k_pt : pt_ptr) (k_pt_size : Z) : M Z :=
  if decide (k_pt = PtNull) then ret ERROR else
  WriteRegister (REG_PTBR0 k_pt) ;;
  WriteRegister (REG_PTLR0 k_pt_size) ;;
  let! brk := gets (fun s => kernel_brk (gl s)) in
  pt_clear k_pt k_pt_size ;;
  mfor (zseq 0 k_pt_size) (fun pt_index =>
    pt_upd k_pt (pt_index - Z.shiftr VMEM_0_BASE PAGESHIFT) (fun _ => region0_entry brk pt_index)) ;;
  ret 0.

Definition SetRegion1_pt (u_pt : pt_ptr) (u_pt_size : Z) : M Z :=
  if decide (u_pt = PtNull) then ret ERROR else
  WriteRegister (REG_PTBR1 u_pt) ;;
  WriteRegister (REG_PTLR1 u_pt_size) ;;
  pt_clear u_pt u_pt_size ;;
  ret 0.

(** [addr] is an unsigned pointer. *)
Definition SetKernelBrk (addr : Z) : M Z :=
  if (addr =? NULL) || (KERNEL_STACK_BASE <=? addr) then ret ERROR else
  let! vm_enabled := gets (fun s => r_vm (hw s)) in
  let vp0 := Z.shiftr VMEM_0_BASE PAGESHIFT in
  let! k_pt := gets (fun s => r_ptbr0 (hw s)) in
  let! brk := gets (fun s => kernel_brk (gl s)) in
  if vm_enabled =? VM_ENABLED then
    let index := Z.shiftr (i32 brk) (PAGESHIFT - vp0) in
    let addr_index := Z.shiftr (i32 addr) (PAGESHIFT - vp0) in
    (if addr_index >? index then
       mfor (zseq index addr_index) (fun index =>
         let! e := pt_get k_pt index in
         if valid e =? INVALID_FRAME then
           pt_upd k_pt index (set_valid VALID_FRAME) ;;
           pt_upd k_pt index (set_prot NO_X_W_R)
         else ret tt)
     else ret tt) ;;
    upd_gl (set_kernel_brk (DOWN_TO_PAGE addr)) ;;
    ret 0
  else if vm_enabled =? VM_DISABLED then
    (if addr >? brk then upd_gl (set_kernel_brk (DOWN_TO_PAGE addr)) else ret tt) ;;
    ret 0
  else ret ERROR.

(** ** [KernelStart] *)

Definition str_idle : list Z := [112; 114; 111; 103; 115; 47; 105; 100; 108; 101].
Definition str_init : list Z := [112; 114; 111; 103; 115; 47; 105; 110; 105; 116].

(** The interrupt vector table: its 16 entries are set, and the loop's last
    iteration writes the entry behind it. *)
Definition install_vectors : M unit :=
  if ivt_slack then WriteRegister REG_VECTOR_BASE else raise FOob.

(** Up to the point where virtual memory is on. *)
Definition boot_memory (pmem_size : Z) : M (pt_ptr * Z) :=
  upd_gl (set_kernel_brk kernel_orig_brk) ;;
  upd_gl (set_num_of_frames (u32 pmem_size / PAGESIZE)) ;;
  install_vectors ;;
  let! k := malloc put_pt (replicate (Z.to_nat KERNEL_PT_SIZE) pte_zero) in
  let k_pt := if k =? NULL then PtNull else PtHeap k in
  let! u := malloc put_pt (replicate (Z.to_nat USER_PT_SIZE) pte_zero) in
  let u_pt := if u =? NULL then PtNull else PtHeap u in
  SetRegion0_pt k_pt KERNEL_PT_SIZE ;;
  SetRegion1_pt u_pt USER_PT_SIZE ;;
  let! brk := gets (fun s => kernel_brk (gl s)) in
  mfor (zseq (Z.shiftr (i32 kernel_data_end) PAGESHIFT) (Z.shiftr (i32 brk) PAGESHIFT)) (fun i =>
    pt_upd k_pt i (set_prot NO_X_W_R) ;;
    pt_upd k_pt i (set_pfn i) ;;
    pt_upd k_pt i (set_valid VALID_FRAME)) ;;
  WriteRegister (REG_VM_ENABLE VM_ENABLED) ;;
  ret (k_pt, u).

(** The first two processes. *)
Definition boot_processes (cmd_args : list (list Z)) (prog : list Z) (u uctxt : Z) : M unit :=
  let! i := init_process uctxt in
  upd_gl (set_idlePCB i) ;;
  LoadProgram str_idle (KernelArgs cmd_args 1) i ;;
  upd_gl (set_activePCB i) ;;
  modify (fun s => set_ptabs (delete u (ptabs s)) s) ;;
  let! progPCB := init_process uctxt in
  let! r := LoadProgram prog (KernelArgs cmd_args 0) progPCB in
  (if r =? ERROR then raise FHalt else ret tt) ;;
  let! rq := qptr ready_q in
  let! p := get_pcb progPCB in
  queue_add rq progPCB (pid p) ;;
  WriteRegister (REG_TLB_FLUSH TLB_FLUSH_1) ;;
  let! i := gets idle in
  WriteRegister (REG_PTBR1 (PtUser i)) ;;
  let! ip := get_pcb i in
  upd_uc uctxt (fun _ => user_context ip) ;;
  clone_context progPCB.

Definition KernelStart (cmd_args : list (list Z)) (pmem_size uctxt : Z) : M unit :=
  let prog := match cmd_args with [] => str_init | p :: _ => p end in
  let! ku := boot_memory pmem_size in
  SetUpGlobals ;;
  boot_processes cmd_args prog (snd ku) uctxt.

End boot_ops.
