(* ===== verification/SyscallsProc.v ===== *)
(** * Process system calls ([syscalls.c], lines 12-414)

    [Fork], [Exec], [Exit], [Wait], [GetPid], [GetPPid] and [Brk]. *)

From Stdlib Require Import ZArith Lia.
From stdpp Require Import base gmap list.
From S2P Require Import Prelude Hardware State Logic KList KQueue Memory Frames Process ContextSwitch Sched LoadProgram.

Open Scope Z_scope.

(** ** The operations *)

Section proc_calls.
Context `{L : Libc} `{FS : FileSystem}.

(** [init_process] and the copy of the page-table limits. *)
Definition fork_child (uctxt : Z) : M Z :=
  let! child := init_process uctxt in
  let! a := gets active in
  let! ap := get_pcb a in
  upd_pcb child (set_user_heap_pt_index (user_heap_pt_index ap)) ;;
  upd_pcb child (set_user_stack_pt_index (user_stack_pt_index ap)) ;;
  upd_pcb child (set_user_data_pt_index (user_data_pt_index ap)) ;;
  upd_pcb child (set_user_text_pt_index (user_text_pt_index ap)) ;;
  ret child.

(** The copy of the address space through a page of the kernel's table. *)
Definition fork_space (child : Z) : M (option Z) :=
  let! k_pt := gets (fun s => r_ptbr0 (hw s)) in
  let! reserved := find_invalid k_pt in
  if reserved =? -1 then ret (Some ERROR) else
  pt_upd k_pt reserved (set_valid VALID_FRAME) ;;
  pt_upd k_pt reserved (set_prot NO_X_W_R) ;;
  WriteRegister (REG_TLB_FLUSH TLB_FLUSH_0) ;;
  let! a := gets active in
  let! r := CopyUPT (PtUser a) (PtUser child) k_pt reserved in
  if r =? ERROR then ret (Some ERROR) else
  pt_upd k_pt reserved (set_pfn 0) ;;
  pt_upd k_pt reserved (set_valid INVALID_FRAME) ;;
  pt_upd k_pt reserved (set_prot NO_X_NO_W_NO_R) ;;
  ret None.

Definition KernelFork (uctxt : Z) : M Z :=
  if uctxt =? NULL then ret ERROR else
  let! child := fork_child uctxt in
  if child =? NULL then ret ERROR else
  returning! fork_space child in
  let! rq := qptr ready_q in
  let! c := get_pcb child in
  let! r := queue_add rq child (pid c) in
  if r =? ERROR then ret ERROR else
  clone_context child ;;
  let! a := gets active in
  let! ap := get_pcb a in
  let! c := get_pcb child in
  if pid ap =? pid c then ret 0 else
  ret (pid c).

(** [filename] and [argvec] are pointers into user memory. *)
Definition KernelExec (uctxt filename argvec : Z) : M Z :=
  if (uctxt =? NULL) || (filename =? NULL) || (argvec =? NULL) then ret ERROR else
  let! a := gets active in
  upd_pcb a (set_user_context uctxt_zero) ;;
  WriteRegister (REG_TLB_FLUSH TLB_FLUSH_KSTACK) ;;
  let! name := user_string filename in
  let! r := LoadProgram name (UserArgs argvec) a in
  if r =? ERROR then ret ERROR else ret 0.

(** The three loops of [KernelExit]; the accumulator is [swap_q]. *)
Definition exit_ready_step (_ swap_q : Z) : M (Z + Z) :=
  let! rq := qptr ready_q in
  let! r := queue_pop rq in
  let! rp := get_pcb r in
  let! a := gets active in
  let! ap := get_pcb a in
  let! swap_q :=
    (if ppid rp =? pid ap then upd_pcb r (set_ppid 0) ;; ret swap_q
     else if pid rp =? ppid ap then qptr defunct_q
     else ret swap_q) in
  let! rp := get_pcb r in
  let! e := queue_add rq r (pid rp) in
  ret (if e =? ERROR then inl ERROR else inr swap_q).

Definition exit_blocked_step (_ swap_q : Z) : M (Z + Z) :=
  let! bq := qptr blocked_q in
  let! b := queue_pop bq in
  if b =? NULL then ret (inl ERROR) else
  let! bp := get_pcb b in
  let! a := gets active in
  let! ap := get_pcb a in
  if (pid bp =? ppid ap) && (blocked_code bp =? BLOCKED_WAIT) then
    upd_pcb b (set_blocked_code (exit_code ap)) ;;
    upd_pcb b (fun p => set_num_children (num_children p - 1) p) ;;
    let! rq := qptr ready_q in
    let! bp := get_pcb b in
    let! e := queue_add rq b (pid bp) in
    ret (if e =? ERROR then inl ERROR else inr swap_q)
  else
    let! swap_q :=
      (if pid bp =? ppid ap then qptr defunct_q
       else if ppid bp =? pid ap then upd_pcb b (set_ppid 0) ;; ret swap_q
       else ret swap_q) in
    let! bp := get_pcb b in
    let! e := queue_add bq b (pid bp) in
    ret (if e =? ERROR then inl ERROR else inr swap_q).

Definition exit_defunct_step (_ : Z) : M (option Z) :=
  let! dq := qptr defunct_q in
  let! d := queue_pop dq in
  if d =? NULL then ret (Some ERROR) else
  let! dp := get_pcb d in
  let! a := gets active in
  let! ap := get_pcb a in
  if negb (ppid dp =? pid ap) then
    let! e := queue_add dq d (pid dp) in
    ret (if e =? ERROR then Some ERROR else None)
  else ret None.

(** The search for the parent and the children; [inr] is [swap_q]. *)
Definition exit_family : M (Z + Z) :=
  let! rq := qptr ready_q in
  let! limit := size_of rq in
  let! r := mfor_acc (zseq 0 limit) NULL exit_ready_step in
  match r with
  | inl e => ret (inl e)
  | inr swap_q =>
      let! bq := qptr blocked_q in
      let! limit := size_of bq in
      let! r := mfor_acc (zseq 0 limit) swap_q exit_blocked_step in
      match r with
      | inl e => ret (inl e)
      | inr swap_q =>
          let! dq := qptr defunct_q in
          let! limit := size_of dq in
          let! r := mfor_ret (zseq 0 limit) exit_defunct_step in
          ret (match r with Some e => inl e | None => inr swap_q end)
      end
  end.

Definition KernelExit (exit_code : Z) (uctxt : Z) : M Z :=
  if uctxt =? NULL then ret ERROR else
  let! a := gets active in
  upd_pcb a (set_exit_code exit_code) ;;
  let! ap := get_pcb a in
  let! fam :=
    (if negb (ppid ap =? 0) || (num_children ap >? 0) then exit_family else ret (inr NULL)) in
  match fam with
  | inl e => ret e
  | inr swap_q =>
      let! r := (if swap_q =? NULL then delete_process a
                 else free_addr_space (PtUser a) (PtKstack a)) in
      if r =? ERROR then ret ERROR else
      let! r := SwapProcess swap_q uctxt in
      let! r := determinate r in
      if r =? ERROR then ret ERROR else ret 0
  end.

(** The search of the defunct queue: the exit status of a dead child has been stored. *)
Definition wait_defunct_step (status_ptr : Z) (_ : Z) : M (option Z) :=
  let! dq := qptr defunct_q in
  let! d := queue_pop dq in
  if d =? NULL then ret (Some ERROR) else
  let! dp := get_pcb d in
  let! a := gets active in
  let! ap := get_pcb a in
  if ppid dp =? pid ap then
    upd_pcb a (fun p => set_num_children (num_children p - 1) p) ;;
    store_int status_ptr (exit_code dp) ;;
    ret (Some 0)
  else
    let! e := queue_add dq d (pid dp) in
    ret (if e =? ERROR then Some ERROR else None).

Definition KernelWait (status_ptr uctxt : Z) : M Z :=
  let! a := gets active in
  let! n := (if status_ptr =? NULL then ret 0 else let! ap := get_pcb a in ret (num_children ap)) in
  if n =? 0 then ret ERROR else
  let! dq := qptr defunct_q in
  let! limit := size_of dq in
  returning! mfor_ret (zseq 0 limit) (wait_defunct_step status_ptr) in
  upd_pcb a (set_blocked_code BLOCKED_WAIT) ;;
  let! ap := get_pcb a in
  let set_code_pid := pid ap in
  let! bq := qptr blocked_q in
  let! r := SwapProcess bq uctxt in
  let! r := determinate r in
  if r =? ERROR then ret ERROR else
  let! a := gets active in
  let! ap := get_pcb a in
  (if pid ap =? set_code_pid then
     store_int status_ptr (blocked_code ap) ;;
     upd_pcb a (set_blocked_code NOT_BLOCKED)
   else ret tt) ;;
  ret 0.

Definition KernelGetPid : M Z :=
  let! a := gets active in
  if a =? NULL then ret ERROR else let! ap := get_pcb a in ret (pid ap).

Definition KernelGetPPid : M Z :=
  let! a := gets active in
  if a =? NULL then ret ERROR else let! ap := get_pcb a in ret (ppid ap).

(** A page of the growing heap. *)
Definition alloc_heap_page (a i : Z) : M (option Z) :=
  let t := PtUser a in
  let! e := pt_get t i in
  if valid e =? INVALID_FRAME then
    let! pfn := AllocatePFN in
    if pfn =? ERROR then ret (Some ERROR) else
    pt_upd t i (set_prot NO_X_W_R) ;;
    pt_upd t i (set_pfn pfn) ;;
    pt_upd t i (set_valid VALID_FRAME) ;;
    ret None
  else ret None.

(** The checks and the allocations of a growing heap. *)
Definition brk_grow (a heap_index target : Z) : M (option Z) :=
  returning! mfor_ret (zseq heap_index target) (fun i =>
    let! e := pt_get (PtUser a) i in
    ret (if valid e =? VALID_FRAME then Some (Some ERROR) else None)) in
  mfor_ret (zseq heap_index target) (alloc_heap_page a).

(** A page of the shrinking heap. *)
Definition free_heap_page (a i : Z) : M (option Z) :=
  let t := PtUser a in
  let! e := pt_get t i in
  if valid e =? VALID_FRAME then
    let! r := DeallocatePFN (pfn e) in
    if r =? ERROR then ret (Some ERROR) else
    pt_upd t i (set_prot 0) ;;
    pt_upd t i (set_pfn 0) ;;
    pt_upd t i (set_valid INVALID_FRAME) ;;
    ret None
  else ret None.

(** The checks and the deallocations of a shrinking heap. *)
Definition brk_shrink (a heap_index target : Z) : M (option Z) :=
  returning! mfor_ret (zseq target heap_index) (fun i =>
    let! e := pt_get (PtUser a) i in
    ret (if valid e =? INVALID_FRAME then Some (Some ERROR) else None)) in
  mfor_ret (zseq target heap_index) (free_heap_page a).

Definition KernelBrk (addr : Z) : M Z :=
  if addr =? NULL then ret ERROR else
  let user_page_base := Z.shiftr VMEM_1_BASE PAGESHIFT in
  let! a := gets active in
  let! ap := get_pcb a in
  let heap_index := user_heap_pt_index ap in
  let stack_index := user_stack_pt_index ap in
  let data_index := user_data_pt_index ap in
  let target := Z.shiftr (UP_TO_PAGE addr) PAGESHIFT - user_page_base in
  if (target >=? stack_index) || (target <=? data_index) then ret ERROR else
  returning! (if target >? heap_index then brk_grow a heap_index target
              else brk_shrink a heap_index target) in
  upd_pcb a (set_user_heap_pt_index target) ;;
  ret 0.

End proc_calls.

(** ** The heap limit *)

(** The entries of freshly allocated pages: as many as there are frames. *)
Fixpoint grown (fl : list Z) (r : list pte) {struct r} : list pte :=
  match r, fl with
  | e :: r', f :: fl' => mkPte VALID_FRAME NO_X_W_R f :: grown fl' r'
  | _, _ => r
  end.

(** The virtual pages that the entries [lo..lo+n-1] of a table translate. *)
Definition active_pages (t : pt_ptr) (lo : Z) (n : nat) (h : khw) (v : Z) : bool :=
  existsb (fun i => active_page t i h v) (zrange lo n).

Lemma active_pages_cons t lo n h v :
  active_pages t lo (S n) h v = active_page t lo h v || active_pages t (lo + 1) n h v.
Proof. done. Qed.

Lemma active_page_tlb t i c h v : active_page t i (set_tlb c h) v = active_page t i h v.
Proof. done. Qed.

Lemma active_pages_tlb t lo n c h v : active_pages t lo n (set_tlb c h) v = active_pages t lo n h v.
Proof. done. Qed.

Section brk.
Context `{L : Libc} {F : kstate -> list Z -> Prop} {FA : FrameAllocator L F}.

Lemma F_tab t l c s fl : F s fl -> F (tab_upd t l c s) fl.
Proof. intros H. eapply fa_frame; [apply lst_tab_upd|by rewrite gl_tab_upd|exact H]. Qed.

(** A page that is not mapped gets a frame; [v] tells that there was none.  The heap
    and the stack grow this way. *)
Definition alloc_entry {R} (v : R) (a i : Z) : M (option R) :=
  let! e := pt_get (PtUser a) i in
  if valid e =? INVALID_FRAME then
    let! pfn := AllocatePFN in
    if pfn =? ERROR then ret (Some v) else
    pt_upd (PtUser a) i (set_prot NO_X_W_R) ;;
    pt_upd (PtUser a) i (set_pfn pfn) ;;
    pt_upd (PtUser a) i (set_valid VALID_FRAME) ;;
    ret None
  else ret None.

(** The entries after that, with the free frames [fl], and the number of frames asked for. *)
Fixpoint filled (fl : list Z) (r : list pte) {struct r} : list pte :=
  match r with
  | [] => []
  | e :: r' =>
      if valid e =? INVALID_FRAME then
        match fl with f :: fl' => mkPte VALID_FRAME NO_X_W_R f :: filled fl' r' | [] => r end
      else e :: filled fl r'
  end.

Fixpoint wanted (r : list pte) : nat :=
  match r with
  | [] => 0
  | e :: r' => if valid e =? INVALID_FRAME then S (wanted r') else wanted r'
  end.

Lemma alloc_entries {R} (v : R) a r1 : forall l r2 s fl,
  pt_table (PtUser a) s = Some (l ++ r1 ++ r2) -> F s fl -> Forall frame24 fl ->
  returns (mfor_ret (zrange (Z.of_nat (length l)) (length r1)) (alloc_entry v a)) s (fun o s' =>
    o = (if (wanted r1 <=? length fl)%nat then None else Some v) /\ F s' (drop (wanted r1) fl) /\
    exists h c, s' = set_lst h (tab_upd (PtUser a) (l ++ filled fl r1 ++ r2) c s) /\
      tlb_off (active_pages (PtUser a) (Z.of_nat (length l)) (length r1) (hw s)) (tlb (hw s)) c).
Proof.
  induction r1 as [|e r1 IH]; intros l r2 s fl Ht HF Hg.
  - cbn. split; [done|]. split; [done|]. exists (lst s), (tlb (hw s)). split; [|done].
    rewrite tab_upd_same by exact Ht. by destruct s.
  - cbn [length zrange mfor_ret wanted filled]. rstep.
    assert (Hnext : forall (e' : pte), Z.of_nat (length l) + 1 = Z.of_nat (length (l ++ [e']))) by (intros e'; rewrite length_app; cbn; lia).
    unfold alloc_entry at 1. rstep. eapply returns_pt_get; [exact Ht|apply zget_app|].
    destruct (Z.eqb_spec (valid e) INVALID_FRAME) as [Ee|Ee].
    2: { rstep. rewrite (Hnext e). eapply returns_mono; [apply (IH (l ++ [e]) r2 s fl); [by rewrite <- app_assoc|done|done]|].
         cbv beta. intros o s' (-> & HF' & h & c & -> & Hc). split; [done|]. split; [done|]. exists h, c.
         rewrite <- app_assoc. split; [done|]. intros x Hx. apply Hc. rewrite active_pages_cons in Hx.
         apply orb_false_elim in Hx as [_ Hx]. by rewrite <- Hnext. }
    rstep. destruct fl as [|f fl].
    + eapply returns_exec; [by apply fa_alloc_none|]. cbn. split; [done|]. split; [done|].
      exists (lst s), (tlb (hw s)). split; [|done]. rewrite tab_upd_same by exact Ht. by destruct s.
    + apply Forall_cons in Hg as [Hf Hg].
      eapply returns_mono; [apply (fa_alloc s f fl HF); by apply frame24_good|]. cbv beta.
      intros r s1 (h & -> & -> & HF1).
      destruct (Z.eqb_spec f ERROR); [unfold frame24, ERROR in *; lia|].
      apply (returns_pt_upd3 (PtUser a) l e (r1 ++ r2)); [exact Ht|]. intros c Hc _. rstep.
      unfold set_prot, set_pfn, set_valid. cbn [prot valid pfn].
      change (Z.land VALID_FRAME 1) with VALID_FRAME. change (Z.land NO_X_W_R 7) with NO_X_W_R.
      rewrite land_pfn_small by (unfold frame24 in Hf; lia).
      set (e' := mkPte _ _ f). set (s2 := tab_upd _ _ _ _). rewrite (Hnext e').
      assert (Ht2 : pt_table (PtUser a) s2 = Some ((l ++ [e']) ++ r1 ++ r2)).
      { rewrite <- app_assoc. apply pt_table_tab_upd. by eexists. }
      eapply returns_mono; [apply (IH (l ++ [e']) r2 s2 fl Ht2); [by apply F_tab|done]|]. cbv beta.
      intros o s' (-> & HF' & h' & c' & -> & Hc'). split; [done|]. split; [done|].
      exists h', c'. rewrite <- app_assoc. unfold s2. rewrite tab_upd_twice, tab_upd_lst. split; [done|].
      intros x Hx. rewrite active_pages_cons in Hx. apply orb_false_elim in Hx as [Hx1 Hx2].
      transitivity (tlb (hw s2) !! x); [apply Hc'; by rewrite <- Hnext|by apply Hc].
Qed.

Lemma filled_grown r : forall fl, Forall (fun e => valid e = INVALID_FRAME) r -> filled fl r = grown fl r /\ wanted r = length r.
Proof.
  induction r as [|e r IH]; intros fl Hr; [done|]. apply Forall_cons in Hr as [He Hr]. cbn. rewrite He. cbn.
  destruct fl as [|f fl]; [|by destruct (IH fl Hr) as [-> ->]]. split; [done|]. f_equal. by apply (IH []).
Qed.

Lemma alloc_heap_pages a r1 l r2 s fl :
  pt_table (PtUser a) s = Some (l ++ r1 ++ r2) -> Forall (fun e => valid e = INVALID_FRAME) r1 ->
  F s fl -> Forall frame24 fl ->
  returns (mfor_ret (zrange (Z.of_nat (length l)) (length r1)) (alloc_heap_page a)) s (fun o s' =>
    o = (if (length r1 <=? length fl)%nat then None else Some ERROR) /\ F s' (drop (length r1) fl) /\
    exists h c, s' = set_lst h (tab_upd (PtUser a) (l ++ grown fl r1 ++ r2) c s) /\
      tlb_off (active_pages (PtUser a) (Z.of_nat (length l)) (length r1) (hw s)) (tlb (hw s)) c).
Proof.
  intros Ht Hr HF Hg. destruct (filled_grown r1 fl Hr) as [<- E].
  eapply returns_mono; [by apply (alloc_entries ERROR a r1 l r2 s fl)|]. cbv beta. by rewrite E.
Qed.
Lemma free_heap_pages a r1 : MallocTotal L -> forall l r2 s fl,
  pt_table (PtUser a) s = Some (l ++ r1 ++ r2) -> Forall (fun e => valid e = VALID_FRAME) r1 -> F s fl ->
  returns (mfor_ret (zrange (Z.of_nat (length l)) (length r1)) (free_heap_page a)) s (fun o s' =>
    o = None /\ F s' (rev (map pfn r1) ++ fl) /\
    exists h n c, s' = set_lst h (set_mtick n (tab_upd (PtUser a) (l ++ replicate (length r1) pte_zero ++ r2) c s)) /\
      tlb_off (active_pages (PtUser a) (Z.of_nat (length l)) (length r1) (hw s)) (tlb (hw s)) c /\
      tlb_stale (active_pages (PtUser a) (Z.of_nat (length l)) (length r1) (hw s)) (tlb (hw s)) c).
Proof.
  intros MT. induction r1 as [|e r1 IH]; intros l r2 s fl Ht Hv HF.
  - cbn. split; [done|]. split; [done|]. exists (lst s), (mtick s), (tlb (hw s)). split; [|done].
    rewrite tab_upd_same by exact Ht. by destruct s.
  - apply Forall_cons in Hv as [Hve Hv]. cbn [length zrange mfor_ret]. rstep.
    unfold free_heap_page at 1. rstep. eapply returns_pt_get; [exact Ht|apply zget_app|].
    rewrite Hve. cbn [Z.eqb VALID_FRAME Pos.eqb]. rstep.
    eapply returns_mono; [by apply (fa_free s (pfn e) fl)|]. cbv beta.
    intros r s1 (h & -> & -> & HF1). cbn [Z.eqb ERROR].
    apply (returns_pt_upd3 (PtUser a) l e (r1 ++ r2)); [exact Ht|]. intros c Hc Hst. rstep.
    assert (Ez : set_valid INVALID_FRAME (set_pfn 0 (set_prot 0 e)) = pte_zero) by done. rewrite Ez in *.
    set (s2 := tab_upd _ _ _ _).
    replace (Z.of_nat (length l) + 1) with (Z.of_nat (length (l ++ [pte_zero]))) by (rewrite length_app; cbn; lia).
    assert (Ht2 : pt_table (PtUser a) s2 = Some ((l ++ [pte_zero]) ++ r1 ++ r2)).
    { rewrite <- app_assoc. apply pt_table_tab_upd. by eexists. }
    eapply returns_mono; [apply (IH (l ++ [pte_zero]) r2 s2 (pfn e :: fl) Ht2 Hv); by apply F_tab|]. cbv beta.
    intros o s' (-> & HF' & h' & n' & c' & -> & Hc' & Hs'). split; [done|]. cbn [map rev].
    rewrite <- (app_assoc (rev _)). split; [done|]. exists h', n', c'. rewrite <- app_assoc. unfold s2. rewrite tab_upd_twice, tab_upd_lst, tab_upd_mtick.
    split; [done|]. rewrite length_app in Hc', Hs'. cbn [length] in Hc', Hs'.
    replace (Z.of_nat (length l + 1)) with (Z.of_nat (length l) + 1) in * by lia.
    assert (Hst1 : tlb_stale (active_page (PtUser a) (Z.of_nat (length l)) (hw s)) (tlb (hw s)) c).
    { apply Hst. intros E. by rewrite <- E in Hve. }
    split; intros v Hvv; rewrite active_pages_cons in Hvv.
    + apply orb_false_elim in Hvv as [Hv1 Hv2]. transitivity (tlb (hw s2) !! v); [by apply Hc'|by apply Hc].
    + destruct (active_pages (PtUser a) (Z.of_nat (length l) + 1) (length r1) (hw s) v) eqn:E2.
      * transitivity ((fun _ => false) <$> tlb (hw s2) !! v); [by apply Hs'|]. change (tlb (hw s2)) with c.
        destruct (active_page (PtUser a) (Z.of_nat (length l)) (hw s) v) eqn:E1.
        -- rewrite (Hst1 v E1). by destruct (tlb (hw s) !! v).
        -- rewrite (Hc v E1). done.
      * rewrite orb_false_r in Hvv. transitivity (tlb (hw s2) !! v); [by apply Hc'|by apply Hst1].
Qed.

(** The check loops: the first entry with the property ends the call. *)
Lemma mfor_check {R} t (g : pte -> bool) (v : R) r1 : forall l r2 s,
  pt_table t s = Some (l ++ r1 ++ r2) ->
  mfor_ret (zrange (Z.of_nat (length l)) (length r1)) (fun i =>
    let! e := pt_get t i in ret (if g e then Some v else None)) s =
  Ret (if existsb g r1 then Some v else None) s.
Proof.
  induction r1 as [|e r1 IH]; intros l r2 s Ht; [done|]. cbn [length zrange mfor_ret existsb].
  unfold bind at 1 2. rewrite (pt_get_ok t _ _ e s Ht) by apply zget_app. cbn [obind ret].
  destruct (g e); [done|]. cbn [orb].
  replace (Z.of_nat (length l) + 1) with (Z.of_nat (length (l ++ [e]))) by (rewrite length_app; cbn; lia).
  apply (IH (l ++ [e]) r2). by rewrite <- app_assoc.
Qed.

(** The page-table index an address asks for. *)
Definition brk_target (addr : Z) : Z :=
  Z.shiftr (UP_TO_PAGE addr) PAGESHIFT - Z.shiftr VMEM_1_BASE PAGESHIFT.

(** A process whose heap may move: the region below the stack is [l ++ r1 ++ r2]
    and the limit moves between the ends of [r1]. *)
Record heap_of (s : kstate) (a : Z) (x : pcb) (t : list pte) : Prop := {
  ho_active : active s = a;
  ho_pcb : pcbs s !! a = Some x;
  ho_table : user_page_table x = t }.

Lemma heap_table s a x t : heap_of s a x t -> pt_table (PtUser a) s = Some t.
Proof. intros [_ E <-]. cbn. by rewrite E. Qed.

(** The PCB with another table and heap limit. *)
Definition heap_moved (t : list pte) (target : Z) (x : pcb) : pcb :=
  set_user_heap_pt_index target (set_user_page_table t x).

Lemma tab_upd_pcb a t c s x : pcbs s !! a = Some x ->
  tab_upd (PtUser a) t c s = set_hw (set_tlb c (hw s)) (put_pcb a (set_user_page_table t x) s).
Proof. intros E. unfold tab_upd. by rewrite (pt_put_user a x) by done. Qed.

Lemma KernelBrk_head addr s a x t : heap_of s a x t -> addr <> NULL ->
  user_data_pt_index x < brk_target addr < user_stack_pt_index x ->
  KernelBrk addr s = (returning! (if brk_target addr >? user_heap_pt_index x
      then brk_grow a (user_heap_pt_index x) (brk_target addr)
      else brk_shrink a (user_heap_pt_index x) (brk_target addr)) in
    upd_pcb a (set_user_heap_pt_index (brk_target addr)) ;; ret 0) s.
Proof.
  intros [Ha Hx _] Hn Hb. unfold KernelBrk. destruct (Z.eqb_spec addr NULL); [done|].
  unfold bind at 1, gets. cbn [obind]. rewrite Ha. unfold bind at 1, get_pcb, deref. rewrite Hx. cbn [obind].
  change (Z.shiftr (UP_TO_PAGE addr) PAGESHIFT - Z.shiftr VMEM_1_BASE PAGESHIFT) with (brk_target addr).
  cbv zeta. rewrite Z.geb_leb.
  destruct (Z.leb_spec (user_stack_pt_index x) (brk_target addr)); [lia|].
  destruct (Z.leb_spec (brk_target addr) (user_data_pt_index x)); [lia|]. done.
Qed.

(** Growing over unmapped pages. *)
Lemma brk_grow_spec s a x l r1 r2 fl :
  heap_of s a x (l ++ r1 ++ r2) -> Forall (fun e => valid e = INVALID_FRAME) r1 -> F s fl -> Forall frame24 fl ->
  returns (brk_grow a (Z.of_nat (length l)) (Z.of_nat (length l + length r1))) s (fun o s' =>
    o = (if (length r1 <=? length fl)%nat then None else Some ERROR) /\ F s' (drop (length r1) fl) /\
    exists h c, s' = set_lst h (set_hw (set_tlb c (hw s)) (put_pcb a (set_user_page_table (l ++ grown fl r1 ++ r2) x) s)) /\
      tlb_off (active_pages (PtUser a) (Z.of_nat (length l)) (length r1) (hw s)) (tlb (hw s)) c).
Proof.
  intros Hh Hinv HF Hg. pose proof (heap_table _ _ _ _ Hh) as Ht. destruct Hh as [Ha Hx Hu].
  unfold brk_grow, zseq. replace (Z.to_nat _) with (length r1) by lia.
  rstep. eapply returns_exec; [exact (mfor_check (PtUser a) (fun e => valid e =? VALID_FRAME) _ r1 l r2 s Ht)|].
  assert (Hv : existsb (fun e => valid e =? VALID_FRAME) r1 = false).
  { apply not_true_iff_false. intros (e & Hin & He)%existsb_exists. rewrite Forall_forall in Hinv.
    apply Z.eqb_eq in He. apply list_elem_of_In, Hinv in Hin. rewrite Hin in He. done. }
  rewrite Hv. eapply returns_mono; [by apply alloc_heap_pages|]. cbv beta.
  intros o s1 (-> & HF1 & h & c & -> & Hc). split; [done|]. split; [exact HF1|]. exists h, c.
  by rewrite (tab_upd_pcb a _ c s x Hx).
Qed.

(** Shrinking over mapped pages. *)
Lemma brk_shrink_spec s a x l r1 r2 fl : MallocTotal L ->
  heap_of s a x (l ++ r1 ++ r2) -> Forall (fun e => valid e = VALID_FRAME) r1 -> F s fl ->
  returns (brk_shrink a (Z.of_nat (length l + length r1)) (Z.of_nat (length l))) s (fun o s' =>
    o = None /\ F s' (rev (map pfn r1) ++ fl) /\
    exists h n c, s' = set_lst h (set_mtick n (set_hw (set_tlb c (hw s)) (put_pcb a
        (set_user_page_table (l ++ replicate (length r1) pte_zero ++ r2) x) s))) /\
      tlb_off (active_pages (PtUser a) (Z.of_nat (length l)) (length r1) (hw s)) (tlb (hw s)) c /\
      tlb_stale (active_pages (PtUser a) (Z.of_nat (length l)) (length r1) (hw s)) (tlb (hw s)) c).
Proof.
  intros MT Hh Hval HF. pose proof (heap_table _ _ _ _ Hh) as Ht. destruct Hh as [Ha Hx Hu].
  unfold brk_shrink, zseq. replace (Z.to_nat _) with (length r1) by lia.
  rstep. eapply returns_exec; [exact (mfor_check (PtUser a) (fun e => valid e =? INVALID_FRAME) _ r1 l r2 s Ht)|].
  assert (Hv : existsb (fun e => valid e =? INVALID_FRAME) r1 = false).
  { apply not_true_iff_false. intros (e & Hin & He)%existsb_exists. rewrite Forall_forall in Hval.
    apply Z.eqb_eq in He. apply list_elem_of_In, Hval in Hin. rewrite Hin in He. done. }
  rewrite Hv. eapply returns_mono; [by apply free_heap_pages|]. cbv beta.
  intros o s1 (-> & HF1 & h & n & c & -> & Hc & Hs). split; [done|]. split; [exact HF1|]. exists h, n, c.
  by rewrite (tab_upd_pcb a _ c s x Hx).
Qed.

(** C20: a process that grows its heap over unmapped pages, with enough frames free,
    gets a fresh frame with read and write permission for each page, from the
    free list in order, and the new limit.  When the frames run out the call
    reports an error, but the pages allocated so far stay mapped above the old
    limit and their frames stay taken. *)
Theorem KernelBrk_grow addr s a x l r1 r2 fl :
  heap_of s a x (l ++ r1 ++ r2) -> addr <> NULL -> r1 <> [] ->
  user_data_pt_index x < brk_target addr < user_stack_pt_index x ->
  user_heap_pt_index x = Z.of_nat (length l) -> brk_target addr = Z.of_nat (length l + length r1) ->
  Forall (fun e => valid e = INVALID_FRAME) r1 -> F s fl -> Forall frame24 fl ->
  returns (KernelBrk addr) s (fun r s' =>
    let enough := (length r1 <=? length fl)%nat in
    r = (if enough then 0 else ERROR) /\ F s' (drop (length r1) fl) /\
    exists h c, s' = set_lst h (set_hw (set_tlb c (hw s)) (put_pcb a
        (heap_moved (l ++ grown fl r1 ++ r2) (if enough then brk_target addr else user_heap_pt_index x) x) s)) /\
      tlb_off (active_pages (PtUser a) (Z.of_nat (length l)) (length r1) (hw s)) (tlb (hw s)) c).
Proof.
  intros Hh Hn Hr1 Hb Hl Htg Hinv HF Hg. eapply returns_eqm; [by apply (KernelBrk_head addr s a x _ Hh Hn Hb)|].
  assert (0 < length r1)%nat by (destruct r1; [done|cbn; lia]). rewrite Hl, Htg.
  destruct (Z.gtb_spec (Z.of_nat (length l + length r1)) (Z.of_nat (length l))); [|lia]. rstep.
  eapply returns_mono; [by apply (brk_grow_spec s a x l r1 r2 fl)|]. cbv beta. intros o s1 (-> & HF1 & h & c & -> & Hc).
  destruct (length r1 <=? length fl)%nat.
  - rstep. eapply returns_upd_pcb; [apply lookup_insert_eq|]. rstep. split; [done|]. split.
    + eapply fa_frame; [| |exact HF1]; done.
    + exists h, c. split; [|done]. unfold heap_moved.
      rewrite <- (put_pcb_twice a (set_user_heap_pt_index _ (set_user_page_table (l ++ grown fl r1 ++ r2) x))
        (set_user_page_table (l ++ grown fl r1 ++ r2) x) s). done.
  - split; [done|]. split; [exact HF1|]. exists h, c. split; [|done]. unfold heap_moved. rewrite <- Hl. by destruct x.
Qed.

(** C21: a process that shrinks its heap gives the frames of the released pages
    back to the free list, last page first, and unmaps the pages; but the TLB is
    not flushed: a page that had a cached translation is left with a stale one. *)
Theorem KernelBrk_shrink addr s a x l r1 r2 fl :
  MallocTotal L -> heap_of s a x (l ++ r1 ++ r2) -> addr <> NULL ->
  user_data_pt_index x < brk_target addr < user_stack_pt_index x ->
  brk_target addr = Z.of_nat (length l) -> user_heap_pt_index x = Z.of_nat (length l + length r1) ->
  Forall (fun e => valid e = VALID_FRAME) r1 -> F s fl ->
  returns (KernelBrk addr) s (fun r s' =>
    r = 0 /\ F s' (rev (map pfn r1) ++ fl) /\
    exists h n c, s' = set_lst h (set_mtick n (set_hw (set_tlb c (hw s)) (put_pcb a
        (heap_moved (l ++ replicate (length r1) pte_zero ++ r2) (brk_target addr) x) s))) /\
      tlb_off (active_pages (PtUser a) (Z.of_nat (length l)) (length r1) (hw s)) (tlb (hw s)) c /\
      tlb_stale (active_pages (PtUser a) (Z.of_nat (length l)) (length r1) (hw s)) (tlb (hw s)) c).
Proof.
  intros MT Hh Hn Hb Htg Hl Hval HF. eapply returns_eqm; [by apply (KernelBrk_head addr s a x _ Hh Hn Hb)|].
  rewrite Hl, Htg. destruct (Z.gtb_spec (Z.of_nat (length l)) (Z.of_nat (length l + length r1))); [lia|]. rstep.
  eapply returns_mono; [by apply (brk_shrink_spec s a x l r1 r2 fl)|]. cbv beta.
  intros o s1 (-> & HF1 & h & n & c & -> & Hc & Hs).
  rstep. eapply returns_upd_pcb; [apply lookup_insert_eq|]. rstep. split; [done|]. split.
  - eapply fa_frame; [| |exact HF1]; done.
  - exists h, n, c. split; [|done]. unfold heap_moved.
    rewrite <- (put_pcb_twice a (set_user_heap_pt_index _ (set_user_page_table (l ++ replicate (length r1) pte_zero ++ r2) x))
        (set_user_page_table (l ++ replicate (length r1) pte_zero ++ r2) x) s). done.
Qed.

(** A page of the wrong kind in the way. *)
Lemma brk_grow_mapped s a x l r1 r2 e : heap_of s a x (l ++ r1 ++ r2) -> e ∈ r1 -> valid e = VALID_FRAME ->
  brk_grow a (Z.of_nat (length l)) (Z.of_nat (length l + length r1)) s = Ret (Some ERROR) s.
Proof.
  intros Hh Hin He. pose proof (heap_table _ _ _ _ Hh) as Ht. unfold brk_grow, zseq.
  replace (Z.to_nat _) with (length r1) by lia. apply orelse_ret.
  rewrite (mfor_check (PtUser a) (fun e => valid e =? VALID_FRAME) (Some ERROR) r1 l r2 s Ht).
  assert (Hex : existsb (fun e => valid e =? VALID_FRAME) r1 = true); [|by rewrite Hex].
  apply existsb_exists. exists e. split; [by apply list_elem_of_In|]. by apply Z.eqb_eq.
Qed.

Lemma brk_shrink_unmapped s a x l r1 r2 e : heap_of s a x (l ++ r1 ++ r2) -> e ∈ r1 -> valid e = INVALID_FRAME ->
  brk_shrink a (Z.of_nat (length l + length r1)) (Z.of_nat (length l)) s = Ret (Some ERROR) s.
Proof.
  intros Hh Hin He. pose proof (heap_table _ _ _ _ Hh) as Ht. unfold brk_shrink, zseq.
  replace (Z.to_nat _) with (length r1) by lia. apply orelse_ret.
  rewrite (mfor_check (PtUser a) (fun e => valid e =? INVALID_FRAME) (Some ERROR) r1 l r2 s Ht).
  assert (Hex : existsb (fun e => valid e =? INVALID_FRAME) r1 = true); [|by rewrite Hex].
  apply existsb_exists. exists e. split; [by apply list_elem_of_In|]. by apply Z.eqb_eq.
Qed.

Lemma KernelBrk_out_of_range addr s a x t : heap_of s a x t ->
  ~ (addr <> NULL /\ user_data_pt_index x < brk_target addr < user_stack_pt_index x) -> KernelBrk addr s = Ret ERROR s.
Proof.
  intros [Ha Hx _] Hb. unfold KernelBrk. destruct (Z.eqb_spec addr NULL); [done|].
  unfold bind at 1, gets. cbn [obind]. rewrite Ha. unfold bind at 1, get_pcb, deref. rewrite Hx. cbn [obind].
  change (Z.shiftr (UP_TO_PAGE addr) PAGESHIFT - Z.shiftr VMEM_1_BASE PAGESHIFT) with (brk_target addr).
  cbv zeta. rewrite Z.geb_leb.
  destruct (Z.leb_spec (user_stack_pt_index x) (brk_target addr)); [done|].
  destruct (Z.leb_spec (brk_target addr) (user_data_pt_index x)); [done|]. lia.
Qed.

(** C33: [Brk] refuses, and changes nothing, for a null address, for a limit that is not
    strictly between the data and the stack, for a growth over a page that is
    already mapped and for a shrink over a page that is not. *)
Theorem KernelBrk_rejects addr s a x l r1 r2 :
  heap_of s a x (l ++ r1 ++ r2) ->
  let up := brk_target addr >? user_heap_pt_index x in
  (addr = NULL \/ ~ user_data_pt_index x < brk_target addr < user_stack_pt_index x \/
   (Z.of_nat (length l) = Z.min (brk_target addr) (user_heap_pt_index x) /\
    Z.of_nat (length l + length r1) = Z.max (brk_target addr) (user_heap_pt_index x) /\
    exists e, e ∈ r1 /\ valid e = if up then VALID_FRAME else INVALID_FRAME)) ->
  KernelBrk addr s = Ret ERROR s.
Proof.
  intros Hh up Hr. unfold up in Hr. clear up.
  destruct (decide (addr <> NULL /\ user_data_pt_index x < brk_target addr < user_stack_pt_index x)) as [[Hn Hb]|Hb].
  - destruct Hr as [?|[?|(Hmin & Hmax & e & Hin & He)]]; [done..|].
    rewrite (KernelBrk_head addr s a x _ Hh Hn Hb). apply orelse_ret.
    destruct (Z.gtb_spec (brk_target addr) (user_heap_pt_index x)).
    + replace (user_heap_pt_index x) with (Z.of_nat (length l)) by lia.
      replace (brk_target addr) with (Z.of_nat (length l + length r1)) by lia. by eapply brk_grow_mapped.
    + replace (user_heap_pt_index x) with (Z.of_nat (length l + length r1)) by lia.
      replace (brk_target addr) with (Z.of_nat (length l)) by lia. by eapply brk_shrink_unmapped.
  - by eapply KernelBrk_out_of_range.
Qed.

(** *** The heap as an invariant

    Every page of the table is unmapped or backed by a usable frame, the free frames
    are usable, and the heap's limit is [lim]. *)

Definition page_ok (e : pte) : Prop :=
  (valid e = VALID_FRAME \/ valid e = INVALID_FRAME) /\ (valid e = VALID_FRAME -> frame24 (pfn e)).

Definition heap_inv (s : kstate) (lim : Z) : Prop := exists a x tb fl,
  heap_of s a x tb /\ user_heap_pt_index x = lim /\ F s fl /\ Forall frame24 fl /\ Forall page_ok tb /\
  0 <= user_data_pt_index x /\ user_stack_pt_index x <= Z.of_nat (length tb) /\ 0 <= lim <= Z.of_nat (length tb).

(** A table cut at two indices. *)
Lemma cut_table {A} (tb : list A) i j : 0 <= i <= j -> j <= Z.of_nat (length tb) ->
  exists l r1 r2, tb = l ++ r1 ++ r2 /\ i = Z.of_nat (length l) /\ j = Z.of_nat (length l + length r1).
Proof.
  intros Hi Hj. exists (take (Z.to_nat i) tb), (take (Z.to_nat (j - i)) (drop (Z.to_nat i) tb)), (drop (Z.to_nat (j - i)) (drop (Z.to_nat i) tb)).
  rewrite !take_drop. split; [done|]. rewrite !length_take, length_drop. lia.
Qed.

Lemma page_ok_dec r (v : Z) : Forall page_ok r ->
  Forall (fun e => valid e = if v =? VALID_FRAME then INVALID_FRAME else VALID_FRAME) r \/
  exists e, e ∈ r /\ valid e = if v =? VALID_FRAME then VALID_FRAME else INVALID_FRAME.
Proof.
  induction r as [|e r IH]; intros Hr; [by left|]. apply Forall_cons in Hr as [[He _] Hr].
  destruct (IH Hr) as [H|(d & Hd & Hv)]; [|right; exists d; split; [by right|done]].
  destruct (v =? VALID_FRAME), He as [He|He]; try (left; by apply Forall_cons); right; exists e; (split; [by left|done]).
Qed.

Lemma grown_ok r : forall fl, Forall page_ok r -> Forall frame24 fl -> Forall page_ok (grown fl r).
Proof.
  induction r as [|e r IH]; intros fl Hr Hf; [done|]. destruct fl as [|f fl]; [done|].
  apply Forall_cons in Hr as [_ Hr]. apply Forall_cons in Hf as [Hf0 Hf]. cbn. apply Forall_cons.
  split; [by split; [left|]|by apply IH].
Qed.

Lemma length_grown r : forall fl, length (grown fl r) = length r.
Proof. induction r as [|e r IH]; intros [|f fl]; cbn; [done..|by rewrite IH]. Qed.

Lemma heap_inv_uc s lim u : heap_inv s lim -> heap_inv (set_uc u s) lim.
Proof.
  intros (a & x & tb & fl & [H1 H2 H3] & Hl & HF & Hrest). exists a, x, tb, fl. split; [by split|]. split; [done|].
  split; [|done]. eapply fa_frame; [| |exact HF]; done.
Qed.


(** The state [KernelBrk] leaves, with the table [tb] and the limit [lim]. *)
Lemma heap_inv_moved s a x tb0 tb fl h m c lim :
  heap_of s a x tb0 -> Forall frame24 fl -> Forall page_ok tb -> length tb = length tb0 ->
  0 <= user_data_pt_index x -> user_stack_pt_index x <= Z.of_nat (length tb0) -> 0 <= lim <= Z.of_nat (length tb0) ->
  let s' := set_lst h (set_mtick m (set_hw (set_tlb c (hw s)) (put_pcb a (set_user_page_table tb x) s))) in
  F s' fl -> heap_inv (put_pcb a (set_user_heap_pt_index lim (set_user_page_table tb x)) s') lim.
Proof.
  intros [Ha Hx Hu] Hf Hp Hlen Hd Hs Hl s' HF. eexists a, _, tb, fl. split; [split; [exact Ha|apply lookup_insert_eq|by destruct x]|].
  split; [by destruct x|]. split; [by eapply fa_frame; [| |exact HF]|]. rewrite Hlen. by destruct x.
Qed.

Lemma heap_inv_same s a x tb0 tb fl h m c lim :
  heap_of s a x tb0 -> Forall frame24 fl -> Forall page_ok tb -> length tb = length tb0 -> user_heap_pt_index x = lim ->
  0 <= user_data_pt_index x -> user_stack_pt_index x <= Z.of_nat (length tb0) -> 0 <= lim <= Z.of_nat (length tb0) ->
  let s' := set_lst h (set_mtick m (set_hw (set_tlb c (hw s)) (put_pcb a (set_user_page_table tb x) s))) in
  F s' fl -> heap_inv s' lim.
Proof.
  intros [Ha Hx Hu] Hf Hp Hlen Hl0 Hd Hs Hl s' HF. eexists a, _, tb, fl. split; [split; [exact Ha|apply lookup_insert_eq|by destruct x]|].
  split; [by destruct x|]. split; [done|]. rewrite Hlen. by destruct x.
Qed.

(** What a call of [Brk] with target [target] may do to a heap with limit [lim]. *)
Definition brk_result (s : kstate) (lim target : Z) (r : Z) (s' : kstate) : Prop :=
  uc s' = uc s /\ (r = 0 /\ heap_inv s' target \/ r = ERROR /\ heap_inv s' lim).

Section moving.
Context (s : kstate) (a : Z) (x : pcb) (l r1 r2 : list pte) (fl : list Z).
Hypothesis Hh : heap_of s a x (l ++ r1 ++ r2).
Hypothesis HF : F s fl.
Hypothesis Hfl : Forall frame24 fl.
Hypothesis Hok : Forall page_ok (l ++ r1 ++ r2).
Hypothesis Hd : 0 <= user_data_pt_index x.
Hypothesis Hst : user_stack_pt_index x <= Z.of_nat (length (l ++ r1 ++ r2)).
Let lo := Z.of_nat (length l).
Let hi := Z.of_nat (length l + length r1).

Lemma ends_in_table : 0 <= lo <= Z.of_nat (length (l ++ r1 ++ r2)) /\ 0 <= hi <= Z.of_nat (length (l ++ r1 ++ r2)).
Proof. unfold lo, hi. rewrite !length_app. lia. Qed.

Lemma Brk_up : user_heap_pt_index x = lo -> heap_inv s lo ->
  returns (returning! brk_grow a lo hi in upd_pcb a (set_user_heap_pt_index hi) ;; ret 0) s (brk_result s lo hi).
Proof.
  intros Hl Hinv. pose proof Hok as Hok0. apply Forall_app in Hok0 as [Hok1 Hok0]. apply Forall_app in Hok0 as [Hok2 Hok3].
  destruct ends_in_table as [Hlo Hhi].
  destruct (page_ok_dec r1 VALID_FRAME Hok2) as [Hall|(e & He & Hv)].
  2: { eapply returns_exec; [apply orelse_ret; by eapply brk_grow_mapped|]. split; [done|]. by right. }
  rstep. eapply returns_mono; [by apply (brk_grow_spec s a x l r1 r2 fl)|]. cbv beta. intros o s1 (-> & HF1 & h & c & -> & Hc).
  assert (Hok' : Forall page_ok (l ++ grown fl r1 ++ r2)) by (apply Forall_app; split; [done|]; apply Forall_app; split; [by apply grown_ok|done]).
  assert (Hlen : length (l ++ grown fl r1 ++ r2) = length (l ++ r1 ++ r2)) by (rewrite !length_app, length_grown; done).
  assert (Hfl' : Forall frame24 (drop (length r1) fl)) by by apply Forall_drop.
  destruct (length r1 <=? length fl)%nat.
  - rstep. eapply returns_upd_pcb; [apply lookup_insert_eq|]. rstep. split; [done|]. left. split; [done|].
    apply (heap_inv_moved s a x _ _ _ h (mtick s) c _ Hh Hfl' Hok' Hlen); [done..|]. by destruct s.
  - split; [done|]. right. split; [done|].
    apply (heap_inv_same s a x _ _ _ h (mtick s) c _ Hh Hfl' Hok' Hlen); [done..|]. by destruct s.
Qed.

Lemma Brk_down : MallocTotal L -> user_heap_pt_index x = hi -> heap_inv s hi ->
  returns (returning! brk_shrink a hi lo in upd_pcb a (set_user_heap_pt_index lo) ;; ret 0) s (brk_result s hi lo).
Proof.
  intros MT Hl Hinv. pose proof Hok as Hok0. apply Forall_app in Hok0 as [Hok1 Hok0]. apply Forall_app in Hok0 as [Hok2 Hok3].
  destruct ends_in_table as [Hlo Hhi].
  destruct (page_ok_dec r1 INVALID_FRAME Hok2) as [Hall|(e & He & Hv)].
  2: { eapply returns_exec; [apply orelse_ret; by eapply brk_shrink_unmapped|]. split; [done|]. by right. }
  rstep. eapply returns_mono; [by apply (brk_shrink_spec s a x l r1 r2 fl)|]. cbv beta. intros o s1 (-> & HF1 & h & n & c & -> & Hc & _).
  rstep. eapply returns_upd_pcb; [apply lookup_insert_eq|]. rstep. split; [done|]. left. split; [done|].
  apply (heap_inv_moved s a x _ _ (rev (map pfn r1) ++ fl) h n c _ Hh); [| | |done..].
  - apply Forall_app. split; [|done]. apply Forall_rev, Forall_map, Forall_forall. intros e He.
    rewrite Forall_forall in Hall, Hok2. apply (proj2 (Hok2 e He)), (Hall e He).
  - apply Forall_app. split; [done|]. apply Forall_app. split; [|done]. apply Forall_replicate. by split; [right|].
  - by rewrite !length_app, length_replicate.
Qed.

End moving.

(** [Brk] always returns; it moves the limit or leaves it where it was. *)
Lemma KernelBrk_heap_inv addr s lim : MallocTotal L -> heap_inv s lim ->
  returns (KernelBrk addr) s (brk_result s lim (brk_target addr)).
Proof.
  intros MT Hinv. pose proof Hinv as (a & x & tb & fl & Hh & Hl & HF & Hfl & Hok & Hd & Hst & Hlim).
  destruct (decide (addr <> NULL /\ user_data_pt_index x < brk_target addr < user_stack_pt_index x)) as [[Hn Hb]|Hb].
  2: { eapply returns_exec; [by eapply KernelBrk_out_of_range|]. split; [done|]. by right. }
  eapply returns_eqm; [exact (KernelBrk_head addr s a x tb Hh Hn Hb)|]. rewrite Hl.
  destruct (cut_table tb (Z.min lim (brk_target addr)) (Z.max lim (brk_target addr))) as (l & r1 & r2 & -> & Hi & Hj); [lia..|].
  destruct (Z.gtb_spec (brk_target addr) lim).
  - replace lim with (Z.of_nat (length l)) in * by lia.
    replace (brk_target addr) with (Z.of_nat (length l + length r1)) in * by lia. by apply (Brk_up s a x l r1 r2 fl).
  - replace (brk_target addr) with (Z.of_nat (length l)) in * by lia.
    replace lim with (Z.of_nat (length l + length r1)) in * by lia. by apply (Brk_down s a x l r1 r2 fl).
Qed.

End brk.

(** ** The end of a process *)

Section exit.
Context `{L : Libc} {F : kstate -> list Z -> Prop} {FA : FrameAllocator L F}.

(** A PCB whose arrays have their declared sizes. *)
Definition sized (x : pcb) : Prop :=
  length (user_page_table x) = Z.to_nat USER_PT_SIZE /\ length (kernel_stack_pt x) = Z.to_nat KERNEL_STACK_SIZE.

Lemma delete_process_spec s a x fl :
  MallocTotal L -> a <> NULL -> pcbs s !! a = Some x -> sized x -> F s fl ->
  returns (delete_process a) s (fun r s' => exists h n, r = 0 /\
    s' = set_lst h (set_mtick n (set_pcbs (delete a (pcbs s)) s)) /\
    F s' (rev (valid_pfns (kernel_stack_pt x) ++ valid_pfns (user_page_table x)) ++ fl)).
Proof.
  intros MT Ha Hx [Hu Hk] HF. unfold delete_process. destruct (Z.eqb_spec a NULL); [done|]. rstep.
  eapply returns_mono; [apply (free_addr_space_spec s (PtUser a) (PtKstack a) (user_page_table x) (kernel_stack_pt x) fl MT HF)|].
  1, 3: cbn; by rewrite Hx. 1, 2: done.
  cbv beta. intros r s1 (h & k & -> & -> & HF1). unfold free_pcb. rstep. rstep. rstep; [exact Hx|]. rstep. rstep.
  exists h, k. split; [done|]. split; [done|]. eapply fa_frame; [| |exact HF1]; done.
Qed.

(** A process with no parent and no children that exits, by the call or by a
    failed [Exec] or a fatal fault, frees its PCB and its address space and then
    asks the scheduler to switch away from the PCB it has just freed: the
    scheduler reads the freed PCB of the process still recorded as active. *)
Theorem KernelExit_orphan_use_after_free s a x code uctxt fl :
  MallocTotal L -> uctxt <> NULL -> active s = a -> a <> NULL -> pcbs s !! a = Some x -> sized x ->
  ppid x = 0 -> num_children x <= 0 -> F s fl ->
  KernelExit code uctxt s = Fault FBadPtr.
Proof.
  intros MT Hu <- Ha Hx [Hut Hks] Hpp Hnc HF. unfold KernelExit. destruct (Z.eqb_spec uctxt NULL); [done|].
  rewrite bind_gets, (bind_exec _ _ _ _ _ (upd_pcb_ok _ _ _ _ Hx)).
  set (s1 := put_pcb _ _ s).
  assert (Hx1 : pcbs s1 !! active s = Some (set_exit_code code x)) by apply lookup_insert_eq.
  rewrite (bind_exec _ _ _ _ _ (deref_ok _ _ _ _ Hx1)). cbn [ppid num_children set_exit_code].
  rewrite Hpp. destruct (Z.gtb_spec (num_children x) 0); [lia|]. cbn [Z.eqb negb orb].
  rewrite bind_ret. cbn [Z.eqb NULL]. apply faults_after.
  eapply returns_mono; [apply (delete_process_spec s1 _ _ fl MT Ha Hx1); [by split|]|].
  { eapply fa_frame; [| |exact HF]; done. }
  cbv beta. intros r s2 (h & k & -> & -> & _). cbn [Z.eqb ERROR]. apply faults_before.
  unfold SwapProcess. destruct (Z.eqb_spec uctxt NULL); [done|].
  rewrite !bind_gets. apply faults_before. unfold get_pcb, deref.
  change (active (set_lst h (set_mtick k (set_pcbs (delete (active s) (pcbs s1)) s1)))) with (active s).
  cbn [pcbs set_lst set_mtick set_pcbs]. rewrite lookup_delete_eq. by destruct (Z.eqb_spec (active s) NULL).
Qed.

End exit.

(** ** Waiting for a child *)

Section wait.
Context `{L : Libc} {Q : qheap -> gmap Z (list (Z * Z)) -> Prop} {QS : QueueStore L Q}.

(** The entries of a queue that name processes other than the children of [k]. *)
Definition others (s : kstate) (k : Z) (ds : list (Z * Z)) : Prop :=
  Forall (fun e => exists z, pcbs s !! e.2 = Some z /\ pid z = e.1 /\ ppid z <> k) ds.

Lemma wait_rotate ptr a x ds : forall rest s V i,
  MallocTotal L -> Q (qst s) V -> V !! defunct_q (gl s) = Some (ds ++ rest) ->
  active s = a -> pcbs s !! a = Some x -> others s (pid x) ds ->
  forall n (P : option Z -> kstate -> Prop),
  (forall h m, Q h (<[defunct_q (gl s) := rest ++ ds]> V) ->
    returns (mfor_ret (zrange (i + Z.of_nat (length ds)) n) (wait_defunct_step ptr)) (set_qst h (set_mtick m s)) P) ->
  returns (mfor_ret (zrange i (length ds + n)) (wait_defunct_step ptr)) s P.
Proof.
  induction ds as [|[j d] ds IH]; intros rest s V i MT HQ Hd Ha Hx Ho n P HP.
  - cbn [length app Nat.add] in *. specialize (HP (qst s) (mtick s)). rewrite Z.add_0_r, app_nil_r, insert_id in HP by done.
    specialize (HP HQ). by destruct s.
  - apply Forall_cons in Ho as [(z & Hz & Hj & Hne) Ho]. cbn [snd fst] in *. subst j.
    cbn [length Nat.add zrange mfor_ret]. rstep. unfold wait_defunct_step at 1, qptr. rstep. rstep. rstep.
    destruct (qs_nonnull _ _ _ _ HQ Hd) as [_ Hnn]. apply Forall_cons in Hnn as [Hdn _]. cbn in Hdn.
    eapply returns_mono; [by eapply (qs_pop (R := Q))|]. cbv beta. intros r s1 (h & -> & -> & HQ1).
    cbn [front map snd head_or List.hd tail app] in *. destruct (Z.eqb_spec d NULL); [done|].
    rstep. rstep; [exact Hz|]. rstep. rstep. rstep. change (active (set_qst h s)) with (active s). rewrite Ha.
    rstep; [exact Hx|]. destruct (Z.eqb_spec (ppid z) (pid x)); [done|]. rstep.
    eapply returns_mono; [eapply (qs_add (R := Q) (set_qst h s)); [exact HQ1|apply lookup_insert_eq|done]|]. cbv beta.
    intros r s1 (h2 & -> & [[-> HQ2]|(_ & _ & E)]); [|by destruct (MT _ _ E)]. rstep. cbn [Z.eqb ERROR].
    rewrite insert_insert_eq, <- app_assoc in HQ2.
    eapply (IH (rest ++ [(pid z, d)]) (set_qst h2 (set_mtick (S (mtick s)) (set_qst h s))) _ (i + 1) MT HQ2); [apply lookup_insert_eq|done|done|done|].
    intros h3 m HQ3. rewrite insert_insert_eq, <- app_assoc in HQ3.
    replace (i + 1 + Z.of_nat (length ds)) with (i + Z.of_nat (length ((pid z, d) :: ds))) by (cbn; lia).
    exact (HP h3 m HQ3).
Qed.

Lemma wait_reaps s V ptr uctxt a x ds1 j d y ds2 :
  MallocTotal L -> Q (qst s) V -> V !! defunct_q (gl s) = Some (ds1 ++ (j, d) :: ds2) ->
  active s = a -> pcbs s !! a = Some x -> num_children x <> 0 -> others s (pid x) ds1 ->
  pcbs s !! d = Some y -> ppid y = pid x -> ptr <> NULL ->
  uaccess true s ptr 4 -> unaliased s ptr 4 ->
  returns (KernelWait ptr uctxt) s (fun r s' => r = 0 /\ exists h q n,
    s' = set_hw h (put_pcb a (set_num_children (num_children x - 1) x) (set_qst q (set_mtick n s))) /\
    Q q (<[defunct_q (gl s) := ds2 ++ ds1]> V) /\ hw_mem_only (hw s) h /\
    bytes_int (ubytes s' ptr 4) = i32 (exit_code y)).
Proof.
  intros MT HQ Hd Ha Hx Hn Ho Hy Hpp Hptr Hacc Hun. unfold KernelWait.
  rstep. rstep. rewrite Ha. rstep. destruct (Z.eqb_spec ptr NULL); [done|]. rstep. rstep; [exact Hx|]. rstep.
  destruct (Z.eqb_spec (num_children x) 0); [done|]. unfold qptr, size_of, get_queue.
  rstep. rstep. rstep. rstep. destruct (qs_size _ _ _ _ HQ Hd) as (k & Ek & Hk). eapply returns_deref; [exact Ek|].
  rstep. rstep. rewrite Hk. unfold zseq. rewrite Z.sub_0_r, Nat2Z.id, length_app.
  apply (wait_rotate ptr a x ds1 ((j, d) :: ds2) s V 0 MT HQ Hd Ha Hx Ho). intros h m HQ1.
  cbn [length zrange mfor_ret]. rstep. unfold wait_defunct_step at 1, qptr. rstep. rstep. rstep.
  destruct (qs_nonnull _ _ _ _ HQ Hd) as [_ Hnn]. apply Forall_app in Hnn as [_ Hnn].
  apply Forall_cons in Hnn as [Hdn _]. cbn in Hdn.
  eapply returns_mono; [eapply (qs_pop (R := Q)); [exact HQ1|apply lookup_insert_eq]|]. cbv beta.
  intros r s1 (h2 & -> & -> & HQ2). rewrite insert_insert_eq in HQ2.
  cbn [front map snd head_or List.hd tail app] in *. destruct (Z.eqb_spec d NULL); [done|].
  rstep. rstep; [exact Hy|]. rstep. rstep. rstep.
  match goal with |- context [active ?t] => change (active t) with (active s) end. rewrite Ha.
  rstep; [exact Hx|]. rewrite Hpp, Z.eqb_refl. rstep. eapply returns_upd_pcb; [exact Hx|].
  set (s2 := put_pcb a _ _).
  assert (Hsm : same_memory s s2).
  { eapply same_memory_trans; [apply (same_memory_queues s h2 m)|].
    by apply (same_memory_put_pcb _ a x (set_num_children (num_children x - 1) x)). }
  rstep. eapply returns_mono; [apply store_int_spec; [by apply (uaccess_same _ s)|by apply (unaliased_same s)]|].
  cbv beta. intros _ s3 (h3 & -> & Hm & Hb). rstep. split; [done|]. exists h3, h2, m. done.
Qed.

(** C30: [Wait] finds the first dead child on the defunct queue: it stores its exit
    code through the caller's pointer, takes it off the queue, counts one child
    less and returns 0; the dead processes of other parents that were in front
    of it go to the back of the queue.  Its PCB is not freed. *)
Theorem KernelWait_reaps s V ptr uctxt a x ds1 j d y ds2 :
  MallocTotal L -> Q (qst s) V -> V !! defunct_q (gl s) = Some (ds1 ++ (j, d) :: ds2) ->
  active s = a -> pcbs s !! a = Some x -> num_children x <> 0 -> others s (pid x) ds1 ->
  pcbs s !! d = Some y -> ppid y = pid x -> ptr <> NULL ->
  uaccess true s ptr 4 -> unaliased s ptr 4 ->
  returns (KernelWait ptr uctxt) s (fun r s' => r = 0 /\ exists h q n,
    s' = set_hw h (put_pcb a (set_num_children (num_children x - 1) x) (set_qst q (set_mtick n s))) /\
    Q q (<[defunct_q (gl s) := ds2 ++ ds1]> V) /\ hw_mem_only (hw s) h /\
    bytes_int (ubytes s' ptr 4) = i32 (exit_code y)).
Proof. apply wait_reaps. Qed.

End wait.

(** ** Witnesses *)

(** A process at 100 with its data in the pages below 6, a heap of two pages, the
    frames 71 and 70 free. *)
Definition ex_low : list pte := replicate 6 (mkPte 1 3 9).
Definition ex_heap2 : list pte := [mkPte 1 3 30; mkPte 1 3 31].
Definition ex_high : list pte := replicate 118 pte_zero.
Definition ex_brk_pcb (heap : Z) (t : list pte) : pcb :=
  set_user_data_pt_index 4 (set_user_heap_pt_index heap (set_user_stack_pt_index 120 (set_user_page_table t pcb_zero))).
Definition ex_brk (heap : Z) (t : list pte) : kstate :=
  set_pcbs {[ 100 := ex_brk_pcb heap t ]} (set_hw (set_tlb {[ 135 := true ]} (set_r_ptbr1 (PtUser 100) init_hw))
    (set_gl (set_activePCB 100 (gl ex_free_state)) ex_free_state)).

Definition brk_addr (n : Z) : Z := VMEM_1_BASE + n * PAGESIZE.

(** The lists of [KernelBrk_grow] for a growth from 8 to 11 pages: three pages, two frames. *)
Lemma KernelBrk_grow_witness :
  returns (KernelBrk (L := bump_libc) (brk_addr 11)) (ex_brk 8 ((ex_low ++ ex_heap2) ++ [pte_zero; pte_zero; pte_zero] ++ replicate 117 pte_zero))
    (fun r s' => r = ERROR /\ free_list lstore ∅ s' [] /\
      exists h c, s' = set_lst h (set_hw (set_tlb c (hw (ex_brk 8 []))) (put_pcb 100
        (heap_moved ((ex_low ++ ex_heap2) ++ [mkPte 1 3 71; mkPte 1 3 70; pte_zero] ++ replicate 117 pte_zero) 8
          (ex_brk_pcb 8 ((ex_low ++ ex_heap2) ++ [pte_zero; pte_zero; pte_zero] ++ replicate 117 pte_zero)))
        (ex_brk 8 ((ex_low ++ ex_heap2) ++ [pte_zero; pte_zero; pte_zero] ++ replicate 117 pte_zero)))) /\
      tlb_off (active_pages (PtUser 100) 8 3 (hw (ex_brk 8 []))) {[ 135 := true ]} c).
Proof.
  apply (KernelBrk_grow (L := bump_libc) (F := free_list lstore ∅) (brk_addr 11)
    (ex_brk 8 ((ex_low ++ ex_heap2) ++ [pte_zero; pte_zero; pte_zero] ++ replicate 117 pte_zero)) 100
    (ex_brk_pcb 8 ((ex_low ++ ex_heap2) ++ [pte_zero; pte_zero; pte_zero] ++ replicate 117 pte_zero))
    (ex_low ++ ex_heap2) [pte_zero; pte_zero; pte_zero] (replicate 117 pte_zero) [71; 70]).
  - by split.
  - discriminate.
  - discriminate.
  - split; vm_compute; reflexivity.
  - reflexivity.
  - reflexivity.
  - repeat constructor.
  - exact ex_free.
  - repeat constructor; vm_compute; done.
Defined.

(** Page 7 of region 1 is virtual page 135, which the TLB holds. *)
Lemma KernelBrk_shrink_witness :
  returns (KernelBrk (L := bump_libc) (brk_addr 6)) (ex_brk 8 (ex_low ++ ex_heap2 ++ replicate 120 pte_zero))
    (fun r s' => r = 0 /\ free_list lstore ∅ s' [31; 30; 71; 70] /\
      exists h n c, s' = set_lst h (set_mtick n (set_hw (set_tlb c (hw (ex_brk 8 []))) (put_pcb 100
        (heap_moved (ex_low ++ [pte_zero; pte_zero] ++ replicate 120 pte_zero) 6
          (ex_brk_pcb 8 (ex_low ++ ex_heap2 ++ replicate 120 pte_zero)))
        (ex_brk 8 (ex_low ++ ex_heap2 ++ replicate 120 pte_zero))))) /\
      tlb_off (active_pages (PtUser 100) 6 2 (hw (ex_brk 8 []))) {[ 135 := true ]} c /\
      tlb_stale (active_pages (PtUser 100) 6 2 (hw (ex_brk 8 []))) {[ 135 := true ]} c).
Proof.
  apply (KernelBrk_shrink (L := bump_libc) (F := free_list lstore ∅) (brk_addr 6)
    (ex_brk 8 (ex_low ++ ex_heap2 ++ replicate 120 pte_zero)) 100
    (ex_brk_pcb 8 (ex_low ++ ex_heap2 ++ replicate 120 pte_zero)) ex_low ex_heap2 (replicate 120 pte_zero) [71; 70]).
  - exact bump_libc_total.
  - by split.
  - discriminate.
  - split; vm_compute; reflexivity.
  - reflexivity.
  - reflexivity.
  - repeat constructor.
  - exact ex_free.
Defined.

Lemma KernelBrk_rejects_witness :
  KernelBrk (L := bump_libc) (brk_addr 6) (ex_brk 8 (ex_low ++ [mkPte 1 3 30; pte_zero] ++ replicate 120 pte_zero)) =
    Ret ERROR (ex_brk 8 (ex_low ++ [mkPte 1 3 30; pte_zero] ++ replicate 120 pte_zero)).
Proof.
  apply (KernelBrk_rejects (L := bump_libc) (brk_addr 6) _ 100
    (ex_brk_pcb 8 (ex_low ++ [mkPte 1 3 30; pte_zero] ++ replicate 120 pte_zero))
    ex_low [mkPte 1 3 30; pte_zero] (replicate 120 pte_zero)).
  - by split.
  - right. right. split; [reflexivity|]. split; [reflexivity|]. exists pte_zero. split; [|reflexivity].
    right. left.
Defined.

(** Process 100 (pid 7) runs with one page, in frame 60; 101 (pid 8), a child of
    the process with pid 3, and 102 (pid 9), a child of 100 that exited with 42, are dead. *)
Definition ex_wait_q : qheap := mkQheap
  {[ 5 := mkQueue 0 2 6 7 ]} {[ 6 := mkQnode 8 101 7; 7 := mkQnode 9 102 NULL ]}.
Definition ex_parent : pcb :=
  set_pid 7 (set_num_children 1 (set_user_page_table (mkPte 1 3 60 :: replicate 127 pte_zero) pcb_zero)).
Definition ex_wait : kstate :=
  set_pcbs {[ 100 := ex_parent; 101 := set_ppid 3 (set_pid 8 pcb_zero);
              102 := set_exit_code 42 (set_ppid 7 (set_pid 9 pcb_zero)) ]}
  (set_qst ex_wait_q (set_hw (set_r_vm VM_ENABLED (set_r_ptbr1 (PtUser 100) (set_r_ptlr1 MAX_PT_LEN init_hw)))
  (set_gl (set_activePCB 100 (set_defunct_q 5 init_glob)) init_state))).

Lemma ex_wait_qstore : qstore ex_wait_q {[ 5 := [(8, 101); (9, 102)] ]}.
Proof. apply (qstoreb_ok {[ 5 := [6; 7] ]}). vm_compute. reflexivity. Qed.

(** The first [n <= PAGESIZE] bytes of region 1 are writable and not aliased. *)
Lemma ex_wait_access write n : Z.of_nat n <= PAGESIZE -> uaccess write ex_wait VMEM_1_BASE n.
Proof.
  intros Hn. split; [done|]. split; [done|]. intros i Hi.
  replace (vpn (VMEM_1_BASE + i)) with 128; [|symmetry; apply (vpn_page 128 i); lia].
  split; [done|]. exists (mkPte 1 3 60). split; [reflexivity|]. by destruct write.
Qed.

Lemma ex_wait_unaliased n : Z.of_nat n <= PAGESIZE -> unaliased ex_wait VMEM_1_BASE n.
Proof.
  intros Hn i j Hi Hj H. apply (f_equal snd) in H. unfold phys in H. cbn [snd] in H.
  change VMEM_1_BASE with (128 * PAGESIZE) in H. rewrite !(Z.add_comm (128 * PAGESIZE)), !Z.mod_add in H by done.
  rewrite !Z.mod_small in H by lia. done.
Qed.

Lemma KernelWait_reaps_witness :
  returns (KernelWait (L := bump_libc) VMEM_1_BASE 1) ex_wait (fun r s' => r = 0 /\ exists h q n,
    s' = set_hw h (put_pcb 100 (set_num_children 0 ex_parent) (set_qst q (set_mtick n ex_wait))) /\
    qstore q (<[5 := [(8, 101)]]> {[ 5 := [(8, 101); (9, 102)] ]}) /\ hw_mem_only (hw ex_wait) h /\
    bytes_int (ubytes s' VMEM_1_BASE 4) = 42).
Proof.
  apply (KernelWait_reaps (L := bump_libc) (Q := qstore) ex_wait {[ 5 := [(8, 101); (9, 102)] ]} VMEM_1_BASE 1 100
    ex_parent [(8, 101)] 9 102 (set_exit_code 42 (set_ppid 7 (set_pid 9 pcb_zero))) []).
  - exact bump_libc_total.
  - exact ex_wait_qstore.
  - reflexivity.
  - reflexivity.
  - reflexivity.
  - discriminate.
  - constructor; [|constructor]. eexists. split; [reflexivity|]. split; [reflexivity|discriminate].
  - reflexivity.
  - reflexivity.
  - discriminate.
  - apply ex_wait_access. vm_compute. discriminate.
  - apply ex_wait_unaliased. vm_compute. discriminate.
Defined.

Lemma KernelExit_orphan_use_after_free_witness :
  KernelExit (L := bump_libc) 0 1 (ex_brk 6 (ex_low ++ replicate 122 pte_zero)) = Fault FBadPtr.
Proof.
  apply (KernelExit_orphan_use_after_free (L := bump_libc) (F := free_list lstore ∅)
    (ex_brk 6 (ex_low ++ replicate 122 pte_zero)) 100 (ex_brk_pcb 6 (ex_low ++ replicate 122 pte_zero)) 0 1 [71; 70]).
  - exact bump_libc_total.
  - discriminate.
  - reflexivity.
  - discriminate.
  - reflexivity.
  - by split.
  - reflexivity.
  - done.
  - exact ex_free.
Defined.
