(* ===== verification/Fork.v ===== *)
(** * [KernelFork] ([syscalls.c], lines 22-91)

    The whole of a successful fork: the new process, the copy of the address
    space and of the kernel stack, the ready queue, and what the call returns
    in the parent and in the child. *)

From Stdlib Require Import ZArith Lia.
From stdpp Require Import base gmap list.
From S2P Require Import Prelude Hardware State Logic KList KQueue Memory Frames Process ContextSwitch Sched LoadProgram SyscallsProc.

Open Scope Z_scope.

(** A process [a] about to fork: it runs on its own table and on the kernel table
    [kt], which has a free page and maps the running kernel stack ([k0], [k1]). *)
Record fork_ready (s : kstate) (a : Z) (ap : pcb) (K : Z) (kt : list pte) (k0 k1 : pte) : Prop := {
  fr_active : active s = a;
  fr_nonnull : a <> NULL;
  fr_pcb : pcbs s !! a = Some ap;
  fr_len : length (user_page_table ap) = Z.to_nat USER_PT_SIZE;
  fr_read : Forall (fun e => valid e = VALID_FRAME -> permits false e = true) (user_page_table ap);
  fr_vm : r_vm (hw s) = VM_ENABLED;
  fr_l0 : r_ptlr0 (hw s) = MAX_PT_LEN;
  fr_b1 : r_ptbr1 (hw s) = PtUser a;
  fr_l1 : r_ptlr1 (hw s) = MAX_PT_LEN;
  fr_table : on_kernel_table s K kt;
  fr_free : find_free kt <> -1;
  fr_k0 : zget kt KSTACK_VPN = Some k0;
  fr_k1 : zget kt (KSTACK_VPN + 1) = Some k1;
  fr_p0 : permits false k0 = true;
  fr_p1 : permits false k1 = true;
  fr_tlb : forall v, MAX_PT_LEN <= v -> tlb (hw s) !! v <> Some false }.

(** The new process before and after the copies. *)
Definition child_pcb (L : Libc) (s : kstate) (ap : pcb) (kc : Z) (table : list pte) (stack : list pte) : pcb :=
  mkPcb (new_pid (pid_tick (hw s))) (pid ap) 0 0 0 (uc s) kc table
    (user_stack_pt_index ap) (user_heap_pt_index ap) (user_text_pt_index ap) (user_data_pt_index ap)
    stack NOT_BLOCKED 0 (return_code (raw_pcb (mtick s))).

Definition parent_pcb (ap : pcb) : pcb := set_num_children (num_children ap + 1) ap.

Section fork.
Context `{L : Libc} {LL : LibcLaws L} {F : kstate -> list Z -> Prop} {FA : FrameAllocator L F}.
Context {Q : qheap -> gmap Z (list (Z * Z)) -> Prop} {QS : QueueStore L Q}.

(** The new process [c] is in the process table, nothing is copied yet. *)
Record fork_created (s s1 : kstate) (a c : Z) (ap : pcb) (f1 f2 : Z) : Prop := {
  fc_fresh : c <> NULL /\ (c ∉ live s);
  fc_pcbs : pcbs s1 = <[c := child_pcb L s ap 0 (replicate (Z.to_nat USER_PT_SIZE) pte_zero)
      [mkPte INVALID_FRAME NO_X_W_R f1; mkPte INVALID_FRAME NO_X_W_R f2]]> (<[a := parent_pcb ap]> (pcbs s));
  fc_rest : qst s1 = qst s /\ pipes s1 = pipes s /\ bufs s1 = bufs s /\ gl s1 = gl s /\ uc s1 = uc s /\ ptabs s1 = ptabs s;
  fc_hw : hw s1 = set_pid_tick (S (pid_tick (hw s))) (hw s) }.

Lemma fork_child_spec s u a ap K kt k0 k1 f1 f2 fl :
  u <> NULL -> fork_ready s a ap K kt k0 k1 -> MallocTotal L -> new_pid (pid_tick (hw s)) <> 0 ->
  F s (f1 :: f2 :: fl) -> frame24 f1 -> frame24 f2 ->
  returns (fork_child u) s (fun c s1 => fork_created s s1 a c ap f1 f2 /\ F s1 fl).
Proof.
  intros Hu [Ha Hnn Hp _ _ _ _ Hb1 _ [Hb0 _ _ _] _ _ _ _ _ _] MT Hpid HF Hf1 Hf2. unfold fork_child. rstep.
  eapply returns_mono; [eapply (init_process_spec (F := F) s u a ap K f1 f2 fl); done|]. cbv beta.
  intros c s1 (Hc & Hfr & HF1 & h & E).
  assert (Hca : c <> a). { intros ->. apply Hfr. unfold live. rewrite !elem_of_union. do 7 left. by apply elem_of_dom. }
  assert (E1 : pcbs s1 !! a = Some (parent_pcb ap)).
  { rewrite E. cbn. rewrite lookup_insert_ne by done. apply lookup_insert_eq. }
  assert (E2 : pcbs s1 !! c = Some (mkPcb (new_pid (pid_tick (hw s))) (pid ap) 0 0 0 (uc s) 0
           (replicate (Z.to_nat USER_PT_SIZE) pte_zero) 0 0 0 0
           [mkPte INVALID_FRAME NO_X_W_R f1; mkPte INVALID_FRAME NO_X_W_R f2] NOT_BLOCKED 0
           (return_code (raw_pcb (mtick s))))).
  { rewrite E. cbn. apply lookup_insert_eq. }
  rstep. rstep. assert (Ha1 : active s1 = a) by (rewrite E; exact Ha). rewrite Ha1.
  rstep. eapply returns_deref; [exact E1|].
  rstep. eapply returns_upd_pcb; [exact E2|].
  do 3 (rstep; eapply returns_upd_pcb; [apply lookup_insert_eq|]; rewrite put_pcb_twice). rstep. split.
  - split; [done| | |].
    + rewrite E. cbn. by rewrite insert_insert_eq.
    + rewrite E. done.
    + rewrite E. done.
  - by eapply fa_frame; [| |exact HF1].
Qed.

Lemma fork_ready_created s s1 a c ap K kt k0 k1 f1 f2 :
  fork_ready s a ap K kt k0 k1 -> fork_created s s1 a c ap f1 f2 -> fork_ready s1 a (parent_pcb ap) K kt k0 k1.
Proof.
  intros [Ha Hnn Hp Hlen Hrd Hvm Hl0 Hb1 Hl1 [Hb0 Ht Hkl Hne] Hfree Hk0 Hk1 Hp0 Hp1 Htlb]
    [[_ Hfr] Hpc (Eq & _ & _ & Eg & Eu & Ept) Eh].
  assert (Hca : c <> a). { intros ->. apply Hfr. unfold live. rewrite !elem_of_union. do 7 left. by apply elem_of_dom. }
  split; try done; rewrite ?Eh; try done.
  - unfold active. by rewrite Eg.
  - rewrite Hpc, lookup_insert_ne by done. apply lookup_insert_eq.
  - split; rewrite ?Eh; try done. by rewrite Ept.
Qed.

(** What the copy of the address space leaves: [fl] are the frames used and left over. *)
Record space_copied (s s2 : kstate) (c K ri : Z) (kt u1 u2 : list pte) (fl : list Z) : Prop := {
  sp_pcbs : pcbs s2 = alter (set_user_page_table u2) c (pcbs s);
  sp_rest : same_rest s s2;
  sp_ptabs : ptabs s2 = <[K := <[Z.to_nat ri := pte_zero]> kt]> (ptabs s);
  sp_hw : exists cc m, hw s2 = set_tlb cc (set_frames m (hw s)) /\
    (forall v, v < MAX_PT_LEN -> v <> ri -> cc !! v = None) /\
    (forall v, MAX_PT_LEN <= v -> cc !! v <> Some false);
  sp_free : F s2 (drop (length (valid_pfns u1)) fl);
  sp_other : forall f, f ∉ take (length (valid_pfns u1)) fl -> frame_of (hw s2) f = frame_of (hw s) f;
  sp_copy : forall j e1 e2, u1 !! j = Some e1 -> u2 !! j = Some e2 -> valid e1 = VALID_FRAME ->
    frame_of (hw s2) (pfn e2) = frame_of (hw s) (pfn e1) }.

Lemma fork_space_spec s a p1 c x K kt k0 k1 fl :
  let u1 := user_page_table p1 in let u2 := copy_ptes u1 (user_page_table x) fl in
  fork_ready s a p1 K kt k0 k1 -> c <> a -> pcbs s !! c = Some x ->
  length (user_page_table x) = Z.to_nat USER_PT_SIZE -> F s fl -> Forall frame24 fl -> NoDup fl ->
  (length (valid_pfns u1) <= length fl)%nat -> (forall f, f ∈ fl -> f ∉ valid_pfns u1) ->
  returns (fork_space c) s (fun o s2 => o = None /\ space_copied s s2 c K (find_free kt) kt u1 u2 fl).
Proof.
  intros u1 u2 [Ha Hnn Hp Hlen Hrd Hvm Hl0 Hb1 Hl1 [Hb0 Ht Hkl Hne] Hfree Hk0 Hk1 Hp0 Hp1 Htlb]
    Hca Hx Hlx HF H24 Hnd Hn Hd.
  destruct (find_free_found kt Hfree) as (Hri & er & Her & Hver). set (ri := find_free kt) in *.
  assert (Hri' : 0 <= ri < 128) by (change KSTACK_VPN with 126 in Hri; lia).
  unfold fork_space. rstep. rstep. rewrite Hb0. rstep.
  eapply returns_exec; [by apply (find_invalid_spec (PtHeap K) kt s)|]. fold ri.
  destruct (Z.eqb_spec ri (-1)); [done|].
  eapply returns_heap_upd2; [exact Ht|exact Her|]. intros c1 Hc1.
  set (er1 := set_prot NO_X_W_R (set_valid VALID_FRAME er)). set (kt1 := <[Z.to_nat ri := er1]> kt).
  rstep. apply returns_modify. cbv beta. set (s1 := set_hw _ _).
  rstep. rstep. change (active s1) with (active s). rewrite Ha. rstep.
  assert (T1 : forall v, tlb (hw s1) !! v = if region0_vpn v then None else tlb (hw s) !! v).
  { intros v. change (tlb (hw s1)) with (tlb_drop (flushed TLB_FLUSH_0) c1). rewrite lookup_tlb_drop.
    change (flushed TLB_FLUSH_0 v) with (region0_vpn v). destruct (region0_vpn v) eqn:E; [done|].
    apply Hc1, active_page_ne; [done|done|]. unfold region0_vpn in E. change MAX_PT_LEN with 128 in E. lia. }
  eapply returns_mono.
  { apply (CopyUPT_spec (F := F) a c K ri u1 (user_page_table x) s1 fl); try done.
    - split; try done.
      + change (user_page_table <$> pcbs s !! a = Some u1). by rewrite Hp.
      + change (user_page_table <$> pcbs s !! c = Some (user_page_table x)). by rewrite Hx.
      + exists kt1, er1. split; [apply lookup_insert_eq|]. by split; [eapply zget_insert|].
      + intros v Hv. rewrite T1. unfold region0_vpn. destruct (Z.ltb_spec v MAX_PT_LEN); [lia|]. by apply Htlb.
    - by eapply fa_frame; [| |exact HF]. }
  cbv beta zeta. intros r s2 (-> & [P2 R2 (kt0 & kt2 & Hk & E2 & I2) (c2 & m & Eh2 & [W2 V2])] & HF2 & Hfo & Hcp).
  change (ptabs s1) with (<[K := kt1]> (ptabs s)) in Hk, E2. rewrite lookup_insert_eq in Hk. injection Hk as <-.
  rewrite insert_insert_eq in E2. cbn [Z.eqb ERROR].
  assert (E02 : r_ptbr0 (hw s2) = PtHeap K) by (rewrite Eh2; exact Hb0).
  assert (E12 : r_ptbr1 (hw s2) <> PtHeap K) by (rewrite Eh2; exact Hne).
  assert (Hlk2 : length kt2 = length kt).
  { rewrite <- (length_insert kt2 (Z.to_nat ri) pte_zero), I2. unfold kt1. by rewrite !length_insert. }
  destruct (zget_is_Some kt2 ri) as [e2 He2].
  { rewrite Hlk2, Hkl. change (Z.of_nat (Z.to_nat KERNEL_PT_SIZE)) with 128. lia. }
  eapply returns_heap_upd3; [rewrite E2; apply lookup_insert_eq|exact He2|]. intros c3 Hc3. rstep.
  split; [done|].
  change (set_prot NO_X_NO_W_NO_R (set_valid INVALID_FRAME (set_pfn 0 e2))) with pte_zero.
  rewrite I2. unfold kt1. rewrite list_insert_insert_eq.
  split.
  - exact P2.
  - exact R2.
  - change (<[K := <[Z.to_nat ri := pte_zero]> kt]> (ptabs s2) = <[K := <[Z.to_nat ri := pte_zero]> kt]> (ptabs s)).
    by rewrite E2, insert_insert_eq.
  - exists c3, m. split; [|split].
    + rewrite hw_tab_upd, Eh2. reflexivity.
    + intros v Hv Hvr. rewrite Hc3 by (by apply active_page_ne). rewrite Eh2. change (c2 !! v = None).
      rewrite W2, T1 by done. unfold region0_vpn. by destruct (Z.ltb_spec v MAX_PT_LEN); [|lia].
    + intros v Hv. rewrite Hc3 by (apply active_page_ne; [done|done|change MAX_PT_LEN with 128 in Hv; lia]).
      rewrite Eh2. apply V2; [done|]. rewrite T1. unfold region0_vpn. destruct (Z.ltb_spec v MAX_PT_LEN); [lia|]. by apply Htlb.
  - by eapply fa_frame; [| |exact HF2].
  - exact Hfo.
  - exact Hcp.
Qed.

Lemma copy_ptes_pfn src : forall dst fl j e1 e2, (length (valid_pfns src) <= length fl)%nat ->
  src !! j = Some e1 -> copy_ptes src dst fl !! j = Some e2 -> valid e1 = VALID_FRAME ->
  pfn e2 ∈ take (length (valid_pfns src)) fl.
Proof.
  induction src as [|e src IH]; intros dst fl j e1 e2 Hl H1 H2 Hv; [done|].
  rewrite valid_pfns_cons in *. destruct dst as [|d dst]; [done|]. cbn [copy_ptes] in H2.
  destruct (Z.eqb_spec (valid e) VALID_FRAME) as [He|He]; cbn [app length] in *.
  - destruct fl as [|f fl]; [cbn in Hl; lia|]. cbn [take]. destruct j as [|j]; cbn in H1, H2.
    + injection H2 as <-. by left.
    + right. eapply (IH dst fl j e1 e2); try done. cbn in Hl. lia.
  - destruct j as [|j]; cbn in H1, H2; [by injection H1 as <-|]. by eapply (IH dst fl j e1 e2).
Qed.

Lemma frame_of_stack_copied h h' c k0 k1 e0 e1 f :
  frame_of (set_tlb c (set_frames (stack_copied h k0 k1 e0 e1) h')) f =
  if decide (f = pfn e1) then frame_of h (pfn k1)
  else if decide (f = pfn e0) then frame_of h (pfn k0) else frame_of h f.
Proof.
  unfold frame_of at 1, stack_copied. cbn [frames set_tlb set_frames].
  destruct (decide (f = pfn e1)) as [->|]; [by rewrite lookup_insert_eq|]. rewrite lookup_insert_ne by done.
  destruct (decide (f = pfn e0)) as [->|]; [by rewrite lookup_insert_eq|]. by rewrite lookup_insert_ne.
Qed.

(** The kernel table after the borrowed page is given back serves [KCCopy]. *)
Lemma stack_ready_after s a p1 s2 c K kt u1 u2 fl h n k0 k1 f1 f2 :
  fork_ready s a p1 K kt k0 k1 -> space_copied s s2 c K (find_free kt) kt u1 u2 fl ->
  frame24 f1 -> frame24 f2 -> f1 <> pfn k1 ->
  let kt' := <[Z.to_nat (find_free kt) := pte_zero]> kt in
  find_free kt' = find_free kt /\
  stack_ready (set_qst h (set_mtick n s2)) K kt' k0 k1 (mkPte INVALID_FRAME NO_X_W_R f1) (mkPte INVALID_FRAME NO_X_W_R f2).
Proof.
  intros [Ha Hnn Hp Hlen Hrd Hvm Hl0 Hb1 Hl1 [Hb0 Ht Hkl Hne] Hfree Hk0 Hk1 Hp0 Hp1 Htlb]
    [P2 _ T2 (cc & m & Eh2 & W2 & V2) _ _ _] Hf1 Hf2 Hfk kt'.
  destruct (find_free_found kt Hfree) as (Hri & er & Her & Hver). set (ri := find_free kt) in *.
  assert (Hz : zset ri pte_zero kt = Some kt') by (by apply zset_Some, (zget_Some _ _ er)).
  assert (Hff : find_free kt' = ri) by (by eapply find_free_insert; [exact Her|]).
  assert (Hne' : ri <> KSTACK_VPN).
  { intros E. rewrite E, Hk0 in Her. injection Her as ->. unfold permits in Hp0. by rewrite Hver in Hp0. }
  assert (Hlt : ri < 126) by (change KSTACK_VPN with 126 in *; lia).
  split; [done|]. split; try done; cbn [hw set_qst set_mtick].
  - split; cbn [hw set_qst set_mtick]; rewrite ?Eh2; try done.
    + cbn [ptabs set_qst set_mtick]. rewrite T2. apply lookup_insert_eq.
    + unfold kt'. by rewrite length_insert.
  - by rewrite Eh2.
  - by rewrite Eh2.
  - by rewrite Hff.
  - rewrite (zget_zset_ne _ _ _ _ _ Hz) by done. exact Hk0.
  - rewrite (zget_zset_ne _ _ _ _ _ Hz) by (change KSTACK_VPN with 126; lia). exact Hk1.
  - rewrite Eh2. change (cc !! KSTACK_VPN <> Some false). rewrite W2; [done|done|]. change KSTACK_VPN with 126. lia.
  - rewrite Eh2. change (cc !! (KSTACK_VPN + 1) <> Some false). rewrite W2; [done|done|]. change KSTACK_VPN with 126. lia.
Qed.

(** What the fork returns once it is resumed. *)
Lemma fork_result t u c x y (b : Z) : active t = b -> pcbs t !! b = Some x -> pcbs t !! c = Some y ->
  obind (Ret tt (set_uc u t)) (fun _ => let! a := gets active in let! ap := get_pcb a in
    let! c := get_pcb c in if pid ap =? pid c then ret 0 else ret (pid c)) =
  Ret (if pid x =? pid y then 0 else pid y) (set_uc u t).
Proof.
  intros Hb Hx Hy. cbn [obind]. rewrite bind_gets. change (active (set_uc u t)) with (active t). rewrite Hb.
  erewrite bind_exec by (by apply deref_ok). erewrite bind_exec by (by apply deref_ok).
  by destruct (pid x =? pid y).
Qed.

(** Physical memory after the fork: the child's pages are copies of the pages [ut] of
    the parent, its stack a copy of the running kernel stack, the rest is as before. *)
Record fork_contents (h h' : khw) (ut table : list pte) (fl : list Z) (f1 f2 : Z) (k0 k1 : pte) : Prop := {
  ct_copy : forall j e1 e2, ut !! j = Some e1 -> table !! j = Some e2 -> valid e1 = VALID_FRAME ->
    frame_of h' (pfn e2) = frame_of h (pfn e1);
  ct_stack0 : frame_of h' f1 = frame_of h (pfn k0);
  ct_stack1 : frame_of h' f2 = frame_of h (pfn k1);
  ct_other : forall f, f ∉ f1 :: f2 :: take (length (valid_pfns ut)) fl -> frame_of h' f = frame_of h f }.

(** The frames of a fork: pairwise distinct, and none holds a page to be copied. *)
Record fork_frames (fl : list Z) (ut : list pte) (k0 k1 : pte) : Prop := {
  ff_24 : Forall frame24 fl;
  ff_nodup : NoDup fl;
  ff_enough : (2 + length (valid_pfns ut) <= length fl)%nat;
  ff_unused : forall f, f ∈ fl -> f ∉ pfn k0 :: pfn k1 :: valid_pfns ut }.

Lemma fork_contents_spec s1 s2 c K ri kt ut fl dst f1 f2 k0 k1 cc :
  fork_frames (f1 :: f2 :: fl) ut k0 k1 -> space_copied s1 s2 c K ri kt ut (copy_ptes ut dst fl) fl ->
  fork_contents (hw s1)
    (set_tlb cc (set_frames (stack_copied (hw s2) k0 k1 (mkPte INVALID_FRAME NO_X_W_R f1)
      (mkPte INVALID_FRAME NO_X_W_R f2)) (hw s2))) ut (copy_ptes ut dst fl) fl f1 f2 k0 k1.
Proof.
  intros [_ Hnd Hlen Hd] [_ _ _ _ _ Ho2 Hcp2].
  apply NoDup_cons in Hnd as [Hn1 Hnd]. apply NoDup_cons in Hnd as [Hn2 _].
  assert (Hf1l : f1 ∉ fl) by (intros Hi; apply Hn1; by right). cbn in Hlen.
  assert (Hk : forall f, f ∈ fl -> f <> pfn k0 /\ f <> pfn k1).
  { intros f Hf. specialize (Hd f ltac:(by do 2 right)). rewrite !not_elem_of_cons in Hd. tauto. }
  assert (Htake : forall f, f ∈ take (length (valid_pfns ut)) fl -> f ∈ fl).
  { intros f Hf. rewrite <- (take_drop (length (valid_pfns ut)) fl). apply elem_of_app. by left. }
  split.
  - intros j e1 e2 H1 H2 Hv.
    pose proof (Htake _ (copy_ptes_pfn ut dst fl j e1 e2 ltac:(lia) H1 H2 Hv)) as Hin.
    rewrite frame_of_stack_copied, decide_False, decide_False by (intros E; cbn in E; rewrite E in Hin; auto).
    by apply (Hcp2 j).
  - rewrite frame_of_stack_copied, decide_False, decide_True by (done || (intros E; apply Hn1; rewrite E; by left)).
    apply Ho2. intros Hin%Htake. by destruct (Hk _ Hin).
  - rewrite frame_of_stack_copied, decide_True by done. apply Ho2. intros Hin%Htake. by destruct (Hk _ Hin).
  - intros f Hf. rewrite !not_elem_of_cons in Hf. rewrite frame_of_stack_copied, decide_False, decide_False by tauto.
    apply Ho2. tauto.
Qed.

(** The process table after the fork. *)
Lemma fork_pcbs {A} (m m1 m2 : gmap Z A) a c p x f : m1 = <[c := x]> (<[a := p]> m) -> m2 = alter f c m1 ->
  m2 = <[c := f x]> (<[a := p]> m).
Proof. intros -> ->. by rewrite alter_insert_eq. Qed.

(** C4: a fork with memory and frames left.  At the switch that copies the running
    kernel stack, a new process is in the process table and last in the ready queue,
    with a fresh pid, the caller as its parent, the caller's user context and limits,
    and an address space and kernel stack with the same contents as the caller's in
    frames that were free; no other frame changes, the borrowed page of the kernel's
    table is free again.  Resumed as the caller the call returns the child's pid,
    resumed as the child it returns 0. *)
Theorem KernelFork_forks s u a ap K kt k0 k1 f1 f2 fl V xs :
  u <> NULL -> fork_ready s a ap K kt k0 k1 -> MallocTotal L ->
  let n := new_pid (pid_tick (hw s)) in n <> 0 -> n <> pid ap ->
  let ut := user_page_table ap in F s (f1 :: f2 :: fl) -> fork_frames (f1 :: f2 :: fl) ut k0 k1 ->
  Q (qst s) V -> V !! ready_q (gl s) = Some xs ->
  clones (KernelFork u) s (fun c s' k =>
    let table := copy_ptes ut (replicate (Z.to_nat USER_PT_SIZE) pte_zero) fl in
    (c ∉ live s) /\
    pcbs s' = <[c := child_pcb L s ap c table [mkPte VALID_FRAME NO_X_W_R f1; mkPte VALID_FRAME NO_X_W_R f2]]>
      (<[a := parent_pcb ap]> (pcbs s)) /\
    Q (qst s') (<[ready_q (gl s) := xs ++ [(n, c)]]> V) /\ F s' (drop (length (valid_pfns ut)) fl) /\
    fork_contents (hw s) (hw s') ut table fl f1 f2 k0 k1 /\
    ptabs s' = <[K := <[Z.to_nat (find_free kt) := pte_zero]> kt]> (ptabs s) /\
    forall t y, pcbs t !! c = Some y -> pid y = n ->
      (forall x, active t = a -> pcbs t !! a = Some x -> pid x = pid ap -> k t = Ret n (set_uc (uc s) t)) /\
      (active t = c -> k t = Ret 0 (set_uc (uc s) t))).
Proof.
  intros Hu HR MT n Hn0 Hnp ut HF HFF HQ HV. pose proof HFF as [Hall Hnd Hlen Hd]. cbn in Hlen.
  apply Forall_cons in Hall as [Hf1 Hall]. apply Forall_cons in Hall as [Hf2 H24].
  apply NoDup_cons in Hnd as [_ Hnd]. apply NoDup_cons in Hnd as [_ Hnd].
  unfold KernelFork. destruct (Z.eqb_spec u NULL); [done|]. apply clones_after.
  eapply returns_mono; [by eapply (fork_child_spec s u a ap K kt k0 k1 f1 f2 fl)|]. cbv beta.
  intros c s1 [HC HF1]. pose proof (fork_ready_created _ _ _ _ _ _ _ _ _ _ _ HR HC) as HR1.
  destruct HC as [[Hc Hfr] Hpc1 (Eq1 & _ & _ & Eg1 & Eu1 & Ept1) Eh1].
  assert (Hca : c <> a).
  { intros ->. apply Hfr. unfold live. rewrite !elem_of_union. do 7 left. apply elem_of_dom.
    eexists. apply (fr_pcb _ _ _ _ _ _ _ HR). }
  destruct (Z.eqb_spec c NULL); [done|].
  set (x1 := child_pcb L s ap 0 _ _) in Hpc1.
  assert (Hx1 : pcbs s1 !! c = Some x1) by (rewrite Hpc1; apply lookup_insert_eq).
  apply clones_orelse. eapply returns_mono.
  { apply (fork_space_spec s1 a (parent_pcb ap) c x1 K kt k0 k1 fl); try done; [by apply Nat.succ_le_mono, Nat.succ_le_mono|].
    intros f Hf. specialize (Hd f ltac:(by do 2 right)). rewrite !not_elem_of_cons in Hd. tauto. }
  cbv beta zeta. intros o s2 [-> HS]. pose proof HS as [P2 (Q2 & _ & _ & _ & G2 & U2) T2 (cc & m & Eh2 & W2 & V2) HF2 Ho2 Hcp2].
  split; [done|]. change (user_page_table (parent_pcb ap)) with ut in *.
  change (user_page_table x1) with (replicate (Z.to_nat USER_PT_SIZE) pte_zero) in *.
  set (table := copy_ptes ut _ fl) in *. set (ri := find_free kt) in *.
  pose proof (fork_pcbs _ _ _ _ _ _ _ _ Hpc1 P2) as P2'.
  assert (Hx2 : pcbs s2 !! c = Some (set_user_page_table table x1)) by (rewrite P2'; apply lookup_insert_eq).
  apply clones_after, returns_gets, clones_after. eapply returns_deref; [exact Hx2|]. apply clones_after.
  rewrite G2, Eg1. change (pid (set_user_page_table table x1)) with n.
  eapply returns_mono; [eapply (qs_add (R := Q)); [by rewrite Q2, Eq1|exact HV|done]|]. cbv beta.
  intros r s3 (qh & -> & [[-> HQ3]|(_ & _ & E)]); [|by destruct (MT _ _ E)]. cbn [Z.eqb ERROR].
  set (s3 := set_qst _ _).
  destruct (stack_ready_after _ _ _ _ _ _ _ _ _ _ qh (S (mtick s2)) _ _ f1 f2 HR1 HS Hf1 Hf2) as [Hff HSR].
  { specialize (Hd f1 ltac:(by left)). rewrite !not_elem_of_cons in Hd. tauto. }
  apply clones_before. unfold clone_context. apply clones_after.
  eapply returns_mono.
  { apply (KCCopy_spec s3 c c (set_user_page_table table x1) K (<[Z.to_nat ri := pte_zero]> kt) k0 k1
      (mkPte INVALID_FRAME NO_X_W_R f1) (mkPte INVALID_FRAME NO_X_W_R f2)); try done.
    change (hw s3) with (hw s2). rewrite Eh2, Eh1. cbn. rewrite (fr_b1 _ _ _ _ _ _ _ HR). congruence. }
  cbv beta. intros r s4 [-> (c4 & -> & Hc4)]. destruct (Z.eqb_spec c NULL); [done|].
  unfold clones, ctx_clone. change (ptabs s3) with (ptabs s2). change (hw s3) with (hw s2).
  pose proof (fork_contents_spec _ _ _ _ _ _ _ _ _ f1 f2 k0 k1 c4 HFF HS) as HCt. rewrite Eh1 in HCt.
  split; [done|]. split; [|split; [|split; [|split; [|split]]]].
  - transitivity (<[c := set_kernel_stack_pt [mkPte VALID_FRAME NO_X_W_R f1; mkPte VALID_FRAME NO_X_W_R f2]
      (set_kernel_context c (set_user_page_table table x1))]> (pcbs s2)); [reflexivity|].
    by rewrite P2', insert_insert_eq.
  - exact HQ3.
  - by eapply fa_frame; [| |exact HF2].
  - by destruct HCt; split.
  - transitivity (<[K := <[Z.to_nat (find_free (<[Z.to_nat ri := pte_zero]> kt)) := pte_zero]>
      (<[Z.to_nat ri := pte_zero]> kt)]> (ptabs s2)); [reflexivity|].
    fold ri in Hff. by rewrite Hff, T2, Ept1, insert_insert_eq, list_insert_insert_eq.
  - intros t y Hy Hpy. split.
    + intros x Ht Hx Hpx. erewrite fork_result by done. rewrite Hpx, Hpy, <- Eu1, <- U2. by destruct (Z.eqb_spec (pid ap) n).
    + intros Ht. erewrite fork_result by done. by rewrite Z.eqb_refl, <- Eu1, <- U2.
Qed.

End fork.

(** ** Witness *)

(** Process 100, pid 1, with one page in frame 60, on the kernel table 50, which maps
    its stack to the frames 126 and 127; the ready queue 5 is empty and the frames
    72, 71 and 70 are free. *)
Definition ex_frames3 : lheap :=
  mkLheap {[ 1 := mkList 2 4 3 ]} {[ 2 := mkLnode 70 3 NULL; 3 := mkLnode 71 4 2; 4 := mkLnode 72 NULL 3 ]}.

Lemma ex_frames3_lrep : lfull ex_frames3 1 [4; 3; 2] [72; 71; 70].
Proof.
  split; [split; [done|split]|].
  - cbn. by repeat (do 2 (split; [done|]); eexists _, _; split; [reflexivity|]).
  - by apply (bool_decide_unpack _).
  - cbn. by repeat (do 2 (split; [done|]); eexists _, _; split; [reflexivity|]).
Qed.

Lemma ex_frames3_lstore : lstore ex_frames3 {[ 1 := [72; 71; 70] ]}.
Proof.
  exists {[ 1 := [4; 3; 2] ]}. split; [|split].
  - intros a b na nb n Hab [<- <-]%lookup_singleton_Some [<- <-]%lookup_singleton_Some. done.
  - by rewrite !dom_singleton_L.
  - intros a x [<- <-]%lookup_singleton_Some. split; [done|]. exists [4; 3; 2].
    split; [apply lookup_singleton_eq|]. apply ex_frames3_lrep.
Qed.

Definition ex_fork_pcb : pcb := set_user_page_table (mkPte 1 3 60 :: replicate 127 pte_zero) (set_pid 1 pcb_zero).

Definition ex_fork_table : list pte := replicate 126 pte_zero ++ [mkPte 1 3 126; mkPte 1 3 127].

Definition ex_fork : kstate :=
  mkState {[ 100 := ex_fork_pcb ]} (mkQheap {[ 5 := mkQueue 0 0 NULL NULL ]} ∅) ex_frames3 ∅
    {[ 50 := ex_fork_table ]} ∅ 0
    (mkHw VM_ENABLED (PtHeap 50) 128 (PtUser 100) 128 false ∅ {[ 60 := {[ 5 := 77 ]} ]} [] 2)
    (set_ready_q 5 (set_pfn_list 1 (set_activePCB 100 init_glob))) uctxt_zero.

Lemma ex_fork_ready : fork_ready ex_fork 100 ex_fork_pcb 50 ex_fork_table (mkPte 1 3 126) (mkPte 1 3 127).
Proof. split; try done. apply Forall_cons. split; [done|]. by apply Forall_replicate. Qed.

Lemma ex_fork_frames : fork_frames [72; 71; 70] (user_page_table ex_fork_pcb) (mkPte 1 3 126) (mkPte 1 3 127).
Proof.
  split.
  - rewrite !Forall_cons. unfold frame24. repeat split; try lia. by apply Forall_nil.
  - by apply (bool_decide_unpack _).
  - cbn. lia.
  - cbn. set_solver by lia.
Qed.

Lemma KernelFork_forks_witness :
  clones (KernelFork (L := bump_libc) 1) ex_fork (fun c s' k =>
    let table := copy_ptes (user_page_table ex_fork_pcb) (replicate (Z.to_nat USER_PT_SIZE) pte_zero) [70] in
    (c ∉ live ex_fork) /\
    pcbs s' = <[c := child_pcb bump_libc ex_fork ex_fork_pcb c table [mkPte VALID_FRAME NO_X_W_R 72; mkPte VALID_FRAME NO_X_W_R 71]]>
      (<[100 := parent_pcb ex_fork_pcb]> (pcbs ex_fork)) /\
    qstore (qst s') (<[5 := [(2, c)]]> {[ 5 := [] ]}) /\ free_list lstore ∅ s' [] /\
    fork_contents (hw ex_fork) (hw s') (user_page_table ex_fork_pcb) table [70] 72 71 (mkPte 1 3 126) (mkPte 1 3 127) /\
    ptabs s' = <[50 := <[125%nat := pte_zero]> ex_fork_table]> (ptabs ex_fork) /\
    forall t y, pcbs t !! c = Some y -> pid y = 2 ->
      (forall x, active t = 100 -> pcbs t !! 100 = Some x -> pid x = 1 -> k t = Ret 2 (set_uc uctxt_zero t)) /\
      (active t = c -> k t = Ret 0 (set_uc uctxt_zero t))).
Proof.
  apply (KernelFork_forks (L := bump_libc) (F := free_list lstore ∅) (Q := qstore) ex_fork 1 100 ex_fork_pcb 50
    ex_fork_table (mkPte 1 3 126) (mkPte 1 3 127) 72 71 [70] {[ 5 := [] ]} []); try done.
  - exact ex_fork_ready.
  - exact bump_libc_total.
  - exact ex_frames3_lstore.
  - exact ex_fork_frames.
  - apply (qstoreb_ok {[ 5 := [] ]}). vm_compute. reflexivity.
Defined.
