(* ===== verification/Exec.v ===== *)
(** * [KernelExec] and [LoadProgram]: termination and layout ([load_program.c], [syscalls.c])

    The loops over strings and argument vectors in user memory end: every walk
    leaves region 1 within the fuel of the model.  The layout of a program whose
    headers make sense puts text, data, heap and stack in disjoint page ranges. *)

From Stdlib Require Import ZArith Lia.
From stdpp Require Import base gmap list.
From S2P Require Import Prelude Hardware State Logic KList Memory Frames Process ContextSwitch Sched LoadProgram SyscallsProc.

Open Scope Z_scope.

(** ** Computations that end *)

Definition vm_on (s : kstate) : Prop := r_vm (hw s) = VM_ENABLED.

(** [m] ends with virtual memory on: it returns or it faults, and not for lack of fuel. *)
Definition ends {A} (o : outcome A) : Prop :=
  match o with Ret _ s => vm_on s | Fault f => f <> FFuel | _ => False end.

Definition finishes {A} (m : M A) : Prop := forall s, vm_on s -> ends (m s).

Section rules.

Lemma finishes_bind {A B} (m : M A) (f : A -> M B) : finishes m -> (forall a, finishes (f a)) -> finishes (bind m f).
Proof. intros Hm Hf s Hs. specialize (Hm s Hs). unfold bind. destruct (m s); try done. by apply Hf. Qed.

Lemma finishes_ret {A} (a : A) : finishes (ret a).
Proof. by intros s Hs. Qed.

Lemma finishes_raise {A} f : f <> FFuel -> finishes (raise (A := A) f).
Proof. by intros Hf s Hs. Qed.

Lemma finishes_gets {A} (f : kstate -> A) : finishes (gets f).
Proof. by intros s Hs. Qed.

Lemma finishes_deref {A} (f : kstate -> gmap Z A) a : finishes (deref f a).
Proof. intros s Hs. unfold deref. destruct (f s !! a); [done|]. by destruct (a =? NULL). Qed.

Lemma finishes_in_bounds {A} (o : option A) : finishes (in_bounds o).
Proof. destruct o; [apply finishes_ret|by apply finishes_raise]. Qed.

Lemma finishes_modify f : (forall s, vm_on s -> vm_on (f s)) -> finishes (modify f).
Proof. intros H s Hs. by apply H. Qed.

Lemma finishes_mfor ixs body : (forall i, finishes (body i)) -> finishes (mfor ixs body).
Proof. intros H. induction ixs; [apply finishes_ret|by apply finishes_bind]. Qed.

Lemma finishes_mfor_ret {R} ixs (body : Z -> M (option R)) :
  (forall i, finishes (body i)) -> finishes (mfor_ret ixs body).
Proof.
  intros H. induction ixs; [apply finishes_ret|apply finishes_bind; [done|]].
  intros [?|]; [apply finishes_ret|done].
Qed.

Lemma finishes_orelse {R} (m : M (option R)) (k : M R) : finishes m -> finishes k -> finishes (orelse m k).
Proof. intros Hm Hk. apply finishes_bind; [done|]. intros [v|]; [apply finishes_ret|done]. Qed.

Lemma finishes_malloc `{L : Libc} {A} (put : Z -> A -> kstate -> kstate) x :
  (forall a s, vm_on s -> vm_on (put a x s)) -> finishes (malloc put x).
Proof. intros H s Hs. unfold malloc. cbn. destruct (_ =? NULL); [done|]. by apply H. Qed.

Lemma finishes_get_table t : finishes (get_table t).
Proof. intros s Hs. unfold get_table. destruct (pt_table t s); [done|]. by destruct t. Qed.

Lemma vm_on_put_table t l s : vm_on s -> vm_on (pt_put_table t l s).
Proof. unfold vm_on. by destruct (pt_put_table_others t l s) as (_ & _ & _ & _ & _ & -> & _). Qed.

Lemma finishes_upd_hw f : (forall h, r_vm h = VM_ENABLED -> r_vm (f h) = VM_ENABLED) -> finishes (upd_hw f).
Proof. intros H. apply finishes_modify. intros s Hs. by apply H. Qed.

Lemma finishes_translate w a : finishes (translate w a).
Proof.
  intros s Hs. unfold translate. rewrite Hs. cbn [Z.eqb VM_ENABLED VM_DISABLED].
  destruct (tlb (hw s) !! vpn a) as [[]|]; try done; (destruct (page_entry s (vpn a)); [|done]);
    by destruct (permits w p).
Qed.

End rules.

Create HintDb finish discriminated.
#[export] Hint Constants Opaque : finish.
#[export] Hint Resolve finishes_ret finishes_gets finishes_deref finishes_in_bounds finishes_get_table
  finishes_translate : finish.

(** Reduce the claim to the parts of a computation. *)
Ltac fin_step :=
  lazymatch goal with
  | |- finishes (bind _ _) => apply finishes_bind; [|intros ?]
  | |- finishes (orelse _ _) => apply finishes_orelse
  | |- finishes (mfor _ _) => apply finishes_mfor; intros ?
  | |- finishes (mfor_ret _ _) => apply finishes_mfor_ret; intros ?
  | |- finishes (raise _) => by apply finishes_raise
  | |- finishes (modify _) => apply finishes_modify; intros ? ?; done
  | |- finishes (upd_hw _) => apply finishes_upd_hw; intros ? ?; done
  | |- finishes (malloc _ _) => apply finishes_malloc; intros ? ? ?; done
  | |- finishes (upd_pcb _ _) => unfold upd_pcb, get_pcb
  | |- finishes (get_pcb _) => unfold get_pcb
  | |- finishes (if ?b then _ else _) => destruct b
  | |- finishes (match ?x with Some _ => _ | None => _ end) => destruct x
  | |- finishes (let _ := _ in _) => cbv zeta
  end.

Ltac fin := repeat first [solve [auto with finish nocore] | fin_step].

(** ** The pieces *)

Section pieces.
Context `{L : Libc} `{FS : FileSystem}.

Lemma finishes_user_ptr a : finishes (user_ptr a).
Proof. unfold user_ptr. fin. Qed.
Hint Resolve finishes_user_ptr : finish.

Lemma finishes_read_byte a : finishes (read_byte a).
Proof. unfold read_byte. fin. Qed.
Hint Resolve finishes_read_byte : finish.

Lemma finishes_write_bytes bs : forall a, finishes (write_bytes a bs).
Proof. induction bs; intros; cbn [write_bytes]; unfold write_byte; fin. Qed.
Hint Resolve finishes_write_bytes : finish.

Lemma finishes_read_bytes n : forall a, finishes (read_bytes a n).
Proof. induction n; intros; cbn [read_bytes]; fin. Qed.
Hint Resolve finishes_read_bytes : finish.

Lemma finishes_pt_get t i : finishes (pt_get t i).
Proof. unfold pt_get. fin. Qed.
Hint Resolve finishes_pt_get : finish.

Lemma finishes_pt_upd t i f : finishes (pt_upd t i f).
Proof.
  unfold pt_upd. fin_step; [fin|]. fin_step; [fin|]. cbv zeta. fin_step; [|fin].
  apply finishes_modify. intros s. apply vm_on_put_table.
Qed.
Hint Resolve finishes_pt_upd : finish.

(** Register writes other than the one that turns virtual memory off. *)
Lemma finishes_WriteRegister r : (forall v, r <> REG_VM_ENABLE v) -> finishes (WriteRegister r).
Proof.
  intros Hr. apply finishes_upd_hw. intros h Hh. destruct r; cbn; try done; [by destruct (Hr v)|..]; by destruct (decide _).
Qed.

Lemma finishes_list_add l x : finishes (list_add l x).
Proof. unfold list_add, lnode_init, get_list, upd_list, upd_lnode, get_lnode, get_list. fin. Qed.
Hint Resolve finishes_list_add : finish.

Lemma finishes_list_pop l : finishes (list_pop l).
Proof. unfold list_pop, lnode_delete, free_lnode, upd_list, get_list, get_lnode. fin. Qed.
Hint Resolve finishes_list_pop : finish.

Lemma finishes_AllocatePFN : finishes AllocatePFN.
Proof. unfold AllocatePFN, get_list. fin. Qed.

Lemma finishes_DeallocatePFN f : finishes (DeallocatePFN f).
Proof. unfold DeallocatePFN. fin. Qed.
Hint Resolve finishes_AllocatePFN finishes_DeallocatePFN : finish.

Lemma finishes_free_addr_space u k : finishes (free_addr_space u k).
Proof. unfold free_addr_space, free_valid. fin. Qed.
Hint Resolve finishes_free_addr_space : finish.

Lemma finishes_map_pages p lo hi : finishes (map_pages p lo hi).
Proof. unfold map_pages, map_page. fin. Qed.
Hint Resolve finishes_map_pages : finish.

Lemma finishes_discard_region1 t : finishes (discard_region1 t).
Proof. unfold discard_region1, discard_page. fin. Qed.
Hint Resolve finishes_discard_region1 : finish.

Lemma finishes_protect_text t li lo : finishes (protect_text t li lo).
Proof. unfold protect_text, protect_page. fin. by apply finishes_WriteRegister. Qed.
Hint Resolve finishes_protect_text : finish.

Lemma finishes_read_segment fd f v n : finishes (read_segment fd f v n).
Proof. unfold read_segment. fin. Qed.
Hint Resolve finishes_read_segment : finish.

Lemma finishes_place_args n : forall cpp cp buf, finishes (place_args n cpp cp buf).
Proof. induction n; intros; cbn [place_args]; unfold store_int; fin. Qed.
Hint Resolve finishes_place_args : finish.

Lemma finishes_build_stack lo b : finishes (build_stack lo b).
Proof. unfold build_stack, zero_bytes, store_int. fin. Qed.
Hint Resolve finishes_build_stack : finish.

(** ** The walks through user memory *)

(** A byte that can be read is in region 1. *)
Lemma read_byte_region a s : vm_on s ->
  match read_byte a s with Ret _ _ => VMEM_1_BASE <= a < VMEM_1_LIMIT | _ => True end.
Proof.
  intros Hvm. unfold read_byte, user_ptr, bind. destruct (Z.ltb_spec a VMEM_1_BASE); [done|]. cbn [obind ret].
  unfold translate. rewrite Hvm. cbn [Z.eqb VM_ENABLED VM_DISABLED].
  assert (Hpe : VMEM_1_LIMIT <= a -> page_entry s (vpn a) = None).
  { intros Ha. unfold page_entry, vpn. rewrite shiftr_page.
    assert (2 * MAX_PT_LEN <= a / PAGESIZE) by (apply Z.div_le_lower_bound; [done|]; exact Ha).
    change MAX_PT_LEN with 128 in *. by rewrite !bool_decide_false by lia. }
  destruct (decide (VMEM_1_LIMIT <= a)) as [Ha|Ha].
  - rewrite Hpe by done. by destruct (tlb (hw s) !! vpn a) as [[]|].
  - destruct (tlb (hw s) !! vpn a) as [[]|]; cbn [obind]; try done;
      (destruct (page_entry s (vpn a)) as [e|]; [|done]); destruct (permits false e); cbn; lia.
Qed.

(** Fuel for a walk from [a] on: it faults at the end of the region at the latest. *)
Definition enough (fuel : nat) (a : Z) : Prop :=
  (0 < fuel)%nat /\ (VMEM_1_BASE <= a -> VMEM_1_LIMIT - a < Z.of_nat fuel).

Lemma enough_next fuel a d : enough (S fuel) a -> VMEM_1_BASE <= a < VMEM_1_LIMIT -> 0 < d -> enough fuel (a + d).
Proof. unfold enough. intros [_ H] Ha Hd. specialize (H (proj1 Ha)). lia. Qed.

Lemma enough_region a : enough region_fuel a.
Proof.
  unfold enough, region_fuel. rewrite Nat2Z.inj_succ, Z2Nat.id by done. split; [lia|].
  change VMEM_1_LIMIT with (VMEM_1_BASE + VMEM_1_SIZE). lia.
Qed.

Lemma ends_bind {A B} (m : M A) (f : A -> M B) s : finishes m -> vm_on s ->
  (forall a s', m s = Ret a s' -> vm_on s' -> ends (f a s')) -> ends (bind m f s).
Proof.
  intros Hm Hs Hf. specialize (Hm s Hs). unfold bind. destruct (m s) as [a s'| | |] eqn:E; try done. by apply Hf.
Qed.

Lemma read_cstring_ends fuel : forall a s, vm_on s -> enough fuel a -> ends (read_cstring fuel a s).
Proof.
  induction fuel as [|fuel IH]; intros a s Hs Hf; [destruct Hf; lia|]. cbn [read_cstring].
  apply ends_bind; [apply finishes_read_byte|done|]. intros c s1 E Hs1.
  pose proof (read_byte_region a s Hs) as Hr. rewrite E in Hr. destruct (c =? 0); [done|].
  pose proof (IH (a + 1) s1 Hs1 (enough_next _ _ 1 Hf Hr ltac:(lia))) as H.
  unfold bind. by destruct (read_cstring fuel (a + 1) s1).
Qed.

Lemma finishes_user_string a : finishes (user_string a).
Proof. intros s Hs. apply read_cstring_ends; [done|apply enough_region]. Qed.
Hint Resolve finishes_user_string : finish.

Lemma finishes_get_arg args i : finishes (get_arg args i).
Proof. unfold get_arg, load_int. destruct args; fin. Qed.

(** The first byte of a pointer that can be loaded is in region 1. *)
Lemma load_int_region a s : vm_on s ->
  match load_int a s with Ret _ _ => VMEM_1_BASE <= a < VMEM_1_LIMIT | _ => True end.
Proof.
  intros Hs. pose proof (read_byte_region a s Hs) as H. unfold load_int. cbn [read_bytes].
  unfold bind at 1 2. by destruct (read_byte a s); cbn [obind]; [|..]; [destruct (obind _ _)|..].
Qed.

(** Room for the arguments of either kind. *)
Definition args_enough (fuel : nat) (args : argv) (i : Z) : Prop :=
  match args with
  | KernelArgs l from => (0 < fuel)%nat /\ (0 <= from + i <= Z.of_nat (length l) -> Z.of_nat (length l) - (from + i) < Z.of_nat fuel)
  | UserArgs a => enough fuel (a + 4 * i)
  end.

Lemma scan_args_ends fuel args : forall i s, vm_on s -> args_enough fuel args i -> ends (scan_args fuel args i s).
Proof.
  induction fuel as [|fuel IH]; intros i s Hs Hf; [destruct args, Hf; lia|]. cbn [scan_args].
  apply ends_bind; [apply finishes_get_arg|done|]. intros [c|] s1 E Hs1; [|done].
  assert (Hn : args_enough fuel args (i + 1)).
  { destruct args as [l from|a]; cbn [get_arg args_enough] in *.
    - destruct (Z.eqb_spec (from + i) (Z.of_nat (length l))); [done|].
      destruct (zget l (from + i)) as [x|] eqn:Ex; [|done]. apply zget_Some in Ex. lia.
    - pose proof (load_int_region (a + 4 * i) s Hs) as Hr.
      destruct (load_int (a + 4 * i) s) eqn:El; unfold bind in E; rewrite El in E; try done.
      replace (a + 4 * (i + 1)) with (a + 4 * i + 4) by lia. by eapply enough_next. }
  pose proof (IH (i + 1) s1 Hs1 Hn) as H. unfold bind. by destruct (scan_args fuel args (i + 1) s1).
Qed.

(** The argument vectors the kernel itself passes are short. *)
Definition args_short (args : argv) : Prop :=
  match args with KernelArgs l _ => Z.of_nat (length l) <= VMEM_1_SIZE | UserArgs _ => True end.

Lemma finishes_scan_args args : args_short args -> finishes (scan_args region_fuel args 0).
Proof.
  intros Hl s Hs. apply scan_args_ends; [done|]. destruct args as [l from|a]; [|apply enough_region].
  cbn [args_enough args_short] in *. unfold region_fuel. rewrite Nat2Z.inj_succ, Z2Nat.id by done. lia.
Qed.

#[local] Opaque region_fuel scan_args read_cstring.

Lemma finishes_load_committed p fd args li lo : args_short args -> finishes (load_committed p fd args li lo).
Proof.
  intros Hl. pose proof (finishes_scan_args args Hl) as Hs. unfold load_committed, map_text, map_data, map_stack, zero_bytes.
  fin; by apply finishes_WriteRegister.
Qed.
Hint Resolve finishes_load_committed : finish.

Lemma finishes_LoadProgram name args p : args_short args -> finishes (LoadProgram name args p).
Proof.
  intros Hl. pose proof (finishes_scan_args args Hl) as Hs. unfold LoadProgram. fin.
Qed.

(** The call returns a value or faults, and not for want of fuel. *)
Definition stops {A} (m : M A) (s : kstate) : Prop :=
  (exists r s', m s = Ret r s') \/ (exists f, m s = Fault f /\ f <> FFuel).

(** C10: [Exec] and the loader end.  Whatever the program's file, its headers, the name
    and the argument vector in the caller's memory (unterminated strings and vectors
    included), the call returns or faults: it never runs for ever.  Each walk through
    memory passes its end within the fuel of the model. *)
Theorem KernelExec_terminates uctxt filename argvec s : r_vm (hw s) = VM_ENABLED ->
  stops (KernelExec uctxt filename argvec) s.
Proof.
  intros Hs. assert (H : finishes (KernelExec uctxt filename argvec)).
  { pose proof (fun name p => finishes_LoadProgram name (UserArgs argvec) p I) as Hl. unfold KernelExec. fin; by apply finishes_WriteRegister. }
  specialize (H s Hs). unfold stops. destruct (KernelExec _ _ _ s) as [r s'|f| |]; [left|right|done..]; eauto.
Qed.

End pieces.

(** ** Witness *)

(** [Exec] of the string at the last byte of region 1, which is not terminated. *)
Lemma KernelExec_terminates_witness :
  stops (KernelExec (L := bump_libc) (FS := ex_disk) 1 (VMEM_1_LIMIT - 1) NULL)
    (set_hw (set_r_vm VM_ENABLED init_hw) init_state).
Proof. apply KernelExec_terminates. reflexivity. Defined.
