(* ===== verification/LoadArgs.v ===== *)
(** * Argument vectors in user memory ([load_program.c])

    What the loader's walks over the name and the arguments of [Exec] find: the
    strings that are in the caller's memory. *)

From Stdlib Require Import ZArith Lia.
From stdpp Require Import base gmap list.
From S2P Require Import Prelude Hardware State Logic Memory LoadProgram.

Open Scope Z_scope.

(** ** States in which user memory reads the same *)

(** [s'] differs from [s] in what a read of user memory does not see: cached
    translations that were not stale, and everything that is neither memory nor a
    page table. *)
Record same_view (s s' : kstate) : Prop := {
  sv_memory : same_memory (set_hw (hw s') s) s';
  sv_hw : hw_mem_only (hw s) (hw s');
  sv_frames : frames (hw s') = frames (hw s) }.

Lemma same_view_refl s : same_view s s.
Proof. split; [by split|apply hw_mem_only_refl|done]. Qed.

Lemma same_view_trans s1 s2 s3 : same_view s1 s2 -> same_view s2 s3 -> same_view s1 s3.
Proof.
  intros [[_ T1] H1 F1] [[_ T2] H2 F2]. split; [|by eapply hw_mem_only_trans|congruence].
  split; [done|]. intros t. rewrite (T2 t). transitivity (pt_table t s2); [by destruct t|]. rewrite (T1 t). by destruct t.
Qed.

(** [s'] is [s] after reads of user memory. *)
Definition only_read (s s' : kstate) : Prop :=
  exists h, s' = set_hw h s /\ hw_mem_only (hw s) h /\ frames h = frames (hw s).

Lemma only_read_refl s : only_read s s.
Proof. exists (hw s). split; [by destruct s|]. split; [apply hw_mem_only_refl|done]. Qed.

Lemma only_read_trans s1 s2 s3 : only_read s1 s2 -> only_read s2 s3 -> only_read s1 s3.
Proof.
  intros (h & -> & H1 & F1) (h' & -> & H2 & F2). exists h'. split; [by destruct s1|].
  split; [by eapply hw_mem_only_trans|]. by rewrite F2.
Qed.

Lemma same_view_hw s h : hw_mem_only (hw s) h -> frames h = frames (hw s) -> same_view s (set_hw h s).
Proof. intros Hh Hf. split; [by split|done|done]. Qed.

Lemma only_read_view s s' : only_read s s' -> same_view s s'.
Proof. intros (h & -> & Hh & Hf). by apply same_view_hw. Qed.

Lemma same_view_memory s s' : same_memory s s' -> same_view s s'.
Proof.
  intros [Hh Ht]. split; [|rewrite Hh; apply hw_mem_only_refl|by rewrite Hh].
  split; [done|]. intros t. rewrite (Ht t). by destruct t.
Qed.

Lemma uaccess_view w s s' a n : same_view s s' -> uaccess w s a n -> uaccess w s' a n.
Proof. intros [Hm Hh _] H. eapply uaccess_same; [exact Hm|]. by apply uaccess_mem_only. Qed.

Lemma ubytes_view s s' a n : same_view s s' -> ubytes s' a n = ubytes s a n.
Proof.
  intros [Hm Hh Hf]. rewrite (ubytes_same _ _ _ _ Hm). unfold ubytes. apply map_ext. intros i.
  rewrite phys_mem_only by done. cbn [hw set_hw]. unfold fbyte, frame_of. by rewrite Hf.
Qed.

(** ** Strings *)

(** The bytes of a C string before its NUL. *)
Definition cbytes (c : list Z) : Prop := Forall (fun x => 0 < x < 256) c.

(** The string [c] at the user address [a], readable up to its NUL. *)
Definition user_cstring (s : kstate) (a : Z) (c : list Z) : Prop :=
  uaccess false s a (S (length c)) /\ ubytes s a (S (length c)) = c ++ [0] /\ cbytes c.

Lemma user_cstring_view s s' a c : same_view s s' -> user_cstring s a c -> user_cstring s' a c.
Proof.
  intros Hv (Ha & Hb & Hc). split; [by eapply uaccess_view|]. by rewrite (ubytes_view s s').
Qed.

Lemma ubytes_S s a n : ubytes s a (S n) = fbyte (hw s) (phys s a).1 (phys s a).2 :: ubytes s (a + 1) n.
Proof.
  unfold ubytes. cbn [zrange map]. rewrite Z.add_0_r. f_equal. apply zrange_shift_map. intros i.
  by replace (a + (1 + i)) with (a + 1 + i) by lia.
Qed.

Lemma read_byte_view s a n : uaccess false s a (S n) ->
  returns (read_byte a) s (fun r s' => r = fbyte (hw s) (phys s a).1 (phys s a).2 /\ only_read s s').
Proof.
  intros (Hv & Ha & Hi). unfold read_byte, user_ptr. destruct (Z.ltb_spec a VMEM_1_BASE); [lia|].
  destruct (Hi 0) as [Ht (e & He & Hp)]; [lia|]. rewrite Z.add_0_r in *.
  rstep. rstep. rstep. eapply returns_exec; [by eapply translate_ok|]. rsteps. cbn [hw set_hw].
  unfold phys. rewrite He. split; [done|].
  eexists. split; [done|]. split; [by apply hw_tlb_fill|done].
Qed.

Lemma read_cstring_spec fuel : forall s a c, user_cstring s a c -> (length c < fuel)%nat ->
  returns (read_cstring fuel a) s (fun r s' => r = c /\ only_read s s').
Proof.
  induction fuel as [|fuel IH]; intros s a c (Ha & Hb & Hc) Hf; [lia|]. cbn [read_cstring].
  rewrite ubytes_S in Hb. rstep. eapply returns_mono; [by eapply read_byte_view|]. cbv beta.
  intros b s1 [Eb V1]. rewrite <- Eb in Hb. clear Eb.
  destruct c as [|x c]; cbn [length app] in *.
  - injection Hb as ->. cbn [Z.eqb]. rstep. done.
  - injection Hb as -> Hb. apply Forall_cons in Hc as [Hx Hc]. destruct (Z.eqb_spec x 0); [lia|]. rstep.
    eapply returns_mono; [apply (IH s1 (a + 1) c)|]; [|lia|].
    + apply (user_cstring_view s s1); [by apply only_read_view|]. split; [by apply uaccess_tail|done].
    + cbv beta. intros r s2 [-> V2]. rstep. split; [done|]. by eapply only_read_trans.
Qed.

(** A readable byte is below the end of region 1. *)
Lemma uaccess_limit w s a n : uaccess w s a n -> (0 < n)%nat -> a + Z.of_nat n <= VMEM_1_LIMIT.
Proof.
  intros (_ & Ha & Hi) Hn. destruct (Hi (Z.of_nat n - 1)) as [_ (e & He & _)]; [lia|].
  unfold page_entry, vpn in He. rewrite shiftr_page in He. change MAX_PT_LEN with 128 in He.
  change VMEM_1_BASE with 1048576 in Ha. change VMEM_1_LIMIT with 2097152.
  assert (Hlt : (a + (Z.of_nat n - 1)) / PAGESIZE < 256).
  { revert He. repeat case_bool_decide; [lia|lia|done]. }
  pose proof (Z.div_mod (a + (Z.of_nat n - 1)) PAGESIZE ltac:(done)) as Hd.
  pose proof (Z.mod_pos_bound (a + (Z.of_nat n - 1)) PAGESIZE ltac:(done)) as Hm.
  change PAGESIZE with 8192 in *. lia.
Qed.

Lemma user_string_spec s a c : user_cstring s a c ->
  returns (user_string a) s (fun r s' => r = c /\ only_read s s').
Proof.
  intros H. apply read_cstring_spec; [done|]. destruct H as (H & _ & _).
  pose proof (uaccess_limit _ _ _ _ H ltac:(lia)) as Hl. destruct H as (_ & Ha & _).
  unfold region_fuel. change VMEM_1_LIMIT with (VMEM_1_BASE + VMEM_1_SIZE) in Hl. lia.
Qed.

(** ** Vectors *)

(** The NULL-terminated vector at [a] holds pointers to the strings [cs]. *)
Record user_args (s : kstate) (a : Z) (cs : list (list Z)) : Prop := {
  ua_ptr : forall i c, cs !! i = Some c -> exists q, uaccess false s (a + 4 * Z.of_nat i) 4 /\
    bytes_int (ubytes s (a + 4 * Z.of_nat i) 4) = q /\ q <> NULL /\ user_cstring s (u32 q) c;
  ua_end : uaccess false s (a + 4 * Z.of_nat (length cs)) 4 /\
    bytes_int (ubytes s (a + 4 * Z.of_nat (length cs)) 4) = NULL }.

(** The arguments of a call of [LoadProgram] are [cs]. *)
Definition args_are (s : kstate) (args : argv) (cs : list (list Z)) : Prop :=
  match args with
  | KernelArgs l from => exists n, from = Z.of_nat n /\ (n <= length l)%nat /\ drop n l = cs /\
      Z.of_nat (length l) <= VMEM_1_SIZE
  | UserArgs a => user_args s a cs
  end.

Lemma user_args_view s s' a cs : same_view s s' -> user_args s a cs -> user_args s' a cs.
Proof.
  intros Hv [Hp [He Hn]]. split.
  - intros i c Hi. destruct (Hp i c Hi) as (q & Ha & Hq & H0 & Hc). exists q.
    split; [by eapply uaccess_view|]. split; [by rewrite (ubytes_view s s')|]. split; [done|].
    by eapply user_cstring_view.
  - split; [by eapply uaccess_view|]. by rewrite (ubytes_view s s').
Qed.

Lemma args_are_view s s' args cs : same_view s s' -> args_are s args cs -> args_are s' args cs.
Proof. destruct args; [done|]. apply user_args_view. Qed.

Lemma load_int_spec s a : uaccess false s a 4 ->
  returns (load_int a) s (fun r s' => r = bytes_int (ubytes s a 4) /\ only_read s s').
Proof.
  intros H. unfold load_int. rstep. eapply returns_mono; [by apply read_bytes_spec|]. cbv beta.
  intros r s' (h & -> & Hh & Hf & ->). rstep. split; [done|]. by exists h.
Qed.

(** The argument at an index is the one [args_are] promises. *)
Lemma get_arg_spec s args cs i : args_are s args cs -> (i <= length cs)%nat ->
  returns (get_arg args (Z.of_nat i)) s (fun r s' => r = cs !! i /\ only_read s s').
Proof.
  intros Ha Hi. destruct args as [l from|a]; cbn [args_are get_arg] in *.
  - destruct Ha as (n & -> & Hn & <- & _). rewrite length_drop in Hi. rewrite lookup_drop, <- Nat2Z.inj_add.
    destruct (Z.eqb_spec (Z.of_nat (n + i)) (Z.of_nat (length l))) as [E|E].
    + rstep. rewrite lookup_ge_None_2 by lia. split; [done|apply only_read_refl].
    + destruct (l !! (n + i)%nat) as [c|] eqn:Hc; [|apply lookup_ge_None in Hc; lia].
      rstep. eapply returns_in_bounds; [unfold zget; rewrite bool_decide_true by lia; by rewrite Nat2Z.id|].
      rstep. split; [done|apply only_read_refl].
  - destruct (cs !! i) as [c|] eqn:Hc.
    + destruct (ua_ptr _ _ _ Ha i c Hc) as (q & Hq & Hb & H0 & Hs). rstep.
      eapply returns_mono; [by apply load_int_spec|]. cbv beta. intros r s1 [-> V1]. rewrite Hb.
      destruct (Z.eqb_spec q NULL); [done|]. rstep.
      eapply returns_mono; [apply user_string_spec; eapply user_cstring_view; [by apply only_read_view|done]|]. cbv beta.
      intros r s2 [-> V2]. rstep. split; [done|]. by eapply only_read_trans.
    + apply lookup_ge_None in Hc. assert (i = length cs) as -> by lia.
      destruct (ua_end _ _ _ Ha) as [Hq Hb]. rstep. eapply returns_mono; [by apply load_int_spec|]. cbv beta.
      intros r s1 [-> V1]. rewrite Hb. by cbn.
Qed.

Lemma scan_args_from fuel : forall s args cs i, args_are s args cs -> (i <= length cs)%nat ->
  (length cs - i < fuel)%nat ->
  returns (scan_args fuel args (Z.of_nat i)) s (fun r s' => r = drop i cs /\ only_read s s').
Proof.
  induction fuel as [|fuel IH]; intros s args cs i Ha Hi Hf; [lia|]. cbn [scan_args]. rstep.
  eapply returns_mono; [by apply get_arg_spec|]. cbv beta. intros x s1 [-> V1].
  destruct (cs !! i) as [c|] eqn:Hc.
  - pose proof (lookup_lt_Some _ _ _ Hc) as Hlt. rstep. replace (Z.of_nat i + 1) with (Z.of_nat (S i)) by lia.
    eapply returns_mono; [apply (IH s1 args cs (S i)); [eapply args_are_view; [by apply only_read_view|done]|lia|lia]|]. cbv beta.
    intros r s2 [-> V2]. rstep. split; [by rewrite (drop_S cs c i)|]. by eapply only_read_trans.
  - apply lookup_ge_None in Hc. rstep. split; [by rewrite drop_ge|done].
Qed.

(** The two walks of the loader: the arguments in order, and nothing changed. *)
Lemma scan_args_spec s args cs : args_are s args cs ->
  returns (scan_args region_fuel args 0) s (fun r s' => r = cs /\ only_read s s').
Proof.
  intros Ha. apply (scan_args_from region_fuel s args cs 0 Ha); [lia|]. unfold region_fuel.
  destruct args as [l from|a]; cbn [args_are] in Ha.
  - destruct Ha as (n & -> & Hn & <- & Hl). rewrite length_drop. lia.
  - destruct (ua_end _ _ _ Ha) as [H _]. pose proof (uaccess_limit _ _ _ _ H ltac:(lia)) as Hl.
    assert (H0 : VMEM_1_BASE <= a).
    { destruct (decide (length cs = 0)%nat) as [E|E]; [destruct H as (_ & H & _); lia|].
      destruct (lookup_lt_is_Some_2 cs 0) as [c Hc]; [lia|].
      destruct (ua_ptr _ _ _ Ha 0 c Hc) as (q & (_ & H1 & _) & _). lia. }
    change VMEM_1_LIMIT with (VMEM_1_BASE + VMEM_1_SIZE) in Hl. lia.
Qed.
