(* ===== verification/Loader.v ===== *)
(** * What [LoadProgram] builds ([load_program.c])

    The page table and the memory of a freshly loaded program: text, data, heap and
    stack in the frames that were free, the bytes of the file, zeros, and the
    argument block of [main]. *)

From Stdlib Require Import ZArith Lia.
From stdpp Require Import base gmap list.
From S2P Require Import Prelude Hardware State Logic KList Memory Frames Process ContextSwitch Sched LoadProgram LoadArgs.

Open Scope Z_scope.

(** ** The page table *)

Definition region1_vpn (v : Z) : bool := negb (region0_vpn v).

(** [s'] is [s] with the table [l] at [t]; the free list, the allocator's clock and
    cached translations of region 1 may have changed as well. *)
Definition retabled (s s' : kstate) (t : pt_ptr) (l : list pte) : Prop :=
  exists h n c, s' = set_lst h (set_mtick n (tab_upd t l c s)) /\ tlb_off region1_vpn (tlb (hw s)) c.

Lemma retabled_refl s t l : pt_table t s = Some l -> retabled s s t l.
Proof.
  intros H. exists (lst s), (mtick s), (tlb (hw s)). split; [|done]. rewrite tab_upd_same by done. by destruct s.
Qed.

Lemma retabled_trans s s1 s2 t l1 l2 : retabled s s1 t l1 -> retabled s1 s2 t l2 -> retabled s s2 t l2.
Proof.
  intros (h & n & c & -> & Hc) (h' & n' & c' & -> & Hc'). exists h', n', c'. split.
  - rewrite tab_upd_lst, tab_upd_mtick, tab_upd_twice. by destruct t, s.
  - eapply tlb_off_trans; [exact Hc|]. by destruct t.
Qed.

Lemma retabled_table s s' t l : is_Some (pt_table t s) -> retabled s s' t l -> pt_table t s' = Some l.
Proof. intros H (h & n & c & -> & _). apply (pt_table_tab_upd t l c s) in H. destruct t; exact H. Qed.

Lemma retabled_hw s s' t l : retabled s s' t l -> exists c, hw s' = set_tlb c (hw s) /\ tlb_off region1_vpn (tlb (hw s)) c.
Proof. intros (h & n & c & -> & Hc). by exists c. Qed.

(** An update of an entry of a table that does not translate region 0. *)
Lemma pt_upd_retabled t l e l' f s : pt_table t s = Some (l ++ e :: l') -> t <> r_ptbr0 (hw s) ->
  returns (pt_upd t (Z.of_nat (length l)) f) s (fun _ s' => retabled s s' t (l ++ f e :: l') /\ lst s' = lst s).
Proof.
  intros Ht H0. eapply returns_exec; [by apply pt_upd_at|]. split; [|by rewrite lst_tab_upd].
  eexists (lst s), (mtick s), _. split; [by destruct t, s|].
  eapply tlb_off_mono; [|apply tlb_step_off]. intros v Hv. unfold active_page.
  rewrite (bool_decide_false (t = r_ptbr0 (hw s))) by done. cbn [andb orb].
  unfold region1_vpn, region0_vpn in Hv. apply negb_false_iff, Z.ltb_lt in Hv.
  destruct (Z.eqb_spec v (MAX_PT_LEN + Z.of_nat (length l))); [lia|]. by rewrite andb_false_r.
Qed.

Section tables.
Context `{L : Libc} {F : kstate -> list Z -> Prop} {FA : FrameAllocator L F}.

Lemma F_retabled_lst s s' t l fl : retabled s s' t l -> lst s' = lst s -> F s fl -> F s' fl.
Proof.
  intros (h & n & c & -> & _) Hl HF. eapply fa_frame; [exact Hl| |exact HF]. by destruct t.
Qed.

(** One iteration of the loop that throws the old address space away. *)
Definition discarded (e : pte) : pte := if valid e =? VALID_FRAME then mkPte 0 (prot e) 0 else e.

Lemma discard_pages t rest : MallocTotal L -> forall l s fl,
  pt_table t s = Some (l ++ rest) -> t <> r_ptbr0 (hw s) -> F s fl ->
  returns (mfor (zrange (Z.of_nat (length l)) (length rest)) (discard_page t)) s
    (fun _ s' => retabled s s' t (l ++ map discarded rest) /\ F s' (rev (valid_pfns rest) ++ fl)).
Proof.
  intros MT. induction rest as [|e rest IH]; intros l s fl Ht H0 HF; cbn [length zrange mfor map].
  - rstep. split; [by apply retabled_refl|done].
  - rstep. eapply returns_mono with (P := fun _ s1 => retabled s s1 t (l ++ discarded e :: rest) /\
      F s1 (rev (valid_pfns [e]) ++ fl)).
    + unfold discard_page at 1. rstep. eapply returns_pt_get; [exact Ht|apply zget_app|]. rewrite valid_pfns_cons. unfold discarded.
      destruct (Z.eqb_spec (valid e) VALID_FRAME) as [Hv|Hv]; [|rstep; by split; [apply retabled_refl|]].
      rstep. eapply returns_mono; [by apply (pt_upd_retabled t l e rest)|]. cbv beta. intros _ s1 [R1 E1].
      pose proof (retabled_table _ _ _ _ ltac:(by eexists) R1) as Ht1.
      destruct (retabled_hw _ _ _ _ R1) as (c1 & Eh1 & _).
      rstep. eapply returns_pt_get; [exact Ht1|apply zget_app|]. cbn [pfn set_valid].
      rstep. eapply returns_mono; [apply (fa_free s1 (pfn e) fl MT); by eapply F_retabled_lst|]. cbv beta.
      intros r s2 (h & -> & _ & HF2). set (s2 := set_lst _ _).
      assert (R2 : retabled s1 s2 t (l ++ set_valid INVALID_FRAME e :: rest)).
      { exists h, (S (mtick s1)), (tlb (hw s1)). split; [|done]. by rewrite tab_upd_same. }
      assert (Ht2 : pt_table t s2 = Some (l ++ set_valid INVALID_FRAME e :: rest)) by (by eapply retabled_table; [eexists|exact R2]).
      eapply returns_mono; [apply (pt_upd_retabled t l _ rest _ s2 Ht2)|].
      { change (hw s2) with (hw s1). by rewrite Eh1. }
      cbv beta. intros _ s3 [R3 E3]. split.
      * eapply retabled_trans; [exact R1|]. eapply retabled_trans; [exact R2|exact R3].
      * by eapply F_retabled_lst.
    + cbv beta. intros _ s1 [R1 HF1]. pose proof (retabled_table _ _ _ _ ltac:(by eexists) R1) as Ht1.
      destruct (retabled_hw _ _ _ _ R1) as (c1 & Eh1 & _).
      replace (Z.of_nat (length l) + 1) with (Z.of_nat (length (l ++ [discarded e]))) by (rewrite length_app; cbn; lia).
      eapply returns_mono; [apply (IH (l ++ [discarded e]) s1)|].
      * by rewrite <- app_assoc.
      * by rewrite Eh1.
      * exact HF1.
      * cbv beta. intros _ s' [R2 HF2]. rewrite <- app_assoc in R2. split; [by eapply retabled_trans|].
        rewrite valid_pfns_cons, rev_app_distr, <- app_assoc. rewrite valid_pfns_cons, app_nil_r in HF1. 
        rewrite valid_pfns_cons, app_nil_r in HF2. exact HF2.
Qed.

(** A page mapped to the frame [f] for reading and writing. *)
Definition rw_page (f : Z) : pte := mkPte VALID_FRAME NO_X_W_R f.

(** The first two updates of an iteration. *)
Lemma map_page_marks p l e l' s : pt_table (PtUser p) s = Some (l ++ e :: l') -> PtUser p <> r_ptbr0 (hw s) ->
  returns (pt_upd (PtUser p) (Z.of_nat (length l)) (set_valid VALID_FRAME) ;;
    pt_upd (PtUser p) (Z.of_nat (length l)) (set_prot NO_X_W_R)) s (fun _ s' =>
    retabled s s' (PtUser p) (l ++ rw_page (pfn e) :: l') /\ lst s' = lst s).
Proof.
  intros Ht H0. rstep. eapply returns_mono; [by apply (pt_upd_retabled _ l e l')|]. cbv beta. intros _ s1 [R1 E1].
  pose proof (retabled_table _ _ _ _ ltac:(by eexists) R1) as Ht1. destruct (retabled_hw _ _ _ _ R1) as (c1 & Eh1 & _).
  eapply returns_mono; [apply (pt_upd_retabled _ l _ l' _ s1 Ht1); by rewrite Eh1|]. cbv beta. intros _ s2 [R2 E2].
  split; [by eapply retabled_trans|congruence].
Qed.

Lemma returns_assoc2 {A B} (m1 m2 : M A) (k : M B) s (P : B -> kstate -> Prop) :
  returns (m1 ;; m2) s (fun _ s' => returns k s' P) -> returns (m1 ;; m2 ;; k) s P.
Proof. unfold returns, bind. destruct (m1 s); cbn; try done. by destruct (m2 s0). Qed.

Lemma map_page_spec p l e l' s f fl :
  pt_table (PtUser p) s = Some (l ++ e :: l') -> PtUser p <> r_ptbr0 (hw s) -> F s (f :: fl) -> frame24 f ->
  returns (map_page p (Z.of_nat (length l))) s (fun o s' =>
    o = None /\ retabled s s' (PtUser p) (l ++ rw_page f :: l') /\ F s' fl).
Proof.
  intros Ht H0 HF Hf. unfold map_page. cbv zeta. apply returns_assoc2.
  eapply returns_mono; [by apply (map_page_marks p l e l')|]. cbv beta. intros _ s1 [R1 E1].
  pose proof (retabled_table _ _ _ _ ltac:(by eexists) R1) as Ht1. destruct (retabled_hw _ _ _ _ R1) as (c1 & Eh1 & _).
  rstep. eapply returns_mono; [apply (fa_alloc s1 f fl); [by eapply F_retabled_lst|by apply frame24_good]|]. cbv beta.
  intros r s2 (h & -> & -> & HF2). destruct (Z.eqb_spec f (-1)); [unfold frame24 in Hf; lia|].
  set (s2 := set_lst h s1).
  assert (R2 : retabled s1 s2 (PtUser p) (l ++ rw_page (pfn e) :: l')).
  { exists h, (mtick s1), (tlb (hw s1)). split; [|done]. rewrite tab_upd_same by done. by destruct s1. }
  assert (Ht2 : pt_table (PtUser p) s2 = Some (l ++ rw_page (pfn e) :: l')) by exact Ht1.
  rstep. eapply returns_mono; [apply (pt_upd_retabled _ l _ l' _ s2 Ht2); change (hw s2) with (hw s1); by rewrite Eh1|].
  cbv beta. intros _ s3 [R3 E3]. rstep. split; [done|]. split; [|by eapply F_retabled_lst].
  unfold rw_page, set_pfn in R3. cbn [valid prot] in R3. rewrite land_pfn_small in R3 by (unfold frame24 in Hf; lia).
  eapply retabled_trans; [exact R1|]. eapply retabled_trans; [exact R2|exact R3].
Qed.

Lemma map_pages_spec p r1 : forall l r2 s fl,
  pt_table (PtUser p) s = Some (l ++ r1 ++ r2) -> PtUser p <> r_ptbr0 (hw s) -> F s fl -> Forall frame24 fl ->
  (length r1 <= length fl)%nat ->
  returns (mfor_ret (zrange (Z.of_nat (length l)) (length r1)) (map_page p)) s (fun o s' =>
    o = None /\ retabled s s' (PtUser p) (l ++ map rw_page (take (length r1) fl) ++ r2) /\ F s' (drop (length r1) fl)).
Proof.
  induction r1 as [|e r1 IH]; intros l r2 s fl Ht H0 HF Hg Hn; cbn [length zrange mfor_ret].
  - rstep. split; [done|]. split; [by apply retabled_refl|done].
  - destruct fl as [|f fl]; [cbn in Hn; lia|]. apply Forall_cons in Hg as [Hf Hg].
    rstep. eapply returns_mono; [by apply (map_page_spec p l e (r1 ++ r2) s f fl)|]. cbv beta.
    intros o s1 (-> & R1 & HF1). pose proof (retabled_table _ _ _ _ ltac:(by eexists) R1) as Ht1.
    destruct (retabled_hw _ _ _ _ R1) as (c1 & Eh1 & _).
    replace (Z.of_nat (length l) + 1) with (Z.of_nat (length (l ++ [rw_page f]))) by (rewrite length_app; cbn; lia).
    eapply returns_mono; [apply (IH (l ++ [rw_page f]) r2 s1 fl)|]; try done.
    + by rewrite <- app_assoc.
    + by rewrite Eh1.
    + cbn in Hn. lia.
    + cbv beta. intros o s' (-> & R2 & HF2). split; [done|]. split; [|done]. rewrite <- app_assoc in R2.
      by eapply retabled_trans.
Qed.

(** The frames run out: the pages mapped so far, the page being mapped with the frame
    number it had before, and the kernel stack the caller runs on go to the free list. *)
Lemma map_pages_exhausted p ks r1 : MallocTotal L -> forall l r2 s fl,
  pt_table (PtUser p) s = Some (l ++ r1 ++ r2) -> length (l ++ r1 ++ r2) = Z.to_nat USER_PT_SIZE ->
  pt_table (PtKstack p) s = Some ks -> length ks = Z.to_nat KERNEL_STACK_SIZE ->
  PtUser p <> r_ptbr0 (hw s) -> F s fl -> Forall frame24 fl -> (length fl < length r1)%nat ->
  returns (mfor_ret (zrange (Z.of_nat (length l)) (length r1)) (map_page p)) s (fun o s' =>
    o = Some ERROR /\ exists t, retabled s s' (PtUser p) t /\
    t = l ++ map rw_page fl ++ match drop (length fl) r1 with e :: r => rw_page (pfn e) :: r | [] => [] end ++ r2 /\
    F s' (rev (valid_pfns ks ++ valid_pfns t))).
Proof.
  intros MT. induction r1 as [|e r1 IH]; intros l r2 s fl Ht Hl Hk Hkl H0 HF Hg Hn; [cbn in Hn; lia|].
  cbn [length zrange mfor_ret]. rstep. destruct fl as [|f fl].
  - clear IH. unfold map_page at 1. cbv zeta. apply returns_assoc2.
    eapply returns_mono; [by apply (map_page_marks p l e (r1 ++ r2))|]. cbv beta. intros _ s1 [R1 E1].
    pose proof (retabled_table _ _ _ _ (mk_is_Some _ _ Ht) R1) as Ht1.
    assert (HF1 : F s1 []) by (by eapply F_retabled_lst).
    rstep. eapply returns_exec; [by apply fa_alloc_none|]. cbn [Z.eqb ERROR Pos.eqb]. rstep.
    assert (Hk1 : pt_table (PtKstack p) s1 = Some ks).
    { destruct R1 as (h & n & c & -> & _). etransitivity; [|exact Hk].
      change (pt_table (PtKstack p) (pt_put_table (PtUser p) (l ++ rw_page (pfn e) :: r1 ++ r2) s) = pt_table (PtKstack p) s).
      by apply pt_table_put_ne. }
    eapply returns_mono; [eapply (free_addr_space_spec s1 _ _ _ ks [] MT HF1 Ht1)|]; try done.
    { rewrite <- Hl, !length_app. cbn [length]. by rewrite length_app. }
    cbv beta. intros r s2 (h & n & -> & _ & HF2). rewrite app_nil_r in HF2. rstep. split; [done|]. eexists. split; [|split; [reflexivity|exact HF2]].
    eapply retabled_trans; [exact R1|]. exists h, n, (tlb (hw s1)). split; [|done]. by rewrite tab_upd_same.
  - apply Forall_cons in Hg as [Hf Hg].
    eapply returns_mono; [by apply (map_page_spec p l e (r1 ++ r2) s f fl)|]. cbv beta.
    intros o s1 (-> & R1 & HF1). pose proof (retabled_table _ _ _ _ (mk_is_Some _ _ Ht) R1) as Ht1.
    destruct (retabled_hw _ _ _ _ R1) as (c1 & Eh1 & _).
    assert (Hk1 : pt_table (PtKstack p) s1 = Some ks).
    { destruct R1 as (h & n & c & -> & _). etransitivity; [|exact Hk].
      change (pt_table (PtKstack p) (pt_put_table (PtUser p) (l ++ rw_page f :: r1 ++ r2) s) = pt_table (PtKstack p) s).
      by apply pt_table_put_ne. }
    replace (Z.of_nat (length l) + 1) with (Z.of_nat (length (l ++ [rw_page f]))) by (rewrite length_app; cbn; lia).
    eapply returns_mono; [apply (IH (l ++ [rw_page f]) r2 s1 fl)|]; try done.
    + by rewrite <- app_assoc.
    + rewrite <- Hl, !length_app. cbn. lia.
    + by rewrite Eh1.
    + cbn in Hn. lia.
    + cbv beta. intros o s' (-> & t & R2 & Et & HF2). split; [done|]. rewrite <- app_assoc in Et. exists t.
      split; [by eapply retabled_trans|]. split; [exact Et|exact HF2].
Qed.

End tables.

(** ** User memory as a function *)

(** The byte at the address [a] of region 1. *)
Definition ubyte (s : kstate) (a : Z) : Z := fbyte (hw s) (phys s a).1 (phys s a).2.

(** [f] with the bytes [bs] from [a] on. *)
Definition overlay (f : Z -> Z) (a : Z) (bs : list Z) (b : Z) : Z := default (f b) (zget bs (b - a)).

Lemma overlay_out f a bs b : ~ a <= b < a + Z.of_nat (length bs) -> overlay f a bs b = f b.
Proof.
  intros H. unfold overlay, zget. case_bool_decide; [|done]. rewrite lookup_ge_None_2 by lia. done.
Qed.

Lemma overlay_in f a bs b x : zget bs (b - a) = Some x -> overlay f a bs b = x.
Proof. unfold overlay. by intros ->. Qed.

Lemma overlay_app f a bs bs' b :
  overlay (overlay f a bs) (a + Z.of_nat (length bs)) bs' b = overlay f a (bs ++ bs') b.
Proof.
  destruct (decide (a + Z.of_nat (length bs) <= b < a + Z.of_nat (length (bs ++ bs')))) as [Hb|Hb].
  - rewrite length_app in Hb. destruct (zget_is_Some bs' (b - (a + Z.of_nat (length bs)))) as [x Hx]; [lia|].
    rewrite (overlay_in _ _ _ _ x Hx). symmetry. apply overlay_in. unfold zget in *.
    rewrite bool_decide_true in * by lia. rewrite lookup_app_r by lia. rewrite <- Hx. f_equal. lia.
  - rewrite (overlay_out (overlay f a bs)) by (rewrite length_app in Hb; lia).
    destruct (decide (a <= b < a + Z.of_nat (length bs))) as [Ha|Ha].
    + destruct (zget_is_Some bs (b - a)) as [x Hx]; [lia|]. rewrite (overlay_in _ _ _ _ x Hx). symmetry.
      apply overlay_in. unfold zget in *. rewrite bool_decide_true in * by lia. by apply lookup_app_l_Some.
    + by rewrite !overlay_out by (rewrite ?length_app in *; lia).
Qed.

(** The process [p] runs on its table [t]: translations are fresh and no two pages
    share a frame. *)
Record user_space (s : kstate) (p : Z) (t : list pte) : Prop := {
  us_vm : r_vm (hw s) = VM_ENABLED;
  us_b1 : r_ptbr1 (hw s) = PtUser p;
  us_l1 : r_ptlr1 (hw s) = MAX_PT_LEN;
  us_tab : pt_table (PtUser p) s = Some t;
  us_tlb : forall v, MAX_PT_LEN <= v -> tlb (hw s) !! v <> Some false;
  us_inj : forall i j e e', zget t i = Some e -> zget t j = Some e' -> valid e = VALID_FRAME -> valid e' = VALID_FRAME ->
    pfn e = pfn e' -> i = j }.

(** The address [a] is mapped for the given access. *)
Definition umapped (t : list pte) (write : bool) (a : Z) : Prop :=
  exists e, zget t (vpn a - MAX_PT_LEN) = Some e /\ vpn a < 2 * MAX_PT_LEN /\ permits write e = true.

Definition uvalid (t : list pte) (a : Z) (e : pte) : Prop :=
  zget t (vpn a - MAX_PT_LEN) = Some e /\ vpn a < 2 * MAX_PT_LEN /\ valid e = VALID_FRAME.

Lemma permits_valid w e : permits w e = true -> valid e = VALID_FRAME.
Proof. unfold permits. intros [H _]%andb_prop. by apply Z.eqb_eq. Qed.

Section space.
Context (p : Z).

Lemma us_entry s t a e : user_space s p t -> zget t (vpn a - MAX_PT_LEN) = Some e -> vpn a < 2 * MAX_PT_LEN ->
  page_entry s (vpn a) = Some e.
Proof.
  intros [_ Hb Hl Ht _ _] He Ha. pose proof (zget_Some _ _ _ He) as Hi. unfold page_entry.
  change MAX_PT_LEN with 128 in *. rewrite bool_decide_false by lia. rewrite bool_decide_true by lia.
  rewrite Hl. change MAX_PT_LEN with 128. destruct (Z.ltb_spec (vpn a - 128) 128); [|lia]. by rewrite Hb, Ht.
Qed.

Lemma us_phys s t a e : user_space s p t -> uvalid t a e -> phys s a = (pfn e, a mod PAGESIZE).
Proof. intros Hs (He & Ha & _). unfold phys. by rewrite (us_entry s t a e). Qed.

Lemma us_phys_inj s t a b e e' : user_space s p t -> uvalid t a e -> uvalid t b e' -> phys s a = phys s b -> a = b.
Proof.
  intros Hs Ha Hb. rewrite (us_phys s t a e), (us_phys s t b e') by done. intros [= Hp Hm].
  destruct Ha as (Ha & _ & Hva), Hb as (Hb & _ & Hvb).
  pose proof (us_inj _ _ _ Hs _ _ _ _ Ha Hb Hva Hvb Hp) as Hv. unfold vpn in Hv. rewrite !shiftr_page in Hv.
  pose proof (Z.div_mod a PAGESIZE ltac:(done)). pose proof (Z.div_mod b PAGESIZE ltac:(done)). lia.
Qed.

Lemma us_mem_only s t h : user_space s p t -> hw_mem_only (hw s) h -> user_space (set_hw h s) p t.
Proof.
  intros [H1 H2 H3 H4 H5 H6] (c & m & -> & Hc). split; try done. intros v Hv. cbn.
  destruct (Hc v) as [->|[-> _]]; [by apply H5|done].
Qed.

(** Stores to writable pages: the bytes are there, the rest of the process's memory and
    all other frames are as before. *)
Lemma user_write s t a bs : user_space s p t ->
  (forall i, 0 <= i < Z.of_nat (length bs) -> VMEM_1_BASE <= a + i /\ umapped t true (a + i)) ->
  returns (write_bytes a bs) s (fun _ s' => exists h, s' = set_hw h s /\ hw_mem_only (hw s) h /\ user_space s' p t /\
    (forall b e, uvalid t b e -> ubyte s' b = overlay (ubyte s) a (map (fun x => x mod 256) bs) b) /\
    (forall f o, (forall i e, zget t i = Some e -> valid e = VALID_FRAME -> pfn e <> f) -> fbyte h f o = fbyte (hw s) f o)).
Proof.
  intros Hs Hm. destruct bs as [|b0 bs].
  { cbn [write_bytes]. rstep. exists (hw s). assert (Es : s = set_hw (hw s) s) by (by destruct s).
    split; [exact Es|]. split; [apply hw_mem_only_refl|]. split; [done|]. split; [|done].
    intros b e Hb. symmetry. apply overlay_out. cbn. lia. }
  set (l := b0 :: bs) in *.
  assert (Hv : forall i, 0 <= i < Z.of_nat (length l) -> exists e, uvalid t (a + i) e).
  { intros i Hi. destruct (Hm i Hi) as (_ & e & He & Ha & Hp). exists e. do 2 (split; [done|]). by eapply permits_valid. }
  eapply returns_mono; [apply write_bytes_spec|].
  - split; [apply Hs|]. split; [destruct (Hm 0) as [H _]; [unfold l; cbn; lia|]; lia|]. intros i Hi.
    destruct (Hm i Hi) as (Hlo & e & He & Ha & Hp). split.
    + apply (us_tlb _ _ _ Hs). apply zget_Some in He. lia.
    + exists e. split; [by apply (us_entry s t)|done].
  - intros i j Hi Hj E. destruct (Hv i Hi) as [e He], (Hv j Hj) as [e' He'].
    pose proof (us_phys_inj _ _ _ _ _ _ Hs He He' E). lia.
  - cbv beta. intros _ s' (h & -> & Hh & Hb & Hf). exists h. split; [done|]. split; [done|].
    split; [by apply us_mem_only|]. split.
    + intros b e He. unfold ubyte. rewrite !phys_mem_only by done. change (hw (set_hw h s)) with h.
      destruct (decide (a <= b < a + Z.of_nat (length l))) as [Hin|Hout].
      * symmetry. apply overlay_in. rewrite <- Hb. unfold ubytes, zget. rewrite bool_decide_true by lia.
        rewrite list_lookup_fmap, lookup_zrange by lia. cbn [fmap option_fmap option_map]. rewrite phys_mem_only by done.
        by replace (a + (0 + Z.of_nat (Z.to_nat (b - a)))) with b by lia.
      * rewrite overlay_out by (rewrite length_map; lia). apply Hf. intros i Hi E.
        destruct (Hv i Hi) as [e' He']. rewrite <- surjective_pairing in E.
        pose proof (us_phys_inj _ _ _ _ _ _ Hs He' He E). lia.
    + intros f o Hnf. apply Hf. intros i Hi E. destruct (Hv i Hi) as [e He].
      rewrite (us_phys s t _ e) in E by done. injection E as E _. destruct He as (He & _ & Hve).
      by apply (Hnf _ _ He).
Qed.

(** *** Writing with a known image of the memory *)

Definition image (s : kstate) (t : list pte) (img : Z -> Z) : Prop := forall b e, uvalid t b e -> ubyte s b = img b.

(** The frames that [t] does not map are untouched. *)
Definition outside_same (t : list pte) (h h' : khw) : Prop :=
  forall f o, (forall i e, zget t i = Some e -> valid e = VALID_FRAME -> pfn e <> f) -> fbyte h' f o = fbyte h f o.

Definition written (t : list pte) (s s' : kstate) : Prop :=
  exists h, s' = set_hw h s /\ hw_mem_only (hw s) h /\ outside_same t (hw s) h.

Lemma written_refl t s : written t s s.
Proof. exists (hw s). split; [by destruct s|]. split; [apply hw_mem_only_refl|done]. Qed.

Lemma written_trans t s s1 s2 : written t s s1 -> written t s1 s2 -> written t s s2.
Proof.
  intros (h & -> & Hh & Ho) (h' & -> & Hh' & Ho'). exists h'. split; [by destruct s|].
  split; [by eapply hw_mem_only_trans|]. intros f o Hf. by rewrite Ho', Ho.
Qed.

(** Every byte of [lo..hi-1] is mapped for writing. *)
Definition writable (t : list pte) (lo hi : Z) : Prop :=
  forall b, lo <= b < hi -> VMEM_1_BASE <= b /\ umapped t true b.

Lemma writable_sub t lo hi lo' hi' : writable t lo hi -> lo <= lo' -> hi' <= hi -> writable t lo' hi'.
Proof. intros H ? ? b Hb. apply H. lia. Qed.

Definition bytes256 (bs : list Z) : list Z := map (fun x => x mod 256) bs.

Definition after_write (t : list pte) (s : kstate) (img : Z -> Z) (s' : kstate) : Prop :=
  written t s s' /\ user_space s' p t /\ image s' t img.

Lemma image_write s t a bs img : user_space s p t -> image s t img -> writable t a (a + Z.of_nat (length bs)) ->
  returns (write_bytes a bs) s (fun _ s' => after_write t s (overlay img a (bytes256 bs)) s').
Proof.
  intros Hs Hi Hw. eapply returns_mono; [apply (user_write s t a bs Hs); intros i Hr; apply Hw; lia|]. cbv beta.
  intros _ s' (h & -> & Hh & Hs' & Hb & Ho). split; [by exists h|]. split; [done|].
  intros b e He. rewrite (Hb b e He). unfold overlay. by rewrite (Hi b e He).
Qed.

Lemma image_store_int s t a v img : user_space s p t -> image s t img -> writable t a (a + 4) ->
  returns (store_int a v) s (fun _ s' => after_write t s (overlay img a (int_bytes v)) s').
Proof.
  intros Hs Hi Hw. eapply returns_mono; [by apply (image_write s t a (int_bytes v))|]. cbv beta.
  intros _ s'. unfold bytes256. by rewrite int_bytes_mod.
Qed.

Lemma image_zero s t a n img : user_space s p t -> image s t img -> 0 <= n < 2 ^ 32 -> writable t a (a + n) ->
  returns (zero_bytes a n) s (fun _ s' => after_write t s (overlay img a (replicate (Z.to_nat n) 0)) s').
Proof.
  intros Hs Hi Hn Hw. unfold zero_bytes. rewrite u32_id by done.
  eapply returns_mono; [apply (image_write s t a (replicate (Z.to_nat n) 0) img Hs Hi); rewrite length_replicate, Z2Nat.id by lia; done|].
  cbv beta. intros _ s'. unfold bytes256. by rewrite (fmap_replicate (fun x => x mod 256)).
Qed.

(** *** The argument block *)

(** The arguments after [place_args]: pointers from [cpp] on, strings from [cp] on. *)
Fixpoint args_image (cs : list (list Z)) (cpp cp : Z) (img : Z -> Z) : Z -> Z :=
  match cs with
  | [] => img
  | c :: cs' => args_image cs' (cpp + 4) (cp + Z.of_nat (length c) + 1)
      (overlay (overlay img cpp (int_bytes cp)) cp (c ++ [0]))
  end.

Lemma cstring_args c cs : cbytes c -> cstring (args_bytes (c :: cs)) = c /\
  drop (S (length c)) (args_bytes (c :: cs)) = args_bytes cs.
Proof.
  unfold args_bytes. cbn [map concat]. rewrite <- app_assoc. intros Hc. split.
  - change ([0] ++ ?r) with (0 :: r). generalize (concat (map (fun c => c ++ [0]) cs)) as r. intros r.
    induction Hc as [|x c Hx _ IH]; cbn; [done|]. destruct (Z.eqb_spec x 0); [lia|]. by rewrite IH.
  - replace (S (length c)) with (length c + 1)%nat by lia. rewrite <- drop_drop, drop_app_length. done.
Qed.

Lemma bytes256_cstring c : cbytes c -> bytes256 (c ++ [0]) = c ++ [0].
Proof.
  intros Hc. unfold bytes256. rewrite map_app. f_equal. induction Hc as [|x c Hx _ IH]; cbn; [done|].
  rewrite IH, Z.mod_small by lia. done.
Qed.

Lemma args_size_cons c cs : args_size (c :: cs) = Z.of_nat (length c) + 1 + args_size cs.
Proof. done. Qed.

Lemma args_size_nonneg cs : 0 <= args_size cs.
Proof. induction cs as [|c cs IH]; [done|]. rewrite args_size_cons. lia. Qed.

Lemma place_args_spec cs : forall s t cpp cp img,
  user_space s p t -> image s t img -> Forall cbytes cs ->
  writable t cpp (cpp + 4 * Z.of_nat (length cs)) -> writable t cp (cp + args_size cs) ->
  returns (place_args (length cs) cpp cp (args_bytes cs)) s (fun r s' =>
    r = cpp + 4 * Z.of_nat (length cs) /\ after_write t s (args_image cs cpp cp img) s').
Proof.
  induction cs as [|c cs IH]; intros s t cpp cp img Hs Hi Hc Hw1 Hw2; cbn [length place_args args_image].
  - rstep. split; [cbn; lia|]. split; [apply written_refl|done].
  - apply Forall_cons in Hc as [Hc Hcs]. rewrite args_size_cons in Hw2. cbn [length] in Hw1.
    pose proof (args_size_nonneg cs).
    destruct (cstring_args c cs Hc) as [-> ->]. rstep.
    eapply returns_mono; [apply (image_store_int s t cpp cp img Hs Hi); eapply writable_sub; [exact Hw1|lia..]|].
    cbv beta. intros _ s1 (W1 & Hs1 & Hi1). cbv zeta. rstep.
    eapply returns_mono; [apply (image_write s1 t cp (c ++ [0]) _ Hs1 Hi1); rewrite length_app; cbn; eapply writable_sub; [exact Hw2|lia..]|].
    cbv beta. rewrite bytes256_cstring by done. intros _ s2 (W2 & Hs2 & Hi2).
    eapply returns_mono; [apply (IH s2 t (cpp + 4) (cp + Z.of_nat (length c) + 1) _ Hs2 Hi2 Hcs)|].
    + eapply writable_sub; [exact Hw1|lia..].
    + eapply writable_sub; [exact Hw2|lia..].
    + cbv beta. intros r s3 (-> & W3 & Hs3 & Hi3). split; [lia|]. split; [|done].
      eapply written_trans; [exact W1|]. by eapply written_trans.
Qed.

End space.

(** *** What the argument block holds *)

Lemma args_image_out cs : forall cpp cp img b,
  ~ cpp <= b < cpp + 4 * Z.of_nat (length cs) -> ~ cp <= b < cp + args_size cs ->
  args_image cs cpp cp img b = img b.
Proof.
  induction cs as [|c cs IH]; intros cpp cp img b Hb1 Hb2; [done|]. cbn [args_image length] in *.
  rewrite args_size_cons in Hb2. pose proof (args_size_nonneg cs).
  rewrite IH by lia. rewrite !overlay_out; [done| |]; rewrite ?length_app; cbn; lia.
Qed.

(** The address of the string of argument [i]. *)
Definition arg_addr (cs : list (list Z)) (cp : Z) (i : nat) : Z := cp + args_size (take i cs).

Lemma args_image_arg cs : forall cpp cp img i c, cpp + 4 * Z.of_nat (length cs) <= cp -> cs !! i = Some c ->
  (forall k x, zget (int_bytes (arg_addr cs cp i)) k = Some x ->
    args_image cs cpp cp img (cpp + 4 * Z.of_nat i + k) = x) /\
  (forall k x, zget (c ++ [0]) k = Some x -> args_image cs cpp cp img (arg_addr cs cp i + k) = x).
Proof.
  induction cs as [|c0 cs IH]; intros cpp cp img i c Hd Hi; [done|]. cbn [length] in Hd. cbn [args_image].
  pose proof (args_size_nonneg cs). destruct i as [|i].
  - injection Hi as ->. unfold arg_addr. cbn [take]. change (args_size []) with 0. rewrite Z.mul_0_r, !Z.add_0_r.
    split; intros k x Hk; pose proof (zget_Some _ _ _ Hk) as Hr; rewrite ?length_app in Hr; cbn in Hr.
    + rewrite args_image_out by lia. rewrite overlay_out by (rewrite length_app; cbn; lia).
      apply overlay_in. by replace (cpp + k - cpp) with k by lia.
    + rewrite args_image_out by lia. apply overlay_in. by replace (cp + k - cp) with k by lia.
  - assert (Ha : arg_addr (c0 :: cs) cp (S i) = arg_addr cs (cp + Z.of_nat (length c0) + 1) i).
    { unfold arg_addr. cbn [take]. rewrite args_size_cons. lia. }
    rewrite Ha. destruct (IH (cpp + 4) (cp + Z.of_nat (length c0) + 1)
      (overlay (overlay img cpp (int_bytes cp)) cp (c0 ++ [0])) i c) as [H1 H2]; [lia|done|].
    split; [|done]. intros k x Hk. rewrite <- (H1 k x Hk). f_equal. lia.
Qed.

(** The image of [build_stack]. *)
Definition stack_image (lo : layout) (cs : list (list Z)) (img : Z -> Z) : Z -> Z :=
  let argv := lo_cpp lo + 4 in
  let stop := argv + 4 * Z.of_nat (length cs) in
  overlay (overlay (args_image cs argv (lo_cp lo)
    (overlay (overlay img (lo_cpp lo) (replicate (Z.to_nat (VMEM_1_LIMIT - lo_cpp lo)) 0))
      (lo_cpp lo) (int_bytes (lo_argcount lo))))
    stop (int_bytes NULL)) (stop + 4) (int_bytes NULL).

(** Where [compute_layout] puts the arguments. *)
Record args_layout (lo : layout) (cs : list (list Z)) : Prop := {
  al_argc : lo_argcount lo = Z.of_nat (length cs);
  al_base : VMEM_1_BASE <= lo_cpp lo;
  al_room : lo_cpp lo + 4 * (Z.of_nat (length cs) + 3) <= lo_cp lo;
  al_end : lo_cp lo + args_size cs = VMEM_1_LIMIT }.

Lemma build_stack_spec p s t lo cs argbuf img :
  user_space s p t -> image s t img -> Forall cbytes cs -> args_layout lo cs ->
  writable t (lo_cpp lo) VMEM_1_LIMIT -> bufs s !! argbuf = Some (args_bytes cs) ->
  returns (build_stack lo argbuf) s (fun _ s' =>
    after_write p t (set_bufs (delete argbuf (bufs s)) s) (stack_image lo cs img) s').
Proof.
  intros Hs Hi Hc [Hn Hb Hr He] Hw Hbuf. pose proof (args_size_nonneg cs). unfold build_stack. rstep.
  eapply returns_mono; [apply (image_zero p s t _ (VMEM_1_LIMIT - lo_cpp lo) img Hs Hi)|].
  { change (2 ^ 32) with 4294967296. change VMEM_1_BASE with 1048576 in *. change VMEM_1_LIMIT with 2097152 in *. lia. }
  { eapply writable_sub; [exact Hw|lia..]. }
  cbv beta. intros _ s1 ((h1 & -> & Hh1 & Ho1) & Hs1 & Hi1). rstep.
  eapply returns_mono; [apply (image_store_int p _ t (lo_cpp lo) (lo_argcount lo) _ Hs1 Hi1); eapply writable_sub; [exact Hw|lia..]|].
  cbv beta. intros _ s2 ((h2 & -> & Hh2 & Ho2) & Hs2 & Hi2). rstep. eapply returns_deref; [exact Hbuf|].
  rewrite Hn, Nat2Z.id. rstep.
  eapply returns_mono; [apply (place_args_spec p cs _ t (lo_cpp lo + 4) (lo_cp lo) _ Hs2 Hi2 Hc); (eapply writable_sub; [exact Hw|lia..])|].
  cbv beta. intros r s3 (-> & (h3 & -> & Hh3 & Ho3) & Hs3 & Hi3). cbn [hw set_hw] in *.
  rstep. apply returns_modify. set (s4 := set_bufs _ _).
  assert (Hs4 : user_space s4 p t) by (destruct Hs3; by split).
  assert (Hi4 : image s4 t _) by exact Hi3. rstep.
  eapply returns_mono; [apply (image_store_int p s4 t _ NULL _ Hs4 Hi4); eapply writable_sub; [exact Hw|lia..]|].
  cbv beta. intros _ s5 (W5 & Hs5 & Hi5).
  eapply returns_mono; [apply (image_store_int p s5 t _ NULL _ Hs5 Hi5); eapply writable_sub; [exact Hw|lia..]|].
  cbv beta. intros _ s6 (W6 & Hs6 & Hi6). split; [|split; [done|exact Hi6]].
  eapply written_trans; [|eapply written_trans; [exact W5|exact W6]].
  exists h3. split; [reflexivity|]. split.
  - eapply hw_mem_only_trans; [exact Hh1|]. by eapply hw_mem_only_trans.
  - intros f o Hf. rewrite Ho3, Ho2 by done. by apply Ho1.
Qed.

(** ** The text made executable *)

(** Tables that differ in protections only. *)
Definition same_frames (t t' : list pte) : Prop :=
  map (fun e => (valid e, pfn e)) t' = map (fun e => (valid e, pfn e)) t.

Lemma same_frames_zget t t' i e' : same_frames t t' -> zget t' i = Some e' ->
  exists e, zget t i = Some e /\ valid e = valid e' /\ pfn e = pfn e'.
Proof.
  unfold same_frames, zget. intros H He. case_bool_decide; [|done].
  apply (f_equal (fun l => l !! Z.to_nat i)) in H. rewrite !list_lookup_fmap, He in H. cbn in H.
  destruct (t !! Z.to_nat i) as [e|]; [|done]. injection H as Hv Hp. by exists e.
Qed.

Lemma same_frames_uvalid t t' a e' : same_frames t t' -> uvalid t' a e' -> exists e, uvalid t a e /\ pfn e = pfn e'.
Proof.
  intros H (He & Ha & Hv). destruct (same_frames_zget _ _ _ _ H He) as (e & He0 & Hv0 & Hp0).
  exists e. split; [|done]. split; [done|]. split; [done|]. congruence.
Qed.

(** A change of protections with the translations of the changed pages flushed. *)
Lemma reprotect s p t t' c img : user_space s p t -> image s t img -> same_frames t t' ->
  (forall v, c !! v = tlb (hw s) !! v \/ c !! v = None) ->
  user_space (tab_upd (PtUser p) t' c s) p t' /\ image (tab_upd (PtUser p) t' c s) t' img.
Proof.
  intros Hs Hi Hf Hc. assert (Hs' : user_space (tab_upd (PtUser p) t' c s) p t').
  { destruct Hs as [H1 H2 H3 H4 H5 H6]. split; try done.
    - apply pt_table_tab_upd. by eexists.
    - intros v Hv. cbn. destruct (Hc v) as [->| ->]; [by apply H5|done].
    - intros i j e e' He He' Hv Hv' Hp.
      destruct (same_frames_zget _ _ _ _ Hf He) as (e0 & He0 & Hv0 & Hp0).
      destruct (same_frames_zget _ _ _ _ Hf He') as (e1 & He1 & Hv1 & Hp1).
      apply (H6 i j e0 e1); congruence. }
  split; [done|]. intros b e He. destruct (same_frames_uvalid _ _ _ _ Hf He) as (e0 & He0 & Hp0).
  rewrite <- (Hi b e0 He0). unfold ubyte. rewrite (us_phys p _ _ _ _ Hs' He), (us_phys p _ _ _ _ Hs He0), Hp0.
  by destruct s as [???????[] ??].
Qed.

(** The TLB lost translations, and nothing else changed in it. *)
Definition tlb_sub (c c' : gmap Z bool) : Prop := forall v, c' !! v = c !! v \/ c' !! v = None.

Lemma tlb_sub_trans c1 c2 c3 : tlb_sub c1 c2 -> tlb_sub c2 c3 -> tlb_sub c1 c3.
Proof. intros H1 H2 v. destruct (H2 v) as [->| ->]; [apply H1|by right]. Qed.

Lemma protect_page_spec p l e l' s : pt_table (PtUser p) s = Some (l ++ e :: l') ->
  PtUser p <> r_ptbr0 (hw s) ->
  returns (protect_page (PtUser p) (Z.of_nat (length l))) s (fun _ s' => exists c,
    s' = tab_upd (PtUser p) (l ++ set_prot X_NO_W_R e :: l') c s /\ tlb_sub (tlb (hw s)) c).
Proof.
  intros Ht H0. unfold protect_page. rstep. eapply returns_exec; [by apply pt_upd_at|].
  apply returns_modify. eexists. split; [rewrite hw_tab_upd; by destruct s|].
  intros v. cbn [tlb set_tlb]. rewrite lookup_tlb_drop, flushed_page by (change MAX_PT_LEN with 128; lia).
  destruct (Z.eqb_spec v (MAX_PT_LEN + Z.of_nat (length l))); [by right|]. left. apply tlb_step_off.
  unfold active_page. rewrite (bool_decide_false (PtUser p = r_ptbr0 (hw s))) by done. cbn [andb orb].
  destruct (Z.eqb_spec v (MAX_PT_LEN + Z.of_nat (length l))); [done|]. by rewrite andb_false_r.
Qed.

Lemma protect_pages p r1 : forall l r2 s img,
  user_space s p (l ++ r1 ++ r2) -> image s (l ++ r1 ++ r2) img -> PtUser p <> r_ptbr0 (hw s) ->
  returns (mfor (zrange (Z.of_nat (length l)) (length r1)) (protect_page (PtUser p))) s (fun _ s' =>
    let t' := l ++ map (set_prot X_NO_W_R) r1 ++ r2 in
    user_space s' p t' /\ image s' t' img /\
    exists c, s' = tab_upd (PtUser p) t' c s /\ tlb_sub (tlb (hw s)) c).
Proof.
  induction r1 as [|e r1 IH]; intros l r2 s img Hs Hi H0; cbn [length zrange mfor map].
  - rstep. split; [done|]. split; [done|]. exists (tlb (hw s)). split; [|by left].
    symmetry. apply tab_upd_same. apply Hs.
  - rstep. eapply returns_mono; [by apply (protect_page_spec p l e (r1 ++ r2)), H0; apply Hs|]. cbv beta.
    intros _ s1 (c & -> & Hc).
    destruct (reprotect s p _ (l ++ set_prot X_NO_W_R e :: r1 ++ r2) c img Hs Hi) as [Hs1 Hi1].
    { unfold same_frames. rewrite !map_app. cbn. by rewrite !map_app. }
    { exact Hc. }
    replace (Z.of_nat (length l) + 1) with (Z.of_nat (length (l ++ [set_prot X_NO_W_R e]))) by (rewrite length_app; cbn; lia).
    eapply returns_mono; [apply (IH (l ++ [set_prot X_NO_W_R e]) r2 _ img); rewrite <- ?app_assoc; done|].
    cbv beta zeta. rewrite <- !app_assoc. intros _ s' (Hs' & Hi' & c' & -> & Hc'). split; [done|]. split; [done|].
    exists c'. rewrite tab_upd_twice. split; [done|]. by eapply tlb_sub_trans.
Qed.

(** ** The whole load *)

(** No cached translation of region 0 has become stale. *)
Definition kernel_fresh (c c' : gmap Z bool) : Prop := forall v, v < MAX_PT_LEN -> c !! v <> Some false -> c' !! v <> Some false.

Lemma kernel_fresh_trans c1 c2 c3 : kernel_fresh c1 c2 -> kernel_fresh c2 c3 -> kernel_fresh c1 c3.
Proof. intros H1 H2 v Hv H. apply H2, H1; done. Qed.

Lemma kernel_fresh_off c c' : tlb_off region1_vpn c c' -> kernel_fresh c c'.
Proof.
  intros H v Hv Hc. rewrite H; [exact Hc|]. unfold region1_vpn, region0_vpn. by destruct (Z.ltb_spec v MAX_PT_LEN); [|lia].
Qed.

Lemma kernel_fresh_mem h h' : hw_mem_only h h' -> kernel_fresh (tlb h) (tlb h').
Proof. intros (c & m & -> & Hc) v _ Hv. cbn. by destruct (Hc v) as [->|[-> _]]. Qed.

Lemma kernel_fresh_drop P c : kernel_fresh c (tlb_drop P c).
Proof. intros v _ Hv. rewrite lookup_tlb_drop. by destruct (P v). Qed.

Lemma kernel_fresh_sub c c' : tlb_sub c c' -> kernel_fresh c c'.
Proof. intros H v _ Hc. by destruct (H v) as [->| ->]. Qed.

Lemma kernel_fresh_ptbr1 t h : kernel_fresh (tlb h) (tlb (write_reg (REG_PTBR1 t) h)).
Proof.
  intros v Hv Hc. cbn. case_decide; [exact Hc|]. cbn. rewrite lookup_tlb_mark. unfold region0_vpn.
  destruct (Z.ltb_spec v MAX_PT_LEN); [|lia]. cbn [negb]. by destruct (tlb h !! v) as [[]|].
Qed.

(** [s] is [s0] with [x] (and the table [t]) for the process [p], on whose table the
    machine runs; the heaps of the allocators, frames and cached translations of
    region 1 aside, nothing else has changed. *)
Record stage (s0 s : kstate) (p : Z) (x : pcb) (t : list pte) : Prop := {
  sg_pcbs : pcbs s = <[p := set_user_page_table t x]> (pcbs s0);
  sg_rest : qst s = qst s0 /\ pipes s = pipes s0 /\ ptabs s = ptabs s0 /\ gl s = gl s0 /\ uc s = uc s0;
  sg_hw : exists c m, hw s = set_tlb c (set_frames m (set_r_ptbr1 (PtUser p) (hw s0))) /\ kernel_fresh (tlb (hw s0)) c }.

Lemma stage_table s0 s p x t : stage s0 s p x t -> pt_table (PtUser p) s = Some t.
Proof. intros [E _ _]. cbn. by rewrite E, lookup_insert_eq. Qed.

Lemma stage_retabled s0 s s' p x t t' : stage s0 s p x t -> retabled s s' (PtUser p) t' -> stage s0 s' p x t'.
Proof.
  intros [E R (c & m & H & Hc)] (h & n & c' & -> & Hc'). split; [|exact R|].
  - change (alter (set_user_page_table t') p (pcbs s) = <[p := set_user_page_table t' x]> (pcbs s0)).
    by rewrite E, alter_insert_eq.
  - exists c', m. cbn. rewrite H in Hc' |- *. split; [done|]. eapply kernel_fresh_trans; [exact Hc|by apply kernel_fresh_off].
Qed.

(** A store to a field of the PCB that is not the table. *)
Lemma stage_pcb s0 s p x t f : stage s0 s p x t ->
  (forall y, f (set_user_page_table t y) = set_user_page_table t (f y)) ->
  stage s0 (put_pcb p (f (set_user_page_table t x)) s) p (f x) t.
Proof.
  intros [E R H] Hf. split; [|exact R|exact H]. cbn. by rewrite E, insert_insert_eq, Hf.
Qed.

Lemma stage_lookup s0 s p x t : stage s0 s p x t -> pcbs s !! p = Some (set_user_page_table t x).
Proof. intros [E _ _]. by rewrite E, lookup_insert_eq. Qed.

Lemma stage_tlb s0 s p x t c : stage s0 s p x t -> kernel_fresh (tlb (hw s)) c ->
  stage s0 (set_hw (set_tlb c (hw s)) s) p x t.
Proof.
  intros [E R (c' & m & H & Hc')] Hc. split; [exact E|exact R|]. exists c, m. cbn. rewrite H in Hc |- *.
  split; [done|]. by eapply kernel_fresh_trans.
Qed.

Lemma stage_written s0 s s' p x t w : stage s0 s p x t -> written w s s' -> stage s0 s' p x t.
Proof.
  intros [E R (c & m & H & Hc)] (h & -> & Hm & _). split; [exact E|exact R|].
  pose proof (kernel_fresh_mem _ _ Hm) as Hf. destruct Hm as (c' & m' & -> & _). exists c', m'. cbn in *. rewrite H in Hf |- *.
  split; [done|]. by eapply kernel_fresh_trans.
Qed.

Lemma stage_bufs s0 s p x t b : stage s0 s p x t -> stage s0 (set_bufs b s) p x t.
Proof. intros [E R H]. by split. Qed.

Lemma stage_ptbr0 s0 s p x t : stage s0 s p x t -> r_ptbr0 (hw s) = r_ptbr0 (hw s0).
Proof. intros [_ _ (c & m & -> & _)]. done. Qed.

Section load.
Context `{L : Libc} `{FS : FileSystem} {F : kstate -> list Z -> Prop} {FA : FrameAllocator L F}.

Lemma F_same s s' fl : lst s' = lst s -> gl s' = gl s -> F s fl -> F s' fl.
Proof. intros Hl Hg HF. eapply fa_frame; [exact Hl|by rewrite Hg|exact HF]. Qed.

(** One of the three mapping loops, after the store of an index. *)
Lemma stage_map {K : M Z} s0 s p x f l r1 r2 fl (P : Z -> kstate -> Prop) :
  stage s0 s p x (l ++ r1 ++ r2) ->
  (forall y, f (set_user_page_table (l ++ r1 ++ r2) y) = set_user_page_table (l ++ r1 ++ r2) (f y)) ->
  PtUser p <> r_ptbr0 (hw s0) -> F s fl -> Forall frame24 fl -> (length r1 <= length fl)%nat ->
  (forall s', stage s0 s' p (f x) (l ++ map rw_page (take (length r1) fl) ++ r2) -> F s' (drop (length r1) fl) ->
    bufs s' = bufs s -> frames (hw s') = frames (hw s) -> returns K s' P) ->
  returns (returning! (upd_pcb p f ;; map_pages p (Z.of_nat (length l)) (Z.of_nat (length l) + Z.of_nat (length r1))) in K) s P.
Proof.
  intros Hs Hf H0 HF Hg Hn HK. rstep. rstep. eapply returns_upd_pcb; [by eapply stage_lookup|].
  pose proof (stage_pcb _ _ _ _ _ f Hs Hf) as Hs1. set (s1 := put_pcb p _ s) in *.
  unfold map_pages, zseq. replace (Z.to_nat _) with (length r1) by lia.
  eapply returns_mono; [apply (map_pages_spec p r1 l r2 s1 fl)|]; try done.
  - by eapply stage_table.
  - by rewrite (stage_ptbr0 _ _ _ _ _ Hs1).
  - by eapply F_same; [| |exact HF].
  - cbv beta. intros o s' (-> & R & HF'). apply HK; [by eapply stage_retabled|exact HF'| |];
      destruct R as (h & n & c & -> & _); done.
Qed.

(** Six consecutive ranges of a page table. *)
Lemma split6 (t : list pte) (ta tn da dn sa : Z) :
  length t = Z.to_nat USER_PT_SIZE -> 0 <= ta -> 0 <= tn -> ta + tn <= da -> 0 <= dn -> da + dn <= sa -> sa <= MAX_PT_LEN ->
  exists A T B D G S, t = A ++ T ++ B ++ D ++ G ++ S /\
    Z.of_nat (length A) = ta /\ Z.of_nat (length T) = tn /\ Z.of_nat (length B) = da - ta - tn /\
    Z.of_nat (length D) = dn /\ Z.of_nat (length G) = sa - da - dn /\ Z.of_nat (length S) = MAX_PT_LEN - sa.
Proof.
  intros Hl H1 H2 H3 H4 H5 H6. change (Z.to_nat USER_PT_SIZE) with 128%nat in Hl. change MAX_PT_LEN with 128 in *.
  assert (Hsp : forall (l : list pte) n, 0 <= n <= Z.of_nat (length l) ->
    exists a b, l = a ++ b /\ Z.of_nat (length a) = n /\ Z.of_nat (length b) = Z.of_nat (length l) - n).
  { intros l n Hn. exists (take (Z.to_nat n) l), (drop (Z.to_nat n) l). rewrite take_drop, length_take, length_drop. split; [done|lia]. }
  destruct (Hsp t ta) as (A & t1 & -> & HA & Ht1); [lia|]. destruct (Hsp t1 tn) as (T & t2 & -> & HT & Ht2); [lia|].
  destruct (Hsp t2 (da - ta - tn)) as (B & t3 & -> & HB & Ht3); [lia|].
  destruct (Hsp t3 dn) as (D & t4 & -> & HD & Ht4); [lia|].
  destruct (Hsp t4 (sa - da - dn)) as (G & S & -> & HG & HS); [lia|]. exists A, T, B, D, G, S. split; [done|]. repeat split; lia.
Qed.

(** The number of pages of each kind, where they start, and the frames they take. *)
Record geometry := mkGeometry { ge_ta : Z; ge_tn : Z; ge_da : Z; ge_dn : Z; ge_sn : Z }.

Definition geometry_of (li : load_info) (lo : layout) : geometry :=
  mkGeometry (lo_text_pg1 lo) (li_t_npg li) (lo_data_pg1 lo) (lo_data_npg lo) (lo_stack_npg lo).

Definition ge_sa (g : geometry) : Z := MAX_PT_LEN - ge_sn g.

Record geometry_ok (g : geometry) : Prop := {
  gk_ta : 0 <= ge_ta g;
  gk_tn : 0 <= ge_tn g;
  gk_da : ge_ta g + ge_tn g <= ge_da g;
  gk_dn : 0 <= ge_dn g;
  gk_sn : 0 <= ge_sn g;
  gk_gap : ge_da g + ge_dn g + ge_sn g < MAX_PT_LEN }.

Definition pages_needed (g : geometry) : Z := ge_tn g + ge_dn g + ge_sn g.

(** The entry of page [i] of a program loaded over the table [old]: [text] are the
    entries of text pages. *)
Definition loaded_entry (text : Z -> pte) (g : geometry) (old : list pte) (fl : list Z) (i : Z) : option pte :=
  if (ge_ta g <=? i) && (i <? ge_ta g + ge_tn g) then text <$> zget fl (i - ge_ta g)
  else if (ge_da g <=? i) && (i <? ge_da g + ge_dn g) then rw_page <$> zget fl (ge_tn g + (i - ge_da g))
  else if (ge_sa g <=? i) && (i <? MAX_PT_LEN) then rw_page <$> zget fl (ge_tn g + ge_dn g + (i - ge_sa g))
  else discarded <$> zget old i.

(** The table the three loops leave. *)
Lemma loaded_table text g old fl A T B D G S :
  geometry_ok g -> map discarded old = A ++ T ++ B ++ D ++ G ++ S ->
  Z.of_nat (length A) = ge_ta g -> Z.of_nat (length T) = ge_tn g -> Z.of_nat (length B) = ge_da g - ge_ta g - ge_tn g ->
  Z.of_nat (length D) = ge_dn g -> Z.of_nat (length G) = ge_sa g - ge_da g - ge_dn g -> Z.of_nat (length S) = MAX_PT_LEN - ge_sa g ->
  (pages_needed g <= Z.of_nat (length fl)) ->
  forall i, zget (A ++ map text (take (length T) fl) ++ B ++ map rw_page (take (length D) (drop (length T) fl)) ++ G ++
      map rw_page (take (length S) (drop (length D) (drop (length T) fl)))) i =
    if i <? MAX_PT_LEN then loaded_entry text g old fl i else None.
Proof.
  intros [H1 H2 H3 H4 H5 H6] E HA HT HB HD HG HS Hn i. unfold pages_needed in Hn. unfold ge_sa in *.
  change MAX_PT_LEN with 128 in *.
  assert (Hold : forall j, zget (A ++ T ++ B ++ D ++ G ++ S) j = discarded <$> zget old j).
  { intros j. rewrite <- E. apply zget_fmap. }
  assert (Hlt : length (map text (take (length T) fl)) = length T) by (rewrite length_map, length_take; lia).
  assert (Hld : length (map rw_page (take (length D) (drop (length T) fl))) = length D) by (rewrite length_map, length_take, length_drop; lia).
  assert (Hls : length (map rw_page (take (length S) (drop (length D) (drop (length T) fl)))) = length S)
    by (rewrite length_map, length_take, !length_drop; lia).
  assert (Hpos : i < ge_ta g \/ ge_ta g <= i < ge_ta g + ge_tn g \/ ge_ta g + ge_tn g <= i < ge_da g \/
    ge_da g <= i < ge_da g + ge_dn g \/ ge_da g + ge_dn g <= i < 128 - ge_sn g \/ 128 - ge_sn g <= i < 128 \/ 128 <= i) by lia.
  unfold loaded_entry, ge_sa. change MAX_PT_LEN with 128.
  decompose [or] Hpos; clear Hpos;
    repeat match goal with
      | |- context [?a <=? ?b] => destruct (Z.leb_spec a b); try lia
      | |- context [?a <? ?b] => destruct (Z.ltb_spec a b); try lia
      end; cbn [andb].
  - rewrite <- Hold. by zg Hlt Hld.
  - zg Hlt Hld. rewrite zget_fmap, zget_take by lia. by rewrite HA.
  - rewrite <- Hold. zg Hlt Hld. by rewrite Hlt.
  - zg Hlt Hld. rewrite zget_fmap, zget_take, zget_drop by (rewrite ?Hlt; lia). rewrite Hlt. do 2 f_equal. lia.
  - rewrite <- Hold. zg Hlt Hld. by rewrite Hlt, Hld.
  - zg Hlt Hld. rewrite zget_fmap, zget_take, !zget_drop by (rewrite ?Hlt, ?Hld; lia). rewrite Hlt, Hld. do 2 f_equal. lia.
  - zg Hlt Hld. unfold zget. case_bool_decide; [|done]. apply lookup_ge_None_2. rewrite Hls, Hlt, Hld. lia.
Qed.

(** [t] is the table of a program loaded over [old]. *)
Definition is_loaded (text : Z -> pte) (g : geometry) (old : list pte) (fl : list Z) (t : list pte) : Prop :=
  forall i, zget t i = if i <? MAX_PT_LEN then loaded_entry text g old fl i else None.

Lemma discarded_invalid e : valid (discarded e) <> VALID_FRAME.
Proof. unfold discarded. by destruct (Z.eqb_spec (valid e) VALID_FRAME). Qed.

(** The frame of a mapped page, and the page of a frame. *)
Lemma loaded_valid text g old fl t i e : geometry_ok g -> (forall f, pfn (text f) = f) -> is_loaded text g old fl t ->
  zget t i = Some e -> valid e = VALID_FRAME ->
  exists k, zget fl k = Some (pfn e) /\
    ((0 <= k < ge_tn g /\ i = ge_ta g + k) \/
     (ge_tn g <= k < ge_tn g + ge_dn g /\ i = ge_da g + (k - ge_tn g)) \/
     (ge_tn g + ge_dn g <= k < pages_needed g /\ i = ge_sa g + (k - ge_tn g - ge_dn g))).
Proof.
  intros [H1 H2 H3 H4 H5 H6] Htx Ht He Hv. rewrite Ht in He. destruct (Z.ltb_spec i MAX_PT_LEN) as [Hi|]; [|done].
  unfold loaded_entry, pages_needed, ge_sa in *.
  destruct (Z.leb_spec (ge_ta g) i), (Z.ltb_spec i (ge_ta g + ge_tn g)); cbn [andb] in He;
    [|destruct (Z.leb_spec (ge_da g) i), (Z.ltb_spec i (ge_da g + ge_dn g)); cbn [andb] in He;
      [|destruct (Z.leb_spec (MAX_PT_LEN - ge_sn g) i), (Z.ltb_spec i MAX_PT_LEN); cbn [andb] in He..]..]; try lia.
  all: apply fmap_Some in He as (x & Hx & ->); try (by destruct (discarded_invalid x)).
  all: rewrite ?Htx; cbn [pfn rw_page]; eexists; (split; [exact Hx|]); lia.
Qed.

Lemma zget_NoDup (fl : list Z) i j x : NoDup fl -> zget fl i = Some x -> zget fl j = Some x -> i = j.
Proof.
  unfold zget. intros Hn. case_bool_decide; [|done]. case_bool_decide; [|done]. intros Hi Hj.
  pose proof (NoDup_lookup _ _ _ _ Hn Hi Hj). lia.
Qed.

Lemma loaded_inj text g old fl t : geometry_ok g -> (forall f, pfn (text f) = f) -> is_loaded text g old fl t -> NoDup fl ->
  forall i j e e', zget t i = Some e -> zget t j = Some e' -> valid e = VALID_FRAME -> valid e' = VALID_FRAME ->
  pfn e = pfn e' -> i = j.
Proof.
  intros Hg Htx Ht Hn i j e e' He He' Hv Hv' Hp.
  destruct (loaded_valid _ _ _ _ _ _ _ Hg Htx Ht He Hv) as (k & Hk & Hi).
  destruct (loaded_valid _ _ _ _ _ _ _ Hg Htx Ht He' Hv') as (k' & Hk' & Hj).
  rewrite <- Hp in Hk'. pose proof (zget_NoDup _ _ _ _ Hn Hk Hk') as <-. destruct Hg. unfold ge_sa in *. lia.
Qed.

(** The pages of each kind. *)
Lemma loaded_pages text g old fl t : geometry_ok g -> is_loaded text g old fl t -> pages_needed g <= Z.of_nat (length fl) ->
  (forall i, ge_ta g <= i < ge_ta g + ge_tn g -> exists f, zget t i = Some (text f)) /\
  (forall i, ge_da g <= i < ge_da g + ge_dn g \/ ge_sa g <= i < MAX_PT_LEN -> exists f, zget t i = Some (rw_page f)).
Proof.
  intros [H1 H2 H3 H4 H5 H6] Ht Hn. unfold pages_needed, ge_sa in *.
  assert (Hz : forall k, 0 <= k < Z.of_nat (length fl) -> exists f, zget fl k = Some f).
  { intros k Hk. destruct (zget_is_Some fl k Hk) as [f Hf]. by exists f. }
  split; intros i Hi; rewrite Ht; (destruct (Z.ltb_spec i MAX_PT_LEN); [|lia]); unfold loaded_entry, ge_sa;
    destruct (Z.leb_spec (ge_ta g) i), (Z.ltb_spec i (ge_ta g + ge_tn g)); cbn [andb]; try lia;
    try (destruct (Hz (i - ge_ta g)) as [f Hf]; [lia|]; exists f; by rewrite Hf).
  all: destruct (Z.leb_spec (ge_da g) i), (Z.ltb_spec i (ge_da g + ge_dn g)); cbn [andb]; try lia;
    try (destruct (Hz (ge_tn g + (i - ge_da g))) as [f Hf]; [lia|]; exists f; by rewrite Hf).
  all: destruct (Z.leb_spec (MAX_PT_LEN - ge_sn g) i), (Z.ltb_spec i MAX_PT_LEN); cbn [andb]; try lia;
    (destruct (Hz (ge_tn g + ge_dn g + (i - (MAX_PT_LEN - ge_sn g)))) as [f Hf]; [lia|]; exists f; by rewrite Hf).
Qed.

(** Byte ranges of pages mapped for writing. *)
Lemma writable_pages t lo hi : 0 <= lo -> hi <= MAX_PT_LEN ->
  (forall i, lo <= i < hi -> exists f, zget t i = Some (rw_page f)) ->
  writable t (VMEM_1_BASE + lo * PAGESIZE) (VMEM_1_BASE + hi * PAGESIZE).
Proof.
  intros Hlo Hhi Hp b Hb. change VMEM_1_BASE with (128 * 8192) in *. change PAGESIZE with 8192 in *.
  change MAX_PT_LEN with 128 in *. split; [lia|]. 
  assert (Hv : lo + 128 <= vpn b < hi + 128).
  { unfold vpn. rewrite shiftr_page. change PAGESIZE with 8192. split; [apply Z.div_le_lower_bound|apply Z.div_lt_upper_bound]; lia. }
  destruct (Hp (vpn b - 128)) as [f Hf]; [lia|]. exists (rw_page f). change MAX_PT_LEN with 128.
  split; [exact Hf|]. split; [lia|done].
Qed.

(** The headers of a Yalnix program: text from page [ta] of region 1, data from page
    [da] on, and the zeroed area behind the initialised data. *)
Record headers_ok (li : load_info) (ta da : Z) : Prop := {
  hd_text : li_t_vaddr li = VMEM_1_BASE + ta * PAGESIZE;
  hd_data : li_id_vaddr li = VMEM_1_BASE + da * PAGESIZE;
  hd_ta : 0 <= ta;
  hd_tn : 0 <= li_t_npg li;
  hd_below : ta + li_t_npg li <= da <= MAX_PT_LEN;
  hd_id : 0 <= li_id_npg li <= MAX_PT_LEN;
  hd_ud : 0 <= li_ud_npg li <= MAX_PT_LEN;
  hd_zero : li_id_vaddr li <= li_id_end li <= li_ud_end li;
  hd_end : li_ud_end li <= li_id_vaddr li + (li_id_npg li + li_ud_npg li) * PAGESIZE }.

(** What [compute_layout] finds for such headers, when the result fits. *)
Record layout_ok (li : load_info) (lo : layout) (cs : list (list Z)) : Prop := {
  lk_geometry : geometry_ok (geometry_of li lo);
  lk_args : args_layout lo cs;
  lk_text : li_t_vaddr li = VMEM_1_BASE + lo_text_pg1 lo * PAGESIZE;
  lk_data : li_id_vaddr li = VMEM_1_BASE + lo_data_pg1 lo * PAGESIZE;
  lk_npg : lo_data_npg lo = li_id_npg li + li_ud_npg li;
  lk_stack : VMEM_1_BASE + ge_sa (geometry_of li lo) * PAGESIZE <= lo_cpp lo }.

Lemma compute_layout_ok li ta da cs : headers_ok li ta da ->
  4 * Z.of_nat (length cs) + args_size cs < 2 ^ 30 ->
  let lo := compute_layout li (Z.of_nat (length cs)) (args_size cs) in
  layout_fits lo = true -> layout_ok li lo cs /\ lo_text_pg1 lo = ta /\ lo_data_pg1 lo = da.
Proof.
  intros [Ht Hd Hta Htn Hb Hid Hud Hz He] Hsm lo Hfit. pose proof (args_size_nonneg cs) as Has.
  change (2 ^ 30) with 1073741824 in Hsm.
  assert (Hpg : forall v k, v = VMEM_1_BASE + k * PAGESIZE -> 0 <= k <= MAX_PT_LEN -> Z.shiftr (u32 (v - VMEM_1_BASE)) PAGESHIFT = k).
  { intros v k -> Hk. rewrite shiftr_page. change MAX_PT_LEN with 128 in Hk. change PAGESIZE with 8192.
    rewrite u32_id by lia. symmetry. apply Z.div_unique with (r := 0); lia. }
  assert (Eta : lo_text_pg1 lo = ta) by (apply Hpg; [done|lia]).
  assert (Eda : lo_data_pg1 lo = da) by (apply Hpg; [done|lia]).
  assert (Edn : lo_data_npg lo = li_id_npg li + li_ud_npg li).
  { change MAX_PT_LEN with 128 in *. cbn. by rewrite i32_id by lia. }
  set (cp := VMEM_1_LIMIT - args_size cs). set (raw := cp - (Z.of_nat (length cs) + 3 + POST_ARGV_NULL_SPACE) * 4).
  assert (Ecpp : lo_cpp lo = raw - raw mod 8) by exact (land_lnot_ones raw 3 ltac:(done)).
  pose proof (Z.mod_pos_bound raw 8 ltac:(done)) as Hraw.
  assert (Hcpp : - 2 ^ 31 <= lo_cpp lo < 2 ^ 31).
  { rewrite Ecpp. unfold raw, cp in *. change VMEM_1_LIMIT with 2097152 in *. change POST_ARGV_NULL_SPACE with 32 in *. lia. }
  destruct (DOWN_TO_PAGE_spec _ Hcpp) as [Hdm Hdl].
  assert (Esn : lo_stack_npg lo = (VMEM_1_LIMIT - DOWN_TO_PAGE (lo_cpp lo)) / PAGESIZE).
  { unfold lo, compute_layout. cbn [lo_stack_npg lo_cpp]. rewrite shiftr_page. unfold INITIAL_STACK_FRAME_SIZE.
    by rewrite Z.sub_0_r. }
  assert (Hsn : VMEM_1_LIMIT - DOWN_TO_PAGE (lo_cpp lo) = lo_stack_npg lo * PAGESIZE).
  { rewrite Esn. pose proof (Z.div_mod (VMEM_1_LIMIT - DOWN_TO_PAGE (lo_cpp lo)) PAGESIZE ltac:(done)) as H.
    rewrite Zminus_mod, Hdm in H. change (VMEM_1_LIMIT mod PAGESIZE) with 0 in H.
    change ((0 - 0) mod PAGESIZE) with 0 in H. lia. }
  unfold layout_fits in Hfit. apply Z.ltb_lt in Hfit. rewrite Eda, Edn in Hfit.
  unfold raw, cp in *. change VMEM_1_LIMIT with 2097152 in *. change POST_ARGV_NULL_SPACE with 32 in *.
  change PAGESIZE with 8192 in *. change MAX_PT_LEN with 128 in *.
  split; [|done]. split; rewrite ?Eta, ?Eda; try done.
  - split; cbn [geometry_of ge_ta ge_tn ge_da ge_dn ge_sn]; rewrite ?Eta, ?Eda, ?Edn; try lia. change MAX_PT_LEN with 128. lia.
  - split; [done|..]; change VMEM_1_BASE with 1048576; change VMEM_1_LIMIT with 2097152;
      change (lo_cp lo) with (2097152 - args_size cs); lia.
  - unfold ge_sa. cbn [geometry_of ge_sn]. change VMEM_1_BASE with 1048576. change PAGESIZE with 8192. change MAX_PT_LEN with 128. lia.
Qed.

(** A text page. *)
Definition rx_page (f : Z) : pte := mkPte VALID_FRAME X_NO_W_R f.

Definition with_indexes (lo : layout) (x : pcb) : pcb :=
  set_user_stack_pt_index (MAX_PT_LEN - lo_stack_npg lo) (set_user_heap_pt_index (lo_data_pg1 lo + lo_data_npg lo)
    (set_user_data_pt_index (lo_data_pg1 lo) (set_user_text_pt_index (lo_text_pg1 lo) x))).

Lemma returns_orelse_bind {A R} (m : M A) (f : A -> M (option R)) (k : M R) s (P : R -> kstate -> Prop) :
  returns (bind m (fun a => orelse (f a) k)) s P -> returns (orelse (bind m f) k) s P.
Proof.
  assert (Ho : forall (o o' : outcome R), oeq o o' -> oret o' P -> oret o P) by (by intros ?? []).
  apply Ho. apply bind_assoc.
Qed.

(** The pages of the old program are given back. *)
Lemma stage_discard {B} (m : M B) s0 s p x t0 fl (P : B -> kstate -> Prop) : MallocTotal L ->
  stage s0 s p x t0 -> length t0 = Z.to_nat USER_PT_SIZE -> PtUser p <> r_ptbr0 (hw s0) -> F s fl ->
  (forall s1, stage s0 s1 p x (map discarded t0) -> F s1 (rev (valid_pfns t0) ++ fl) ->
    bufs s1 = bufs s -> frames (hw s1) = frames (hw s) -> returns m s1 P) ->
  returns (discard_region1 (PtUser p) ;; m) s P.
Proof.
  intros MT Hst Hlen H0 HF Hm. rstep. unfold discard_region1.
  change (zseq 0 (VMEM_1_SIZE / PAGESIZE)) with (zrange 0 (Z.to_nat USER_PT_SIZE)). rewrite <- Hlen.
  change 0 with (Z.of_nat (length (@nil pte))) at 1.
  eapply returns_mono; [apply (discard_pages (F := F) (PtUser p) t0 MT [] s fl)|].
  { by eapply stage_table. } { by rewrite (stage_ptbr0 _ _ _ _ _ Hst). } { exact HF. }
  cbv beta. intros _ s1 [R1 HF1]. cbn [app] in R1. pose proof (stage_retabled _ _ _ _ _ _ _ Hst R1) as Hs1.
  destruct R1 as (h & n & c & -> & _). by apply Hm.
Qed.

(** The address space is built: the page tables are those of the program, the frames
    still free are the others. *)
Lemma load_tables_spec {K : M Z} s0 s p x t0 li lo fl (P : Z -> kstate -> Prop) :
  let g := geometry_of li lo in let fl' := rev (valid_pfns t0) ++ fl in
  stage s0 s p x t0 -> length t0 = Z.to_nat USER_PT_SIZE -> geometry_ok g -> PtUser p <> r_ptbr0 (hw s0) ->
  MallocTotal L -> F s fl -> Forall frame24 fl' -> pages_needed g <= Z.of_nat (length fl') ->
  (forall s' A ft R, stage s0 s' p (with_indexes lo x) (A ++ map rw_page ft ++ R) ->
    F s' (drop (Z.to_nat (pages_needed g)) fl') -> bufs s' = bufs s -> frames (hw s') = frames (hw s) ->
    Z.of_nat (length A) = ge_ta g -> Z.of_nat (length ft) = ge_tn g ->
    is_loaded rw_page g t0 fl' (A ++ map rw_page ft ++ R) -> is_loaded rx_page g t0 fl' (A ++ map rx_page ft ++ R) ->
    returns K s' P) ->
  returns (discard_region1 (PtUser p) ;; returning! map_text p li lo in returning! map_data p lo in
    returning! map_stack p lo in K) s P.
Proof.
  intros g fl' Hst Hlen Hg H0 MT HF H24 Hn HK. eapply stage_discard; try done.
  intros s1 Hs1 HF1 Hb1 Hm1. fold fl' in HF1.
  destruct (split6 (map discarded t0) (ge_ta g) (ge_tn g) (ge_da g) (ge_dn g) (ge_sa g))
    as (A & T & B & D & G & S & E & HA & HT & HB & HD & HG & HS); [by rewrite length_map| | | | | | |];
    try (destruct Hg; unfold ge_sa; lia).
  rewrite E in Hs1. unfold pages_needed in Hn.
  assert (HSn : Z.of_nat (length S) = ge_sn g) by (unfold ge_sa in HS; lia).
  unfold map_text. change (lo_text_pg1 lo) with (ge_ta g). change (li_t_npg li) with (ge_tn g). rewrite <- HA, <- HT.
  eapply (stage_map s0 s1 p x _ A T (B ++ D ++ G ++ S) fl' P Hs1); try done; [lia|].
  intros s2 Hs2 HF2 Hb2 Hm2.
  assert (E2 : A ++ map rw_page (take (length T) fl') ++ B ++ D ++ G ++ S =
    (A ++ map rw_page (take (length T) fl') ++ B) ++ D ++ (G ++ S)) by (by rewrite <- !app_assoc).
  rewrite E2 in Hs2.
  assert (Hl2 : Z.of_nat (length (A ++ map rw_page (take (length T) fl') ++ B)) = ge_da g).
  { rewrite !length_app, length_map, length_take. lia. }
  unfold map_data. change (lo_data_pg1 lo) with (ge_da g). change (lo_data_npg lo) with (ge_dn g). rewrite <- Hl2, <- HD.
  eapply (stage_map s0 s2 p _ _ _ D (G ++ S) (drop (length T) fl') P Hs2); try done; [by apply Forall_drop|rewrite length_drop; lia|].
  intros s3 Hs3 HF3 Hb3 Hm3.
  unfold map_stack. apply returns_orelse_bind. rstep. eapply returns_upd_pcb; [by eapply stage_lookup|].
  pose proof (stage_pcb _ _ _ _ _ (set_user_heap_pt_index (lo_data_pg1 lo + lo_data_npg lo)) Hs3 (fun y => eq_refl)) as Hs4.
  set (s4 := put_pcb p _ s3) in *.
  match type of Hs4 with stage _ _ _ _ ((?a) ++ ?d ++ G ++ S) => set (pre := a) in *; set (dd := d) in * end.
  assert (E4 : pre ++ dd ++ G ++ S = (pre ++ dd ++ G) ++ S ++ []) by (by rewrite app_nil_r, <- !app_assoc).
  rewrite E4 in Hs4.
  assert (Hl4 : Z.of_nat (length (pre ++ dd ++ G)) = ge_sa g).
  { rewrite length_app, Nat2Z.inj_add, Hl2. unfold dd.
    rewrite length_app, length_map, length_take, length_drop. lia. }
  change (MAX_PT_LEN - lo_stack_npg lo) with (ge_sa g).
  replace MAX_PT_LEN with (ge_sa g + Z.of_nat (length S)) by lia. rewrite <- Hl4.
  eapply (stage_map s0 s4 p _ _ _ S [] (drop (length D) (drop (length T) fl')) P Hs4); try done; [by eapply F_same; [| |exact HF3]|by repeat apply Forall_drop|
    rewrite !length_drop; lia|].
  intros s5 Hs5 HF5 Hb5 Hm5.
  set (ss := map rw_page (take (length S) _)) in *.
  assert (E5 : (pre ++ dd ++ G) ++ ss ++ [] = A ++ map rw_page (take (length T) fl') ++ (B ++ dd ++ G ++ ss))
    by (unfold pre; by rewrite app_nil_r, <- !app_assoc).
  rewrite E5 in Hs5.
  apply (HK s5 A (take (length T) fl') (B ++ dd ++ G ++ ss)).
  - revert Hs5. rewrite Hl2, Hl4, HA. exact id.
  - rewrite !drop_drop in HF5. unfold pages_needed.
    by replace (Z.to_nat _) with (length T + (length D + length S))%nat by lia.
  - change (bufs s4) with (bufs s3) in Hb5. congruence.
  - change (hw s4) with (hw s3) in Hm5. congruence.
  - done.
  - rewrite length_take. lia.
  - intros i. by apply (loaded_table rw_page g t0 fl' A T B D G S).
  - intros i. by apply (loaded_table rx_page g t0 fl' A T B D G S).
Qed.

End load.
