(* ===== verification/Loaded.v ===== *)
(** * The program [LoadProgram] leaves in memory ([load_program.c])

    The bytes of the file in the text and data pages, zeros behind the data, the
    argument block of [main] on the stack, and the whole call put together. *)

From Stdlib Require Import ZArith Lia.
From stdpp Require Import base gmap list.
From S2P Require Import Prelude Hardware State Logic KList Memory Frames Process ContextSwitch Sched LoadProgram Fork LoadArgs Loader.

Open Scope Z_scope.

(** ** What is where *)

(** The program's memory after the load, byte for byte: [text] and [data] as read
    from the file, zeros from the end of the initialised data to the end of the
    uninitialised data, and what [main] finds on its stack. *)
Record program_image (s : kstate) (li : load_info) (lo : layout) (cs : list (list Z)) (text data : list Z) : Prop := {
  pi_text : forall k x, zget text k = Some x -> ubyte s (li_t_vaddr li + k) = x mod 256;
  pi_data : forall k x, zget data k = Some x -> li_id_vaddr li + k < li_id_end li -> ubyte s (li_id_vaddr li + k) = x mod 256;
  pi_zero : forall a, li_id_end li <= a < li_ud_end li -> ubyte s a = 0;
  pi_argc : forall k x, zget (int_bytes (Z.of_nat (length cs))) k = Some x -> ubyte s (lo_cpp lo + k) = x;
  pi_argv : forall i c k x, cs !! i = Some c -> zget (int_bytes (arg_addr cs (lo_cp lo) i)) k = Some x ->
    ubyte s (lo_cpp lo + 4 + 4 * Z.of_nat i + k) = x;
  pi_strings : forall i c k x, cs !! i = Some c -> zget (c ++ [0]) k = Some x -> ubyte s (arg_addr cs (lo_cp lo) i + k) = x;
  pi_null : forall k, 0 <= k < 8 -> ubyte s (lo_cpp lo + 4 + 4 * Z.of_nat (length cs) + k) = 0 }.

(** The image the phases of the load produce, one over the other. *)
Definition load_image (li : load_info) (lo : layout) (cs : list (list Z)) (text data : list Z) (img : Z -> Z) : Z -> Z :=
  stack_image lo cs (overlay (overlay (overlay img (li_t_vaddr li) (bytes256 text)) (li_id_vaddr li) (bytes256 data))
    (li_id_end li) (replicate (Z.to_nat (li_ud_end li - li_id_end li)) 0)).

Lemma stack_image_below lo cs img b : args_layout lo cs -> b < lo_cpp lo -> stack_image lo cs img b = img b.
Proof.
  intros [Hn Hb Hr He] Hlt. pose proof (args_size_nonneg cs). unfold stack_image.
  rewrite overlay_out by (cbn; lia). rewrite overlay_out by (cbn; lia).
  rewrite args_image_out by lia. rewrite overlay_out by (cbn; lia). apply overlay_out. lia.
Qed.

Lemma int_bytes_len v k x : zget (int_bytes v) k = Some x -> 0 <= k < 4.
Proof. intros H%zget_Some. exact H. Qed.

Lemma arg_addr_range cs cp i c : cs !! i = Some c -> cp <= arg_addr cs cp i /\ arg_addr cs cp i + Z.of_nat (length c) + 1 <= cp + args_size cs.
Proof.
  unfold arg_addr. revert cp i. induction cs as [|c0 cs IH]; intros cp i Hi; [done|]. rewrite args_size_cons.
  pose proof (args_size_nonneg cs). destruct i as [|i]; cbn [take].
  - injection Hi as ->. change (args_size []) with 0. lia.
  - rewrite args_size_cons. destruct (IH (cp + Z.of_nat (length c0) + 1) i Hi). pose proof (args_size_nonneg (take i cs)). lia.
Qed.

Lemma stack_image_argc lo cs img k x : args_layout lo cs -> zget (int_bytes (Z.of_nat (length cs))) k = Some x ->
  stack_image lo cs img (lo_cpp lo + k) = x.
Proof.
  intros [Hn Hb Hr He] Hx. pose proof (int_bytes_len _ _ _ Hx). unfold stack_image.
  rewrite overlay_out by (cbn; lia). rewrite overlay_out by (cbn; lia).
  rewrite args_image_out by lia. apply overlay_in. rewrite Hn. by replace (lo_cpp lo + k - lo_cpp lo) with k by lia.
Qed.

Lemma stack_image_args lo cs img i c : args_layout lo cs -> cs !! i = Some c ->
  (forall k x, zget (int_bytes (arg_addr cs (lo_cp lo) i)) k = Some x ->
    stack_image lo cs img (lo_cpp lo + 4 + 4 * Z.of_nat i + k) = x) /\
  (forall k x, zget (c ++ [0]) k = Some x -> stack_image lo cs img (arg_addr cs (lo_cp lo) i + k) = x).
Proof.
  intros [Hn Hb Hr He] Hi. pose proof (lookup_lt_Some _ _ _ Hi). pose proof (arg_addr_range cs (lo_cp lo) i c Hi) as [Ha _].
  edestruct (args_image_arg cs (lo_cpp lo + 4) (lo_cp lo)) as [H1 H2]; [lia|exact Hi|].
  unfold stack_image. split; intros k x Hk.
  - pose proof (int_bytes_len _ _ _ Hk). rewrite !overlay_out by (cbn; lia). by apply H1.
  - pose proof (zget_Some _ _ _ Hk). rewrite !overlay_out by (cbn; lia). by apply H2.
Qed.

Lemma stack_image_null lo cs img k : 0 <= k < 8 -> stack_image lo cs img (lo_cpp lo + 4 + 4 * Z.of_nat (length cs) + k) = 0.
Proof.
  intros Hk. unfold stack_image. set (stop := lo_cpp lo + 4 + 4 * Z.of_nat (length cs)).
  assert (Hz : forall j, 0 <= j < 4 -> zget (int_bytes NULL) j = Some 0).
  { intros j Hj. assert (j = 0 \/ j = 1 \/ j = 2 \/ j = 3) as [->|[->|[->| ->]]] by lia; done. }
  destruct (decide (k < 4)).
  - rewrite overlay_out by (cbn; lia). apply overlay_in. apply Hz. lia.
  - apply overlay_in. apply Hz. lia.
Qed.

Section image.
Context (li : load_info) (lo : layout) (cs : list (list Z)) (text data : list Z).
Hypothesis Hlo : layout_ok li lo cs.
Hypothesis Hz : li_id_vaddr li <= li_id_end li <= li_ud_end li.
Hypothesis Hend : li_ud_end li <= li_id_vaddr li + lo_data_npg lo * PAGESIZE.
Hypothesis Htext : Z.of_nat (length text) = li_t_npg li * PAGESIZE.
Hypothesis Hdata : Z.of_nat (length data) <= lo_data_npg lo * PAGESIZE.

Lemma data_below_stack : li_t_vaddr li + li_t_npg li * PAGESIZE <= li_id_vaddr li /\
  li_id_vaddr li + lo_data_npg lo * PAGESIZE <= lo_cpp lo.
Proof using Hlo.
  clear Hz Hend Htext Hdata. destruct Hlo as [[H1 H2 H3 H4 H5 H6] H7 H8 H9 H10 H11]. unfold ge_sa in *. cbn [geometry_of ge_ta ge_tn ge_da ge_dn ge_sn] in *.
  rewrite H8, H9. change PAGESIZE with 8192 in *. change MAX_PT_LEN with 128 in *. lia.
Qed.

(** The layers of the image do not hide each other. *)
Lemma load_image_clauses s img :
  (forall b, li_t_vaddr li <= b < li_t_vaddr li + li_t_npg li * PAGESIZE \/
     li_id_vaddr li <= b < li_id_vaddr li + lo_data_npg lo * PAGESIZE \/ lo_cpp lo <= b < VMEM_1_LIMIT ->
     ubyte s b = load_image li lo cs text data img b) ->
  program_image s li lo cs text data.
Proof.
  intros Hs. pose proof data_below_stack as [Hd1 Hd2]. pose proof (lk_args _ _ _ Hlo) as Ha.
  pose proof (al_room _ _ Ha) as Hroom. pose proof (al_end _ _ Ha) as Hce. pose proof (args_size_nonneg cs).
  assert (H256 : forall l k x, zget l k = Some x -> zget (bytes256 l) k = Some (x mod 256)).
  { intros l k x Hk. unfold bytes256. by rewrite zget_fmap, Hk. }
  split.
  - intros k x Hk. pose proof (zget_Some _ _ _ Hk). rewrite Hs by lia. unfold load_image.
    rewrite stack_image_below by (done || lia). rewrite overlay_out by lia.
    rewrite overlay_out by (unfold bytes256; lia). apply overlay_in. apply H256.
    by replace (li_t_vaddr li + k - li_t_vaddr li) with k by lia.
  - intros k x Hk Hlt. pose proof (zget_Some _ _ _ Hk). rewrite Hs by lia. unfold load_image.
    rewrite stack_image_below by (done || lia). rewrite overlay_out by lia. apply overlay_in, H256.
    by replace (li_id_vaddr li + k - li_id_vaddr li) with k by lia.
  - intros a Hr. rewrite Hs by lia. unfold load_image. rewrite stack_image_below by (done || lia).
    apply overlay_in. unfold zget. rewrite bool_decide_true by lia. apply lookup_replicate. lia.
  - intros k x Hk. pose proof (int_bytes_len _ _ _ Hk). rewrite Hs by lia. by apply stack_image_argc.
  - intros i c k x Hi Hk. pose proof (int_bytes_len _ _ _ Hk). pose proof (lookup_lt_Some _ _ _ Hi).
    rewrite Hs by lia. by eapply stack_image_args.
  - intros i c k x Hi Hk. pose proof (arg_addr_range cs (lo_cp lo) i c Hi). pose proof (zget_Some _ _ _ Hk) as Hkr.
    rewrite length_app in Hkr. cbn in Hkr. rewrite Hs by lia. by eapply stack_image_args.
  - intros k Hk. rewrite Hs by lia. by apply stack_image_null.
Qed.

End image.

(** ** Filling the address space *)

(** Memory and tables the same: the process runs on the same space. *)
Lemma space_same s s' p t img : same_memory s s' -> user_space s p t -> image s t img ->
  user_space s' p t /\ image s' t img.
Proof.
  intros Hm [H1 H2 H3 H4 H5 H6] Hi. pose proof Hm as [Hh Ht].
  assert (Hs' : user_space s' p t) by (split; rewrite ?Hh, ?Ht; done).
  split; [done|]. intros b e He. rewrite <- (Hi b e He). unfold ubyte. by rewrite Hh, (phys_same _ _ _ Hm).
Qed.

Lemma stage_tab_upd s0 s p x t t' c : stage s0 s p x t -> kernel_fresh (tlb (hw s)) c -> stage s0 (tab_upd (PtUser p) t' c s) p x t'.
Proof.
  intros [E R (c' & m & H & Hc')] Hc. split; [|exact R|].
  - change (alter (set_user_page_table t') p (pcbs s) = <[p := set_user_page_table t' x]> (pcbs s0)).
    by rewrite E, alter_insert_eq.
  - exists c, m. cbn. rewrite H in Hc |- *. split; [done|]. by eapply kernel_fresh_trans.
Qed.

(** After the flush of region 1 the machine runs on the new table. *)
Lemma stage_space s0 s p x t : stage s0 s p x t -> r_vm (hw s0) = VM_ENABLED -> r_ptlr1 (hw s0) = MAX_PT_LEN ->
  (forall i j e e', zget t i = Some e -> zget t j = Some e' -> valid e = VALID_FRAME -> valid e' = VALID_FRAME ->
    pfn e = pfn e' -> i = j) ->
  let s1 := set_hw (write_reg (REG_TLB_FLUSH TLB_FLUSH_1) (hw s)) s in
  stage s0 s1 p x t /\ user_space s1 p t.
Proof.
  intros Hs Hv Hl Hinj. destruct (sg_hw _ _ _ _ _ Hs) as (c & m & Eh & _).
  assert (Hs1 : stage s0 (set_hw (write_reg (REG_TLB_FLUSH TLB_FLUSH_1) (hw s)) s) p x t) by (by apply stage_tlb, kernel_fresh_drop).
  cbv zeta. split; [exact Hs1|]. split; try (cbn; by rewrite Eh).
  - by apply (stage_table s0 _ p x t).
  - intros v Hr. cbn. rewrite lookup_tlb_drop.
    assert (flushed TLB_FLUSH_1 v = true) as ->; [|done]. unfold flushed. cbn -[MAX_PT_LEN region0_vpn].
    unfold region0_vpn. destruct (Z.ltb_spec v MAX_PT_LEN); [lia|done].
  - exact Hinj.
Qed.

Section fill.
Context `{FS : FileSystem}.

Lemma image_segment s p t fd faddr v n img : user_space s p t -> image s t img -> 0 <= n ->
  Z.of_nat (length (fs_read fd faddr (n * PAGESIZE))) = n * PAGESIZE -> writable t v (v + n * PAGESIZE) ->
  returns (read_segment fd faddr v n) s (fun o s' => o = None /\
    after_write p t s (overlay img v (bytes256 (fs_read fd faddr (n * PAGESIZE)))) s').
Proof.
  intros Hs Hi Hn Hr Hw. unfold read_segment. rewrite Z.shiftl_mul_pow2 by done. change (2 ^ PAGESHIFT) with PAGESIZE.
  cbv zeta. rstep. eapply returns_mono; [apply (image_write p s t v _ img Hs Hi); by rewrite Hr|]. cbv beta.
  intros _ s1 H1. destruct (Z.eqb_spec (Z.of_nat (length (fs_read fd faddr (n * PAGESIZE)))) (n * PAGESIZE)); [|done].
  rstep. done.
Qed.

End fill.

(** The allocators, buffers and foreign frames after a phase. *)
Record untouched (t : list pte) (s s' : kstate) : Prop := {
  ut_lst : lst s' = lst s;
  ut_bufs : bufs s' = bufs s;
  ut_frames : outside_same t (hw s) (hw s') }.

Lemma untouched_trans t s1 s2 s3 : untouched t s1 s2 -> untouched t s2 s3 -> untouched t s1 s3.
Proof.
  intros [H1 B1 F1] [H2 B2 F2]. split; [congruence..|]. intros f o Hf. by rewrite F2, F1.
Qed.

Lemma written_untouched t s s' : written t s s' -> untouched t s s'.
Proof. intros (h & -> & _ & Ho). by split. Qed.

Lemma outside_same_frames t t' h h' : same_frames t t' -> outside_same t' h h' -> outside_same t h h'.
Proof.
  intros Hf Ho f o Hn. apply Ho. intros i e' He' Hv. destruct (same_frames_zget _ _ _ _ Hf He') as (e & He & Hv' & Hp).
  rewrite <- Hp. eapply Hn; [exact He|congruence].
Qed.

Lemma same_frames_sym t t' : same_frames t t' -> same_frames t' t.
Proof. unfold same_frames. congruence. Qed.

(** The updates of [load_committed] after the text was made executable. *)
Definition pc_set (pc : Z) (x : pcb) : pcb := set_user_context (uc_set_pc pc (user_context x)) x.

Section contents.
Context `{L : Libc} `{FS : FileSystem}.
Context (s0 : kstate) (p fd : Z) (x : pcb) (li : load_info) (lo : layout) (cs : list (list Z)) (argbuf : Z).
Context (A : list pte) (ft : list Z) (R : list pte) (old : list pte) (fl : list Z).

#[local] Abbreviation g := (geometry_of li lo).
#[local] Abbreviation t := (A ++ map rw_page ft ++ R).
#[local] Abbreviation t' := (A ++ map rx_page ft ++ R).
#[local] Abbreviation text := (fs_read fd (li_t_faddr li) (li_t_npg li * PAGESIZE)).
#[local] Abbreviation data := (fs_read fd (li_id_faddr li) (li_id_npg li * PAGESIZE)).

Hypothesis Hvm : r_vm (hw s0) = VM_ENABLED.
Hypothesis Hlr : r_ptlr1 (hw s0) = MAX_PT_LEN.
Hypothesis Hp0 : PtUser p <> r_ptbr0 (hw s0).
Hypothesis HA : Z.of_nat (length A) = lo_text_pg1 lo.
Hypothesis Hft : Z.of_nat (length ft) = li_t_npg li.
Hypothesis Ht : is_loaded rw_page g old fl t.
Hypothesis Ht' : is_loaded rx_page g old fl t'.
Hypothesis Hfl : NoDup fl.
Hypothesis Hn : pages_needed g <= Z.of_nat (length fl).
Hypothesis Hlo : layout_ok li lo cs.
Hypothesis Hzero : li_id_vaddr li <= li_id_end li <= li_ud_end li.
Hypothesis Hend : li_ud_end li <= li_id_vaddr li + lo_data_npg lo * PAGESIZE.
Hypothesis Hid : 0 <= li_id_npg li <= lo_data_npg lo.
Hypothesis Hcs : Forall cbytes cs.
Hypothesis Htext : Z.of_nat (length text) = li_t_npg li * PAGESIZE.
Hypothesis Hdata : Z.of_nat (length data) = li_id_npg li * PAGESIZE.

Lemma contents_same_frames : same_frames t t'.
Proof. unfold same_frames. rewrite !map_app, !map_map. done. Qed.

(** The stretches of the address space that can be written. *)
Lemma contents_writable u text' : is_loaded text' g old fl u ->
  writable u (li_id_vaddr li) (li_id_vaddr li + lo_data_npg lo * PAGESIZE) /\ writable u (lo_cpp lo) VMEM_1_LIMIT /\
  (text' = rw_page -> writable u (li_t_vaddr li) (li_t_vaddr li + li_t_npg li * PAGESIZE)).
Proof.
  intros Hu. destruct Hlo as [Hg Ha Hlt Hld Hdn Hst]. destruct (loaded_pages _ _ _ _ _ Hg Hu Hn) as [Hx Hw].
  destruct Hg as [H1 H2 H3 H4 H5 H6]. cbn [geometry_of ge_ta ge_tn ge_da ge_dn ge_sn] in *.
  assert (Hsa : 0 <= ge_sa g /\ lo_data_pg1 lo + lo_data_npg lo <= MAX_PT_LEN).
  { unfold ge_sa. cbn. lia. }
  split; [|split].
  - rewrite Hld, <- Z.add_assoc, <- Z.mul_add_distr_r. apply writable_pages; [lia|lia|].
    intros i Hi. apply Hw. lia.
  - change VMEM_1_LIMIT with (VMEM_1_BASE + MAX_PT_LEN * PAGESIZE).
    apply (writable_sub _ (VMEM_1_BASE + ge_sa g * PAGESIZE) (VMEM_1_BASE + MAX_PT_LEN * PAGESIZE)); [|lia|lia]. apply writable_pages; [lia|lia|].
    intros i Hi. apply Hw. lia.
  - intros ->. rewrite Hlt, <- Z.add_assoc, <- Z.mul_add_distr_r. apply writable_pages; [lia|lia|].
    intros i Hi. apply Hx. lia.
Qed.

(** Every byte of the program is mapped. *)
Lemma contents_valid b : li_t_vaddr li <= b < li_t_vaddr li + li_t_npg li * PAGESIZE \/
    li_id_vaddr li <= b < li_id_vaddr li + lo_data_npg lo * PAGESIZE \/ lo_cpp lo <= b < VMEM_1_LIMIT ->
  exists e, uvalid t' b e.
Proof.
  intros Hb. destruct (contents_writable t rw_page Ht) as (W1 & W2 & W3).
  assert (exists e, uvalid t b e) as [e He].
  { assert (H : umapped t true b) by (destruct Hb as [Hb|[Hb|Hb]]; [by apply W3|by apply W1|by apply W2]).
    destruct H as (e & He & Hr & Hp). exists e. do 2 (split; [done|]). by eapply permits_valid. }
  destruct (same_frames_uvalid t' t b e (same_frames_sym _ _ contents_same_frames) He) as (e' & He' & _).
  by exists e'.
Qed.

(** Reading, protecting, zeroing, the entry point and the stack. *)
Lemma load_contents s : stage s0 s p x t -> bufs s !! argbuf = Some (args_bytes cs) ->
  returns (
    WriteRegister (REG_TLB_FLUSH TLB_FLUSH_1) ;;
    returning! read_segment fd (li_t_faddr li) (li_t_vaddr li) (li_t_npg li) in
    returning! read_segment fd (li_id_faddr li) (li_id_vaddr li) (li_id_npg li) in
    protect_text (PtUser p) li lo ;;
    zero_bytes (li_id_end li) (li_ud_end li - li_id_end li) ;;
    upd_pcb p (pc_set (li_entry li)) ;;
    build_stack lo argbuf ;;
    ret SUCCESS) s (fun r s' => r = SUCCESS /\ stage s0 s' p (pc_set (li_entry li) x) t' /\ user_space s' p t' /\
      program_image s' li lo cs text data /\
      lst s' = lst s /\ bufs s' = delete argbuf (bufs s) /\ outside_same t' (hw s) (hw s')).
Proof.
  intros Hs Hb. destruct (contents_writable t rw_page Ht) as (W1 & _ & W3). destruct (contents_writable t' rx_page Ht') as (W1' & W2' & _).
  pose proof (lk_geometry _ _ _ Hlo) as Hg.
  destruct (stage_space _ _ _ _ _ Hs Hvm Hlr (loaded_inj rw_page _ _ _ _ Hg (fun f => eq_refl) Ht Hfl)) as [St1 Us1].
  rstep. unfold WriteRegister at 1. apply returns_modify. set (s1 := set_hw _ s) in *.
  assert (U1 : untouched t s s1) by (split; done).
  assert (Hi1 : image s1 t (ubyte s1)) by (by intros b e _).
  rstep. eapply returns_mono; [by apply (image_segment s1 p t fd _ _ _ _ Us1 Hi1 (gk_tn _ Hg)), W3|]. cbv beta.
  intros o s2 (-> & Wr2 & Us2 & Hi2). pose proof (stage_written _ _ _ _ _ _ _ St1 Wr2) as St2.
  rstep. eapply returns_mono; [apply (image_segment s2 p t fd _ _ _ _ Us2 Hi2 (proj1 Hid) Hdata); eapply writable_sub; [exact W1|lia|change PAGESIZE with 8192; lia]|].
  cbv beta. intros o s3 (-> & Wr3 & Us3 & Hi3). pose proof (stage_written _ _ _ _ _ _ _ St2 Wr3) as St3.
  rstep. unfold protect_text. rewrite <- HA. unfold zseq. replace (Z.to_nat _) with (length (map rw_page ft)) by (rewrite length_map; lia).
  eapply returns_mono; [apply (protect_pages p (map rw_page ft) A R s3 _ Us3 Hi3); by rewrite (stage_ptbr0 _ _ _ _ _ St3)|].
  cbv beta zeta. rewrite map_map. change (map (fun f => set_prot X_NO_W_R (rw_page f)) ft) with (map rx_page ft).
  intros _ s4 (Us4 & Hi4 & c & -> & Hc).
  pose proof (stage_tab_upd _ _ _ _ _ t' c St3 (kernel_fresh_sub _ _ Hc)) as St4. set (s4 := tab_upd _ _ _ _) in *.
  assert (U4 : untouched t s3 s4) by (split; [by destruct s3..|intros f o _; by destruct s3 as [???????[]??]]).
  rstep. eapply returns_mono; [apply (image_zero p s4 t' _ (li_ud_end li - li_id_end li) _ Us4 Hi4)|].
  { pose proof (data_below_stack li lo cs Hlo) as [H1 H2].
    pose proof (lk_args _ _ _ Hlo) as [_ _ H3 H4]. pose proof (args_size_nonneg cs).
    pose proof (lk_data _ _ _ Hlo). destruct Hg. cbn [geometry_of ge_ta ge_tn ge_da ge_dn ge_sn] in *.
    change (2 ^ 32) with 4294967296. change VMEM_1_LIMIT with 2097152 in *. change VMEM_1_BASE with 1048576 in *.
    change PAGESIZE with 8192 in *. lia. }
  { eapply writable_sub; [exact W1'|lia|lia]. }
  cbv beta. intros _ s5 (Wr5 & Us5 & Hi5). pose proof (stage_written _ _ _ _ _ _ _ St4 Wr5) as St5.
  rstep. eapply returns_upd_pcb; [by eapply stage_lookup|].
  pose proof (stage_pcb _ _ _ _ _ (pc_set (li_entry li)) St5 (fun y => eq_refl)) as St6.
  destruct (space_same s5 (put_pcb p (pc_set (li_entry li) (set_user_page_table t' x)) s5) p t' _
    (same_memory_put_pcb _ _ _ (pc_set (li_entry li) (set_user_page_table t' x)) (stage_lookup _ _ _ _ _ St5) eq_refl eq_refl) Us5 Hi5) as [Us6 Hi6].
  set (s6 := put_pcb p _ s5) in *.
  assert (U6 : untouched t' s5 s6) by (split; done).
  assert (Hb6 : bufs s6 = bufs s).
  { rewrite (ut_bufs _ _ _ U6), (ut_bufs _ _ _ (written_untouched _ _ _ Wr5)), (ut_bufs _ _ _ U4),
      (ut_bufs _ _ _ (written_untouched _ _ _ Wr3)), (ut_bufs _ _ _ (written_untouched _ _ _ Wr2)). done. }
  rstep. eapply returns_mono; [apply (build_stack_spec p s6 t' lo cs argbuf _ Us6 Hi6 Hcs (lk_args _ _ _ Hlo) W2'); by rewrite Hb6|].
  cbv beta. intros _ s7 (Wr7 & Us7 & Hi7). rstep. split; [done|].
  split; [by eapply stage_written; [apply stage_bufs; exact St6|exact Wr7]|]. split; [done|].
  pose proof (written_untouched _ _ _ Wr7) as U7.
  assert (Ut : untouched t s s3).
  { eapply untouched_trans; [exact U1|]. eapply untouched_trans; apply written_untouched; [exact Wr2|exact Wr3]. }
  assert (Ut' : untouched t' s4 s6) by (eapply untouched_trans; [by apply written_untouched|exact U6]).
  split; [|split; [|split]].
  - eapply (load_image_clauses li lo cs text data Hlo Hzero Hend Htext); [rewrite Hdata; change PAGESIZE with 8192; lia|].
    intros b Hbr. destruct (contents_valid b Hbr) as [e He]. exact (Hi7 b e He).
  - rewrite (ut_lst _ _ _ U7). change (lst s6 = lst s). rewrite (ut_lst _ _ _ Ut'), (ut_lst _ _ _ U4). apply Ut.
  - rewrite (ut_bufs _ _ _ U7). change (delete argbuf (bufs s6) = delete argbuf (bufs s)). by rewrite Hb6.
  - intros f o Hf. rewrite (ut_frames _ _ _ U7) by done. change (hw (set_bufs _ s6)) with (hw s6).
    rewrite (ut_frames _ _ _ Ut') by done.
    apply (outside_same_frames t' t (hw s) (hw s4) (same_frames_sym _ _ contents_same_frames)); [|done].
    apply (ut_frames t s s4). eapply untouched_trans; [exact Ut|exact U4].
Qed.

End contents.

(** ** The whole call *)

Definition sp_set (sp : Z) (x : pcb) : pcb := set_user_context (uc_set_sp sp (user_context x)) x.

(** The PCB of the loaded program, its page table aside. *)
Definition loaded_pcb (li : load_info) (lo : layout) (x : pcb) : pcb :=
  pc_set (li_entry li) (with_indexes lo (sp_set (lo_cpp lo - INITIAL_STACK_FRAME_SIZE) x)).

(** The frames at the loader's disposal: those of the old program, last page first, and
    the free ones. *)
Definition reusable (x : pcb) (fl : list Z) : list Z := rev (valid_pfns (user_page_table x)) ++ fl.

Definition layout_of (li : load_info) (cs : list (list Z)) : layout :=
  compute_layout li (Z.of_nat (length cs)) (args_size cs).

Section whole.
Context `{L : Libc} {LL : LibcLaws L} `{FS : FileSystem} {F : kstate -> list Z -> Prop} {FA : FrameAllocator L F}.

(** A program that can be loaded: the file opens, its headers put text below data and
    are read in full, the arguments are there and the machine runs with virtual memory. *)
Record load_ready (s : kstate) (p : Z) (name : list Z) (args : argv) (cs : list (list Z)) (fd : Z) (li : load_info)
    (ta da : Z) (x : pcb) (fl : list Z) : Prop := {
  lr_open : fs_open name = Some fd;
  lr_info : fs_load_info fd = Some li;
  lr_entry : VMEM_1_BASE <= li_entry li;
  lr_headers : headers_ok li ta da;
  lr_text : Z.of_nat (length (fs_read fd (li_t_faddr li) (li_t_npg li * PAGESIZE))) = li_t_npg li * PAGESIZE;
  lr_data : Z.of_nat (length (fs_read fd (li_id_faddr li) (li_id_npg li * PAGESIZE))) = li_id_npg li * PAGESIZE;
  lr_args : args_are s args cs;
  lr_strings : Forall cbytes cs;
  lr_small : 4 * Z.of_nat (length cs) + args_size cs < 2 ^ 30;
  lr_fits : layout_fits (layout_of li cs) = true;
  lr_pcb : pcbs s !! p = Some x;
  lr_table : length (user_page_table x) = Z.to_nat USER_PT_SIZE;
  lr_vm : r_vm (hw s) = VM_ENABLED;
  lr_ptlr1 : r_ptlr1 (hw s) = MAX_PT_LEN;
  lr_ptbr0 : PtUser p <> r_ptbr0 (hw s);
  lr_frames : Forall frame24 (reusable x fl) /\ NoDup (reusable x fl) }.

(** The stack pointer, the saved arguments and the new base register. *)
Lemma load_prefix {K : Z -> M Z} s p x args cs sp n fl (P : Z -> kstate -> Prop) :
  pcbs s !! p = Some x -> args_are s args cs -> MallocTotal L -> F s fl ->
  (forall argbuf s1, bufs s !! argbuf = None -> stage s s1 p (sp_set sp x) (user_page_table x) -> F s1 fl ->
    bufs s1 = <[argbuf := args_bytes cs]> (bufs s) -> frames (hw s1) = frames (hw s) -> returns (K argbuf) s1 P) ->
  returns (
    upd_pcb p (sp_set sp) ;;
    let! argbuf := malloc put_buf (replicate n 0) in
    if argbuf =? NULL then ret ERROR else
    let! cs := scan_args region_fuel args 0 in
    modify (put_buf argbuf (args_bytes cs)) ;;
    WriteRegister (REG_TLB_FLUSH TLB_FLUSH_1) ;;
    WriteRegister (REG_PTBR1 (PtUser p)) ;;
    K argbuf) s P.
Proof.
  intros Hx Ha MT HF HK. rstep. eapply returns_upd_pcb; [exact Hx|].
  pose proof (same_view_memory _ _ (same_memory_put_pcb s p x (sp_set sp x) Hx eq_refl eq_refl)) as V1.
  assert (Hlive : live (put_pcb p (sp_set sp x) s) = live s).
  { unfold live. cbn. rewrite dom_insert_lookup_L by done. done. }
  rstep. unfold malloc, returns at 1. cbn [oret]. rewrite Hlive.
  set (mt := mtick _). destruct (malloc_fresh mt (live s)) as [E|[Hpos Hfr]]; [by destruct (MT _ _ E)|].
  set (b := malloc_choice mt (live s)) in *. destruct (Z.eqb_spec b NULL) as [E|_]; [unfold NULL in E; lia|].
  assert (Hb : bufs s !! b = None).
  { apply not_elem_of_dom. intros Hin. apply Hfr. unfold live. rewrite !elem_of_union. by right. }
  set (s2 := put_buf b _ _). rstep.
  assert (V2 : same_view s s2) by (destruct V1 as [[? T] ? ?]; split; [split; [done|exact T]|done|done]).
  eapply returns_mono; [apply scan_args_spec; by eapply args_are_view|]. cbv beta.
  intros r s3 [-> (h & -> & Hm & Hf)]. pose proof (kernel_fresh_mem _ _ Hm) as Hk. destruct Hm as (c & m & -> & _).
  rstep. apply returns_modify. rstep.
  unfold WriteRegister at 1. apply returns_modify. rstep. unfold WriteRegister at 1. apply returns_modify.
  apply HK; [exact Hb| |by eapply F_same; [| |exact HF]| |].
  - split.
    + cbn. by destruct x.
    + done.
    + set (h2 := write_reg (REG_TLB_FLUSH TLB_FLUSH_1) (set_tlb c (set_frames m (hw s2)))).
      exists (tlb (write_reg (REG_PTBR1 (PtUser p)) h2)), m. split; [cbn; by case_decide|].
      eapply kernel_fresh_trans; [exact Hk|]. eapply kernel_fresh_trans; [|apply kernel_fresh_ptbr1]. apply kernel_fresh_drop.
  - cbn. by rewrite insert_insert_eq.
  - cbn. cbn in Hf. subst m. by case_decide.
Qed.

(** What is left of [LoadProgram] once the arguments are saved and the base register is set. *)
Definition load_rest (p fd : Z) (li : load_info) (lo : layout) (argbuf : Z) : M Z :=
  discard_region1 (PtUser p) ;;
  returning! map_text p li lo in
  returning! map_data p lo in
  returning! map_stack p lo in
  WriteRegister (REG_TLB_FLUSH TLB_FLUSH_1) ;;
  returning! read_segment fd (li_t_faddr li) (li_t_vaddr li) (li_t_npg li) in
  returning! read_segment fd (li_id_faddr li) (li_id_vaddr li) (li_id_npg li) in
  protect_text (PtUser p) li lo ;;
  zero_bytes (li_id_end li) (li_ud_end li - li_id_end li) ;;
  upd_pcb p (pc_set (li_entry li)) ;;
  build_stack lo argbuf ;;
  ret SUCCESS.

Lemma LoadProgram_to_rest s p name args cs fd li ta da x fl (P : Z -> kstate -> Prop) :
  load_ready s p name args cs fd li ta da x fl -> MallocTotal L -> F s fl ->
  (layout_ok li (layout_of li cs) cs ->
    forall argbuf s1, bufs s !! argbuf = None ->
    stage s s1 p (sp_set (lo_cpp (layout_of li cs) - INITIAL_STACK_FRAME_SIZE) x) (user_page_table x) -> F s1 fl ->
    bufs s1 = <[argbuf := args_bytes cs]> (bufs s) -> frames (hw s1) = frames (hw s) ->
    returns (load_rest p fd li (layout_of li cs) argbuf) s1 P) ->
  returns (LoadProgram name args p) s P.
Proof.
  intros [] MT HF HK. destruct (compute_layout_ok li ta da cs) as (Hlo & _ & _); [done..|].
  specialize (HK Hlo). unfold LoadProgram. rewrite lr_open0, lr_info0. destruct (Z.ltb_spec (li_entry li) VMEM_1_BASE); [lia|].
  rstep. eapply returns_mono; [by apply scan_args_spec|]. cbv beta. intros r s0 [-> (h0 & -> & Hh0 & Hf0)].
  cbv zeta. fold (layout_of li cs). rewrite lr_fits0. cbn [negb].
  assert (V0 : same_view s (set_hw h0 s)) by (apply only_read_view; by exists h0).
  eapply (load_prefix (set_hw h0 s) p x args cs); [done|by eapply args_are_view|done|by eapply F_same; [| |exact HF]|].
  intros argbuf s1 Hab [E R (c & m & H1 & Hc)] HF1 Hb1 Hm1. cbn [hw set_hw] in *.
  apply (HK argbuf s1 Hab); [|done|done|by rewrite Hm1]. split; [exact E|exact R|].
  pose proof (kernel_fresh_mem _ _ Hh0) as Hf. destruct Hh0 as (c' & m' & -> & _). exists c, m. rewrite H1. split; [done|].
  by eapply kernel_fresh_trans.
Qed.

Lemma LoadProgram_spec s p name args cs fd li ta da x fl :
  load_ready s p name args cs fd li ta da x fl -> MallocTotal L -> F s fl ->
  let lo := layout_of li cs in
  let g := geometry_of li lo in
  pages_needed g <= Z.of_nat (length (reusable x fl)) ->
  returns (LoadProgram name args p) s (fun r s' => r = SUCCESS /\ exists t,
    stage s s' p (loaded_pcb li lo x) t /\
    (forall i, zget t i = if i <? MAX_PT_LEN then loaded_entry rx_page g (user_page_table x) (reusable x fl) i else None) /\
    user_space s' p t /\
    program_image s' li lo cs (fs_read fd (li_t_faddr li) (li_t_npg li * PAGESIZE))
      (fs_read fd (li_id_faddr li) (li_id_npg li * PAGESIZE)) /\
    F s' (drop (Z.to_nat (pages_needed g)) (reusable x fl)) /\ bufs s' = bufs s /\
    forall f o, (forall i e, zget t i = Some e -> valid e = VALID_FRAME -> pfn e <> f) -> fbyte (hw s') f o = fbyte (hw s) f o).
Proof.
  intros HR MT HF lo g Hen. eapply (LoadProgram_to_rest s p); [exact HR..|done|done|].
  fold lo. intros Hlo argbuf s1 Hab St1 HF1 Hb1 Hm1. destruct HR. pose proof (lk_geometry _ _ _ Hlo) as Hg.
  pose proof (lk_npg _ _ _ Hlo) as Hnpg. destruct lr_headers0 as [_ _ _ _ _ Hid Hud Hz He].
  eapply (load_tables_spec (F := F) s s1 p _ (user_page_table x) li lo fl); try done; [by destruct lr_frames0|].
  intros s2 A ft R St2 HF2 Hb2 Hm2 HlA Hlft Hld Hld'.
  eapply returns_mono; [eapply (load_contents s p fd _ li lo cs argbuf A ft R (user_page_table x) (reusable x fl)); try done|].
  - by destruct lr_frames0.
  - rewrite Hnpg. exact He.
  - lia.
  - by rewrite Hb2, Hb1, lookup_insert_eq.
  - cbv beta. intros r s' (-> & St & Us & Pi & Hl & Hb & Ho). split; [done|]. exists (A ++ map rx_page ft ++ R).
    do 4 (split; [done|]). split; [|split].
    + eapply (F_same (F := F) s2); [exact Hl| |exact HF2].
      destruct (sg_rest _ _ _ _ _ St) as (_ & _ & _ & -> & _). by destruct (sg_rest _ _ _ _ _ St2) as (_ & _ & _ & -> & _).
    + rewrite Hb, Hb2, Hb1. apply delete_insert_id. exact Hab.
    + intros f o Hf. rewrite (Ho f o Hf). unfold fbyte, frame_of. by rewrite Hm2, Hm1.
Qed.

(** C5: [LoadProgram] builds the program.  With a file whose headers make sense, frames
    and heap enough, it returns [SUCCESS]: text, initialised data and their zeroed
    continuation, and a stack of the size the arguments need are mapped to frames of
    their own, text for execution and the rest for writing, every other page of the old
    program is gone and its frame free again; the memory holds the file's text and
    data, zeros behind the data, and on the stack [argc], [argv] with the strings it
    points to and the two NULLs; the saved stack pointer, entry point and heap start
    are set, and no frame the program does not own was written. *)
Theorem LoadProgram_builds s p name args cs fd li ta da x fl :
  load_ready s p name args cs fd li ta da x fl -> MallocTotal L -> F s fl ->
  let lo := layout_of li cs in
  let g := geometry_of li lo in
  pages_needed g <= Z.of_nat (length (reusable x fl)) ->
  returns (LoadProgram name args p) s (fun r s' => r = SUCCESS /\ exists t,
    stage s s' p (loaded_pcb li lo x) t /\
    (forall i, zget t i = if i <? MAX_PT_LEN then loaded_entry rx_page g (user_page_table x) (reusable x fl) i else None) /\
    user_space s' p t /\
    program_image s' li lo cs (fs_read fd (li_t_faddr li) (li_t_npg li * PAGESIZE))
      (fs_read fd (li_id_faddr li) (li_id_npg li * PAGESIZE)) /\
    F s' (drop (Z.to_nat (pages_needed g)) (reusable x fl)) /\ bufs s' = bufs s /\
    forall f o, (forall i e, zget t i = Some e -> valid e = VALID_FRAME -> pfn e <> f) -> fbyte (hw s') f o = fbyte (hw s) f o).
Proof. by apply LoadProgram_spec. Qed.

End whole.

(** ** Witness *)

(** A file with a page of text and a page of data, loaded with the arguments ["i"] and
    ["-v"] over the program of process 100, whose one page is in frame 60. *)
Definition ex_prog_info : load_info :=
  mkLoadInfo VMEM_1_BASE 0 VMEM_1_BASE 1 (VMEM_1_BASE + PAGESIZE) PAGESIZE (VMEM_1_BASE + PAGESIZE) 1
    (VMEM_1_BASE + PAGESIZE + 100) (VMEM_1_BASE + PAGESIZE + 100) 0 (VMEM_1_BASE + PAGESIZE + 500).

Definition ex_prog_files : FileSystem := {|
  fs_open := fun _ => Some 3;
  fs_load_info := fun _ => Some ex_prog_info;
  fs_read := fun _ off n => replicate (Z.to_nat n) (1 + off mod 255) |}.

Definition ex_args : list (list Z) := [[105]; [45; 118]].

Lemma ex_load_ready : load_ready (FS := ex_prog_files) ex_fork 100 [105] (KernelArgs ex_args 0) ex_args 3 ex_prog_info 0 1
  ex_fork_pcb [72; 71; 70].
Proof.
  split; try done; try by (cbn [fs_read ex_prog_files]; rewrite length_replicate).
  - exists 0%nat. split; [done|]. split; [cbn; lia|done].
  - unfold ex_args, cbytes. rewrite !Forall_cons, !Forall_nil. repeat split; lia.
  - split; [|by apply (bool_decide_unpack _)].
    change (Forall frame24 [60; 72; 71; 70]). rewrite !Forall_cons. unfold frame24. repeat split; try lia. by apply Forall_nil.
Qed.

Lemma LoadProgram_builds_witness :
  let lo := layout_of ex_prog_info ex_args in
  let g := geometry_of ex_prog_info lo in
  returns (LoadProgram (L := bump_libc) (FS := ex_prog_files) [105] (KernelArgs ex_args 0) 100) ex_fork (fun r s' =>
    r = SUCCESS /\ exists t,
    stage ex_fork s' 100 (loaded_pcb ex_prog_info lo ex_fork_pcb) t /\
    (forall i, zget t i = if i <? MAX_PT_LEN
      then loaded_entry rx_page g (user_page_table ex_fork_pcb) (reusable ex_fork_pcb [72; 71; 70]) i else None) /\
    user_space s' 100 t /\
    program_image s' ex_prog_info lo ex_args (fs_read (FileSystem := ex_prog_files) 3 0 (1 * PAGESIZE))
      (fs_read (FileSystem := ex_prog_files) 3 PAGESIZE (1 * PAGESIZE)) /\
    free_list lstore ∅ s' (drop (Z.to_nat (pages_needed g)) (reusable ex_fork_pcb [72; 71; 70])) /\
    bufs s' = bufs ex_fork /\
    forall f o, (forall i e, zget t i = Some e -> valid e = VALID_FRAME -> pfn e <> f) ->
      fbyte (hw s') f o = fbyte (hw ex_fork) f o).
Proof.
  apply (LoadProgram_builds (L := bump_libc) (FS := ex_prog_files) (F := free_list lstore ∅) ex_fork 100 [105]
    (KernelArgs ex_args 0) ex_args 3 ex_prog_info 0 1 ex_fork_pcb [72; 71; 70]).
  - exact ex_load_ready.
  - exact bump_libc_total.
  - exact ex_frames3_lstore.
  - vm_compute. discriminate.
Defined.
