(* ===== verification/LoadFail.v ===== *)
(** * A load that runs out of frames ([load_program.c])

    The error path of the mapping loops of [LoadProgram]: what is put on the free list
    while the caller still runs. *)

From Stdlib Require Import ZArith Lia.
From stdpp Require Import base gmap list.
From S2P Require Import Prelude Hardware State Logic KList Memory Frames Process ContextSwitch Sched LoadProgram Fork LoadArgs Loader Loaded.

Open Scope Z_scope.

Section fail.
Context `{L : Libc} {LL : LibcLaws L} `{FS : FileSystem} {F : kstate -> list Z -> Prop} {FA : FrameAllocator L F}.

(** The state an exhausted loop leaves: the page at [i] was being mapped, its entry was
    [e], one of those [r1] of the loop, which start at [lo]; [t] is the table half
    built, [ks] the kernel stack. *)
Record gave_up (s0 s' : kstate) (p : Z) (x : pcb) (lo : Z) (r1 t ks : list pte) (i : Z) (e : pte) : Prop := {
  gu_stage : stage s0 s' p x t;
  gu_old : zget r1 (i - lo) = Some e;
  gu_half : zget t i = Some (rw_page (pfn e));
  gu_free : F s' (rev (valid_pfns ks ++ valid_pfns t)) }.

(** One of the three mapping loops, with too few frames. *)
Lemma stage_map_exhausted {K : M Z} s0 s p x f l r1 r2 fl (P : Z -> kstate -> Prop) : MallocTotal L ->
  stage s0 s p x (l ++ r1 ++ r2) -> length (l ++ r1 ++ r2) = Z.to_nat USER_PT_SIZE ->
  length (kernel_stack_pt (f x)) = Z.to_nat KERNEL_STACK_SIZE ->
  (forall y, f (set_user_page_table (l ++ r1 ++ r2) y) = set_user_page_table (l ++ r1 ++ r2) (f y)) ->
  PtUser p <> r_ptbr0 (hw s0) -> F s fl -> Forall frame24 fl -> (length fl < length r1)%nat ->
  (forall s' t i e, gave_up s0 s' p (f x) (Z.of_nat (length l)) r1 t (kernel_stack_pt (f x)) i e -> bufs s' = bufs s -> P ERROR s') ->
  returns (returning! (upd_pcb p f ;; map_pages p (Z.of_nat (length l)) (Z.of_nat (length l) + Z.of_nat (length r1))) in K) s P.
Proof.
  intros MT Hs Hlen Hks Hf H0 HF Hg Hn HP. rstep. rstep. eapply returns_upd_pcb; [by eapply stage_lookup|].
  pose proof (stage_pcb _ _ _ _ _ f Hs Hf) as Hs1. set (s1 := put_pcb p _ s) in *.
  unfold map_pages, zseq. replace (Z.to_nat _) with (length r1) by lia.
  eapply returns_mono; [apply (map_pages_exhausted (F := F) p (kernel_stack_pt (f x)) r1 MT l r2 s1 fl)|]; try done.
  - by eapply stage_table.
  - cbn. rewrite lookup_insert_eq. cbn. by rewrite Hf.
  - by rewrite (stage_ptbr0 _ _ _ _ _ Hs1).
  - by eapply F_same; [| |exact HF].
  - cbv beta. intros o s' (-> & t & R & Et & HF').
    destruct (lookup_lt_is_Some_2 r1 (length fl) Hn) as [e He].
    apply (HP s' t (Z.of_nat (length l) + Z.of_nat (length fl)) e); [|by destruct R as (h & n & c & -> & _)].
    split; [by eapply stage_retabled| | |exact HF'].
    + unfold zget. rewrite bool_decide_true by lia. rewrite <- He. f_equal. lia.
    + rewrite Et. rewrite zget_app_r by lia. rewrite zget_app_r by (rewrite length_map; lia). rewrite length_map.
      rewrite (drop_S r1 e) by done. rewrite zget_app_l by (cbn; lia).
      replace (_ - _ - _) with 0 by lia. done.
Qed.

(** The entry of the old table behind the page whose mapping failed. *)
Lemma discarded_pfn e : valid e = VALID_FRAME -> pfn (discarded e) = 0.
Proof. unfold discarded. by intros ->. Qed.

(** A load that fails because page [i] of [p] cannot be had. *)
Definition load_gave_up (s0 s' : kstate) (p : Z) (x : pcb) : Prop :=
  exists x' t i e, stage s0 s' p x' t /\ kernel_stack_pt x' = kernel_stack_pt x /\
    zget (user_page_table x) i = Some e /\ zget t i = Some (rw_page (pfn (discarded e))) /\
    F s' (rev (valid_pfns (kernel_stack_pt x) ++ valid_pfns t)).

Lemma gave_up_load s0 s' p x x' lo r1 t i e :
  gave_up s0 s' p x' lo r1 t (kernel_stack_pt x') i e -> kernel_stack_pt x' = kernel_stack_pt x ->
  (forall k, zget r1 k <> None -> zget r1 k = zget (map discarded (user_page_table x)) (lo + k)) ->
  load_gave_up s0 s' p x.
Proof.
  intros [H1 H2 H3 H4] Hk Hr. rewrite (Hr _ ltac:(by rewrite H2)) in H2. rewrite zget_fmap in H2.
  replace (lo + (i - lo)) with i in H2 by lia. apply fmap_Some in H2 as (e0 & He0 & ->).
  exists x', t, i, e0. rewrite <- Hk. done.
Qed.

Lemma zget_middle {A} (l pre mid post : list A) lo : l = pre ++ mid ++ post -> Z.of_nat (length pre) = lo ->
  forall k, zget mid k <> None -> zget mid k = zget l (lo + k).
Proof.
  intros -> <- k Hk. destruct (zget mid k) as [e|] eqn:Ek; [|done]. pose proof (zget_Some _ _ _ Ek).
  rewrite zget_app_r, zget_app_l by lia. rewrite <- Ek. f_equal. lia.
Qed.

(** The free list after a load that gives up while mapping: too few frames for the
    text, the data or the stack. *)
Lemma load_tables_exhausted {K : M Z} s0 s p x x0 li lo fl (P : Z -> kstate -> Prop) : MallocTotal L ->
  let t0 := user_page_table x0 in let g := geometry_of li lo in let fl' := rev (valid_pfns t0) ++ fl in
  stage s0 s p x t0 -> length t0 = Z.to_nat USER_PT_SIZE ->
  length (kernel_stack_pt x0) = Z.to_nat KERNEL_STACK_SIZE -> kernel_stack_pt x = kernel_stack_pt x0 ->
  geometry_ok g -> PtUser p <> r_ptbr0 (hw s0) ->
  F s fl -> Forall frame24 fl' -> Z.of_nat (length fl') < pages_needed g ->
  (forall s', load_gave_up s0 s' p x0 -> bufs s' = bufs s -> P ERROR s') ->
  returns (discard_region1 (PtUser p) ;; returning! map_text p li lo in returning! map_data p lo in
    returning! map_stack p lo in K) s P.
Proof.
  intros MT t0 g fl' Hst Hlen Hks Hkx Hg H0 HF H24 Hn HP.
  destruct (split6 (map discarded t0) (ge_ta g) (ge_tn g) (ge_da g) (ge_dn g) (ge_sa g))
    as (A & T & B & D & G & S & E & HA & HT & HB & HD & HG & HS); [by rewrite length_map| | | | | | |];
    try (destruct Hg; unfold ge_sa; lia).
  assert (HSn : Z.of_nat (length S) = ge_sn g) by (unfold ge_sa in HS; lia). unfold pages_needed in Hn.
  assert (Hl6 : length (A ++ T ++ B ++ D ++ G ++ S) = Z.to_nat USER_PT_SIZE) by (by rewrite <- E, length_map).
  pose proof (zget_middle _ A T (B ++ D ++ G ++ S) _ E eq_refl) as HT6.
  assert (HD6 : forall k, zget D k <> None -> zget D k = zget (map discarded t0) (ge_da g + k)).
  { apply (zget_middle _ (A ++ T ++ B) _ (G ++ S)); [by rewrite E, <- !app_assoc|rewrite !length_app; lia]. }
  assert (HS6 : forall k, zget S k <> None -> zget S k = zget (map discarded t0) (ge_sa g + k)).
  { apply (zget_middle _ (A ++ T ++ B ++ D ++ G) _ []); [by rewrite E, <- !app_assoc, app_nil_r|rewrite !length_app; unfold ge_sa in *; lia]. }
  eapply stage_discard; try done. intros s1 Hs1 HF1 Hb1 _. fold fl' in HF1. rewrite E in Hs1.
  unfold map_text. change (lo_text_pg1 lo) with (ge_ta g). change (li_t_npg li) with (ge_tn g). rewrite <- HA, <- HT.
  destruct (decide (length T <= length fl')%nat) as [Hc|Hc].
  2:{ eapply (stage_map_exhausted s0 s1 p x _ A T (B ++ D ++ G ++ S) fl' P MT Hs1); try done; [by rewrite <- Hks, <- Hkx|lia|].
    intros s' t i e Hgu Hb. apply HP; [|congruence]. eapply gave_up_load; [exact Hgu|done|exact HT6]. }
  eapply (stage_map (F := F) s0 s1 p x _ A T (B ++ D ++ G ++ S) fl' P Hs1); try done.
  intros s2 Hs2 HF2 Hb2 _. set (pre := A ++ map rw_page (take (length T) fl') ++ B).
  assert (E2 : A ++ map rw_page (take (length T) fl') ++ B ++ D ++ G ++ S = pre ++ D ++ (G ++ S))
    by (unfold pre; by rewrite <- !app_assoc).
  rewrite E2 in Hs2.
  assert (Hl2 : Z.of_nat (length pre) = ge_da g).
  { unfold pre. rewrite !length_app, length_map, length_take. lia. }
  assert (Hlen2 : length (pre ++ D ++ G ++ S) = Z.to_nat USER_PT_SIZE).
  { rewrite <- Hl6. unfold pre. rewrite !length_app, length_map, length_take. lia. }
  unfold map_data. change (lo_data_pg1 lo) with (ge_da g). change (lo_data_npg lo) with (ge_dn g). rewrite <- Hl2, <- HD.
  assert (Hld : length (drop (length T) fl') = (length fl' - length T)%nat) by apply length_drop.
  destruct (decide (length D <= length (drop (length T) fl'))%nat) as [Hc2|Hc2].
  2:{ eapply (stage_map_exhausted s0 s2 p _ _ pre D (G ++ S) (drop (length T) fl') P MT Hs2); try done; [by rewrite <- Hks, <- Hkx|by apply Forall_drop|lia|].
    intros s' t i e Hgu Hb. apply HP; [|congruence]. rewrite Hl2 in Hgu. eapply gave_up_load; [exact Hgu|done|exact HD6]. }
  eapply (stage_map (F := F) s0 s2 p _ _ pre D (G ++ S) (drop (length T) fl') P Hs2); try done; [by apply Forall_drop|].
  intros s3 Hs3 HF3 Hb3 _. unfold map_stack. apply returns_orelse_bind. rstep. eapply returns_upd_pcb; [by eapply stage_lookup|].
  pose proof (stage_pcb _ _ _ _ _ (set_user_heap_pt_index (lo_data_pg1 lo + lo_data_npg lo)) Hs3 (fun y => eq_refl)) as Hs4.
  set (s4 := put_pcb p _ s3) in *. set (dd := map rw_page (take (length D) _)) in *.
  assert (E4 : pre ++ dd ++ G ++ S = (pre ++ dd ++ G) ++ S ++ []) by (by rewrite app_nil_r, <- !app_assoc).
  rewrite E4 in Hs4.
  assert (Hdd : length dd = length D) by (unfold dd; rewrite length_map, length_take; lia).
  assert (Hl4 : Z.of_nat (length (pre ++ dd ++ G)) = ge_sa g) by (rewrite !length_app, Hdd; lia).
  change (MAX_PT_LEN - lo_stack_npg lo) with (ge_sa g).
  replace MAX_PT_LEN with (ge_sa g + Z.of_nat (length S)) by lia. rewrite <- Hl4.
  eapply (stage_map_exhausted s0 s4 p _ _ (pre ++ dd ++ G) S [] (drop (length D) (drop (length T) fl')) P MT Hs4); try done.
  - rewrite <- Hlen2, !length_app, Hdd. cbn. lia.
  - by rewrite <- Hks, <- Hkx.
  - by eapply F_same; [| |exact HF3].
  - by repeat apply Forall_drop.
  - rewrite !length_drop. lia.
  - intros s' t i e Hgu Hb. change (bufs s4) with (bufs s3) in Hb. apply HP; [|congruence]. rewrite Hl4 in Hgu.
    eapply gave_up_load; [exact Hgu|done|exact HS6].
Qed.

(** A program given up half-built: its table [t], the entry [i] that had no frame, and
    the list of free frames. *)
Definition half_built (s s' : kstate) (p : Z) (x : pcb) : Prop :=
  exists x' t i e, stage s s' p x' t /\ kernel_stack_pt x' = kernel_stack_pt x /\
    zget (user_page_table x) i = Some e /\ zget t i = Some (rw_page (pfn (discarded e))) /\
    (valid e = VALID_FRAME -> 0 ∈ valid_pfns t) /\
    F s' (rev (valid_pfns (kernel_stack_pt x) ++ valid_pfns t)).

(** C14: a load that runs out of frames.  [LoadProgram] returns [ERROR] and, on the way,
    puts on the free list the frames of the kernel stack the caller is running on (its
    entries stay valid), all frames of the half-built program (which stay mapped), and
    for the page whose frame could not be had the number its entry held before: 0 for
    a page of the old program, the first frame of the kernel.  The block with the
    saved arguments is never freed. *)
Theorem LoadProgram_runs_out s p name args cs fd li ta da x fl :
  load_ready s p name args cs fd li ta da x fl -> MallocTotal L -> F s fl ->
  length (kernel_stack_pt x) = Z.to_nat KERNEL_STACK_SIZE ->
  Z.of_nat (length (reusable x fl)) < pages_needed (geometry_of li (layout_of li cs)) ->
  returns (LoadProgram name args p) s (fun r s' => r = ERROR /\
    half_built s s' p x /\
    exists b, bufs s !! b = None /\ bufs s' = <[b := args_bytes cs]> (bufs s)).
Proof.
  intros HR MT HF Hks Hn. eapply (LoadProgram_to_rest (F := F) s p); [exact HR..|done|done|].
  intros Hlo argbuf s1 Hab St1 HF1 Hb1 Hm1. pose proof (lk_geometry _ _ _ Hlo) as Hg. set (lo := layout_of li cs) in *.
  pose proof (lr_frames _ _ _ _ _ _ _ _ _ _ _ HR) as [H24 _].
  eapply (load_tables_exhausted s s1 p _ x li lo fl _ MT); try done; [by eapply lr_table|by eapply lr_ptbr0|].
  intros s' (x' & t & i & e & Hst & Hk & He & Ht & HF') Hb. split; [done|]. split.
  - exists x', t, i, e. do 4 (split; [done|]). split; [|exact HF'].
    intros Hv. rewrite (discarded_pfn e Hv) in Ht. unfold valid_pfns. apply list_elem_of_fmap.
    exists (rw_page 0). split; [done|]. apply list_elem_of_In, filter_In. split; [|done]. apply list_elem_of_In.
    unfold zget in Ht. case_bool_decide; [|done]. by eapply list_elem_of_lookup_2.
  - exists argbuf. split; [exact Hab|]. rewrite Hb. exact Hb1.
Qed.

End fail.

(** ** Witness *)

(** Three pages of data this time, and the kernel stack of process 100 in its frames:
    five pages are needed and the frames 60, 72, 71 and 70 are there. *)
Definition ex_large_info : load_info :=
  mkLoadInfo VMEM_1_BASE 0 VMEM_1_BASE 1 (VMEM_1_BASE + PAGESIZE) PAGESIZE (VMEM_1_BASE + PAGESIZE) 3
    (VMEM_1_BASE + PAGESIZE + 100) (VMEM_1_BASE + PAGESIZE + 100) 0 (VMEM_1_BASE + PAGESIZE + 500).

Definition ex_large_files : FileSystem := {|
  fs_open := fun _ => Some 3;
  fs_load_info := fun _ => Some ex_large_info;
  fs_read := fun _ off n => replicate (Z.to_nat n) (1 + off mod 255) |}.

Definition ex_stacked_pcb : pcb := set_kernel_stack_pt [mkPte 1 3 126; mkPte 1 3 127] ex_fork_pcb.
Definition ex_stacked : kstate := put_pcb 100 ex_stacked_pcb ex_fork.

Lemma ex_large_ready : load_ready (FS := ex_large_files) ex_stacked 100 [105] (KernelArgs ex_args 0) ex_args 3 ex_large_info 0 1
  ex_stacked_pcb [72; 71; 70].
Proof.
  split; try done; try by (cbn [fs_read ex_large_files]; rewrite length_replicate).
  - exists 0%nat. split; [done|]. split; [cbn; lia|done].
  - unfold ex_args, cbytes. rewrite !Forall_cons, !Forall_nil. repeat split; lia.
  - split; [|by apply (bool_decide_unpack _)].
    change (Forall frame24 [60; 72; 71; 70]). rewrite !Forall_cons. unfold frame24. repeat split; try lia. by apply Forall_nil.
Qed.

Lemma LoadProgram_runs_out_witness :
  returns (LoadProgram (L := bump_libc) (FS := ex_large_files) [105] (KernelArgs ex_args 0) 100) ex_stacked (fun r s' =>
    r = ERROR /\
    half_built (F := free_list lstore ∅) ex_stacked s' 100 ex_stacked_pcb /\
    exists b, bufs ex_stacked !! b = None /\ bufs s' = <[b := args_bytes ex_args]> (bufs ex_stacked)).
Proof.
  apply (LoadProgram_runs_out (L := bump_libc) (FS := ex_large_files) (F := free_list lstore ∅) ex_stacked 100 [105]
    (KernelArgs ex_args 0) ex_args 3 ex_large_info 0 1 ex_stacked_pcb [72; 71; 70]).
  - exact ex_large_ready.
  - exact bump_libc_total.
  - exact ex_frames3_lstore.
  - reflexivity.
  - vm_compute. reflexivity.
Defined.
