(* ===== verification/BootMem.v ===== *)
(** * The memory [KernelStart] sets up ([kernel.c])

    Virtual memory is turned on over an identity map of the kernel: every address the
    kernel uses means the same before and after.  [SetUpGlobals] gives the frames above
    region 0, and only those, to the allocator. *)

From Stdlib Require Import ZArith Lia.
From stdpp Require Import base gmap list.
From S2P Require Import Prelude Hardware State Store Logic KList KQueue KPipe Memory Frames Process LoadProgram Boot.

Open Scope Z_scope.

(** ** Loops over a table nothing is cached from *)

Definition quiet (s : kstate) : Prop := tlb (hw s) = ∅.

Lemma quiet_put t l s : quiet s -> quiet (pt_put_table t l s).
Proof. unfold quiet. by destruct (pt_put_table_others t l s) as (_ & _ & _ & _ & _ & -> & _). Qed.

Lemma tlb_mark_empty P : tlb_mark P ∅ = ∅.
Proof. apply map_eq. intros v. by rewrite lookup_tlb_mark, lookup_empty. Qed.

Lemma pt_upd_quiet t l e l' f s : quiet s -> pt_table t s = Some (l ++ e :: l') ->
  pt_upd t (Z.of_nat (length l)) f s = Ret tt (pt_put_table t (l ++ f e :: l') s).
Proof.
  intros Hq Ht. rewrite (pt_upd_at t l e l' f s Ht), Hq. unfold tlb_step. rewrite tlb_mark_empty.
  f_equal. unfold tab_upd. pose proof (quiet_put t (l ++ f e :: l') s Hq) as Hq1. unfold quiet in Hq1.
  destruct (pt_put_table_others t (l ++ f e :: l') s) as (_ & _ & _ & _ & _ & Hh & _). rewrite <- Hh.
  case_decide; rewrite <- Hq1 at 1; by destruct (pt_put_table t (l ++ f e :: l') s) as [???????[]].
Qed.

Lemma pt_upd3_quiet t l e l' f g h s : quiet s -> pt_table t s = Some (l ++ e :: l') ->
  let i := Z.of_nat (length l) in
  (pt_upd t i f ;; pt_upd t i g ;; pt_upd t i h) s = Ret tt (pt_put_table t (l ++ h (g (f e)) :: l') s).
Proof.
  intros Hq Ht i. assert (Hp : forall x, pt_table t (pt_put_table t x s) = Some x) by (intros x; apply pt_table_put_eq; eauto).
  subst i. unfold bind. rewrite (pt_upd_quiet t l e l' f s Hq Ht). cbn [obind].
  rewrite (pt_upd_quiet t l (f e) l' g _ (quiet_put _ _ _ Hq) (Hp _)). cbn [obind].
  rewrite pt_put_table_twice, (pt_upd_quiet t l (g (f e)) l' h _ (quiet_put _ _ _ Hq) (Hp _)).
  by rewrite pt_put_table_twice.
Qed.

(** A loop that rewrites the entries of a range of pages, each from its number and what
    it was. *)
Lemma mfor_pt_quiet t (h : Z -> pte -> pte) (body : Z -> M unit) r2 :
  (forall s l e l', quiet s -> pt_table t s = Some (l ++ e :: l') ->
    body (Z.of_nat (length l)) s = Ret tt (pt_put_table t (l ++ h (Z.of_nat (length l)) e :: l') s)) ->
  forall r1 l s, quiet s -> pt_table t s = Some (l ++ r1 ++ r2) ->
  mfor (zrange (Z.of_nat (length l)) (length r1)) body s =
    Ret tt (pt_put_table t (l ++ zip_with h (zrange (Z.of_nat (length l)) (length r1)) r1 ++ r2) s).
Proof.
  intros Hb. induction r1 as [|e r1 IH]; intros l s Hq Ht; cbn [length zrange mfor zip_with].
  - unfold ret. f_equal. symmetry. by apply pt_put_same.
  - unfold bind. rewrite (Hb s l e (r1 ++ r2)) by done. cbn [obind]. set (e' := h _ e).
    replace (Z.of_nat (length l) + 1) with (Z.of_nat (length (l ++ [e']))) by (rewrite length_app; cbn; lia).
    rewrite (IH (l ++ [e'])).
    + by rewrite pt_put_table_twice, <- app_assoc.
    + by apply quiet_put.
    + rewrite <- app_assoc. apply pt_table_put_eq. eauto.
Qed.

Lemma zip_with_const {B} (f : Z -> B) {A} (r : list A) a : zip_with (fun i _ => f i) (zrange a (length r)) r = map f (zrange a (length r)).
Proof. revert a. induction r as [|e r IH]; intros a; cbn; [done|]. by rewrite IH. Qed.

Lemma zip_with_map_id (h : Z -> pte -> pte) f l : (forall i, i ∈ l -> h i (f i) = f i) -> zip_with h l (map f l) = map f l.
Proof.
  induction l as [|i l IH]; intros H; cbn; [done|]. rewrite H by (by left). f_equal. apply IH. intros j Hj. apply H. by right.
Qed.

(** All entries of a table, from their numbers. *)
Lemma mfor_pt_all t (h : Z -> pte) (body : Z -> M unit) l s :
  (forall s l e l', quiet s -> pt_table t s = Some (l ++ e :: l') ->
    body (Z.of_nat (length l)) s = Ret tt (pt_put_table t (l ++ h (Z.of_nat (length l)) :: l') s)) ->
  quiet s -> pt_table t s = Some l ->
  mfor (zrange 0 (length l)) body s = Ret tt (pt_put_table t (map h (zrange 0 (length l))) s).
Proof.
  intros Hb Hq Ht. pose proof (mfor_pt_quiet t (fun i _ => h i) body [] Hb l [] s Hq) as H. cbn [length app] in H.
  rewrite zip_with_const, !app_nil_r in H. by apply H.
Qed.

(** ** The layout of the kernel *)

Section layout.
Context `{I : Image}.

(** Text, data and heap in this order, below the kernel stack. *)
Record kernel_layout : Prop := {
  kl_data : 0 <= kernel_data_start <= kernel_data_end;
  kl_brk : kernel_data_end <= kernel_orig_brk <= KERNEL_STACK_BASE }.

Lemma entry_of_fits v p f : 0 <= v < 2 -> 0 <= p < 8 -> 0 <= f < 2 ^ 24 -> entry_of v p f = mkPte v p f.
Proof. intros. unfold entry_of, set_valid, set_prot, set_pfn. cbn. by rewrite land_1_small, land_7_small, land_pfn_small. Qed.

(** The page with number [i] of region 0. *)
Lemma region0_entry_spec i : kernel_layout -> 0 <= i < MAX_PT_LEN ->
  region0_entry kernel_orig_brk i =
    if i <? kernel_data_start / PAGESIZE then mkPte VALID_FRAME X_NO_W_R i
    else if (i <? kernel_orig_brk / PAGESIZE) || (KERNEL_STACK_BASE / PAGESIZE <=? i) then mkPte VALID_FRAME NO_X_W_R i
    else mkPte INVALID_FRAME 0 i.
Proof.
  intros [H1 H2] Hi. change KERNEL_STACK_BASE with 1032192 in *. change MAX_PT_LEN with 128 in Hi. change PAGESIZE with 8192.
  unfold region0_entry. rewrite !i32_id by lia. rewrite !shiftr_page. change PAGESIZE with 8192.
  change (VMEM_0_BASE / 8192) with 0. change (KERNEL_STACK_BASE / 8192) with 126. change (KERNEL_STACK_LIMIT / 8192) with 128.
  change (1032192 / 8192) with 126. rewrite !Z.sub_0_r, Z.add_0_r.
  assert (Hm : kernel_data_start / 8192 <= kernel_data_end / 8192 <= kernel_orig_brk / 8192) by (split; apply Z.div_le_mono; lia).
  assert (Hb : 0 <= kernel_data_start / 8192) by (apply Z.div_pos; lia).
  rewrite !entry_of_fits by (unfold VALID_FRAME, INVALID_FRAME, X_NO_W_R, NO_X_W_R; lia).
  repeat match goal with
    | |- context [?a <=? ?b] => destruct (Z.leb_spec a b)
    | |- context [?a <? ?b] => destruct (Z.ltb_spec a b)
    end; cbn [andb orb]; try done; lia.
Qed.

(** Writing the heap's entries once more changes nothing. *)
Lemma heap_entry_again i : kernel_layout -> kernel_data_end / PAGESIZE <= i < kernel_orig_brk / PAGESIZE ->
  set_valid VALID_FRAME (set_pfn i (set_prot NO_X_W_R (region0_entry kernel_orig_brk i))) = region0_entry kernel_orig_brk i.
Proof.
  intros HL Hi. pose proof HL as [H1 H2]. change KERNEL_STACK_BASE with 1032192 in *. change PAGESIZE with 8192 in *.
  assert (kernel_orig_brk / 8192 <= 126) by (change 126 with (1032192 / 8192); apply Z.div_le_mono; lia).
  assert (0 <= kernel_data_start / 8192 <= kernel_data_end / 8192) by (split; [apply Z.div_pos|apply Z.div_le_mono]; lia).
  rewrite region0_entry_spec by (change MAX_PT_LEN with 128; lia || done). change PAGESIZE with 8192.
  destruct (Z.ltb_spec i (kernel_data_start / 8192)); [lia|]. destruct (Z.ltb_spec i (kernel_orig_brk / 8192)); [|lia].
  cbn [orb]. unfold set_valid, set_pfn, set_prot. cbn. by rewrite land_pfn_small by lia.
Qed.

End layout.

(** ** The page tables *)

Section tables.
Context `{L : Libc} {LL : LibcLaws L} `{C : Compiler} `{FS : FileSystem} `{I : Image}.

Lemma pt_clear_spec t l s : quiet s -> pt_table t s = Some l ->
  pt_clear t (Z.of_nat (length l)) s = Ret tt (pt_put_table t (replicate (length l) pte_zero) s).
Proof.
  intros Hq Ht. unfold pt_clear, zseq. rewrite Z.sub_0_r, Nat2Z.id.
  rewrite (mfor_pt_all t (fun _ => pte_zero) _ l s); [|intros s0 l0 e l' H0 H1; by apply (pt_upd_quiet t l0 e l')|done|done].
  do 2 f_equal. generalize 0. induction (length l) as [|n IH]; intros z; cbn; [done|]. by rewrite IH.
Qed.

(** What a write leaves in the other registers, and in memory. *)
Lemma r_vm_write r h : r_vm (write_reg r h) = match r with REG_VM_ENABLE v => v | _ => r_vm h end.
Proof. destruct r; cbn; by repeat case_decide. Qed.

Lemma r_ptbr0_write r h : r_ptbr0 (write_reg r h) = match r with REG_PTBR0 t => t | _ => r_ptbr0 h end.
Proof. destruct r; cbn; by repeat case_decide. Qed.

Lemma r_ptlr0_write r h : r_ptlr0 (write_reg r h) = match r with REG_PTLR0 n => n | _ => r_ptlr0 h end.
Proof. destruct r; cbn; by repeat case_decide. Qed.

Lemma r_ptbr1_write r h : r_ptbr1 (write_reg r h) = match r with REG_PTBR1 t => t | _ => r_ptbr1 h end.
Proof. destruct r; cbn; by repeat case_decide. Qed.

Lemma r_ptlr1_write r h : r_ptlr1 (write_reg r h) = match r with REG_PTLR1 n => n | _ => r_ptlr1 h end.
Proof. destruct r; cbn; by repeat case_decide. Qed.

Lemma r_vector_write r h : r_vector (write_reg r h) = match r with REG_VECTOR_BASE => true | _ => r_vector h end.
Proof. destruct r; cbn; by repeat case_decide. Qed.

Lemma pid_tick_write r h : pid_tick (write_reg r h) = pid_tick h.
Proof. destruct r; cbn; by repeat case_decide. Qed.

Lemma frames_write r h : frames (write_reg r h) = frames h.
Proof. destruct r; cbn; by repeat case_decide. Qed.

Lemma tlb_write r h : tlb h = ∅ -> tlb (write_reg r h) = ∅.
Proof.
  intros Hq. destruct r; cbn; rewrite ?Hq; try done; try (case_decide; cbn; rewrite ?Hq; [done|apply tlb_mark_empty]).
Qed.

Lemma quiet_reg r s : quiet s -> quiet (set_hw (write_reg r (hw s)) s).
Proof. apply (tlb_write r (hw s)). Qed.

Lemma quiet_hw h s : tlb h = ∅ -> quiet (set_hw h s).
Proof. done. Qed.

Lemma quiet_put_pt a t s : quiet s -> quiet (put_pt a t s).
Proof. done. Qed.

Lemma ptabs_set_hw h s : ptabs (set_hw h s) = ptabs s.
Proof. done. Qed.

(** The registers [KernelStart] sets before the memory is turned on, and that one. *)
Definition boot_registers (k u : Z) (h : khw) : khw :=
  write_reg (REG_VM_ENABLE VM_ENABLED) (write_reg (REG_PTLR1 USER_PT_SIZE) (write_reg (REG_PTBR1 (PtHeap u))
    (write_reg (REG_PTLR0 KERNEL_PT_SIZE) (write_reg (REG_PTBR0 (PtHeap k)) (write_reg REG_VECTOR_BASE h))))).

(** The map of region 0 for the break [brk]. *)
Definition region0_table (brk : Z) : list pte := map (region0_entry brk) (zrange 0 (Z.to_nat KERNEL_PT_SIZE)).

Lemma SetRegion0_pt_spec k l s : quiet s -> ptabs s !! k = Some l -> length l = Z.to_nat KERNEL_PT_SIZE ->
  SetRegion0_pt (PtHeap k) KERNEL_PT_SIZE s = Ret 0 (put_pt k (region0_table (kernel_brk (gl s)))
    (set_hw (write_reg (REG_PTLR0 KERNEL_PT_SIZE) (write_reg (REG_PTBR0 (PtHeap k)) (hw s))) s)).
Proof.
  intros Hq Hk Hl. unfold SetRegion0_pt. rewrite decide_False by done.
  set (s2 := set_hw (write_reg (REG_PTLR0 KERNEL_PT_SIZE) (write_reg (REG_PTBR0 (PtHeap k)) (hw s))) s).
  assert (Hq2 : quiet s2) by exact (quiet_reg _ _ (quiet_reg (REG_PTBR0 (PtHeap k)) s Hq)).
  assert (Hk2 : pt_table (PtHeap k) s2 = Some l) by exact Hk.
  transitivity ((pt_clear (PtHeap k) KERNEL_PT_SIZE ;; mfor (zseq 0 KERNEL_PT_SIZE) (fun pt_index =>
    pt_upd (PtHeap k) (pt_index - Z.shiftr VMEM_0_BASE PAGESHIFT) (fun _ => region0_entry (kernel_brk (gl s)) pt_index)) ;; ret 0) s2); [done|].
  replace KERNEL_PT_SIZE with (Z.of_nat (length l)) at 1 by (rewrite Hl; done).
  unfold bind at 1. rewrite (pt_clear_spec _ _ _ Hq2 Hk2). cbn [obind].
  unfold zseq. rewrite Z.sub_0_r.
  set (z := replicate (length l) pte_zero).
  replace (Z.to_nat KERNEL_PT_SIZE) with (length z) by (unfold z; by rewrite length_replicate).
  unfold bind. rewrite (mfor_pt_all (PtHeap k) (region0_entry (kernel_brk (gl s)))).
  - cbn [obind]. unfold ret. f_equal. rewrite pt_put_table_twice. unfold z. rewrite length_replicate, Hl. done.
  - intros t l1 e l1' Ht1 Ht2. change (Z.shiftr VMEM_0_BASE PAGESHIFT) with 0. rewrite Z.sub_0_r. by apply (pt_upd_quiet _ l1 e l1').
  - by apply quiet_put.
  - apply pt_table_put_eq. by eexists.
Qed.

Lemma SetRegion1_pt_spec u l s : quiet s -> ptabs s !! u = Some l -> length l = Z.to_nat USER_PT_SIZE ->
  SetRegion1_pt (PtHeap u) USER_PT_SIZE s = Ret 0 (put_pt u (replicate (Z.to_nat USER_PT_SIZE) pte_zero)
    (set_hw (write_reg (REG_PTLR1 USER_PT_SIZE) (write_reg (REG_PTBR1 (PtHeap u)) (hw s))) s)).
Proof.
  intros Hq Hk Hl. unfold SetRegion1_pt. rewrite decide_False by done.
  set (s2 := set_hw (write_reg (REG_PTLR1 USER_PT_SIZE) (write_reg (REG_PTBR1 (PtHeap u)) (hw s))) s).
  assert (Hq2 : quiet s2) by exact (quiet_reg _ _ (quiet_reg (REG_PTBR1 (PtHeap u)) s Hq)).
  assert (Hk2 : pt_table (PtHeap u) s2 = Some l) by exact Hk.
  transitivity ((pt_clear (PtHeap u) USER_PT_SIZE ;; ret 0) s2); [done|].
  replace USER_PT_SIZE with (Z.of_nat (length l)) at 1 by (rewrite Hl; done).
  unfold bind at 1. rewrite (pt_clear_spec _ _ _ Hq2 Hk2). cbn [obind]. by rewrite Hl.
Qed.

End tables.

(** What [KernelStart] has done when virtual memory is on: [k] and [u] are the tables of
    the two regions. *)
Record booted `{I : Image} (s s' : kstate) (pmem_size k u : Z) : Prop := {
  bt_vm : r_vm (hw s') = VM_ENABLED;
  bt_region0 : r_ptbr0 (hw s') = PtHeap k /\ r_ptlr0 (hw s') = KERNEL_PT_SIZE;
  bt_region1 : r_ptbr1 (hw s') = PtHeap u /\ r_ptlr1 (hw s') = USER_PT_SIZE;
  bt_vector : r_vector (hw s') = true;
  bt_tlb : tlb (hw s') = ∅;
  bt_identity : forall a, VMEM_0_BASE <= a < DOWN_TO_PAGE kernel_orig_brk \/ KERNEL_STACK_BASE <= a < KERNEL_STACK_LIMIT ->
    page_entry s' (vpn a) =
      Some (mkPte VALID_FRAME (if a <? DOWN_TO_PAGE kernel_data_start then X_NO_W_R else NO_X_W_R) (vpn a)) /\
    (phys s' a).1 * PAGESIZE + (phys s' a).2 = a;
  bt_unmapped : forall a, DOWN_TO_PAGE kernel_orig_brk <= a < KERNEL_STACK_BASE \/ VMEM_1_BASE <= a < VMEM_1_LIMIT ->
    exists e, page_entry s' (vpn a) = Some e /\ valid e = INVALID_FRAME;
  bt_globals : gl s' = set_num_of_frames (u32 pmem_size / PAGESIZE) (set_kernel_brk kernel_orig_brk (gl s));
  bt_tables : ptabs s' = <[u := replicate (Z.to_nat USER_PT_SIZE) pte_zero]> (<[k := region0_table kernel_orig_brk]> (ptabs s));
  bt_rest : pcbs s' = pcbs s /\ qst s' = qst s /\ lst s' = lst s /\ pipes s' = pipes s /\ bufs s' = bufs s /\ uc s' = uc s /\
    frames (hw s') = frames (hw s) /\ pid_tick (hw s') = pid_tick (hw s) }.

Section memory.
Context `{L : Libc} {LL : LibcLaws L} `{C : Compiler} `{FS : FileSystem} `{I : Image}.

Lemma returns_malloc_pt l s (P : Z -> kstate -> Prop) : MallocTotal L ->
  (forall k, k <> NULL -> ptabs s !! k = None -> P k (put_pt k l (set_mtick (S (mtick s)) s))) ->
  returns (malloc put_pt l) s P.
Proof.
  intros MT HP. unfold malloc, returns. cbn [oret].
  destruct (malloc_fresh (mtick s) (live s)) as [E|[Hpos Hfr]]; [by destruct (MT _ _ E)|].
  set (k := malloc_choice _ _) in *. destruct (Z.eqb_spec k NULL) as [E|Hk]; [unfold NULL in E; lia|].
  apply HP; [done|]. apply not_elem_of_dom. intros Hin. apply Hfr. unfold live. rewrite !elem_of_union. left. by right.
Qed.

(** The clean-up loop over the heap's pages. *)
Lemma heap_again_spec k s : kernel_layout -> quiet s -> ptabs s !! k = Some (region0_table kernel_orig_brk) ->
  mfor (zseq (Z.shiftr (i32 kernel_data_end) PAGESHIFT) (Z.shiftr (i32 kernel_orig_brk) PAGESHIFT)) (fun i =>
    pt_upd (PtHeap k) i (set_prot NO_X_W_R) ;; pt_upd (PtHeap k) i (set_pfn i) ;; pt_upd (PtHeap k) i (set_valid VALID_FRAME)) s = Ret tt s.
Proof.
  intros HL Hq Hk. pose proof HL as [H1 H2]. change KERNEL_STACK_BASE with 1032192 in *.
  rewrite !i32_id by lia. rewrite !shiftr_page.
  set (lo := kernel_data_end / PAGESIZE). set (hi := kernel_orig_brk / PAGESIZE).
  assert (Hr : 0 <= lo <= hi /\ hi <= 126).
  { unfold lo, hi. change PAGESIZE with 8192. split; [split; [apply Z.div_pos; lia|apply Z.div_le_mono; lia]|].
    change 126 with (1032192 / 8192). apply Z.div_le_mono; lia. }
  set (l := map (region0_entry kernel_orig_brk) (zrange 0 (Z.to_nat lo))).
  set (r1 := map (region0_entry kernel_orig_brk) (zrange lo (Z.to_nat (hi - lo)))).
  set (r2 := map (region0_entry kernel_orig_brk) (zrange hi (Z.to_nat (128 - hi)))).
  assert (Et : region0_table kernel_orig_brk = l ++ r1 ++ r2).
  { unfold region0_table, l, r1, r2. change (Z.to_nat KERNEL_PT_SIZE) with 128%nat.
    replace 128%nat with (Z.to_nat lo + (Z.to_nat (hi - lo) + Z.to_nat (128 - hi)))%nat by lia.
    rewrite !zrange_app, !map_app. replace (0 + Z.of_nat (Z.to_nat lo)) with lo by lia.
    by replace (lo + Z.of_nat (Z.to_nat (hi - lo))) with hi by lia. }
  assert (Hl : Z.of_nat (length l) = lo) by (unfold l; rewrite length_map, zrange_length; lia).
  assert (Hr1 : length r1 = Z.to_nat (hi - lo)) by (unfold r1; by rewrite length_map, zrange_length).
  unfold zseq. rewrite <- Hr1, <- Hl.
  rewrite (mfor_pt_quiet (PtHeap k) (fun i e => set_valid VALID_FRAME (set_pfn i (set_prot NO_X_W_R e))) _ r2).
  - rewrite Hl, Hr1. set (z := zip_with _ _ _). assert (Ez : z = r1).
    { apply zip_with_map_id. intros i Hi%elem_of_zrange. apply heap_entry_again; [done|]. fold lo hi. lia. }
    rewrite Ez, <- Et. f_equal. by apply pt_put_same.
  - intros s1 l1 e l1' Hq1 Ht1. by apply (pt_upd3_quiet _ l1 e l1').
  - done.
  - by rewrite <- Et.
Qed.

Lemma DOWN_TO_PAGE_lt n a : - 2 ^ 31 <= n < 2 ^ 31 -> (a < DOWN_TO_PAGE n <-> a / PAGESIZE < n / PAGESIZE).
Proof.
  intros Hn. rewrite <- (DOWN_page_index n Hn), shiftr_page. destruct (DOWN_TO_PAGE_spec n Hn) as [Hm _].
  pose proof (Z.div_mod (DOWN_TO_PAGE n) PAGESIZE ltac:(done)) as Hd. rewrite Hm, Z.add_0_r in Hd.
  pose proof (Z.div_mod a PAGESIZE ltac:(done)). pose proof (Z.mod_pos_bound a PAGESIZE ltac:(done)).
  change PAGESIZE with 8192 in *. lia.
Qed.

(** The map of region 0, address by address. *)
Lemma region0_identity s k a : kernel_layout -> r_ptbr0 (hw s) = PtHeap k -> r_ptlr0 (hw s) = KERNEL_PT_SIZE ->
  ptabs s !! k = Some (region0_table kernel_orig_brk) -> 0 <= a < VMEM_0_LIMIT ->
  page_entry s (vpn a) = Some (
    if a <? DOWN_TO_PAGE kernel_data_start then mkPte VALID_FRAME X_NO_W_R (vpn a)
    else if (a <? DOWN_TO_PAGE kernel_orig_brk) || (KERNEL_STACK_BASE <=? a) then mkPte VALID_FRAME NO_X_W_R (vpn a)
    else mkPte INVALID_FRAME 0 (vpn a)).
Proof.
  intros HL Hb Hl Hk Ha. pose proof HL as [H1 H2]. change KERNEL_STACK_BASE with 1032192 in *. change VMEM_0_LIMIT with 1048576 in Ha.
  assert (Hv : 0 <= a / PAGESIZE < 128).
  { change PAGESIZE with 8192. split; [apply Z.div_pos|apply Z.div_lt_upper_bound]; lia. }
  unfold page_entry, vpn. rewrite shiftr_page, Hl, Hb. change MAX_PT_LEN with 128. rewrite bool_decide_true by lia.
  change KERNEL_PT_SIZE with 128. destruct (Z.ltb_spec (a / PAGESIZE) 128); [|lia]. cbn [pt_table]. rewrite Hk. cbn.
  unfold region0_table. change (Z.to_nat KERNEL_PT_SIZE) with 128%nat. rewrite zget_fmap. unfold zget. rewrite bool_decide_true by lia.
  rewrite lookup_zrange by lia. cbn [fmap option_fmap option_map]. f_equal. replace (0 + Z.of_nat (Z.to_nat (a / PAGESIZE))) with (a / PAGESIZE) by lia.
  rewrite region0_entry_spec by (change MAX_PT_LEN with 128; lia || done).
  assert (a < DOWN_TO_PAGE kernel_data_start <-> a / PAGESIZE < kernel_data_start / PAGESIZE) by (apply DOWN_TO_PAGE_lt; lia).
  assert (a < DOWN_TO_PAGE kernel_orig_brk <-> a / PAGESIZE < kernel_orig_brk / PAGESIZE) by (apply DOWN_TO_PAGE_lt; lia).
  change (KERNEL_STACK_BASE / PAGESIZE) with 126.
  assert (126 <= a / PAGESIZE <-> 1032192 <= a).
  { change PAGESIZE with 8192. pose proof (Z.div_mod a 8192 ltac:(done)). pose proof (Z.mod_pos_bound a 8192 ltac:(done)). lia. }
  repeat match goal with
    | |- context [?a <=? ?b] => destruct (Z.leb_spec a b)
    | |- context [?a <? ?b] => destruct (Z.ltb_spec a b)
    end; cbn [orb]; try done; lia.
Qed.

(** Page [i] of the kernel is frame [i]. *)
Lemma identity_addresses s k a : kernel_layout -> r_ptbr0 (hw s) = PtHeap k -> r_ptlr0 (hw s) = KERNEL_PT_SIZE ->
  ptabs s !! k = Some (region0_table kernel_orig_brk) ->
  VMEM_0_BASE <= a < DOWN_TO_PAGE kernel_orig_brk \/ KERNEL_STACK_BASE <= a < KERNEL_STACK_LIMIT ->
  page_entry s (vpn a) =
    Some (mkPte VALID_FRAME (if a <? DOWN_TO_PAGE kernel_data_start then X_NO_W_R else NO_X_W_R) (vpn a)) /\
  (phys s a).1 * PAGESIZE + (phys s a).2 = a.
Proof.
  intros HL Hb Hl Hk Ha. pose proof HL as [H1 H2].
  assert (Hr : 0 <= a < VMEM_0_LIMIT).
  { pose proof (DOWN_TO_PAGE_spec kernel_orig_brk) as Hd. change KERNEL_STACK_BASE with 1032192 in *. change KERNEL_STACK_LIMIT with 1048576 in *.
    change VMEM_0_LIMIT with 1048576. change VMEM_0_BASE with 0 in *. destruct Hd as [_ Hd]; lia. }
  pose proof (region0_identity s k a HL Hb Hl Hk Hr) as Hid.
  assert (He : (a <? DOWN_TO_PAGE kernel_orig_brk) || (KERNEL_STACK_BASE <=? a) = true).
  { apply orb_true_iff. destruct Ha as [[_ Ha]|[Ha _]]; [left; by apply Z.ltb_lt|right; by apply Z.leb_le]. }
  rewrite He in Hid. assert (Hp : page_entry s (vpn a) =
    Some (mkPte VALID_FRAME (if a <? DOWN_TO_PAGE kernel_data_start then X_NO_W_R else NO_X_W_R) (vpn a)))
    by (rewrite Hid; by destruct (a <? DOWN_TO_PAGE kernel_data_start)).
  split; [exact Hp|]. unfold phys. rewrite Hp. cbn [fmap option_fmap option_map default pfn fst snd].
  unfold vpn. rewrite shiftr_page. pose proof (Z.div_mod a PAGESIZE ltac:(done)). cbn -[PAGESIZE]. lia.
Qed.

Lemma gap_unmapped s k a : kernel_layout -> r_ptbr0 (hw s) = PtHeap k -> r_ptlr0 (hw s) = KERNEL_PT_SIZE ->
  ptabs s !! k = Some (region0_table kernel_orig_brk) -> DOWN_TO_PAGE kernel_orig_brk <= a < KERNEL_STACK_BASE ->
  exists e, page_entry s (vpn a) = Some e /\ valid e = INVALID_FRAME.
Proof.
  intros HL Hb Hl Hk Ha. pose proof HL as [H1 H2]. change KERNEL_STACK_BASE with 1032192 in H2, Ha.
  assert (Hm : 0 <= kernel_data_start / PAGESIZE <= kernel_orig_brk / PAGESIZE).
  { split; [apply Z.div_pos; [lia|done]|apply Z.div_le_mono; [done|lia]]. }
  assert (E1 : a < DOWN_TO_PAGE kernel_orig_brk <-> a / PAGESIZE < kernel_orig_brk / PAGESIZE) by (apply DOWN_TO_PAGE_lt; lia).
  assert (E2 : a < DOWN_TO_PAGE kernel_data_start <-> a / PAGESIZE < kernel_data_start / PAGESIZE) by (apply DOWN_TO_PAGE_lt; lia).
  assert (E3 : -1 < DOWN_TO_PAGE kernel_orig_brk <-> -1 / PAGESIZE < kernel_orig_brk / PAGESIZE) by (apply DOWN_TO_PAGE_lt; lia).
  change (-1 / PAGESIZE) with (-1) in E3.
  rewrite (region0_identity s k a HL Hb Hl Hk) by (change VMEM_0_LIMIT with 1048576; lia).
  destruct (Z.ltb_spec a (DOWN_TO_PAGE kernel_data_start)); [lia|].
  destruct (Z.ltb_spec a (DOWN_TO_PAGE kernel_orig_brk)); [lia|].
  change KERNEL_STACK_BASE with 1032192. destruct (Z.leb_spec 1032192 a); [lia|]. by eexists.
Qed.

Lemma region1_unmapped s u a : r_ptbr1 (hw s) = PtHeap u -> r_ptlr1 (hw s) = USER_PT_SIZE ->
  ptabs s !! u = Some (replicate (Z.to_nat USER_PT_SIZE) pte_zero) -> VMEM_1_BASE <= a < VMEM_1_LIMIT ->
  exists e, page_entry s (vpn a) = Some e /\ valid e = INVALID_FRAME.
Proof.
  intros Hb Hl Hu Ha. exists pte_zero. split; [|done]. change VMEM_1_BASE with 1048576 in Ha. change VMEM_1_LIMIT with 2097152 in Ha.
  assert (Hv : 128 <= a / PAGESIZE < 256).
  { change PAGESIZE with 8192. split; [apply Z.div_le_lower_bound|apply Z.div_lt_upper_bound]; lia. }
  unfold page_entry, vpn. rewrite shiftr_page. change MAX_PT_LEN with 128. rewrite bool_decide_false, bool_decide_true by lia.
  rewrite Hb, Hl. change USER_PT_SIZE with 128 in *. destruct (Z.ltb_spec (a / PAGESIZE - 128) 128); [|lia].
  cbn [pt_table]. rewrite Hu. apply zget_replicate. lia.
Qed.

(** The state in which the memory is turned on. *)
Lemma boot_memory_done s s' n k u : kernel_layout -> k <> u -> tlb (hw s) = ∅ -> hw s' = boot_registers k u (hw s) ->
  ptabs s' = <[u := replicate (Z.to_nat USER_PT_SIZE) pte_zero]> (<[k := region0_table kernel_orig_brk]> (ptabs s)) ->
  gl s' = set_num_of_frames (u32 n / PAGESIZE) (set_kernel_brk kernel_orig_brk (gl s)) ->
  pcbs s' = pcbs s /\ qst s' = qst s /\ lst s' = lst s /\ pipes s' = pipes s /\ bufs s' = bufs s /\ uc s' = uc s ->
  booted s s' n k u.
Proof.
  intros HL Hku Hq Eh Et Eg Er.
  assert (Hb0 : r_ptbr0 (hw s') = PtHeap k) by (rewrite Eh; unfold boot_registers; by rewrite !r_ptbr0_write).
  assert (Hl0 : r_ptlr0 (hw s') = KERNEL_PT_SIZE) by (rewrite Eh; unfold boot_registers; by rewrite !r_ptlr0_write).
  assert (Hb1 : r_ptbr1 (hw s') = PtHeap u) by (rewrite Eh; unfold boot_registers; by rewrite !r_ptbr1_write).
  assert (Hl1 : r_ptlr1 (hw s') = USER_PT_SIZE) by (rewrite Eh; unfold boot_registers; by rewrite !r_ptlr1_write).
  assert (Hk : ptabs s' !! k = Some (region0_table kernel_orig_brk)) by (rewrite Et, lookup_insert_ne by done; apply lookup_insert_eq).
  split; try done.
  - rewrite Eh. unfold boot_registers. by rewrite r_vm_write.
  - rewrite Eh. unfold boot_registers. by rewrite !r_vector_write.
  - rewrite Eh. unfold boot_registers. by repeat apply tlb_write.
  - intros a Ha. by eapply (identity_addresses s' k).
  - intros a [Ha|Ha]; [by eapply (gap_unmapped s' k)|]. apply (region1_unmapped s' u); [done|done| |done].
    rewrite Et. apply lookup_insert_eq.
  - destruct Er as (?&?&?&?&?&?). do 6 (split; [done|]). rewrite Eh. unfold boot_registers. by rewrite !frames_write, !pid_tick_write.
Qed.

Lemma boot_memory_spec s pmem_size :
  kernel_layout -> ivt_slack = true -> MallocTotal L -> tlb (hw s) = ∅ ->
  returns (boot_memory pmem_size) s (fun r s' => exists k u, r = (PtHeap k, u) /\ k <> u /\ booted s s' pmem_size k u).
Proof.
  intros HL Hiv MT Hq. unfold boot_memory, install_vectors. rewrite Hiv. do 3 rstep. apply returns_modify. rstep. apply returns_modify.
  rstep. apply returns_malloc_pt; [done|]. intros k Hk Hfk. set (s1 := put_pt k _ _).
  rstep. apply returns_malloc_pt; [done|]. intros u Hu Hfu. set (s2 := put_pt u _ _).
  assert (Hku : k <> u) by (intros <-; unfold s1 in Hfu; cbn in Hfu; by rewrite lookup_insert_eq in Hfu).
  destruct (Z.eqb_spec k NULL); [done|]. destruct (Z.eqb_spec u NULL); [done|].
  assert (Hq2 : quiet s2) by exact Hq.
  rstep. eapply returns_exec; [eapply (SetRegion0_pt_spec k); [exact Hq2| |]|].
  { cbn. rewrite lookup_insert_ne by done. apply lookup_insert_eq. } { by rewrite length_replicate. }
  set (s3 := put_pt k _ _). assert (Hq3 : quiet s3) by (by apply quiet_put_pt, quiet_hw, tlb_write, tlb_write).
  rstep. eapply returns_exec; [eapply (SetRegion1_pt_spec u); [exact Hq3| |]|].
  { cbn. rewrite lookup_insert_ne by done. apply lookup_insert_eq. } { by rewrite length_replicate. }
  set (s4 := put_pt u _ _). assert (Hq4 : quiet s4) by (by apply quiet_put_pt, quiet_hw, tlb_write, tlb_write).
  assert (Hk4 : ptabs s4 !! k = Some (region0_table kernel_orig_brk)).
  { cbn. rewrite lookup_insert_ne by done. apply lookup_insert_eq. }
  rstep. apply returns_gets. change (kernel_brk (gl s4)) with kernel_orig_brk.
  rstep. eapply returns_exec; [by apply (heap_again_spec k s4)|]. rstep. apply returns_modify. rstep.
  exists k, u. do 2 (split; [done|]). set (s5 := set_hw _ s4).
  assert (Eh : hw s5 = boot_registers k u (hw s)) by reflexivity. assert (Ep : ptabs s5 = ptabs s4) by apply ptabs_set_hw.
  assert (Eg : gl s5 = set_num_of_frames (u32 pmem_size / PAGESIZE) (set_kernel_brk kernel_orig_brk (gl s))) by reflexivity.
  assert (Er : pcbs s5 = pcbs s /\ qst s5 = qst s /\ lst s5 = lst s /\ pipes s5 = pipes s /\ bufs s5 = bufs s /\ uc s5 = uc s)
    by (repeat split; reflexivity).
  assert (Et : ptabs s4 = <[u := replicate (Z.to_nat USER_PT_SIZE) pte_zero]> (<[k := region0_table kernel_orig_brk]> (ptabs s))).
  { cbn. rewrite insert_insert_ne, insert_insert_eq, insert_insert_ne, insert_insert_eq by done. done. }
  clearbody s5 s4. apply (boot_memory_done s s5 pmem_size k u HL Hku Hq Eh); [by rewrite Ep|exact Eg|exact Er].
Qed.


End memory.

(** ** Witness *)

(** A kernel with text from 0, data from page 10, its heap from page 20 to page 23 and
    an unaligned break. *)
Definition ex_kernel_image : Image := {|
  kernel_data_start := 10 * PAGESIZE; kernel_data_end := 20 * PAGESIZE; kernel_orig_brk := 24 * PAGESIZE + 100;
  ivt_slack := true |}.

