(* ===== verification/BootGlobals.v ===== *)
(** * The kernel's own structures at boot ([SetUpGlobals] of [kernel.c])

    What the other components assume of the queues, the free list, the terminals and the
    tables of locks and condition variables holds when [SetUpGlobals] has run. *)

From Stdlib Require Import ZArith Lia.
From stdpp Require Import base gmap list.
From S2P Require Import Prelude Hardware State Store Logic KList KQueue KPipe Memory Frames Process Boot.

Open Scope Z_scope.

(** Queues that are all empty. *)
Definition empties (qs : list Z) : gmap Z (list (Z * Z)) := gset_to_gmap [] (list_to_set qs).

Lemma empties_cons q qs : empties (q :: qs) = <[q := []]> (empties qs).
Proof. unfold empties. cbn [list_to_set foldr]. by rewrite gset_to_gmap_union_singleton. Qed.

Lemma empties_perm qs qs' : qs ≡ₚ qs' -> empties qs = empties qs'.
Proof. intros H. unfold empties. f_equal. apply leibniz_equiv. by rewrite H. Qed.

Lemma lookup_empties qs q : q ∈ qs -> empties qs !! q = Some [].
Proof. intros H. unfold empties. rewrite lookup_gset_to_gmap, option_guard_True; [done|]. by rewrite elem_of_list_to_set. Qed.

Lemma qstore_live s V : qstore (qst s) V -> dom V ⊆ live s.
Proof.
  intros H q [xs Hq]%elem_of_dom. destruct (store_lookup _ _ _ _ _ H Hq) as (_ & ns & (j & Ej) & _).
  unfold live. rewrite !elem_of_union. do 6 left. right. apply elem_of_dom. by eexists.
Qed.

Lemma lstore_live s V : lstore (lst s) V -> dom V ⊆ live s.
Proof.
  intros H q [xs Hq]%elem_of_dom. destruct (store_lookup _ _ _ _ _ H Hq) as (_ & ns & Ej & _).
  unfold live. rewrite !elem_of_union. do 4 left. right. apply elem_of_dom. by eexists.
Qed.

(** The blocks made so far: the queues [qs], the lists with the view [VL], the buffers
    [bs]; the globals are [g], and the rest is as in [s0]. *)
Record making (s0 s : kstate) (qs : list Z) (VL : gmap Z (list Z)) (bs : list Z) (g : kglob) : Prop := {
  mk_queues : qstore (qst s) (empties qs);
  mk_distinct : NoDup qs;
  mk_lists : lstore (lst s) VL;
  mk_buffers : Forall (fun b => bufs s !! b = Some (replicate (Z.to_nat TERMINAL_MAX_LINE) 0)) bs;
  mk_own : NoDup bs;
  mk_globals : gl s = g;
  mk_rest : pcbs s = pcbs s0 /\ pipes s = pipes s0 /\ ptabs s = ptabs s0 /\ hw s = hw s0 /\ uc s = uc s0 }.

Section steps.
Context `{L : Libc} {LL : LibcLaws L} `{C : Compiler} {CL : CompilerLaws C} (MT : MallocTotal L).

Lemma malloc_ok {A} (put : Z -> A -> kstate -> kstate) (x : A) s (P : Z -> kstate -> Prop) :
  (forall a, a <> NULL -> (a ∉ live s) -> P a (put a x (set_mtick (S (mtick s)) s))) -> returns (malloc put x) s P.
Proof.
  intros HP. unfold malloc, returns. cbn [oret].
  destruct (malloc_fresh (mtick s) (live s)) as [E|[Hpos Hfr]]; [by destruct (MT _ _ E)|].
  assert (Ha : malloc_choice (mtick s) (live s) <> NULL) by (unfold NULL; lia).
  destruct (Z.eqb_spec (malloc_choice (mtick s) (live s)) NULL); [done|]. by apply HP.
Qed.

Lemma make_queue s0 s qs VL bs g : making s0 s qs VL bs g ->
  returns queue_init s (fun q s' => q <> NULL /\ (q ∉ qs) /\ making s0 s' (q :: qs) VL bs g).
Proof.
  intros [H1 H2 H3 H4 H5 H6 H7]. apply malloc_ok. intros q Hq Hfr.
  assert (HV : empties qs !! q = None) by (apply not_elem_of_dom; intros Hin; by apply Hfr, (qstore_live s _ H1)).
  assert (Hn : q ∉ qs) by (intros Hin; by rewrite (lookup_empties _ _ Hin) in HV).
  split; [done|]. split; [done|]. split; try done; [|by apply NoDup_cons].
  rewrite empties_cons. eapply store_new; [exact H1|exact HV|done| |].
  - split; [exists 0; cbn; apply lookup_insert_eq|]. split; [done|constructor].
  - intros m ms y Hm. apply qrep_other; [|done]. cbn. by rewrite lookup_insert_ne.
Qed.

Lemma make_list s0 s qs VL bs g : making s0 s qs VL bs g ->
  returns list_init s (fun l s' => l <> NULL /\ VL !! l = None /\ making s0 s' qs (<[l := []]> VL) bs g).
Proof.
  intros [H1 H2 H3 H4 H5 H6 H7]. unfold list_init, upd_list, get_list. rstep. apply malloc_ok. intros l Hl Hfr.
  assert (HV : VL !! l = None) by (apply not_elem_of_dom; intros Hin; by apply Hfr, (lstore_live s _ H3)).
  rsteps. rewrite fallthrough_last. split; [done|]. split; [done|]. split; try done.
  eapply store_new; [exact H3|exact HV|done| |].
  - split; [|split; [done|constructor]]. cbn. rewrite lookup_insert_eq. done.
  - intros m ms y Hm (E & Hc & Hn). split; [|by split]. cbn. by rewrite !lookup_insert_ne.
Qed.

Lemma make_global s0 s qs VL bs g f : making s0 s qs VL bs g ->
  returns (upd_gl f) s (fun _ s' => making s0 s' qs VL bs (f g)).
Proof. intros [H1 H2 H3 H4 H5 <- H7]. by apply returns_modify. Qed.

Lemma make_entry {A} (get : kglob -> list A) put i v s0 s qs VL bs g : making s0 s qs VL bs g ->
  0 <= i < Z.of_nat (length (get g)) ->
  returns (arr_set get put i v) s (fun _ s' => making s0 s' qs VL bs (put (<[Z.to_nat i := v]> (get g)) g)).
Proof.
  intros Hm Hi. unfold arr_set. rstep. rstep. rewrite (mk_globals _ _ _ _ _ _ Hm). rstep.
  rstep; [by apply zset_Some|]. by apply (make_global _ _ _ _ _ _ (put _)).
Qed.

Lemma make_item s0 s qs VL bs g l xs x : making s0 s qs VL bs g -> VL !! l = Some xs ->
  returns (list_add l x) s (fun r s' => r = Z.of_nat (length xs) + 1 /\ making s0 s' qs (<[l := x :: xs]> VL) bs g).
Proof.
  intros [H1 H2 H3 H4 H5 H6 H7] Hl. eapply returns_mono; [by apply (ls_add (R := lstore) s VL l xs x)|]. cbv beta.
  intros r s' (h & -> & [[-> HV]|(_ & _ & E)]); [|by destruct (MT _ _ E)]. split; [done|]. by split.
Qed.

Lemma make_buffer s0 s qs VL bs g : making s0 s qs VL bs g ->
  returns (malloc put_buf (replicate (Z.to_nat TERMINAL_MAX_LINE) 0)) s (fun b s' => (b ∉ bs) /\ making s0 s' qs VL (b :: bs) g).
Proof.
  intros [H1 H2 H3 H4 H5 H6 H7]. apply malloc_ok. intros b Hb Hfr.
  assert (Hn : b ∉ bs).
  { intros Hin. rewrite Forall_forall in H4. apply Hfr. unfold live. rewrite !elem_of_union. right. apply elem_of_dom.
    rewrite (H4 b Hin). by eexists. }
  split; [done|]. split; try done; [|by apply NoDup_cons]. apply Forall_cons. split; [apply lookup_insert_eq|].
  eapply Forall_impl; [|intros c Hc; exact Hc]. rewrite Forall_forall in H4 |- *. intros c Hc. cbn.
  rewrite lookup_insert_ne by (by intros ->). by apply H4.
Qed.

Lemma making_perm s0 s qs qs' VL bs bs' g : qs ≡ₚ qs' -> bs ≡ₚ bs' -> making s0 s qs VL bs g -> making s0 s qs' VL bs' g.
Proof.
  intros Hp Hb [H1 H2 H3 H4 H5 H6 H7].
  split; try done; [by rewrite <- (empties_perm _ _ Hp)|by rewrite <- Hp|by rewrite <- Hb|by rewrite <- Hb].
Qed.

(** *** Arrays filled from the start *)

Lemma take_next {A} (l : list A) k x : (k < length l)%nat -> take (S k) (<[k := x]> l) = take k l ++ [x].
Proof.
  intros Hk. rewrite (take_S_r (<[k := x]> l) k x (list_lookup_insert_eq l k x Hk)). by rewrite take_insert_ge by lia.
Qed.

Lemma take_same {A} (l : list A) k v : (k < length l)%nat -> take k l = replicate k v ->
  take (S k) (<[k := v]> l) = replicate (S k) v.
Proof. intros Hk E. rewrite take_next, E by done. by rewrite <- replicate_S_end. Qed.

Lemma take_all {A} (l : list A) n v : length l = n -> take n l = replicate n v -> l = replicate n v.
Proof. intros <- <-. by rewrite take_ge. Qed.

(** *** The loops *)

(** The globals with other terminals. *)
Definition terminal_glob (R W B T U : list Z) (g : kglob) : kglob :=
  set_ttyReadTrackers U (set_ttyWriteTrackers T (set_ttyReadbuffers B (set_ttyWriteQueues W (set_ttyReadQueues R g)))).

Lemma set_up_terminal_spec s0 s qs VL bs g R W B T U k : making s0 s qs VL bs (terminal_glob R W B T U g) ->
  0 <= k -> Forall (fun l => k < Z.of_nat (length l)) [R; W; B; T; U] ->
  returns (set_up_terminal k) s (fun _ s' => exists q1 q2 b, making s0 s' (q2 :: q1 :: qs) VL (b :: bs)
    (terminal_glob (<[Z.to_nat k := q1]> R) (<[Z.to_nat k := q2]> W) (<[Z.to_nat k := b]> B)
      (<[Z.to_nat k := TERMINAL_OPEN]> T) (<[Z.to_nat k := 0]> U) g)).
Proof.
  intros Hm H0 Hk. rewrite !Forall_cons in Hk. destruct Hk as (HR & HW & HB & HT & HU & _). unfold set_up_terminal.
  rstep. eapply returns_mono; [by apply make_queue|]. cbv beta. intros q1 s1 (_ & _ & M1).
  rstep. eapply returns_mono; [by eapply make_entry|]. cbv beta. intros _ s2 M2.
  rstep. eapply returns_mono; [by apply make_queue|]. cbv beta. intros q2 s3 (_ & _ & M3).
  rstep. eapply returns_mono; [by eapply make_entry|]. cbv beta. intros _ s4 M4.
  rstep. eapply returns_mono; [by apply make_buffer|]. cbv beta. intros b s5 (Hb & M5).
  rstep. eapply returns_mono; [by eapply make_entry|]. cbv beta. intros _ s6 M6.
  rstep. eapply returns_mono; [by eapply make_entry|]. cbv beta. intros _ s7 M7.
  rstep. eapply returns_mono; [by eapply make_entry|]. cbv beta. intros _ s8 M8.
  pose proof (mk_buffers _ _ _ _ _ _ M8) as Hbs. apply Forall_cons in Hbs as [Hb8 _].
  rstep. rstep; [exact Hb8|]. apply returns_modify. exists q1, q2, b.
  assert (E : put_buf b (replicate (Z.to_nat TERMINAL_MAX_LINE) 0) s8 = s8) by (unfold put_buf; rewrite insert_id by done; by destruct s8).
  rewrite E. exact M8.
Qed.

(** [k] terminals are ready. *)
Definition terminals_made (s0 s : kstate) (base : list Z) (VL : gmap Z (list Z)) (g : kglob) (k : nat) : Prop :=
  exists R W B T U, making s0 s (take k R ++ take k W ++ base) VL (take k B) (terminal_glob R W B T U g) /\
    Forall (fun l => length l = Z.to_nat NUM_TERMINALS) [R; W; B; T; U] /\
    take k T = replicate k TERMINAL_OPEN /\ take k U = replicate k 0.

Lemma terminals_loop s0 base VL g n : forall k s, terminals_made s0 s base VL g k -> (k + n = Z.to_nat NUM_TERMINALS)%nat ->
  returns (mfor (zrange (Z.of_nat k) n) set_up_terminal) s (fun _ s' => terminals_made s0 s' base VL g (Z.to_nat NUM_TERMINALS)).
Proof.
  induction n as [|n IH]; intros k s Hs Hk; [cbn [zrange mfor]; rstep; by replace (Z.to_nat NUM_TERMINALS) with k by lia|].
  destruct Hs as (R & W & B & T & U & Hm & Hl & HT & HU). cbn [zrange mfor]. rstep.
  eapply returns_mono; [apply (set_up_terminal_spec _ _ _ _ _ _ _ _ _ _ _ (Z.of_nat k) Hm); [lia|]|].
  { eapply Forall_impl; [exact Hl|]. cbv beta. intros l ->. lia. }
  cbv beta. intros _ s1 (q1 & q2 & b & Hm1). replace (Z.of_nat k + 1) with (Z.of_nat (S k)) by lia.
  apply IH; [|lia]. rewrite Nat2Z.id in Hm1. rewrite !Forall_cons in Hl. destruct Hl as (LR & LW & LB & LT & LU & _).
  do 5 eexists. split; [|split; [|split]].
  - eapply making_perm; [| |exact Hm1]; rewrite !take_next by lia.
    + rewrite <- !app_assoc. cbn [app]. rewrite <- !Permutation_middle. apply perm_swap.
    + apply Permutation_cons_append.
  - rewrite !Forall_cons, !length_insert. done.
  - apply take_same; [lia|done].
  - apply take_same; [lia|done].
Qed.

Lemma rev_zrange_S k : rev (zrange 0 (S k)) = Z.of_nat k :: rev (zrange 0 k).
Proof. rewrite <- Nat.add_1_r, zrange_app, rev_app_distr. done. Qed.

Definition lock_glob (Qs St : list Z) (g : kglob) : kglob := set_lock_status St (set_lockAquireQueues Qs g).

(** [k] locks are unused, and their numbers on the list [lock_list]. *)
Definition locks_made (s0 s : kstate) (base : list Z) (VL : gmap Z (list Z)) (bs : list Z) (g : kglob) (k : nat) : Prop :=
  exists Qs St, making s0 s (take k Qs ++ base) (<[lock_list g := rev (zrange 0 k)]> VL) bs (lock_glob Qs St g) /\
    length Qs = Z.to_nat MAX_LOCKS /\ length St = Z.to_nat MAX_LOCKS /\ take k St = replicate k UNUSED_LOCK.

Lemma locks_loop s0 base VL bs g n : forall k s, locks_made s0 s base VL bs g k -> (k + n = Z.to_nat MAX_LOCKS)%nat ->
  returns (mfor_ret (zrange (Z.of_nat k) n) set_up_lock) s (fun r s' =>
    r = None /\ locks_made s0 s' base VL bs g (Z.to_nat MAX_LOCKS)).
Proof.
  induction n as [|n IH]; intros k s Hs Hk; [cbn [zrange mfor_ret]; rstep; by replace (Z.to_nat MAX_LOCKS) with k by lia|].
  destruct Hs as (Qs & St & Hm & LQ & LS & HS). cbn [zrange mfor_ret]. rstep. unfold set_up_lock at 1.
  rstep. eapply returns_mono; [by apply make_queue|]. cbv beta. intros q s1 (_ & _ & M1).
  rstep. eapply returns_mono; [eapply make_entry; [exact M1|cbn [lockAquireQueues lock_glob set_lock_status set_lockAquireQueues]; lia]|].
  cbv beta. intros _ s2 M2.
  rstep. eapply returns_mono; [eapply make_entry; [exact M2|cbn [lock_status lock_glob set_lock_status set_lockAquireQueues]; lia]|].
  cbv beta. intros _ s3 M3.
  rstep. rstep. rewrite (mk_globals _ _ _ _ _ _ M3).
  rstep. eapply returns_mono; [eapply make_item; [exact M3|apply lookup_insert_eq]|]. cbv beta. intros r s4 [-> M4].
  destruct (Z.eqb_spec (Z.of_nat (length (rev (zrange 0 k))) + 1) ERROR) as [E|_]; [unfold ERROR in E; lia|]. rstep.
  replace (Z.of_nat k + 1) with (Z.of_nat (S k)) by lia. apply IH; [|lia].
  change (lock_list _) with (lock_list g) in M4. rewrite insert_insert_eq, <- rev_zrange_S in M4. rewrite Nat2Z.id in M4.
  exists (<[k := q]> Qs), (<[k := UNUSED_LOCK]> St). rewrite !length_insert. split; [|split; [done|split; [done|]]].
  - eapply making_perm; [| |exact M4]; [|done]. rewrite take_next, <- app_assoc by lia. apply Permutation_middle.
  - apply take_same; [lia|done].
Qed.

Definition cvar_glob (Qs St : list Z) (g : kglob) : kglob := set_cvar_status St (set_cvarWaitQueues Qs g).

(** The number of the condition variable [i]. *)
Definition cvar_id (i : Z) : Z := MAX_LOCKS + i + 1.

Definition cvars_made (s0 s : kstate) (base : list Z) (VL : gmap Z (list Z)) (bs : list Z) (g : kglob) (k : nat) : Prop :=
  exists Qs St, making s0 s (take k Qs ++ base) (<[cvar_list g := map cvar_id (rev (zrange 0 k))]> VL) bs (cvar_glob Qs St g) /\
    length Qs = Z.to_nat MAX_CVARS /\ length St = Z.to_nat MAX_CVARS /\ take k St = replicate k UNUSED_CVAR.

Lemma cvars_loop s0 base VL bs g n : forall k s, cvars_made s0 s base VL bs g k -> (k + n = Z.to_nat MAX_CVARS)%nat ->
  returns (mfor (zrange (Z.of_nat k) n) set_up_cvar) s (fun _ s' => cvars_made s0 s' base VL bs g (Z.to_nat MAX_CVARS)).
Proof.
  induction n as [|n IH]; intros k s Hs Hk; [cbn [zrange mfor]; rstep; by replace (Z.to_nat MAX_CVARS) with k by lia|].
  destruct Hs as (Qs & St & Hm & LQ & LS & HS). cbn [zrange mfor]. rstep. unfold set_up_cvar at 1.
  rstep. eapply returns_mono; [by apply make_queue|]. cbv beta. intros q s1 (_ & _ & M1).
  rstep. eapply returns_mono; [eapply make_entry; [exact M1|cbn [cvarWaitQueues cvar_glob set_cvar_status set_cvarWaitQueues]; lia]|].
  cbv beta. intros _ s2 M2.
  rstep. eapply returns_mono; [eapply make_entry; [exact M2|cbn [cvar_status cvar_glob set_cvar_status set_cvarWaitQueues]; lia]|].
  cbv beta. intros _ s3 M3.
  rstep. rstep. rewrite (mk_globals _ _ _ _ _ _ M3).
  rstep. eapply returns_mono; [eapply make_item; [exact M3|apply lookup_insert_eq]|]. cbv beta. intros r s4 [_ M4]. rstep.
  replace (Z.of_nat k + 1) with (Z.of_nat (S k)) by lia. apply IH; [|lia].
  change (cvar_list _) with (cvar_list g) in M4. change (MAX_LOCKS + Z.of_nat k + 1) with (cvar_id (Z.of_nat k)) in M4.
  rewrite insert_insert_eq in M4. change (cvar_id (Z.of_nat k) :: map cvar_id (rev (zrange 0 k))) with (map cvar_id (Z.of_nat k :: rev (zrange 0 k))) in M4.
  rewrite <- rev_zrange_S, Nat2Z.id in M4.
  exists (<[k := q]> Qs), (<[k := UNUSED_CVAR]> St). rewrite !length_insert. split; [|split; [done|split; [done|]]].
  - eapply making_perm; [| |exact M4]; [|done]. rewrite take_next, <- app_assoc by lia. apply Permutation_middle.
  - apply take_same; [lia|done].
Qed.

(** The frames go on the free list one by one. *)
Lemma frames_loop s0 qs bs g items : forall s VL xs, making s0 s qs VL bs g -> VL !! pfn_list g = Some xs ->
  returns (mfor_ret items (fun fr_number =>
    let! pl := gets (fun s => pfn_list (gl s)) in
    let! r := list_add pl fr_number in
    ret (if r =? ERROR then Some ERROR else None))) s (fun r s' =>
    r = None /\ making s0 s' qs (<[pfn_list g := rev items ++ xs]> VL) bs g).
Proof.
  induction items as [|i items IH]; intros s VL xs Hm Hx; cbn [mfor_ret rev].
  - rstep. split; [done|]. cbn [app]. by rewrite insert_id.
  - rstep. rstep. rstep. rewrite (mk_globals _ _ _ _ _ _ Hm). rstep.
    eapply returns_mono; [by eapply make_item|]. cbv beta. intros r s1 [-> M1].
    destruct (Z.eqb_spec (Z.of_nat (length xs) + 1) ERROR) as [E|_]; [unfold ERROR in E; lia|]. rstep.
    eapply returns_mono; [eapply IH; [exact M1|apply lookup_insert_eq]|]. cbv beta. intros r s2 [-> M2].
    split; [done|]. rewrite insert_insert_eq in M2. by rewrite <- app_assoc.
Qed.

End steps.

(** ** What is established *)

(** The arrays of the C image. *)
Record image_arrays (g : kglob) : Prop := {
  im_terminals : Forall (fun l : list Z => length l = Z.to_nat NUM_TERMINALS)
    [ttyReadQueues g; ttyWriteQueues g; ttyReadbuffers g; ttyWriteTrackers g; ttyReadTrackers g];
  im_locks : length (lockAquireQueues g) = Z.to_nat MAX_LOCKS /\ length (lock_status g) = Z.to_nat MAX_LOCKS;
  im_cvars : length (cvarWaitQueues g) = Z.to_nat MAX_CVARS /\ length (cvar_status g) = Z.to_nat MAX_CVARS }.

(** All queues of the kernel. *)
Definition all_queues (g : kglob) : list Z :=
  cvarWaitQueues g ++ lockAquireQueues g ++ ttyReadQueues g ++ ttyWriteQueues g ++ [defunct_q g; blocked_q g; ready_q g].

Lemma image_arrays_head_pipe p g : image_arrays g -> image_arrays (set_head_pipe p g).
Proof. by destruct g, 1. Qed.

Record established (s s' : kstate) : Prop := {
  es_queues : qstore (qst s') (empties (all_queues (gl s'))) /\ NoDup (all_queues (gl s'));
  es_lists : exists V, free_list lstore V s' (zseq (Z.shiftr VMEM_1_BASE PAGESHIFT) (num_of_frames (gl s))) /\
    V !! lock_list (gl s') = Some (rev (zseq 0 MAX_LOCKS)) /\
    V !! cvar_list (gl s') = Some (map cvar_id (rev (zseq 0 MAX_CVARS))) /\
    NoDup [pfn_list (gl s'); lock_list (gl s'); cvar_list (gl s')];
  es_terminals : ttyWriteTrackers (gl s') = replicate (Z.to_nat NUM_TERMINALS) TERMINAL_OPEN /\
    ttyReadTrackers (gl s') = replicate (Z.to_nat NUM_TERMINALS) 0 /\ NoDup (ttyReadbuffers (gl s')) /\
    Forall (fun b => bufs s' !! b = Some (replicate (Z.to_nat TERMINAL_MAX_LINE) 0)) (ttyReadbuffers (gl s'));
  es_locks : lock_status (gl s') = replicate (Z.to_nat MAX_LOCKS) UNUSED_LOCK /\
    cvar_status (gl s') = replicate (Z.to_nat MAX_CVARS) UNUSED_CVAR;
  es_arrays : image_arrays (gl s');
  es_pipe : exists x, head_pipe (gl s') <> NULL /\ pipes s' = <[head_pipe (gl s') := x]> (pipes s) /\
    pp_id x = MAX_LOCKS + MAX_CVARS + 1 /\ pp_next x = NULL /\ pp_len x = 0;
  es_rest : pcbs s' = pcbs s /\ ptabs s' = ptabs s /\ hw s' = hw s /\ uc s' = uc s /\
    activePCB (gl s') = activePCB (gl s) /\ idlePCB (gl s') = idlePCB (gl s) /\ num_of_frames (gl s') = num_of_frames (gl s) }.

Section boot.
Context `{L : Libc} {LL : LibcLaws L} `{C : Compiler} {CL : CompilerLaws C} (MT : MallocTotal L).

(** The terminals, the locks and the condition variables. *)
Lemma tables_made (K : M Z) s0 s base VL g (P : Z -> kstate -> Prop) : making s0 s base VL [] g -> image_arrays g ->
  VL !! lock_list g = Some [] -> VL !! cvar_list g = Some [] -> lock_list g <> cvar_list g ->
  (forall s' Rq Wq B Qs Qc,
    let g' := cvar_glob Qc (replicate (Z.to_nat MAX_CVARS) UNUSED_CVAR) (lock_glob Qs (replicate (Z.to_nat MAX_LOCKS) UNUSED_LOCK)
      (terminal_glob Rq Wq B (replicate (Z.to_nat NUM_TERMINALS) TERMINAL_OPEN) (replicate (Z.to_nat NUM_TERMINALS) 0) g)) in
    making s0 s' (Qc ++ Qs ++ Rq ++ Wq ++ base)
      (<[cvar_list g := map cvar_id (rev (zseq 0 MAX_CVARS))]> (<[lock_list g := rev (zseq 0 MAX_LOCKS)]> VL)) B g' ->
    image_arrays g' -> returns K s' P) ->
  returns (mfor (zseq 0 NUM_TERMINALS) set_up_terminal ;;
    returning! mfor_ret (zseq 0 MAX_LOCKS) set_up_lock in
    mfor (zseq 0 MAX_CVARS) set_up_cvar ;; K) s P.
Proof.
  intros M0 [Ht [LQ1 LQ2] [LC1 LC2]] Hll Hcl Hlc HK. unfold zseq at 1. rewrite Z.sub_0_r.
  rstep. eapply returns_mono; [apply (terminals_loop MT s0 base VL g _ 0 s); [|done]|].
  { exists (ttyReadQueues g), (ttyWriteQueues g), (ttyReadbuffers g), (ttyWriteTrackers g), (ttyReadTrackers g).
    split; [|done]. cbn [take app]. by destruct g. }
  cbv beta. intros _ s1 (Rq & Wq & B & T & U & M1 & Hl & HT & HU). pose proof Hl as Hl'. rewrite !Forall_cons in Hl'.
  destruct Hl' as (LR & LW & LB & LT & LU & _). rewrite !take_ge in M1 by lia. apply take_all in HT, HU; [|done..]. subst T U.
  set (g1 := terminal_glob _ _ _ _ _ _) in *.
  rstep. unfold zseq at 1. rewrite Z.sub_0_r.
  eapply returns_mono; [apply (locks_loop MT s0 (Rq ++ Wq ++ base) VL B g1 _ 0 s1); [|done]|].
  { exists (lockAquireQueues g1), (lock_status g1). split; [|done]. cbn [take app zrange rev]. rewrite insert_id by done. exact M1. }
  cbv beta. intros r s2 (-> & Qs & St & M2 & LQ & LS & HS). rewrite take_ge in M2 by lia. apply take_all in HS; [|done]. subst St.
  set (g2 := lock_glob _ _ _) in *.
  rstep. unfold zseq at 1. rewrite Z.sub_0_r.
  eapply returns_mono; [apply (cvars_loop MT s0 (Qs ++ Rq ++ Wq ++ base) (<[lock_list g := rev (zseq 0 MAX_LOCKS)]> VL) B g2 _ 0 s2); [|done]|].
  { exists (cvarWaitQueues g2), (cvar_status g2). split; [|done]. cbn [take app zrange rev map].
    rewrite insert_id by (by rewrite lookup_insert_ne). exact M2. }
  cbv beta. intros _ s3 (Qc & Sc & M3 & LQc & LSc & HSc). rewrite take_ge in M3 by lia. apply take_all in HSc; [|done]. subst Sc.
  apply (HK s3 Rq Wq B Qs Qc); [exact M3|].
  split; [|split; [exact LQ|apply length_replicate]|split; [exact LQc|apply length_replicate]].
  rewrite !Forall_cons. do 3 (split; [done|]). split; [apply length_replicate|]. split; [apply length_replicate|done].
Qed.

Lemma head_pipe_spec s : returns init_head_pipe s (fun p s' => p <> NULL /\ exists x n,
  s' = set_pipes (<[p := x]> (pipes s)) (set_mtick n s) /\
  pp_id x = MAX_LOCKS + MAX_CVARS + 1 /\ pp_next x = NULL /\ pp_len x = 0).
Proof.
  unfold init_head_pipe, upd_pipe, get_pipe_obj. rstep. apply malloc_ok; [done|]. intros p Hp _.
  destruct (Z.eqb_spec p NULL); [done|]. rsteps. split; [done|]. eexists _, _. split.
  - unfold put_pipe. cbn. rewrite !insert_insert_eq. reflexivity.
  - done.
Qed.

Lemma three_lists (l1 l2 l3 : Z) (a b c : list Z) : l1 <> l2 -> l1 <> l3 -> l2 <> l3 -> exists V : gmap Z (list Z),
  <[l1 := a]> (<[l3 := c]> (<[l2 := b]> (<[l3 := []]> (<[l2 := []]> (<[l1 := []]> ∅))))) = <[l1 := a]> V /\
  V !! l2 = Some b /\ V !! l3 = Some c /\ NoDup [l1; l2; l3].
Proof.
  intros H12 H13 H23. eexists. split; [reflexivity|]. split; [|split; [apply lookup_insert_eq|]].
  - rewrite lookup_insert_ne by done. apply lookup_insert_eq.
  - rewrite !NoDup_cons, NoDup_nil. split_and!; rewrite ?elem_of_cons, ?elem_of_nil; tauto.
Qed.

Lemma SetUpGlobals_spec s : image_arrays (gl s) ->
  returns SetUpGlobals s (fun r s' => r = 0 /\ established s s').
Proof.
  intros [Ht [LQ1 LQ2] [LC1 LC2]].
  assert (M0 : making s s [] ∅ [] (gl s)) by (split; try done; try apply store_empty; constructor).
  unfold SetUpGlobals.
  rstep. eapply returns_mono; [by apply make_queue|]. cbv beta. intros q1 s1 (Hq1 & _ & M1).
  rstep. eapply returns_mono; [by apply make_global|]. cbv beta. intros _ s2 M2.
  rstep. eapply returns_mono; [by apply make_queue|]. cbv beta. intros q2 s3 (Hq2 & _ & M3).
  rstep. eapply returns_mono; [by apply make_global|]. cbv beta. intros _ s4 M4.
  rstep. eapply returns_mono; [by apply make_queue|]. cbv beta. intros q3 s5 (Hq3 & _ & M5).
  rstep. eapply returns_mono; [by apply make_global|]. cbv beta. intros _ s6 M6.
  rstep. eapply returns_mono; [by apply make_list|]. cbv beta. intros l1 s7 (Hl1 & _ & M7).
  rstep. eapply returns_mono; [by apply make_global|]. cbv beta. intros _ s8 M8.
  rstep. eapply returns_mono; [by apply make_list|]. cbv beta. intros l2 s9 (Hl2 & N2 & M9).
  rstep. eapply returns_mono; [by apply make_global|]. cbv beta. intros _ s10 M10.
  rstep. eapply returns_mono; [by apply make_list|]. cbv beta. intros l3 s11 (Hl3 & N3 & M11).
  rstep. eapply returns_mono; [by apply make_global|]. cbv beta. intros _ s12 M12.
  assert (D12 : l1 <> l2) by (intros ->; by rewrite lookup_insert_eq in N2).
  assert (D23 : l2 <> l3) by (intros ->; by rewrite lookup_insert_eq in N3).
  assert (D13 : l1 <> l3) by (intros ->; rewrite lookup_insert_ne, lookup_insert_eq in N3 by done; done).
  eapply tables_made; [exact M12|by split|..].
  { change (lock_list _) with l2. by rewrite lookup_insert_ne, lookup_insert_eq by congruence. }
  { apply lookup_insert_eq. } { change (l2 <> l3). congruence. }
  intros s13 Rq Wq B Qs Qc g' M13 A13.
  rstep. rstep. rewrite (mk_globals _ _ _ _ _ _ M13).
  change (ready_q g') with q1. change (blocked_q g') with q2. change (defunct_q g') with q3. change (pfn_list g') with l1.
  destruct (Z.eqb_spec q1 NULL), (Z.eqb_spec q2 NULL), (Z.eqb_spec q3 NULL), (Z.eqb_spec l1 NULL); [done..|]. cbn [orb].
  rstep. eapply returns_mono; [eapply frames_loop; [done|exact M13|]|].
  { change (pfn_list g') with l1. rewrite !lookup_insert_ne by done. apply lookup_insert_eq. }
  cbv beta. intros r s14 [-> M14]. rstep. unfold boot_frames in M14. rewrite rev_involutive, app_nil_r in M14.
  eapply returns_mono; [apply head_pipe_spec|]. cbv beta. intros p s15 (Hp & x & m & -> & Hx).
  rstep. apply returns_modify. rstep. split; [done|]. cbv zeta in *.
  destruct M14 as [S1 S2 S3 S4 S5 S6 (R1 & R2 & R3 & R4 & R5)].
  split; cbn [gl set_gl set_pipes set_mtick qst lst bufs pipes pcbs ptabs hw uc]; rewrite S6.
  - split; [|exact S2]. exact S1.
  - change (num_of_frames g') with (num_of_frames (gl s)) in S3. change (pfn_list g') with l1 in S3.
    change (lock_list (set_head_pipe p g')) with l2. change (cvar_list (set_head_pipe p g')) with l3.
    change (pfn_list (set_head_pipe p g')) with l1.
    destruct (three_lists l1 l2 l3 (zseq (Z.shiftr VMEM_1_BASE PAGESHIFT) (num_of_frames (gl s))) (rev (zseq 0 MAX_LOCKS))
      (map cvar_id (rev (zseq 0 MAX_CVARS))) D12 D13 D23) as (V & EV & HV). exists V. split; [|exact HV].
    change (lstore (lst s14) (<[l1 := zseq (Z.shiftr VMEM_1_BASE PAGESHIFT) (num_of_frames (gl s))]> V)). rewrite <- EV. exact S3.
  - by split_and!.
  - done.
  - by apply image_arrays_head_pipe.
  - exists x. change (head_pipe (set_head_pipe p g')) with p. rewrite R2. split; [exact Hp|]. split; [reflexivity|exact Hx].
  - done.
Qed.


End boot.

(** ** The image of the machine *)

Definition ex_boot_compiler : Compiler := {| fallthrough := fun a => a |}.
#[local] Instance ex_boot_compiler_laws : CompilerLaws ex_boot_compiler.
Proof. by split. Qed.
Definition ex_boot_state : kstate := set_gl (set_num_of_frames 135 init_glob) init_state.

Lemma ex_boot_arrays : image_arrays (gl ex_boot_state).
Proof. split; [repeat constructor|split; vm_compute; reflexivity..]. Qed.

