(* ===== verification/BootRun.v ===== *)
(** * From power-on to the first process ([KernelStart] of [kernel.c])

    The memory, the kernel's structures, the idle process and the first program, one
    after the other: what the machine looks like when [KernelStart] is left. *)

From Stdlib Require Import ZArith Lia.
From stdpp Require Import base gmap list.
From S2P Require Import Prelude Hardware State Store Logic KList KQueue KPipe Memory Frames Process ContextSwitch LoadProgram Boot LoadArgs Loader Loaded Fork Sched BootMem BootGlobals.

Open Scope Z_scope.

(** ** The first process *)

Section first.
Context `{L : Libc} {LL : LibcLaws L} (MT : MallocTotal L).

(** The process with pid 0 gets the stack the kernel runs on. *)
Lemma boot_stack_spec s p x K kt k0 k1 e1 e2 :
  pcbs s !! p = Some x -> pid x = 0 -> kernel_stack_pt x = [e1; e2] -> inactive (PtKstack p) s ->
  r_ptbr0 (hw s) = PtHeap K -> ptabs s !! K = Some kt -> zget kt KSTACK_VPN = Some k0 -> zget kt (KSTACK_VPN + 1) = Some k1 ->
  frame24 (pfn k0) -> frame24 (pfn k1) ->
  returns (init_kernel_stack p) s (fun o s' => o = None /\ s' = put_pcb p (set_kernel_stack_pt
      [mkPte VALID_FRAME NO_X_W_R (pfn k0); mkPte VALID_FRAME NO_X_W_R (pfn k1)] x) s).
Proof.
  intros Ex Hpid Hk Hin Hb Ht H0 H1 Hf0 Hf1. unfold init_kernel_stack. rstep. rstep; [exact Ex|]. rewrite Hpid. cbn [Z.eqb negb].
  rstep. rstep. rewrite Hb. change (zseq 0 KERNEL_STACK_SIZE) with [0; 1]. cbn [mfor].
  assert (Hpfn : forall f, frame24 f -> Z.land f 0xFFFFFF = f) by (intros f Hf; apply land_pfn_small; unfold frame24 in Hf; lia).
  rstep. rstep. rstep. eapply returns_pt_get; [exact Ht|exact H0|].
  eapply returns_exec; [apply (pt_upd3_inactive (PtKstack p) [] e1 [e2]); [cbn; by rewrite Ex, <- Hk|exact Hin]|].
  erewrite pt_put_kstack by exact Ex. cbn [app]. set (s1 := put_pcb p _ s).
  rstep. rstep. eapply returns_pt_get; [exact Ht|exact H1|].
  eapply returns_exec; [apply (pt_upd3_inactive (PtKstack p) [set_valid VALID_FRAME (set_prot NO_X_W_R (set_pfn (pfn k0) e1))] e2 [])|].
  { cbn. by rewrite lookup_insert_eq. } { exact Hin. }
  erewrite pt_put_kstack by (cbn; apply lookup_insert_eq). unfold s1. rewrite put_pcb_twice. rstep. rstep. split; [done|].
  unfold set_valid, set_pfn, set_prot. cbn [valid prot pfn app]. by rewrite !Hpfn.
Qed.

Lemma put_fields_first p X Y Z h s : put_pcb p X (put_pcb p Y (set_hw h (put_pcb p Z s))) = put_pcb p X (set_hw h s).
Proof. destruct s. unfold put_pcb, set_pcbs, set_hw. cbn. by rewrite !insert_insert_eq. Qed.

(** The PCB of the process with pid 0. *)
Definition first_pcb (s : kstate) (k0 k1 : pte) : pcb :=
  mkPcb 0 0 0 0 0 (uc s) 0 (replicate (Z.to_nat USER_PT_SIZE) pte_zero) 0 0 0 0
    [mkPte VALID_FRAME NO_X_W_R (pfn k0); mkPte VALID_FRAME NO_X_W_R (pfn k1)] NOT_BLOCKED 0 (return_code (raw_pcb (mtick s))).

Lemma init_process_first s uctxt K U kt k0 k1 :
  uctxt <> NULL -> active s = NULL -> r_ptbr0 (hw s) = PtHeap K -> r_ptbr1 (hw s) = PtHeap U -> ptabs s !! K = Some kt ->
  zget kt KSTACK_VPN = Some k0 -> zget kt (KSTACK_VPN + 1) = Some k1 -> frame24 (pfn k0) -> frame24 (pfn k1) ->
  new_pid (pid_tick (hw s)) = 0 ->
  returns (init_process uctxt) s (fun p s' => p <> NULL /\ (p ∉ live s) /\
    s' = set_hw (set_pid_tick (S (pid_tick (hw s))) (hw s)) (set_mtick (S (mtick s)) (put_pcb p (first_pcb s k0 k1) s))).
Proof.
  intros Huc Hact Hb0 Hb1 Ht H0 H1 Hf0 Hf1 Hpid. unfold init_process. rstep. apply (malloc_ok MT). intros p Hp Hfr.
  destruct (Z.eqb_spec p NULL); [done|]. unfold get_uc. destruct (Z.eqb_spec uctxt NULL); [done|].
  rsteps. rewrite !put_pcb_twice. unfold helper_new_pid. rsteps.
  match goal with |- context [active ?t] => change (active t) with (active s) end. rewrite Hact. cbn [Z.eqb NULL]. rsteps.
  rewrite put_fields_first, hw_put_pcb. set (X := set_ppid _ _). set (S1 := set_hw _ _).
  destruct (raw_pcb_tables (mtick s)) as [Hul Hkl].
  assert (Hin : forall t Y, (t = PtUser p \/ t = PtKstack p) -> inactive t (put_pcb p Y S1)).
  { intros t Y Hor. unfold inactive. cbn. rewrite Hb0, Hb1. destruct Hor as [-> | ->]; split; congruence. }
  apply clear_table; [exact Hul|by apply Hin; left|].
  destruct (kernel_stack_pt (raw_pcb (mtick s))) as [|e1 [|e2 [|]]] eqn:Ek; try done.
  rstep. eapply returns_mono.
  { eapply (boot_stack_spec (put_pcb p (set_user_page_table _ X) S1) p (set_user_page_table _ X) K kt k0 k1 e1 e2); try done.
    - cbn. apply lookup_insert_eq.
    - apply Hin; by right. }
  cbv beta. intros o s' (-> & ->). rewrite put_pcb_twice. rsteps. rewrite !put_pcb_twice.
  split; [done|]. split; [done|]. unfold X, first_pcb. rewrite Hpid. reflexivity.
Qed.

End first.

(** ** A program in memory *)

(** The machine as it is when [p] runs: on its table, with region 1 flushed. *)
Definition as_running (p : Z) (s : kstate) : kstate :=
  set_hw (write_reg (REG_PTBR1 (PtUser p)) (write_reg (REG_TLB_FLUSH TLB_FLUSH_1) (hw s))) s.

Lemma as_running_hw p s : let h := hw (as_running p s) in
  r_vm h = r_vm (hw s) /\ r_ptbr0 h = r_ptbr0 (hw s) /\ r_ptlr0 h = r_ptlr0 (hw s) /\ r_ptbr1 h = PtUser p /\
  r_ptlr1 h = r_ptlr1 (hw s) /\ frames h = frames (hw s) /\ kernel_fresh (tlb (hw s)) (tlb h).
Proof.
  cbn [as_running hw set_hw]. rewrite !r_vm_write, !r_ptbr0_write, !r_ptlr0_write, !r_ptbr1_write, !r_ptlr1_write, !frames_write.
  do 6 (split; [done|]). eapply kernel_fresh_trans; [|apply kernel_fresh_ptbr1]. apply kernel_fresh_drop.
Qed.

Lemma running_space s s' p t : user_space s p t -> r_vm (hw s') = VM_ENABLED -> r_ptlr1 (hw s') = MAX_PT_LEN ->
  pt_table (PtUser p) s' = Some t -> user_space (as_running p s') p t.
Proof.
  intros Hs Hv Hl Ht. split; cbn [as_running hw set_hw].
  - by rewrite r_vm_write, r_vm_write.
  - by rewrite r_ptbr1_write.
  - by rewrite r_ptlr1_write, r_ptlr1_write.
  - exact Ht.
  - intros v Hr. cbn. assert (Hf : tlb_drop (flushed TLB_FLUSH_1) (tlb (hw s')) !! v = None).
    { rewrite lookup_tlb_drop. change (flushed TLB_FLUSH_1 v) with (negb (region0_vpn v)). unfold region0_vpn.
      by destruct (Z.ltb_spec v MAX_PT_LEN); [lia|]. }
    case_decide; cbn; [by rewrite Hf|]. rewrite lookup_tlb_mark, Hf. by destruct (negb _).
  - apply Hs.
Qed.

(** The byte of a program at [a]. *)
Lemma running_byte s p t a : user_space s p t -> VMEM_1_BASE <= a ->
  ubyte s a = fbyte (hw s) (default 0 (pfn <$> (if vpn a <? 2 * MAX_PT_LEN then zget t (vpn a - MAX_PT_LEN) else None))) (a mod PAGESIZE).
Proof.
  intros [_ Hb Hl Ht _ _] Ha. unfold ubyte, phys. cbn [fst snd]. do 2 f_equal. f_equal.
  assert (Hv : 128 <= vpn a).
  { unfold vpn. rewrite shiftr_page. change PAGESIZE with 8192. change VMEM_1_BASE with (128 * 8192) in Ha.
    apply Z.div_le_lower_bound; lia. }
  unfold page_entry. change MAX_PT_LEN with 128 in *. rewrite bool_decide_false by lia.
  destruct (Z.ltb_spec (vpn a) (2 * 128)) as [H|H]; [rewrite bool_decide_true by lia|by rewrite bool_decide_false by lia].
  rewrite Hl, Hb, Ht. change MAX_PT_LEN with 128. by destruct (Z.ltb_spec (vpn a - 128) 128); [|lia].
Qed.

(** A program stays in memory as long as nobody writes to its frames. *)
Lemma program_stays s s' p t li ta da lo cs text data : user_space s p t -> user_space s' p t ->
  (forall f o, f = 0 \/ (exists i e, zget t i = Some e /\ pfn e = f) -> fbyte (hw s') f o = fbyte (hw s) f o) ->
  headers_ok li ta da -> layout_ok li lo cs ->
  program_image s li lo cs text data -> program_image s' li lo cs text data.
Proof.
  intros Hs Hs' Hf [_ _ _ _ _ _ _ Hz _] [Hg [_ Hcpp Hcp _] Ht Hd _ _] [P1 P2 P3 P4 P5 P6 P7].
  assert (Hb : forall a, VMEM_1_BASE <= a -> ubyte s' a = ubyte s a).
  { intros a Ha. rewrite (running_byte s p t), (running_byte s' p t) by done. apply Hf.
    destruct (if vpn a <? 2 * MAX_PT_LEN then _ else _) as [e|] eqn:E; [|by left]. right.
    destruct (vpn a <? 2 * MAX_PT_LEN); [|done]. by eexists _, e. }
  destruct Hg as [G1 G2 G3 G4 G5 _]. cbn [geometry_of ge_ta ge_tn ge_da ge_dn ge_sn] in *.
  change PAGESIZE with 8192 in *.
  split; intros; rewrite Hb; eauto.
  - match goal with H : zget text _ = Some _ |- _ => apply zget_Some in H end. lia.
  - match goal with H : zget data _ = Some _ |- _ => apply zget_Some in H end. lia.
  - lia.
  - match goal with H : zget (int_bytes _) _ = Some _ |- _ => apply zget_Some in H end. lia.
  - match goal with H : zget (int_bytes _) _ = Some _ |- _ => apply zget_Some in H end. lia.
  - match goal with H : zget (_ ++ _) _ = Some _ |- _ => apply zget_Some in H end.
    match goal with H : cs !! _ = Some _ |- _ => pose proof (arg_addr_range cs (lo_cp lo) _ _ H) end. lia.
  - lia.
Qed.

(** The frames of a program loaded over an empty table. *)
Lemma loaded_pfn g fl t i e : geometry_ok g -> is_loaded rx_page g (replicate (Z.to_nat USER_PT_SIZE) pte_zero) fl t ->
  zget t i = Some e -> pfn e = 0 \/ pfn e ∈ take (Z.to_nat (pages_needed g)) fl.
Proof.
  intros Hg Ht He. destruct (decide (valid e = VALID_FRAME)) as [Hv|Hv].
  - right. destruct (loaded_valid rx_page g _ fl t i e Hg (fun f => eq_refl) Ht He Hv) as (k & Hk & Hr).
    assert (Hk' : 0 <= k < pages_needed g) by (destruct Hg; unfold pages_needed in *; lia).
    apply (list_elem_of_lookup_2 _ (Z.to_nat k)). rewrite lookup_take_lt by lia.
    unfold zget in Hk. by rewrite bool_decide_true in Hk by lia.
  - left. rewrite (Ht i) in He. destruct (i <? MAX_PT_LEN); [|done]. unfold loaded_entry in He.
    repeat (destruct (_ && _); [by apply fmap_Some in He as (f & _ & ->)|]).
    apply fmap_Some in He as (e0 & He0 & ->). pose proof (zget_Some _ _ _ He0) as Hi. rewrite length_replicate in Hi. rewrite zget_replicate in He0 by done. by injection He0 as <-.
Qed.

(** ** The two programs *)

(** A file that can be loaded with the arguments [cs]. *)
Record loadable `{FS : FileSystem} (name : list Z) (cs : list (list Z)) (fd : Z) (li : load_info) (ta da : Z) : Prop := {
  ld_open : fs_open name = Some fd;
  ld_info : fs_load_info fd = Some li;
  ld_entry : VMEM_1_BASE <= li_entry li;
  ld_headers : headers_ok li ta da;
  ld_text : Z.of_nat (length (fs_read fd (li_t_faddr li) (li_t_npg li * PAGESIZE))) = li_t_npg li * PAGESIZE;
  ld_data : Z.of_nat (length (fs_read fd (li_id_faddr li) (li_id_npg li * PAGESIZE))) = li_id_npg li * PAGESIZE;
  ld_strings : Forall cbytes cs;
  ld_small : 4 * Z.of_nat (length cs) + args_size cs < 2 ^ 30;
  ld_fits : layout_fits (layout_of li cs) = true }.

(** The pages it takes. *)
Definition pages_of (li : load_info) (cs : list (list Z)) : Z := pages_needed (geometry_of li (layout_of li cs)).

Lemma loadable_layout `{FS : FileSystem} name cs fd li ta da : loadable name cs fd li ta da -> layout_ok li (layout_of li cs) cs.
Proof. intros []. by destruct (compute_layout_ok li ta da cs) as [H _]. Qed.

(** The program is in the memory of process [p], in the frames [fs]. *)
Definition in_memory `{FS : FileSystem} (s : kstate) (p : Z) (cs : list (list Z)) (fd : Z) (li : load_info) (t : list pte) (fs : list Z) : Prop :=
  user_space (as_running p s) p t /\
  program_image (as_running p s) li (layout_of li cs) cs (fs_read fd (li_t_faddr li) (li_t_npg li * PAGESIZE))
    (fs_read fd (li_id_faddr li) (li_id_npg li * PAGESIZE)) /\
  forall i e, zget t i = Some e -> pfn e = 0 \/ pfn e ∈ fs.

Lemma in_memory_stays `{FS : FileSystem} s s' p name cs fd li ta da t fs : loadable name cs fd li ta da -> in_memory s p cs fd li t fs ->
  r_vm (hw s') = VM_ENABLED -> r_ptlr1 (hw s') = MAX_PT_LEN -> pt_table (PtUser p) s' = Some t ->
  (forall f o, f = 0 \/ f ∈ fs -> fbyte (hw s') f o = fbyte (hw s) f o) -> in_memory s' p cs fd li t fs.
Proof.
  intros Hl (Hs & Hp & Hf) Hv Hl1 Ht Hb. pose proof (running_space _ s' p t Hs Hv Hl1 Ht) as Hs'.
  split; [exact Hs'|]. split; [|exact Hf]. eapply (program_stays (as_running p s)); try done; [|by destruct Hl|by eapply loadable_layout].
  assert (Hr : forall x f o, fbyte (hw (as_running p x)) f o = fbyte (hw x) f o).
  { intros x f o. unfold fbyte, frame_of, as_running. cbn [hw set_hw]. by rewrite !frames_write. }
  intros f o Hfo. rewrite !Hr. apply Hb. destruct Hfo as [->|(i & e & He & <-)]; [by left|]. by apply (Hf i e).
Qed.

Section run.
Context `{L : Libc} {LL : LibcLaws L} `{FS : FileSystem} {F : kstate -> list Z -> Prop} {FA : FrameAllocator L F} (MT : MallocTotal L).

(** One load over an empty table. *)
Lemma load_first s p name args cs fd li ta da x fl : loadable name cs fd li ta da -> args_are s args cs ->
  pcbs s !! p = Some x -> user_page_table x = replicate (Z.to_nat USER_PT_SIZE) pte_zero ->
  r_vm (hw s) = VM_ENABLED -> r_ptlr1 (hw s) = MAX_PT_LEN -> PtUser p <> r_ptbr0 (hw s) ->
  F s fl -> Forall frame24 fl -> NoDup fl -> pages_of li cs <= Z.of_nat (length fl) ->
  let n := Z.to_nat (pages_of li cs) in
  returns (LoadProgram name args p) s (fun r s' => r = SUCCESS /\ exists t,
    stage s s' p (loaded_pcb li (layout_of li cs) x) t /\ in_memory s' p cs fd li t (take n fl) /\
    F s' (drop n fl) /\ forall f o, f ∉ take n fl -> fbyte (hw s') f o = fbyte (hw s) f o).
Proof.
  intros Hl Ha Hx Ht Hv Hl1 H0 HF H24 Hnd Hn n. pose proof (loadable_layout _ _ _ _ _ _ Hl) as Hlo. pose proof Hl as [].
  assert (Er : reusable x fl = fl) by (unfold reusable; by rewrite Ht).
  eapply returns_mono; [apply (LoadProgram_spec s p name args cs fd li ta da x fl); [split; try done; by rewrite ?Ht, ?Er|done|done|by rewrite Er]|].
  cbv beta. rewrite Er, Ht. intros r s' (-> & t & St & Hld & Us & Pi & HF' & _ & Ho). split; [done|]. exists t.
  destruct (sg_hw _ _ _ _ _ St) as (c & m & Eh & _).
  assert (Hfr : forall i e, zget t i = Some e -> pfn e = 0 \/ pfn e ∈ take n fl).
  { intros i e. by apply (loaded_pfn (geometry_of li (layout_of li cs))); [apply Hlo|]. }
  split; [exact St|]. split; [|split; [exact HF'|]].
  - assert (Us' : user_space (as_running p s') p t).
    { apply (running_space s'); [exact Us|by rewrite Eh|by rewrite Eh|]. apply (stage_table s _ p _ t St). }
    split; [exact Us'|]. split; [|exact Hfr]. eapply (program_stays s'); try done.
    intros f o _. unfold fbyte, frame_of, as_running. cbn [hw set_hw]. by rewrite !frames_write.
  - intros f o Hf. apply Ho. intros i e He Hve <-. apply Hf.
    destruct (Hfr i e He) as [E|E]; [|exact E]. exfalso.
    destruct (loaded_valid rx_page (geometry_of li (layout_of li cs)) _ fl t i e (lk_geometry _ _ _ Hlo) (fun f => eq_refl) Hld He Hve) as (k & Hk & _).
    rewrite E in Hk. rewrite Forall_forall in H24. unfold zget in Hk. case_bool_decide; [|done].
    apply list_elem_of_lookup_2, H24 in Hk. unfold frame24 in Hk. lia.
Qed.

(** The machine between the set-up of the kernel's structures and the first process: it
    runs on the kernel's table [kt] at [K], with an empty region 1 at [U]. *)
Record no_process (s : kstate) (K U : Z) (kt : list pte) : Prop := {
  np_active : active s = NULL;
  np_vm : r_vm (hw s) = VM_ENABLED;
  np_b0 : r_ptbr0 (hw s) = PtHeap K;
  np_l0 : r_ptlr0 (hw s) = MAX_PT_LEN;
  np_b1 : r_ptbr1 (hw s) = PtHeap U;
  np_l1 : r_ptlr1 (hw s) = MAX_PT_LEN;
  np_ne : K <> U;
  np_table : ptabs s !! K = Some kt;
  np_len : length kt = Z.to_nat KERNEL_PT_SIZE;
  np_k0 : zget kt KSTACK_VPN = Some (mkPte VALID_FRAME NO_X_W_R KSTACK_VPN);
  np_k1 : zget kt (KSTACK_VPN + 1) = Some (mkPte VALID_FRAME NO_X_W_R (KSTACK_VPN + 1));
  np_room : find_free kt <> -1;
  np_tlb : forall v, v < MAX_PT_LEN -> tlb (hw s) !! v <> Some false;
  np_pid : new_pid (pid_tick (hw s)) = 0 }.

(** The PCB of the idle process before its program is loaded. *)
Definition idle_pcb (s : kstate) : pcb :=
  first_pcb s (mkPte VALID_FRAME NO_X_W_R KSTACK_VPN) (mkPte VALID_FRAME NO_X_W_R (KSTACK_VPN + 1)).

(** The idle process [i], with the PCB [x] and its program in the frames [fs], is the active one. *)
Record idle_up (s0 s : kstate) (K U i : Z) (x : pcb) (cs : list (list Z)) (fd : Z) (li : load_info) (t : list pte)
    (fs fl : list Z) : Prop := {
  iu_nonnull : i <> NULL;
  iu_fresh : pcbs s0 !! i = None;
  iu_pcbs : pcbs s = <[i := set_user_page_table t x]> (pcbs s0);
  iu_rest : qst s = qst s0 /\ pipes s = pipes s0 /\ uc s = uc s0 /\ gl s = set_activePCB i (set_idlePCB i (gl s0)) /\ ptabs s = delete U (ptabs s0);
  iu_regs : r_vm (hw s) = VM_ENABLED /\ r_ptbr0 (hw s) = PtHeap K /\ r_ptlr0 (hw s) = MAX_PT_LEN /\
    r_ptbr1 (hw s) = PtUser i /\ r_ptlr1 (hw s) = MAX_PT_LEN /\ pid_tick (hw s) = S (pid_tick (hw s0));
  iu_tlb : kernel_fresh (tlb (hw s0)) (tlb (hw s));
  iu_memory : in_memory s i cs fd li t fs;
  iu_frames : forall f o, f ∉ fs -> fbyte (hw s) f o = fbyte (hw s0) f o;
  iu_free : F s fl }.

Lemma idle_phase (rest : M unit) s0 K U kt uctxt cmd_args fd li ta da fl P :
  no_process s0 K U kt -> uctxt <> NULL -> (1 <= length cmd_args)%nat -> Z.of_nat (length cmd_args) <= VMEM_1_SIZE ->
  let cs := drop 1 cmd_args in
  loadable str_idle cs fd li ta da -> F s0 fl -> Forall frame24 fl -> NoDup fl -> pages_of li cs <= Z.of_nat (length fl) ->
  let n := Z.to_nat (pages_of li cs) in
  (forall s i t, idle_up s0 s K U i (loaded_pcb li (layout_of li cs) (idle_pcb s0)) cs fd li t (take n fl) (drop n fl) ->
    clones rest s P) ->
  clones (let! i := init_process uctxt in
    upd_gl (set_idlePCB i) ;;
    LoadProgram str_idle (KernelArgs cmd_args 1) i ;;
    upd_gl (set_activePCB i) ;;
    modify (fun s => set_ptabs (delete U (ptabs s)) s) ;;
    rest) s0 P.
Proof.
  intros Hnp Hu Hc Hcs cs Hl HF H24 Hnd Hn n Hrest. pose proof Hnp as [Ha Hv Hb0 Hl0 Hb1 Hl1 Hne Ht Hlk Hk0 Hk1 Hfree Htlb Hpid].
  apply clones_after. eapply returns_mono; [by eapply (init_process_first MT s0 uctxt K U kt)|]. cbv beta. intros i s1 (Hi & Hfr & ->).
  assert (Hpi : pcbs s0 !! i = None).
  { apply not_elem_of_dom. intros Hin. apply Hfr. unfold live. rewrite !elem_of_union. do 7 left. exact Hin. }
  apply clones_after. apply returns_modify. set (s2 := set_gl _ _).
  apply clones_after. eapply returns_mono.
  { apply (load_first s2 i str_idle _ cs fd li ta da (idle_pcb s0) fl Hl); try done; [|apply lookup_insert_eq|by cbn; rewrite Hb0|by eapply fa_frame; [| |exact HF]].
    exists 1%nat. split; [done|]. split; [done|]. by split. }
  cbv beta. intros r s3 (-> & t & [Ep Er (c & m & Eh & Hk)] & Hm & HF3 & Ho). fold n in HF3, Ho, Hm.
  apply clones_after. apply returns_modify. apply clones_after. apply returns_modify.
  destruct Er as (Eq & Epi & Et & Eg & Eu). apply (Hrest _ i t). split.
  - exact Hi.
  - exact Hpi.
  - cbn. rewrite Ep. apply insert_insert_eq.
  - cbn. rewrite Eq, Epi, Eu, Eg, Et. done.
  - cbn. rewrite Eh. done.
  - cbn. rewrite Eh. exact Hk.
  - eapply (in_memory_stays s3); try done; cbn; rewrite ?Eh; try done. by rewrite Ep, lookup_insert_eq.
  - intros f o Hf. cbn. rewrite Ho by done. done.
  - eapply fa_frame; [| |exact HF3]; done.
Qed.

(** ** The first program *)

(** The PCB of the first program before it is loaded. *)
Definition prog_pcb (s0 : kstate) (n rc f1 f2 : Z) : pcb :=
  mkPcb n 0 0 0 0 (uc s0) 0 (replicate (Z.to_nat USER_PT_SIZE) pte_zero) 0 0 0 0
    [mkPte INVALID_FRAME NO_X_W_R f1; mkPte INVALID_FRAME NO_X_W_R f2] NOT_BLOCKED 0 rc.

(** The PCB when its kernel stack has been copied. *)
Definition prog_ready (c f1 f2 : Z) (x : pcb) : pcb :=
  set_kernel_stack_pt [mkPte VALID_FRAME NO_X_W_R f1; mkPte VALID_FRAME NO_X_W_R f2] (set_kernel_context c x).

(** The idle process is up and the program is loaded, in the frames [fs]. *)
Record prog_up (s0 s : kstate) (K U i p : Z) (x : pcb) (cs : list (list Z)) (fd : Z) (li : load_info) (t0 t : list pte)
    (n f1 f2 : Z) (fs fl : list Z) : Prop := {
  gu_nonnull : i <> NULL /\ p <> NULL /\ p <> i;
  gu_pcbs : exists rc, pcbs s = <[p := set_user_page_table t (loaded_pcb li (layout_of li cs) (prog_pcb s0 n rc f1 f2))]>
    (<[i := set_num_children 1 (set_user_page_table t0 x)]> (pcbs s0));
  gu_rest : qst s = qst s0 /\ pipes s = pipes s0 /\ uc s = uc s0 /\ gl s = set_activePCB i (set_idlePCB i (gl s0)) /\ ptabs s = delete U (ptabs s0);
  gu_regs : r_vm (hw s) = VM_ENABLED /\ r_ptbr0 (hw s) = PtHeap K /\ r_ptlr0 (hw s) = MAX_PT_LEN /\
    r_ptbr1 (hw s) = PtUser p /\ r_ptlr1 (hw s) = MAX_PT_LEN;
  gu_tlb : kernel_fresh (tlb (hw s0)) (tlb (hw s));
  gu_memory : in_memory s p cs fd li t fs;
  gu_free : F s fl }.

Lemma prog_phase s0 s K U kt i x cs0 fd0 li0 t0 fs0 uctxt cmd_args prog fd li ta da f1 f2 fl :
  no_process s0 K U kt -> idle_up s0 s K U i x cs0 fd0 li0 t0 fs0 (f1 :: f2 :: fl) -> pid x = 0 -> num_children x = 0 ->
  uctxt <> NULL -> Z.of_nat (length cmd_args) <= VMEM_1_SIZE -> loadable prog cmd_args fd li ta da ->
  frame24 f1 -> frame24 f2 -> Forall frame24 fl -> NoDup fl -> pages_of li cmd_args <= Z.of_nat (length fl) ->
  let n := new_pid (S (pid_tick (hw s0))) in n <> 0 -> let m := Z.to_nat (pages_of li cmd_args) in
  returns (let! p := init_process uctxt in let! r := LoadProgram prog (KernelArgs cmd_args 0) p in ret (p, r)) s (fun pr s' =>
    let p := pr.1 in pr.2 = SUCCESS /\ exists t,
    prog_up s0 s' K U i p x cmd_args fd li t0 t n f1 f2 (take m fl) (drop m fl) /\
    forall f o, f ∉ take m fl -> fbyte (hw s') f o = fbyte (hw s) f o).
Proof.
  intros Hnp Iu Hx0 Hxn Hu Hcs Hl Hf1 Hf2 H24 Hnd Hn n Hn0 m.
  destruct Iu as [Hi _ Ep (Eq & Epi & Eu & Eg & Et) (Rv & Rb0 & Rl0 & Rb1 & Rl1 & Rt) Hk _ _ HF].
  assert (Hpi : pcbs s !! i = Some (set_user_page_table t0 x)) by (rewrite Ep; apply lookup_insert_eq).
  rstep. eapply returns_mono.
  { apply (init_process_spec s uctxt i (set_user_page_table t0 x) K f1 f2 fl); try done. by unfold active; rewrite Eg. by rewrite Rt. }
  cbv beta. rewrite Rt. intros p s1 (Hp & Hfr & HF1 & h & ->).
  assert (Hpne : p <> i).
  { intros ->. apply Hfr. unfold live. rewrite !elem_of_union. do 7 left. by apply elem_of_dom. }
  set (s1 := set_lst h _) in *. rstep. eapply returns_mono.
  { eapply (load_first s1 p prog _ cmd_args fd li ta da _ fl Hl); try done; [|apply lookup_insert_eq| |by cbn; rewrite Rb0].
    - exists 0%nat. split; [done|]. split; [lia|]. by split.
    - done. }
  cbv beta. intros r s2 (-> & t & [Ep2 (Eq2 & Epi2 & Et2 & Eg2 & Eu2) (c & mm & Eh2 & Hk2)] & Hm & HF2 & Ho). fold m in Hm, HF2, Ho.
  rstep. split; [done|]. exists t. split; [|intros f o Hf; by rewrite Ho]. split.
  - done.
  - eexists. rewrite Ep2. cbn. rewrite insert_insert_eq, Ep, insert_insert_eq, Eu, Hx0, Hxn. reflexivity.
  - by rewrite Eq2, Epi2, Eu2, Eg2, Et2.
  - by rewrite Eh2.
  - rewrite Eh2. cbn. by eapply kernel_fresh_trans.
  - exact Hm.
  - exact HF2.
Qed.

(** ** The kernel stack of the first program *)

Lemma copied_bytes h c (k : Z) f1 f2 (f o : Z) : f1 <> f2 -> f1 <> k + 1 -> f2 <> k ->
  fbyte (set_tlb c (set_frames (stack_copied h (mkPte VALID_FRAME NO_X_W_R k) (mkPte VALID_FRAME NO_X_W_R (k + 1))
    (mkPte INVALID_FRAME NO_X_W_R f1) (mkPte INVALID_FRAME NO_X_W_R f2)) h)) f o =
  fbyte h (if f =? f1 then k else if f =? f2 then k + 1 else f) o.
Proof.
  intros H12 H1 H2. unfold fbyte. rewrite frame_of_stack_copied. cbn [pfn].
  destruct (Z.eqb_spec f f1), (Z.eqb_spec f f2); repeat case_decide; congruence || done.
Qed.

Context {Q : qheap -> gmap Z (list (Z * Z)) -> Prop} {QS : QueueStore L Q}.

(** The state in which the first program's copy of the computation is saved. *)
Record handed_over (s0 s' : kstate) (K U i p : Z) (kt : list pte) (x : pcb) (cs : list (list Z)) (fd : Z) (li : load_info)
    (t0 t : list pte) (n f1 f2 : Z) (fs fl : list Z) (V : gmap Z (list (Z * Z))) : Prop := {
  ho_active : i <> NULL /\ p <> NULL /\ p <> i;
  ho_globals : gl s' = set_activePCB i (set_idlePCB i (gl s0)) /\ pipes s' = pipes s0;
  ho_pcbs : exists rc, pcbs s' = <[p := prog_ready p f1 f2 (set_user_page_table t (loaded_pcb li (layout_of li cs) (prog_pcb s0 n rc f1 f2)))]>
    (<[i := set_num_children 1 (set_user_page_table t0 x)]> (pcbs s0));
  ho_queues : Q (qst s') (<[ready_q (gl s0) := [(n, p)]]> V);
  ho_tables : ptabs s' = <[K := <[Z.to_nat (find_free kt) := pte_zero]> kt]> (delete U (ptabs s0));
  ho_regs : r_vm (hw s') = VM_ENABLED /\ r_ptbr0 (hw s') = PtHeap K /\ r_ptlr0 (hw s') = MAX_PT_LEN /\
    r_ptbr1 (hw s') = PtUser i /\ r_ptlr1 (hw s') = MAX_PT_LEN;
  ho_context : uc s' = user_context x;
  ho_memory : in_memory s' p cs fd li t fs;
  ho_free : F s' fl }.

(** The state before the copy: [s] runs the idle process [i], the ready queue is [qh]. *)
Definition before_copy (i : Z) (qh : qheap) (u : UserContext) (s : kstate) : kstate :=
  as_running i (set_uc u (set_qst qh (set_mtick (S (mtick s)) s))).

Lemma before_copy_ready s0 s K U kt i p x cs fd li t0 t n f1 f2 fs fl qh u :
  no_process s0 K U kt -> prog_up s0 s K U i p x cs fd li t0 t n f1 f2 fs fl -> frame24 f1 -> frame24 f2 -> MAX_PT_LEN <= f1 ->
  stack_ready (before_copy i qh u s) K kt (mkPte VALID_FRAME NO_X_W_R KSTACK_VPN) (mkPte VALID_FRAME NO_X_W_R (KSTACK_VPN + 1))
    (mkPte INVALID_FRAME NO_X_W_R f1) (mkPte INVALID_FRAME NO_X_W_R f2).
Proof.
  intros [Ha Hv Hb0 Hl0 Hb1 Hl1 Hne Ht Hlk Hk0 Hk1 Hfree Htlb Hpid] [_ _ (_ & _ & _ & _ & Et) (Rv & Rb0 & Rl0 & Rb1 & Rl1) Hk _ _] Hf1 Hf2 Hg.
  unfold before_copy. set (S0 := set_uc _ _). destruct (as_running_hw i S0) as (Ev & Eb0 & El0 & Eb1 & _ & _ & Hfr).
  assert (Hfr' : kernel_fresh (tlb (hw s0)) (tlb (hw (as_running i S0)))) by (eapply kernel_fresh_trans; [exact Hk|exact Hfr]).
  split; try done.
  - split; [by rewrite Eb0| |done|by rewrite Eb1]. cbn. rewrite Et. by rewrite lookup_delete_ne.
  - by rewrite Ev.
  - by rewrite El0.
  - apply Hfr'; [done|]. by apply Htlb.
  - apply Hfr'; [done|]. by apply Htlb.
  - cbn. change MAX_PT_LEN with 128 in *. change KSTACK_VPN with 126. lia.
Qed.

Lemma hand_over_phase s0 s K U kt i p x name cs fd li ta da t0 t n f1 f2 fs fl uctxt V :
  no_process s0 K U kt -> prog_up s0 s K U i p x cs fd li t0 t n f1 f2 fs fl -> loadable name cs fd li ta da -> uctxt <> NULL ->
  Q (qst s0) V -> V !! ready_q (gl s0) = Some [] ->
  frame24 f1 -> frame24 f2 -> f1 <> f2 -> f1 ∉ fs -> f2 ∉ fs -> MAX_PT_LEN <= f1 -> MAX_PT_LEN <= f2 ->
  clones (let! rq := qptr ready_q in
    let! y := get_pcb p in
    queue_add rq p (pid y) ;;
    WriteRegister (REG_TLB_FLUSH TLB_FLUSH_1) ;;
    let! i := gets idle in
    WriteRegister (REG_PTBR1 (PtUser i)) ;;
    let! ip := get_pcb i in
    upd_uc uctxt (fun _ => user_context ip) ;;
    clone_context p) s (fun c s' k => c = p /\ handed_over s0 s' K U i p kt x cs fd li t0 t n f1 f2 fs fl V /\
      (forall f o, fbyte (hw s') f o = fbyte (hw s) (if f =? f1 then KSTACK_VPN else if f =? f2 then KSTACK_VPN + 1 else f) o) /\
      forall t, k t = Ret tt (set_uc (user_context x) t)).
Proof.
  intros Hnp Gu Hl Hu HQ HV Hf1 Hf2 H12 Hn1 Hn2 Hg1 Hg2.
  pose proof Gu as [(Hi & Hp & Hpi) (rc & Ep) (Eq & Epi & Eu & Eg & Et) (Rv & Rb0 & Rl0 & Rb1 & Rl1) Hk Hm HF].
  set (y := set_user_page_table t _) in Ep. set (z := set_num_children 1 _) in Ep.
  assert (Ey : pcbs s !! p = Some y) by (rewrite Ep; apply lookup_insert_eq).
  assert (Ez : pcbs s !! i = Some z) by (rewrite Ep, lookup_insert_ne by done; apply lookup_insert_eq).
  unfold qptr. apply clones_after, returns_gets, clones_after. eapply returns_deref; [exact Ey|]. apply clones_after.
  rewrite Eg. change (pid y) with n. eapply returns_mono; [eapply (qs_add (R := Q)); [by rewrite Eq|exact HV|done]|]. cbv beta.
  intros r s1 (qh & -> & [[_ HQ1]|(_ & _ & E)]); [|by destruct (MT _ _ E)].
  apply clones_after, returns_modify, clones_after, returns_gets.
  match goal with |- context [idle ?t] => change (idle t) with (idle s) end.
  replace (idle s) with i by (unfold idle; by rewrite Eg).
  apply clones_after, returns_modify, clones_after. eapply returns_deref; [exact Ez|].
  apply clones_after. unfold upd_uc. destruct (Z.eqb_spec uctxt NULL); [done|].
  apply returns_modify. change (user_context z) with (user_context x).
  match goal with |- clones _ ?S _ => change S with (before_copy i qh (user_context x) s) end.
  set (s3 := before_copy _ _ _ _). destruct (as_running_hw i (set_uc (user_context x) (set_qst qh (set_mtick (S (mtick s)) s)))) as (Ev & Eb0 & El0 & Eb1 & El1 & Efr & _).
  unfold clone_context. apply clones_after. eapply returns_mono.
  { eapply (KCCopy_spec s3 p p y K kt); try done. by eapply before_copy_ready. }
  cbv beta. intros r' s4 [-> (c4 & -> & _)]. destruct (Z.eqb_spec p NULL); [done|].
  set (s4 := set_hw _ _). assert (E4 : ctx_clone p s4 = Clone p s4 (fun t => Ret tt (set_uc (user_context x) t))) by reflexivity.
  unfold clones. rewrite E4. split; [done|].
  assert (Hst : forall f o, fbyte (hw s4) f o = fbyte (hw s) (if f =? f1 then KSTACK_VPN else if f =? f2 then KSTACK_VPN + 1 else f) o).
  { intros f o. unfold s4. cbn [hw set_hw]. rewrite copied_bytes; [|done|change MAX_PT_LEN with 128 in *; change KSTACK_VPN with 126; lia..].
    unfold fbyte, frame_of, s3, before_copy. by rewrite Efr. }
  split; [|by split]. split.
  - done.
  - change (gl s4) with (gl s). change (pipes s4) with (pipes s). by rewrite Eg.
  - exists rc. unfold s4. cbn. rewrite Ep, insert_insert_eq. reflexivity.
  - exact HQ1.
  - unfold s4. cbn. by rewrite Et.
  - unfold s4, s3, before_copy. cbn [hw set_hw r_vm r_ptbr0 r_ptlr0 r_ptbr1 r_ptlr1 set_tlb set_frames]. rewrite Ev, Eb0, El0, Eb1, El1. done.
  - done.
  - eapply (in_memory_stays s); try done; try (unfold s4, s3, before_copy; cbn [hw set_hw r_vm r_ptlr1 set_tlb set_frames]; rewrite ?Ev, ?El1; done).
    { unfold s4. cbn. by rewrite lookup_insert_eq. }
    intros f o Hf. rewrite Hst. assert (f <> f1 /\ f <> f2) as [N1 N2] by (unfold frame24 in *; split; intros ->; destruct Hf; lia || done).
    by destruct (Z.eqb_spec f f1), (Z.eqb_spec f f2).
  - eapply fa_frame; [| |exact HF]; done.
Qed.

(** ** Both processes *)

Lemma clones_after_two {A B T} (m : M A) (f : A -> M B) (g : A -> B -> M T) s P :
  returns (let! a := m in let! b := f a in ret (a, b)) s (fun ab s' => clones (g ab.1 ab.2) s' P) ->
  clones (let! a := m in let! b := f a in g a b) s P.
Proof. unfold returns, clones, bind. destruct (m s) as [a s1| | |]; cbn [obind]; try done. by destruct (f a s1). Qed.

(** What [KernelStart] leaves: [handed_over] with the idle process in memory, the running
    kernel stack copied to [f1] and [f2], and the rest of memory as it was. *)
Record started (s0 s' : kstate) (K U i p : Z) (kt : list pte) (cs0 cs : list (list Z)) (fd0 fd : Z) (li0 li : load_info)
    (n f1 f2 : Z) (fs0 fs fl : list Z) (V : gmap Z (list (Z * Z))) (t0 t : list pte) : Prop := {
  su_handed : handed_over s0 s' K U i p kt (loaded_pcb li0 (layout_of li0 cs0) (idle_pcb s0)) cs fd li t0 t n f1 f2 fs fl V;
  su_idle : in_memory s' i cs0 fd0 li0 t0 fs0;
  su_stack : forall o, fbyte (hw s') f1 o = fbyte (hw s0) KSTACK_VPN o /\ fbyte (hw s') f2 o = fbyte (hw s0) (KSTACK_VPN + 1) o;
  su_others : forall f o, f ∉ f1 :: f2 :: fs0 ++ fs -> fbyte (hw s') f o = fbyte (hw s0) f o }.

(** The frames the two programs and the new kernel stack get, and the running stack's. *)
Record apart_frames (fs0 : list Z) (f1 f2 : Z) (fs : list Z) : Prop := {
  af_large : forall f, f ∈ f1 :: f2 :: fs0 ++ fs -> MAX_PT_LEN <= f;
  af_stack : (f1 <> f2) /\ (f1 ∉ fs) /\ (f2 ∉ fs);
  af_idle : forall f, f ∈ fs0 -> f ∉ f1 :: f2 :: fs }.

Lemma apart_of_list fs0 f1 f2 fs fl : let all := fs0 ++ f1 :: f2 :: fs ++ fl in
  NoDup all -> Forall (fun f => MAX_PT_LEN <= f) all -> apart_frames fs0 f1 f2 fs.
Proof.
  intros all Hnd Hge. rewrite Forall_forall in Hge. unfold all in *. clear all.
  apply NoDup_app in Hnd as (_ & D0 & Hnd). rewrite !NoDup_cons, elem_of_cons, !elem_of_app in Hnd. destruct Hnd as (D1 & D2 & _).
  split; [|tauto|].
  - intros f. rewrite !elem_of_cons, elem_of_app. intros Hf. apply Hge. rewrite elem_of_app, !elem_of_cons, elem_of_app. tauto.
  - intros f Hf. specialize (D0 f Hf). rewrite !elem_of_cons, elem_of_app in D0. rewrite !elem_of_cons. tauto.
Qed.

(** Memory after the three writers: the idle program, the first program, the stack. *)
Lemma boot_bytes h0 h1 h2 h fs0 f1 f2 fs : apart_frames fs0 f1 f2 fs ->
  (forall f o, f ∉ fs0 -> fbyte h1 f o = fbyte h0 f o) -> (forall f o, f ∉ fs -> fbyte h2 f o = fbyte h1 f o) ->
  (forall f o, fbyte h f o = fbyte h2 (if f =? f1 then KSTACK_VPN else if f =? f2 then KSTACK_VPN + 1 else f) o) ->
  (forall o, fbyte h f1 o = fbyte h0 KSTACK_VPN o /\ fbyte h f2 o = fbyte h0 (KSTACK_VPN + 1) o) /\
  (forall f o, f ∉ f1 :: f2 :: fs0 ++ fs -> fbyte h f o = fbyte h0 f o) /\
  (forall f o, f = 0 \/ f ∈ fs0 -> fbyte h f o = fbyte h1 f o).
Proof.
  intros [Hl (H12 & H1 & H2) Hi] E1 E2 E3.
  assert (Hs : forall f, f < MAX_PT_LEN -> f ∉ f1 :: f2 :: fs0 ++ fs) by (intros f Hf Hin; specialize (Hl f Hin); lia).
  pose proof (fun f H => proj1 (not_elem_of_cons _ _ _) (Hs f H)) as Hs1.
  assert (E : forall f o, f ∉ f1 :: f2 :: fs0 ++ fs -> fbyte h f o = fbyte h0 f o /\ fbyte h2 f o = fbyte h0 f o).
  { intros f o Hf. rewrite !not_elem_of_cons, not_elem_of_app in Hf. destruct Hf as (N1 & N2 & N3 & N4).
    rewrite E3. destruct (Z.eqb_spec f f1), (Z.eqb_spec f f2); try done. by rewrite E2, E1. }
  split; [|split].
  - intros o. rewrite !E3, !Z.eqb_refl. destruct (Z.eqb_spec f2 f1); [congruence|]. split; apply E, Hs; reflexivity.
  - intros f o Hf. by apply E.
  - intros f o [->|Hf].
    + destruct (E 0 o) as [-> _]; [by apply Hs|]. symmetry. apply E1. specialize (Hs 0 eq_refl). rewrite !not_elem_of_cons, not_elem_of_app in Hs. tauto.
    + specialize (Hi f Hf). rewrite !not_elem_of_cons in Hi. destruct Hi as (N1 & N2 & N3). rewrite E3.
      destruct (Z.eqb_spec f f1), (Z.eqb_spec f f2); try done. by apply E2.
Qed.

Lemma boot_processes_spec s0 K U kt uctxt cmd_args prog fd0 li0 ta0 da0 fd li ta da fs0 f1 f2 fs fl V :
  no_process s0 K U kt -> uctxt <> NULL -> (1 <= length cmd_args)%nat -> Z.of_nat (length cmd_args) <= VMEM_1_SIZE ->
  let cs0 := drop 1 cmd_args in
  loadable str_idle cs0 fd0 li0 ta0 da0 -> loadable prog cmd_args fd li ta da ->
  let all := fs0 ++ f1 :: f2 :: fs ++ fl in
  F s0 all -> Forall frame24 all -> Forall (fun f => MAX_PT_LEN <= f) all -> NoDup all ->
  Z.of_nat (length fs0) = pages_of li0 cs0 -> Z.of_nat (length fs) = pages_of li cmd_args ->
  let n := new_pid (S (pid_tick (hw s0))) in n <> 0 -> Q (qst s0) V -> V !! ready_q (gl s0) = Some [] ->
  clones (boot_processes cmd_args prog U uctxt) s0 (fun p s' k => exists i t0 t,
    started s0 s' K U i p kt cs0 cmd_args fd0 fd li0 li n f1 f2 fs0 fs fl V t0 t /\
    forall u, k u = Ret tt (set_uc (uc s') u)).
Proof.
  intros Hnp Hu Hc Hcs cs0 Hl0 Hl all HF H24 Hge Hnd E0 E1 n Hn HQ HV.
  pose proof (apart_of_list fs0 f1 f2 fs fl Hnd Hge) as Ha. pose proof Ha as [Hlarge (H12 & Hn1 & Hn2) _].
  pose proof H24 as H24'. unfold all in H24'. rewrite Forall_app, !Forall_cons in H24'. destruct H24' as (_ & Hf1 & Hf2 & Hfs).
  pose proof Hnd as Hnd'. unfold all in Hnd'. apply NoDup_app in Hnd' as (_ & _ & Hnd'). rewrite !NoDup_cons in Hnd'. destruct Hnd' as (_ & _ & Hnd').
  assert (Hg1 : MAX_PT_LEN <= f1) by (apply Hlarge; by left). assert (Hg2 : MAX_PT_LEN <= f2) by (apply Hlarge; right; by left).
  assert (Ht0 : take (Z.to_nat (pages_of li0 cs0)) all = fs0 /\ drop (Z.to_nat (pages_of li0 cs0)) all = f1 :: f2 :: fs ++ fl).
  { rewrite <- E0, Nat2Z.id. split; [apply take_app_length|apply drop_app_length]. }
  destruct Ht0 as [Et0 Ed0].
  unfold boot_processes. eapply (idle_phase _ s0 K U kt uctxt cmd_args fd0 li0 ta0 da0 all); try done.
  { fold cs0. rewrite <- E0. unfold all. rewrite length_app. lia. }
  intros s1 i t0 Iu. fold cs0 in Iu. rewrite Et0, Ed0 in Iu.
  apply clones_after_two. eapply returns_mono.
  { apply (prog_phase s0 s1 K U kt i (loaded_pcb li0 (layout_of li0 cs0) (idle_pcb s0)) cs0 fd0 li0 t0 fs0 uctxt cmd_args prog fd li ta da f1 f2 (fs ++ fl)); try done. rewrite <- E1, length_app. lia. }
  cbv beta. intros [p r] s2 (Hr & t & Gu & Ho2). cbn [fst snd] in *. subst r. cbn [Z.eqb].
  rewrite <- E1, Nat2Z.id, take_app_length, drop_app_length in *.
  change (SUCCESS =? ERROR) with false. cbv iota. apply clones_after. rstep.
  eapply clones_mono; [by eapply (hand_over_phase s0 s2 K U kt i p _ prog); try exact Gu; try exact Hl; try exact HQ|].
  cbv beta. intros c s' k (-> & Hh & Hst & Hk). exists i, t0, t.
  destruct (boot_bytes (hw s0) (hw s1) (hw s2) (hw s') fs0 f1 f2 fs Ha) as (B1 & B2 & B3); [apply Iu|exact Ho2|exact Hst|].
  split; [|intros u; rewrite Hk; f_equal; f_equal; symmetry; apply Hh].
  split; [exact Hh| |exact B1|exact B2].
  pose proof Hh as [(_ & _ & Hpi) _ (rc & Ep) _ _ (Rv & _ & _ & _ & Rl1) _ _ _].
  eapply (in_memory_stays s1); try done; [apply Iu|]. by cbn; rewrite Ep, lookup_insert_ne, lookup_insert_eq.
Qed.

End run.

(** ** From power-on *)

Section power_on.
Context `{L : Libc} {LL : LibcLaws L} `{C : Compiler} {CL : CompilerLaws C} `{FS : FileSystem} `{I : Image} (MT : MallocTotal L).

Lemma find_free_some kt i e : 0 <= i <= KSTACK_VPN -> zget kt i = Some e -> valid e = INVALID_FRAME -> find_free kt <> -1.
Proof.
  intros Hi He Hv. unfold find_free. destruct (List.find _ _) as [j|] eqn:E.
  - apply List.find_some in E as [Hin _]. apply in_rev, list_elem_of_In, elem_of_zseq in Hin. change (j <> -1). lia.
  - exfalso. pose proof (List.find_none _ _ E i) as Hn. cbv beta in Hn. rewrite He, Hv in Hn. by specialize (Hn ltac:(apply in_rev; rewrite rev_involutive; apply list_elem_of_In, elem_of_zseq; lia)).
Qed.

Lemma zget_region0 brk i : 0 <= i < MAX_PT_LEN -> zget (region0_table brk) i = Some (region0_entry brk i).
Proof.
  intros Hi. change MAX_PT_LEN with 128 in Hi. unfold region0_table. rewrite zget_fmap. unfold zget. rewrite bool_decide_true by lia.
  rewrite lookup_zrange by (change (Z.to_nat KERNEL_PT_SIZE) with 128%nat; lia). cbn. do 2 f_equal. lia.
Qed.

(** The kernel's table keeps the stack where it is and has a page to borrow. *)
Lemma region0_table_stack : kernel_layout -> kernel_orig_brk + PAGESIZE <= KERNEL_STACK_BASE -> let kt := region0_table kernel_orig_brk in
  length kt = Z.to_nat KERNEL_PT_SIZE /\ find_free kt <> -1 /\
  zget kt KSTACK_VPN = Some (mkPte VALID_FRAME NO_X_W_R KSTACK_VPN) /\
  zget kt (KSTACK_VPN + 1) = Some (mkPte VALID_FRAME NO_X_W_R (KSTACK_VPN + 1)).
Proof.
  intros HL Hb kt. pose proof HL as [H1 H2].
  assert (D : kernel_data_start / PAGESIZE < 126 /\ kernel_data_start / PAGESIZE <= 125 /\ kernel_orig_brk / PAGESIZE <= 125).
  { change PAGESIZE with 8192 in *. change KERNEL_STACK_BASE with 1032192 in *. pose proof (Z.div_le_mono kernel_data_start (125 * 8192) 8192).
    pose proof (Z.div_le_mono kernel_orig_brk (125 * 8192) 8192). rewrite Z.div_mul in * by done. lia. }
  assert (E : forall i, 125 <= i < 128 -> zget kt i = Some (if i =? 125 then mkPte INVALID_FRAME 0 i else mkPte VALID_FRAME NO_X_W_R i)).
  { intros i Hi. unfold kt. rewrite zget_region0 by (change MAX_PT_LEN with 128; lia).
    rewrite region0_entry_spec by (done || change MAX_PT_LEN with 128; lia). change (KERNEL_STACK_BASE / PAGESIZE) with 126.
    destruct (Z.ltb_spec i (kernel_data_start / PAGESIZE)), (Z.ltb_spec i (kernel_orig_brk / PAGESIZE)), (Z.leb_spec 126 i), (Z.eqb_spec i 125);
      done || lia. }
  split; [unfold kt, region0_table; by rewrite length_map, zrange_length|]. split; [|split].
  - by eapply (find_free_some kt 125); [|apply E|].
  - by apply (E 126).
  - by apply (E 127).
Qed.

(** What the machine and the C image are like before the boot. *)
Record power_on (s : kstate) (uctxt : Z) : Prop := {
  po_layout : kernel_layout;
  po_room : kernel_orig_brk + PAGESIZE <= KERNEL_STACK_BASE;
  po_vectors : ivt_slack = true;
  po_tlb : tlb (hw s) = ∅;
  po_arrays : image_arrays (gl s);
  po_active : activePCB (gl s) = NULL;
  po_pids : new_pid (pid_tick (hw s)) = 0 /\ new_pid (S (pid_tick (hw s))) <> 0;
  po_context : uctxt <> NULL }.

Lemma no_process_after s s1 s2 pmem_size K U uctxt : power_on s uctxt -> K <> U -> booted s s1 pmem_size K U -> established s1 s2 ->
  no_process s2 K U (region0_table kernel_orig_brk).
Proof.
  intros [HL Hroom _ _ _ Hact [Hp0 _] _] Hne [Bv [Bb0 Bl0] [Bb1 Bl1] _ Bt _ _ Bg Btab (_ & _ & _ & _ & _ & _ & _ & Bp)] [_ _ _ _ _ _ (_ & Et & Eh & _ & Ea & _)].
  destruct (region0_table_stack HL Hroom) as (T1 & T2 & T3 & T4).
  split; rewrite ?Eh; try done.
  - unfold active. by rewrite Ea, Bg.
  - rewrite Et, Btab, lookup_insert_ne by done. apply lookup_insert_eq.
  - intros v _. by rewrite Bt.
  - by rewrite Bp.
Qed.

(** C6: the boot, from power-on to the first context switch.  With enough memory and two
    programs on the disk, [KernelStart] turns virtual memory on over the identity map,
    sets up the kernel's structures, and reaches [KernelContextSwitch] with the idle
    process active on its own region 1, the first program alone in the ready queue with
    the next pid, both programs in memory as their files say, in frames apart from each
    other, a copy of the running kernel stack in the two frames between them, every other
    frame as before and the rest of memory free.  Both copies of the computation return
    from [KernelStart] with the user context of the idle process: the first program, too,
    starts at idle's entry point with idle's stack pointer. *)
Theorem KernelStart_boots s pmem_size uctxt cmd_args fd0 li0 ta0 da0 fd li ta da fs0 f1 f2 fs fl :
  power_on s uctxt -> (1 <= length cmd_args)%nat -> Z.of_nat (length cmd_args) <= VMEM_1_SIZE ->
  let cs0 := drop 1 cmd_args in
  loadable str_idle cs0 fd0 li0 ta0 da0 -> loadable (hd str_init cmd_args) cmd_args fd li ta da ->
  zseq (Z.shiftr VMEM_1_BASE PAGESHIFT) (u32 pmem_size / PAGESIZE) = fs0 ++ f1 :: f2 :: fs ++ fl ->
  Z.of_nat (length fs0) = pages_of li0 cs0 -> Z.of_nat (length fs) = pages_of li cmd_args ->
  clones (KernelStart cmd_args pmem_size uctxt) s (fun p s' k => exists K U s1 s2 i t0 t V,
    booted s s1 pmem_size K U /\ established s1 s2 /\
    started (F := free_list lstore V) (Q := qstore) s2 s' K U i p (region0_table kernel_orig_brk) cs0 cmd_args fd0 fd li0 li
      (new_pid (S (pid_tick (hw s)))) f1 f2 fs0 fs fl (empties (all_queues (gl s2))) t0 t /\
    uc_pc (uc s') = li_entry li0 /\ uc_sp (uc s') = lo_cpp (layout_of li0 cs0) - INITIAL_STACK_FRAME_SIZE /\
    forall u, k u = Ret tt (set_uc (uc s') u)).
Proof.
  intros Hpo Hc Hcs cs0 Hl0 Hl Hfr E0 E1. pose proof Hpo as [HL _ Hiv Htlb Harr _ [_ Hpid] Hu].
  unfold KernelStart. apply clones_after. eapply returns_mono; [by apply (boot_memory_spec s pmem_size)|]. cbv beta.
  intros r s1 (K & U & -> & Hne & HB). apply clones_after.
  eapply returns_mono; [apply (SetUpGlobals_spec MT s1)|].
  { rewrite (bt_globals _ _ _ _ _ HB). by destruct Harr. }
  cbv beta. intros r s2 (-> & HE). pose proof (no_process_after _ _ _ _ _ _ _ Hpo Hne HB HE) as Hnp.
  replace (match cmd_args with [] => str_init | p :: _ => p end) with (hd str_init cmd_args) by (by destruct cmd_args).
  destruct (es_queues _ _ HE) as [HQ _]. destruct (es_lists _ _ HE) as (V & HF & _).
  assert (Hn : num_of_frames (gl s1) = u32 pmem_size / PAGESIZE) by (by rewrite (bt_globals _ _ _ _ _ HB)).
  assert (Ht : pid_tick (hw s2) = pid_tick (hw s)). { destruct HE, HB. destruct es_rest as (_ & _ & -> & _). tauto. }
  rewrite Hn, Hfr in HF. cbn [snd].
  assert (Hin : forall f, f ∈ fs0 ++ f1 :: f2 :: fs ++ fl -> 128 <= f < 2 ^ 24).
  { intros f. rewrite <- Hfr, elem_of_zseq. change (Z.shiftr VMEM_1_BASE PAGESHIFT) with 128. intros Hf.
    assert (u32 pmem_size / PAGESIZE < 2 ^ 19); [|lia]. apply Z.div_lt_upper_bound; [done|]. apply u32_range. }
  eapply clones_mono.
  { eapply (boot_processes_spec (F := free_list lstore V) (Q := qstore) MT s2 K U (region0_table kernel_orig_brk) uctxt cmd_args (hd str_init cmd_args)
      fd0 li0 ta0 da0 fd li ta da fs0 f1 f2 fs fl (empties (all_queues (gl s2)))); try done.
    - apply Forall_forall. intros f Hf%Hin. unfold frame24. lia.
    - apply Forall_forall. intros f Hf%Hin. change MAX_PT_LEN with 128. lia.
    - rewrite <- Hfr. apply zseq_NoDup.
    - by rewrite Ht.
    - apply lookup_empties. unfold all_queues. rewrite !elem_of_app, !elem_of_cons. tauto. }
  cbv beta. intros p s' k (i & t0 & t & Hs & Hk). rewrite Ht in Hs. exists K, U, s1, s2, i, t0, t, V.
  pose proof (ho_context _ _ _ _ _ _ _ _ _ _ _ _ _ _ _ _ _ _ _ (su_handed _ _ _ _ _ _ _ _ _ _ _ _ _ _ _ _ _ _ _ _ _ _ Hs)) as Hctx.
  do 3 (split; [done|]). rewrite Hctx. split; [done|]. split; [done|]. intros u. by rewrite Hk, Hctx.
Qed.

End power_on.

(** ** Witness *)

(** A disk with two programs whose entry points differ. *)
Definition ex_init_info : load_info :=
  mkLoadInfo (VMEM_1_BASE + 64) 0 VMEM_1_BASE 1 (VMEM_1_BASE + PAGESIZE) PAGESIZE (VMEM_1_BASE + PAGESIZE) 1
    (VMEM_1_BASE + PAGESIZE + 100) (VMEM_1_BASE + PAGESIZE + 100) 0 (VMEM_1_BASE + PAGESIZE + 500).
Definition ex_boot_files : FileSystem := {|
  fs_open := fun name => Some (if bool_decide (name = str_idle) then 3 else 4);
  fs_load_info := fun fd => Some (if fd =? 3 then ex_prog_info else ex_init_info);
  fs_read := fun fd off n => replicate (Z.to_nat n) (fd + off mod 250) |}.

Lemma ex_power_on : power_on (L := bump_libc) (I := ex_kernel_image) init_state 1.
Proof.
  split; try done. split; [repeat constructor|split; vm_compute; reflexivity..].
Qed.

Lemma ex_idle_loadable : loadable (FS := ex_boot_files) str_idle [[45; 118]] 3 ex_prog_info 0 1.
Proof.
  split; try done; try by (cbn [fs_read ex_boot_files]; rewrite length_replicate).
  unfold cbytes. rewrite !Forall_cons, !Forall_nil. repeat split; lia.
Qed.

Lemma ex_init_loadable : loadable (FS := ex_boot_files) [105] ex_args 4 ex_init_info 0 1.
Proof.
  split; try done; try by (cbn [fs_read ex_boot_files]; rewrite length_replicate).
  unfold ex_args, cbytes. rewrite !Forall_cons, !Forall_nil. repeat split; lia.
Qed.

Lemma KernelStart_boots_witness :
  clones (KernelStart (L := bump_libc) (C := ex_boot_compiler) (FS := ex_boot_files) (I := ex_kernel_image) ex_args (140 * PAGESIZE) 1)
    init_state (fun p s' k => exists K U s1 s2 i t0 t V,
    booted (I := ex_kernel_image) init_state s1 (140 * PAGESIZE) K U /\ established s1 s2 /\
    started (L := bump_libc) (FS := ex_boot_files) (F := free_list lstore V) (Q := qstore) s2 s' K U i p
      (region0_table (I := ex_kernel_image) (kernel_orig_brk (Image := ex_kernel_image)))
      (drop 1 ex_args) ex_args 3 4 ex_prog_info ex_init_info (new_pid (Libc := bump_libc) 1) 131 132 [128; 129; 130] [133; 134; 135] [136; 137; 138; 139]
      (empties (all_queues (gl s2))) t0 t /\
    uc_pc (uc s') = li_entry ex_prog_info /\ uc_sp (uc s') = lo_cpp (layout_of ex_prog_info (drop 1 ex_args)) - INITIAL_STACK_FRAME_SIZE /\
    forall u, k u = Ret tt (set_uc (uc s') u)).
Proof.
  apply (KernelStart_boots (L := bump_libc) (C := ex_boot_compiler) (CL := ex_boot_compiler_laws) (FS := ex_boot_files) (I := ex_kernel_image) bump_libc_total
    init_state (140 * PAGESIZE) 1 ex_args 3 ex_prog_info 0 1 4 ex_init_info 0 1 [128; 129; 130] 131 132 [133; 134; 135] [136; 137; 138; 139]).
  - exact ex_power_on.
  - cbn. lia.
  - vm_compute. discriminate.
  - exact ex_idle_loadable.
  - exact ex_init_loadable.
  - reflexivity.
  - vm_compute. reflexivity.
  - vm_compute. reflexivity.
Defined.
