(* ===== verification/Exit.v ===== *)
(** * The end of a process ([KernelExit] of [syscalls.c])

    The three loops over the queues: what they do to the parent, to the children and
    to the queues; then the exit itself, as far as its parent is concerned. *)

From Stdlib Require Import ZArith Lia.
From stdpp Require Import base gmap list.
From S2P Require Import Prelude Hardware State Logic KList KQueue Memory Frames Process ContextSwitch Sched SyscallsProc.

Open Scope Z_scope.

(** ** Processes on a queue *)

(** The entry of a process, given by the address of its PCB and the PCB. *)
Definition entry (c : Z * pcb) : Z * Z := (pid c.2, c.1).

Definition present (m : gmap Z pcb) (cs : list (Z * pcb)) : Prop := Forall (fun c => m !! c.1 = Some c.2) cs.

(** The PCBs [m] with [f] applied to those of [cs]. *)
Definition revise (f : pcb -> pcb) (cs : list (Z * pcb)) (m : gmap Z pcb) : gmap Z pcb :=
  list_to_map (prod_map id f <$> cs) ∪ m.

(** A state with other PCBs and queues. *)
Definition scene (s : kstate) (m : gmap Z pcb) (h : qheap) (k : nat) : kstate :=
  set_pcbs m (set_qst h (set_mtick k s)).

Lemma revise_nil f m : revise f [] m = m.
Proof. apply (left_id_L ∅ (∪)). Qed.

Lemma revise_cons f p z cs m : p ∉ cs.*1 -> revise f ((p, z) :: cs) m = revise f cs (<[p := f z]> m).
Proof.
  intros Hp. unfold revise. cbn [fmap list_fmap prod_map fst snd id list_to_map foldr curry uncurry].
  change (list_to_map (prod_map id f (p, z) :: (prod_map id f <$> cs)))
    with (<[p := f z]> (list_to_map (prod_map id f <$> cs) : gmap Z pcb)).
  rewrite <- insert_union_l, insert_union_r; [done|]. apply not_elem_of_list_to_map_1.
  rewrite <- list_fmap_compose. by rewrite (list_fmap_ext _ fst).
Qed.

Lemma revise_other f cs m p : p ∉ cs.*1 -> revise f cs m !! p = m !! p.
Proof.
  intros Hp. unfold revise. apply lookup_union_r. apply not_elem_of_list_to_map_1.
  rewrite <- list_fmap_compose. by rewrite (list_fmap_ext _ fst).
Qed.

Lemma revise_same f cs m p z : present m cs -> NoDup cs.*1 -> (p, z) ∈ cs -> revise f cs m !! p = Some (f z).
Proof.
  intros Hp Hn Hin. unfold revise. apply lookup_union_Some_l. apply elem_of_list_to_map_1.
  - rewrite <- list_fmap_compose. by rewrite (list_fmap_ext _ fst).
  - apply list_elem_of_fmap. by exists (p, z).
Qed.

Lemma present_insert m cs p z : p ∉ cs.*1 -> present m cs -> present (<[p := z]> m) cs.
Proof.
  unfold present. rewrite !Forall_forall. intros Hp H c Hc. rewrite lookup_insert_ne; [by apply H|].
  intros ->. apply Hp. by apply list_elem_of_fmap_2.
Qed.

Lemma present_revise f cs ds m : (forall p, p ∈ ds.*1 -> p ∉ cs.*1) -> present m ds -> present (revise f cs m) ds.
Proof.
  unfold present. rewrite !Forall_forall. intros Hp H c Hc. rewrite revise_other; [by apply H|].
  apply Hp. by apply list_elem_of_fmap_2.
Qed.

(** ** What an exit does to the processes *)

(** A child becomes an orphan. *)
Definition orphaned (x z : pcb) : pcb := if ppid z =? pid x then set_ppid 0 z else z.

(** The parent of [x] among the ready processes. *)
Definition ready_parent (x z : pcb) : bool := negb (ppid z =? pid x) && (pid z =? ppid x).

(** The parent, blocked in [Wait]: it gets the status in the place of its blocking code. *)
Definition waits_for (x z : pcb) : bool := (pid z =? ppid x) && (blocked_code z =? BLOCKED_WAIT).
Definition blocked_parent (x z : pcb) : bool := (pid z =? ppid x) && negb (blocked_code z =? BLOCKED_WAIT).

Definition released (x z : pcb) : pcb :=
  if waits_for x z then set_num_children (num_children z - 1) (set_blocked_code (exit_code x) z)
  else if pid z =? ppid x then z else orphaned x z.

Lemma family_cons (a p : Z) (z : pcb) cs : NoDup (a :: ((p, z) :: cs).*1) -> (a <> p) /\ (p ∉ cs.*1) /\ NoDup (a :: cs.*1).
Proof.
  cbn [fmap list_fmap fst]. rewrite !NoDup_cons, not_elem_of_cons. tauto.
Qed.

Lemma put_pcb_scene p z s m h k : put_pcb p z (scene s m h k) = scene s (<[p := z]> m) h k.
Proof. done. Qed.

Lemma set_qst_scene h' s m h k : set_qst h' (scene s m h k) = scene s m h' k.
Proof. done. Qed.

Lemma queues_scene h' s m h k : set_qst h' (set_mtick (S k) (scene s m h k)) = scene s m h' (S k).
Proof. done. Qed.

Section family.
Context `{L : Libc} {Q : qheap -> gmap Z (list (Z * Z)) -> Prop} {QS : QueueStore L Q} (MT : MallocTotal L).

(** Adding to a queue, when memory suffices. *)
Lemma queue_add_ok s V q xs d i : Q (qst s) V -> V !! q = Some xs -> d <> NULL ->
  returns (queue_add q d i) s (fun r s' => exists h, s' = set_qst h (set_mtick (S (mtick s)) s) /\ r = 0 /\
    Q h (<[q := xs ++ [(i, d)]]> V)).
Proof.
  intros HQ Hq Hd. eapply returns_mono; [by apply (qs_add (R := Q) s V q xs d i)|]. cbv beta.
  intros r s' (h & -> & [[-> H]|(_ & _ & E)]); [by exists h|by destruct (MT _ _ E)].
Qed.

Lemma exit_ready_step_spec s a x p z xs m V h k i sw : active s = a -> let rq := ready_q (gl s) in
  Q h V -> V !! rq = Some (entry (p, z) :: xs) -> m !! a = Some x -> a <> p -> m !! p = Some z ->
  returns (exit_ready_step i sw) (scene s m h k) (fun r s' => exists h' k',
    r = inr (if ready_parent x z then defunct_q (gl s) else sw) /\
    s' = scene s (<[p := orphaned x z]> m) h' k' /\ Q h' (<[rq := xs ++ [entry (p, z)]]> V)).
Proof.
  intros Ha rq HQ Hq Hx Hap Hz. destruct (qs_nonnull _ _ _ _ HQ Hq) as [_ Hnn].
  apply Forall_cons in Hnn as [Hpn _]. cbn [snd entry] in Hpn.
  unfold exit_ready_step, qptr. rstep. rstep. rstep.
  eapply returns_mono; [by eapply (qs_pop (R := Q) (scene s m h k))|]. cbv beta. intros r s1 (h1 & -> & -> & HQ1).
  cbn [front map fst snd head_or List.hd tail entry] in *. rewrite set_qst_scene.
  rstep. rstep; [exact Hz|]. rstep. rstep. change (active (scene s m h1 k)) with (active s). rewrite Ha.
  rstep. rstep; [exact Hx|]. rstep.
  apply (returns_mono _ _ (fun sw' s' => sw' = (if ready_parent x z then defunct_q (gl s) else sw) /\
    s' = scene s (<[p := orphaned x z]> m) h1 k)).
  { unfold ready_parent, orphaned. destruct (Z.eqb_spec (ppid z) (pid x)); cbn [negb andb].
    - rstep. eapply returns_upd_pcb; [exact Hz|]. by rstep.
    - rewrite insert_id by done. destruct (pid z =? ppid x); [unfold qptr; by rstep|by rstep]. }
  cbv beta. intros sw' s2 [-> ->]. rstep. rstep; [apply lookup_insert_eq|]. rstep.
  assert (Hpid : pid (orphaned x z) = pid z) by (unfold orphaned; by destruct (_ =? _)). rewrite Hpid.
  eapply returns_mono; [eapply (queue_add_ok (scene s _ h1 k)); [exact HQ1|apply lookup_insert_eq|done]|]. cbv beta.
  intros r s2 (h2 & -> & -> & HQ2). rstep. cbn [Z.eqb ERROR]. rewrite queues_scene. rewrite insert_insert_eq in HQ2.
  by exists h2, (S k).
Qed.

Lemma exit_ready_loop s a x : active s = a -> let rq := ready_q (gl s) in
  forall cs don m V h k i sw, Q h V -> V !! rq = Some ((entry <$> cs) ++ don) -> m !! a = Some x -> present m cs ->
  NoDup (a :: cs.*1) ->
  returns (mfor_acc (zrange i (length cs)) sw exit_ready_step) (scene s m h k) (fun r s' => exists h' k',
    r = inr (if existsb (fun c => ready_parent x c.2) cs then defunct_q (gl s) else sw) /\
    s' = scene s (revise (orphaned x) cs m) h' k' /\ Q h' (<[rq := don ++ (entry <$> cs)]> V)).
Proof.
  intros Ha rq. induction cs as [|[p z] cs IH]; intros don m V h k i sw HQ Hq Hx Hp Hn.
  - exists h, k. split; [done|]. split; [by rewrite revise_nil|]. rewrite app_nil_r, insert_id by done. exact HQ.
  - apply Forall_cons in Hp as [Hz Hp]. apply family_cons in Hn as (Hap & Hpc & Hn).
    cbn [length zrange mfor_acc]. rstep. eapply returns_mono; [by eapply (exit_ready_step_spec s a x p z ((entry <$> cs) ++ don) m V)|]. cbv beta.
    intros r s1 (h1 & k1 & -> & -> & HQ1). rewrite <- app_assoc in HQ1.
    eapply returns_mono; [eapply (IH (don ++ [entry (p, z)])); [exact HQ1|apply lookup_insert_eq|
      by rewrite lookup_insert_ne|by apply present_insert|done]|].
    cbv beta. intros r s2 (h2 & k2 & -> & -> & HQ2). exists h2, k2. split; [|split].
    + cbn [existsb snd]. by destruct (ready_parent x z), (existsb _ cs).
    + by rewrite revise_cons.
    + rewrite insert_insert_eq, <- app_assoc in HQ2. exact HQ2.
Qed.

(** The processes that stay blocked, and the ones that are let go. *)
Definition let_go (x : pcb) (cs : list (Z * pcb)) : list (Z * pcb) := List.filter (fun c => waits_for x c.2) cs.
Definition kept (x : pcb) (cs : list (Z * pcb)) : list (Z * pcb) := List.filter (fun c => negb (waits_for x c.2)) cs.

Lemma exit_blocked_step_spec s a x p z xs rs m V h k i sw : active s = a ->
  let rq := ready_q (gl s) in let bq := blocked_q (gl s) in bq <> rq ->
  Q h V -> V !! bq = Some (entry (p, z) :: xs) -> V !! rq = Some rs -> m !! a = Some x -> a <> p -> m !! p = Some z ->
  returns (exit_blocked_step i sw) (scene s m h k) (fun r s' => exists h' k',
    r = inr (if blocked_parent x z then defunct_q (gl s) else sw) /\
    s' = scene s (<[p := released x z]> m) h' k' /\
    Q h' (if waits_for x z then <[rq := rs ++ [entry (p, z)]]> (<[bq := xs]> V) else <[bq := xs ++ [entry (p, z)]]> V)).
Proof.
  intros Ha rq bq Hbr HQ Hq Hr Hx Hap Hz. destruct (qs_nonnull _ _ _ _ HQ Hq) as [_ Hnn].
  apply Forall_cons in Hnn as [Hpn _]. cbn [snd entry] in Hpn.
  unfold exit_blocked_step, qptr. rstep. rstep. rstep.
  eapply returns_mono; [by eapply (qs_pop (R := Q) (scene s m h k))|]. cbv beta. intros r s1 (h1 & -> & -> & HQ1).
  cbn [front map fst snd head_or List.hd tail entry] in *. rewrite set_qst_scene.
  destruct (Z.eqb_spec p NULL); [done|]. rstep. rstep; [exact Hz|]. rstep. rstep.
  change (active (scene s m h1 k)) with (active s). rewrite Ha. rstep. rstep; [exact Hx|].
  unfold waits_for, blocked_parent, released, waits_for.
  destruct (Z.eqb_spec (pid z) (ppid x)) as [Ep|Ep]; [destruct (Z.eqb_spec (blocked_code z) BLOCKED_WAIT) as [Eb|Eb]|]; cbn [andb negb].
  - rstep. eapply returns_upd_pcb; [exact Hz|]. rewrite put_pcb_scene. rstep.
    eapply returns_upd_pcb; [apply lookup_insert_eq|]. rewrite put_pcb_scene, insert_insert_eq. rstep. rstep. rstep. rstep; [apply lookup_insert_eq|].
    rstep. eapply returns_mono; [eapply (queue_add_ok (scene s _ h1 k)); [exact HQ1| |done]|].
    { rewrite lookup_insert_ne by done. exact Hr. }
    cbv beta. intros r s2 (h2 & -> & -> & HQ2). rstep. cbn [Z.eqb ERROR]. rewrite queues_scene. by exists h2, (S k).
  - rstep. rstep. rstep. rstep; [exact Hz|]. rstep.
    eapply returns_mono; [eapply (queue_add_ok (scene s _ h1 k)); [exact HQ1|apply lookup_insert_eq|done]|]. cbv beta.
    intros r s2 (h2 & -> & -> & HQ2). rstep. cbn [Z.eqb ERROR]. rewrite queues_scene. rewrite insert_insert_eq in HQ2.
    exists h2, (S k). by rewrite insert_id.
  - rstep. apply (returns_mono _ _ (fun sw' s' => sw' = sw /\ s' = scene s (<[p := orphaned x z]> m) h1 k)).
    { unfold orphaned. destruct (Z.eqb_spec (ppid z) (pid x)).
      - rstep. eapply returns_upd_pcb; [exact Hz|]. by rstep.
      - rewrite insert_id by done. by rstep. }
    cbv beta. intros sw' s2 [-> ->]. rstep. rstep; [apply lookup_insert_eq|]. rstep.
    assert (Hpid : pid (orphaned x z) = pid z) by (unfold orphaned; by destruct (ppid z =? _)). rewrite Hpid.
    eapply returns_mono; [eapply (queue_add_ok (scene s _ h1 k)); [exact HQ1|apply lookup_insert_eq|done]|]. cbv beta.
    intros r s2 (h2 & -> & -> & HQ2). rstep. cbn [Z.eqb ERROR]. rewrite queues_scene. rewrite insert_insert_eq in HQ2.
    by exists h2, (S k).
Qed.

Lemma exit_blocked_loop s a x : active s = a -> let rq := ready_q (gl s) in let bq := blocked_q (gl s) in bq <> rq ->
  forall cs don rs m V h k i sw, Q h V -> V !! bq = Some ((entry <$> cs) ++ don) -> V !! rq = Some rs ->
  m !! a = Some x -> present m cs -> NoDup (a :: cs.*1) ->
  returns (mfor_acc (zrange i (length cs)) sw exit_blocked_step) (scene s m h k) (fun r s' => exists h' k',
    r = inr (if existsb (fun c => blocked_parent x c.2) cs then defunct_q (gl s) else sw) /\
    s' = scene s (revise (released x) cs m) h' k' /\
    Q h' (<[bq := don ++ (entry <$> kept x cs)]> (<[rq := rs ++ (entry <$> let_go x cs)]> V))).
Proof.
  intros Ha rq bq Hbr. induction cs as [|[p z] cs IH]; intros don rs m V h k i sw HQ Hq Hr Hx Hp Hn.
  - exists h, k. split; [done|]. split; [by rewrite revise_nil|]. cbn [kept let_go List.filter fmap list_fmap].
    rewrite !app_nil_r, (insert_id V) by done. rewrite insert_id by done. exact HQ.
  - apply Forall_cons in Hp as [Hz Hp]. apply family_cons in Hn as (Hap & Hpc & Hn).
    cbn [length zrange mfor_acc]. rstep. eapply returns_mono; [by eapply (exit_blocked_step_spec s a x p z ((entry <$> cs) ++ don) rs m V)|]. cbv beta.
    intros r s1 (h1 & k1 & -> & -> & HQ1).
    set (w := waits_for x z) in *.
    assert (HV : exists V1, Q h1 V1 /\ V1 !! bq = Some ((entry <$> cs) ++ don ++ (if w then [] else [entry (p, z)])) /\
      V1 !! rq = Some (rs ++ if w then [entry (p, z)] else []) /\
      forall B R, <[bq := B]> (<[rq := R]> V1) = <[bq := B]> (<[rq := R]> V)).
    { eexists. split; [exact HQ1|]. destruct w.
      - rewrite lookup_insert_ne, lookup_insert_eq, lookup_insert_eq, app_nil_r by done. split; [done|]. split; [done|].
        intros B R. by rewrite insert_insert_eq, (insert_insert_ne _ rq bq), insert_insert_eq.
      - rewrite lookup_insert_eq, lookup_insert_ne, app_nil_r, <- app_assoc by done. split; [done|]. split; [done|].
        intros B R. by rewrite (insert_insert_ne _ rq bq), insert_insert_eq. }
    destruct HV as (V1 & HQ2 & Hb1 & Hr1 & HVV).
    eapply returns_mono; [eapply IH; [exact HQ2|exact Hb1|exact Hr1|by rewrite lookup_insert_ne|by apply present_insert|done]|].
    cbv beta. intros r s2 (h2 & k2 & -> & -> & HQ3). exists h2, k2. split; [|split].
    + cbn [existsb snd]. by destruct (blocked_parent x z), (existsb _ cs).
    + by rewrite revise_cons.
    + rewrite HVV in HQ3. cbn [kept let_go List.filter snd]. fold (kept x cs) (let_go x cs) w.
      destruct w; cbn [negb fmap list_fmap] in *; rewrite ?app_nil_r, <- ?app_assoc in HQ3; exact HQ3.
Qed.

(** The dead of other parents. *)
Definition not_mine (x : pcb) (cs : list (Z * pcb)) : list (Z * pcb) :=
  List.filter (fun c => negb (ppid c.2 =? pid x)) cs.

Lemma exit_defunct_loop s a x : active s = a -> let dq := defunct_q (gl s) in
  forall cs don m V h k i, Q h V -> V !! dq = Some ((entry <$> cs) ++ don) -> m !! a = Some x -> present m cs ->
  returns (mfor_ret (zrange i (length cs)) exit_defunct_step) (scene s m h k) (fun r s' => exists h' k',
    r = None /\ s' = scene s m h' k' /\ Q h' (<[dq := don ++ (entry <$> not_mine x cs)]> V)).
Proof.
  intros Ha dq. induction cs as [|[p z] cs IH]; intros don m V h k i HQ Hq Hx Hp.
  - exists h, k. split; [done|]. split; [done|]. cbn [not_mine List.filter fmap list_fmap].
    rewrite app_nil_r, insert_id by done. exact HQ.
  - apply Forall_cons in Hp as [Hz Hp]. cbn [fst snd] in Hz. destruct (qs_nonnull _ _ _ _ HQ Hq) as [_ Hnn].
    apply Forall_cons in Hnn as [Hpn _]. cbn [snd entry] in Hpn.
    cbn [length zrange mfor_ret]. rstep. unfold exit_defunct_step at 1, qptr. rstep. rstep. rstep.
    eapply returns_mono; [by eapply (qs_pop (R := Q) (scene s m h k))|]. cbv beta. intros r s1 (h1 & -> & -> & HQ1).
    cbn [front map fst snd head_or List.hd tail app fmap list_fmap entry] in *. rewrite set_qst_scene.
    destruct (Z.eqb_spec p NULL); [done|]. rstep. rstep; [exact Hz|]. rstep. rstep.
    change (active (scene s m h1 k)) with (active s). rewrite Ha. rstep. rstep; [exact Hx|].
    cbn [not_mine List.filter snd]. fold (not_mine x cs). destruct (Z.eqb_spec (ppid z) (pid x)); cbn [negb].
    + rstep. eapply returns_mono; [eapply (IH don); [exact HQ1|apply lookup_insert_eq|done|done]|]. cbv beta.
      intros r s2 (h2 & k2 & -> & -> & HQ2). exists h2, k2. by rewrite insert_insert_eq in HQ2.
    + rstep. eapply returns_mono; [eapply (queue_add_ok (scene s _ h1 k)); [exact HQ1|apply lookup_insert_eq|done]|]. cbv beta.
      intros r s2 (h2 & -> & -> & HQ2). rstep. cbn [Z.eqb ERROR]. rewrite queues_scene. rewrite insert_insert_eq, <- app_assoc in HQ2.
      eapply returns_mono; [eapply (IH (don ++ [(pid z, p)])); [exact HQ2|apply lookup_insert_eq|done|done]|]. cbv beta.
      intros r s2 (h3 & k3 & -> & -> & HQ3). exists h3, k3. rewrite insert_insert_eq, <- app_assoc in HQ3. done.
Qed.

(** The processes that are ready, blocked and dead when [x], at [a], exits. *)
Record family (s : kstate) (V : gmap Z (list (Z * Z))) (a : Z) (x : pcb) (rs bs ds : list (Z * pcb)) : Prop := {
  fa_queues : NoDup [ready_q (gl s); blocked_q (gl s); defunct_q (gl s)];
  fa_store : Q (qst s) V;
  fa_ready : V !! ready_q (gl s) = Some (entry <$> rs);
  fa_blocked : V !! blocked_q (gl s) = Some (entry <$> bs);
  fa_dead : V !! defunct_q (gl s) = Some (entry <$> ds);
  fa_self : pcbs s !! a = Some x;
  fa_present : present (pcbs s) (rs ++ bs ++ ds);
  fa_distinct : NoDup (a :: (rs ++ bs ++ ds).*1) }.

(** The queues, and the other processes, after the search. *)
Definition family_queues (s : kstate) (V : gmap Z (list (Z * Z))) (x : pcb) (rs bs ds : list (Z * pcb)) : gmap Z (list (Z * Z)) :=
  <[defunct_q (gl s) := entry <$> not_mine x ds]> (<[blocked_q (gl s) := entry <$> kept x bs]>
    (<[ready_q (gl s) := (entry <$> rs) ++ (entry <$> let_go x bs)]> V)).

Definition family_pcbs (x : pcb) (rs bs : list (Z * pcb)) (m : gmap Z pcb) : gmap Z pcb :=
  revise (released x) bs (revise (orphaned x) rs m).

(** The parent is there and does not wait: it will collect the status. *)
Definition parent_collects (x : pcb) (rs bs : list (Z * pcb)) : bool :=
  existsb (fun c => ready_parent x c.2) rs || existsb (fun c => blocked_parent x c.2) bs.

Lemma size_loop {R} (f : Z -> M R) s q h V xs (P : R -> kstate -> Prop) : Q (qst s) V -> V !! q = Some xs ->
  qst s = h -> returns (f (Z.of_nat (length xs))) s P -> returns (let! n := size_of q in f n) s P.
Proof.
  intros HQ Hq <- HP. destruct (qs_size _ _ _ _ HQ Hq) as (k & Ek & Hk). rstep. unfold size_of, get_queue. rstep.
  eapply returns_deref; [exact Ek|]. rstep. rewrite Hk. exact HP.
Qed.

Lemma exit_family_spec s V a x rs bs ds : active s = a -> family s V a x rs bs ds ->
  returns exit_family s (fun r s' => exists h k,
    r = inr (if parent_collects x rs bs then defunct_q (gl s) else NULL) /\
    s' = scene s (family_pcbs x rs bs (pcbs s)) h k /\ Q h (family_queues s V x rs bs ds)).
Proof.
  intros Ha [Hnd HQ Hr Hb Hd Hx Hp Hn].
  apply NoDup_cons in Hnd as [Hrn Hnd]. apply not_elem_of_cons in Hrn as [Hrb Hrd]. apply not_elem_of_cons in Hrd as [Hrd _].
  apply NoDup_cons in Hnd as [Hbd _]. apply not_elem_of_cons in Hbd as [Hbd _].
  unfold present in Hp. rewrite !Forall_app in Hp. destruct Hp as (Hpr & Hpb & Hpd).
  rewrite !fmap_app in Hn. apply NoDup_cons in Hn as [Han Hn]. rewrite !not_elem_of_app in Han. destruct Han as (Har & Hab & Had).
  apply NoDup_app in Hn as (Hnr & Hrx & Hn). apply NoDup_app in Hn as (Hnb & Hbx & Hnd).
  assert (Es : s = scene s (pcbs s) (qst s) (mtick s)) by (by destruct s).
  unfold exit_family, qptr. rstep. rstep. eapply size_loop; [exact HQ|exact Hr|done|].
  rstep. unfold zseq. rewrite Z.sub_0_r, Nat2Z.id, length_fmap. rewrite Es at 1.
  eapply returns_mono; [eapply (exit_ready_loop s a x Ha rs []); [exact HQ|by rewrite app_nil_r|exact Hx|done|by apply NoDup_cons]|].
  cbv beta. intros r s1 (h1 & k1 & -> & -> & HQ1). cbn [app] in HQ1. rewrite insert_id in HQ1 by done.
  rstep. rstep. eapply size_loop; [exact HQ1|exact Hb|done|].
  rstep. rewrite Z.sub_0_r, Nat2Z.id, length_fmap.
  eapply returns_mono; [eapply (exit_blocked_loop s a x Ha (not_eq_sym Hrb) bs []); [exact HQ1|by rewrite app_nil_r|exact Hr| | |by apply NoDup_cons]|].
  { by rewrite revise_other. } { apply present_revise; [|done]. intros p Hin Hin'. apply (Hrx p Hin'). apply elem_of_app. by left. }
  cbv beta. intros r s1 (h2 & k2 & -> & -> & HQ2). cbn [app] in HQ2.
  assert (Hd2 : <[blocked_q (gl s) := entry <$> kept x bs]> (<[ready_q (gl s) := (entry <$> rs) ++ (entry <$> let_go x bs)]> V)
    !! defunct_q (gl s) = Some (entry <$> ds)) by (by rewrite !lookup_insert_ne).
  rstep. rstep. eapply size_loop; [exact HQ2|exact Hd2|done|].
  rstep. rewrite Z.sub_0_r, Nat2Z.id, length_fmap.
  eapply returns_mono; [eapply (exit_defunct_loop s a x Ha ds []); [exact HQ2|by rewrite app_nil_r| |]|].
  { by rewrite !revise_other. }
  { apply present_revise; [intros p Hin Hin'; by apply (Hbx p Hin')|]. apply present_revise; [|done].
    intros p Hin Hin'. apply (Hrx p Hin'). apply elem_of_app. by right. }
  cbv beta. intros r s1 (h3 & k3 & -> & -> & HQ3). cbn [app] in HQ3. rstep. exists h3, k3. split; [|split; [done|exact HQ3]].
  unfold parent_collects. by destruct (existsb _ bs), (existsb _ rs).
Qed.

End family.

(** ** The exit *)

Section exit.
Context `{L : Libc} {Q : qheap -> gmap Z (list (Z * Z)) -> Prop} {QS : QueueStore L Q}.
Context {F : kstate -> list Z -> Prop} {FA : FrameAllocator L F} (MT : MallocTotal L).

Lemma family_self s V a x y rs bs ds : family (Q := Q) s V a x rs bs ds -> family (Q := Q) (put_pcb a y s) V a y rs bs ds.
Proof.
  intros [H1 H2 H3 H4 H5 H6 H7 H8]. split; try done; [apply lookup_insert_eq|]. apply present_insert; [|done].
  by apply NoDup_cons in H8 as [? _].
Qed.

Lemma family_pcbs_other x rs bs m p : p ∉ (rs ++ bs).*1 -> family_pcbs x rs bs m !! p = m !! p.
Proof.
  rewrite fmap_app, not_elem_of_app. intros [Hr Hb]. unfold family_pcbs. by rewrite !revise_other.
Qed.

Lemma revise_insert f cs m p z : p ∉ cs.*1 -> revise f cs (<[p := z]> m) = <[p := z]> (revise f cs m).
Proof.
  intros Hp. unfold revise. rewrite insert_union_r; [done|]. apply not_elem_of_list_to_map_1.
  rewrite <- list_fmap_compose. by rewrite (list_fmap_ext _ fst).
Qed.

Lemma family_pcbs_insert x rs bs m p z : p ∉ (rs ++ bs).*1 ->
  family_pcbs x rs bs (<[p := z]> m) = <[p := z]> (family_pcbs x rs bs m).
Proof.
  rewrite fmap_app, not_elem_of_app. intros [Hr Hb]. unfold family_pcbs. by rewrite !revise_insert.
Qed.

(** The part of an exit before the space of the process is given back: the search, when
    the process has had a parent or has children. *)
Lemma exit_search s V a x code rs bs ds : active s = a -> family (Q := Q) s V a x rs bs ds ->
  let y := set_exit_code code x in
  returns (if negb (ppid y =? 0) || (num_children y >? 0) then exit_family else ret (inr NULL)) (put_pcb a y s)
    (fun r s' => exists h k m V', s' = scene s m h k /\ Q h V' /\ m !! a = Some y /\
      (parent_collects x rs bs = true -> negb (ppid x =? 0) || (num_children x >? 0) = true ->
        r = inr (defunct_q (gl s)) /\ m = family_pcbs y rs bs (<[a := y]> (pcbs s)) /\ V' = family_queues s V x rs bs ds) /\
      (parent_collects x rs bs = false -> r = inr NULL)).
Proof.
  intros Ha Hf y. pose proof (family_self s V a x y rs bs ds Hf) as Hf1.
  change (negb (ppid y =? 0) || (num_children y >? 0)) with (negb (ppid x =? 0) || (num_children x >? 0)).
  destruct (negb (ppid x =? 0) || (num_children x >? 0)).
  - eapply returns_mono; [apply (exit_family_spec MT (put_pcb a y s) V a y rs bs ds Ha Hf1)|]. cbv beta.
    intros r s' (h & k & -> & -> & HQ). exists h, k, (family_pcbs y rs bs (<[a := y]> (pcbs s))), (family_queues s V x rs bs ds).
    split; [done|]. split; [exact HQ|]. split; [|split].
    + rewrite family_pcbs_other; [apply lookup_insert_eq|]. pose proof (fa_distinct _ _ _ _ _ _ _ Hf) as Hn.
      apply NoDup_cons in Hn as [Hn _]. rewrite app_assoc, fmap_app, not_elem_of_app in Hn. by destruct Hn.
    + intros E _. change (parent_collects y rs bs) with (parent_collects x rs bs). by rewrite E.
    + intros E. change (parent_collects y rs bs) with (parent_collects x rs bs). by rewrite E.
  - rstep. exists (qst s), (mtick s), (<[a := y]> (pcbs s)), V. split; [by destruct s|]. split; [by apply (fa_store _ _ _ _ _ _ _ Hf)|].
    split; [apply lookup_insert_eq|]. done.
Qed.

Lemma swap_from_freed q uctxt s : uctxt <> NULL -> active s <> NULL -> pcbs s !! active s = None -> SwapProcess q uctxt s = Fault FBadPtr.
Proof.
  intros Hu Ha Hx. unfold SwapProcess. destruct (Z.eqb_spec uctxt NULL); [done|]. rewrite !bind_gets. apply faults_before.
  unfold get_pcb, deref. rewrite Hx. by destruct (Z.eqb_spec (active s) NULL).
Qed.

(** C15: a process that exits while its parent waits for it, like one whose parent is gone or
    is the process itself, frees its PCB and then asks the scheduler to switch away from
    it: the scheduler reads the freed PCB. *)
Theorem KernelExit_use_after_free s V a x code uctxt rs bs ds fl : uctxt <> NULL -> active s = a -> a <> NULL ->
  sized x -> family (Q := Q) s V a x rs bs ds -> F s fl -> parent_collects x rs bs = false ->
  KernelExit code uctxt s = Fault FBadPtr.
Proof.
  intros Hu Ha Hn Hs Hf HF Hc. pose proof (fa_self _ _ _ _ _ _ _ Hf) as Hx. unfold KernelExit.
  destruct (Z.eqb_spec uctxt NULL); [done|]. rewrite bind_gets, Ha, (bind_exec _ _ _ _ _ (upd_pcb_ok _ _ _ _ Hx)).
  assert (Hx1 : pcbs (put_pcb a (set_exit_code code x) s) !! a = Some (set_exit_code code x)) by apply lookup_insert_eq.
  unfold get_pcb. rewrite (bind_exec _ _ _ _ _ (deref_ok _ _ _ _ Hx1)).
  apply faults_after. eapply returns_mono; [by apply (exit_search s V a x code rs bs ds)|]. cbv beta.
  intros r s1 (h & k & m & V' & -> & HQ & Hm & _ & Hr). rewrite (Hr Hc). cbn [Z.eqb NULL]. apply faults_after.
  eapply returns_mono; [apply (delete_process_spec (scene s m h k) a _ fl MT Hn Hm Hs)|].
  { eapply fa_frame; [| |exact HF]; done. }
  cbv beta. intros r1 s2 (h1 & k1 & -> & -> & _). cbn [Z.eqb ERROR]. apply faults_before, swap_from_freed; [done|by rewrite <- Ha in Hn|].
  change (active (set_lst h1 _)) with (active s). rewrite Ha. apply lookup_delete_eq.
Qed.

Lemma same_kernel_orphaned x z : same_kernel z (orphaned x z).
Proof. unfold orphaned. by destruct (_ =? _). Qed.

Lemma same_kernel_released x z : same_kernel z (released x z).
Proof. unfold released. destruct (waits_for x z); [done|]. destruct (pid z =? _); [done|apply same_kernel_orphaned]. Qed.

Lemma revise_like (f : pcb -> pcb) cs m p z : (forall z, same_kernel z (f z)) -> present m cs -> m !! p = Some z ->
  exists z', revise f cs m !! p = Some z' /\ same_kernel z z'.
Proof.
  intros Hf Hp Hz. unfold revise. destruct ((list_to_map (prod_map id f <$> cs) : gmap Z pcb) !! p) as [z'|] eqn:E.
  - exists z'. split; [by apply lookup_union_Some_l|]. apply elem_of_list_to_map_2 in E.
    apply list_elem_of_fmap in E as ([q w] & [= -> ->] & Hin). unfold present in Hp. rewrite Forall_forall in Hp.
    specialize (Hp _ Hin). cbn [fst snd] in Hp. change (id q) with q in Hz. rewrite Hp in Hz. injection Hz as <-. apply Hf.
  - exists z. split; [by rewrite lookup_union_r|done].
Qed.

Lemma family_like s V a x code rs bs ds p z : family (Q := Q) s V a x rs bs ds -> p <> a -> pcbs s !! p = Some z ->
  exists z', family_pcbs (set_exit_code code x) rs bs (<[a := set_exit_code code x]> (pcbs s)) !! p = Some z' /\ same_kernel z z'.
Proof.
  intros Hf Hp Hz. pose proof (family_self s V a x (set_exit_code code x) rs bs ds Hf) as Hf1.
  pose proof (fa_present _ _ _ _ _ _ _ Hf1) as H7. pose proof (fa_distinct _ _ _ _ _ _ _ Hf1) as H8.
  unfold present in H7. rewrite !Forall_app in H7. destruct H7 as (Hr & Hb & _).
  rewrite !fmap_app in H8. apply NoDup_cons in H8 as [_ H8]. apply NoDup_app in H8 as (_ & Hrx & _).
  assert (Hz1 : <[a := set_exit_code code x]> (pcbs s) !! p = Some z) by (by rewrite lookup_insert_ne).
  destruct (revise_like (orphaned (set_exit_code code x)) rs _ p z (same_kernel_orphaned _) Hr Hz1) as (z1 & Hz2 & S1).
  destruct (revise_like (released (set_exit_code code x)) bs (revise (orphaned (set_exit_code code x)) rs (<[a := set_exit_code code x]> (pcbs s))) p z1 (same_kernel_released _)) as (z2 & Hz3 & S2); [|done|].
  { apply present_revise; [|done]. intros q Hq Hq'. apply (Hrx q Hq'). apply elem_of_app. by left. }
  exists z2. split; [exact Hz3|]. unfold same_kernel in *. intuition congruence.
Qed.

(** The state at the switch of an exit: the next process runs, the dead one is last on the
    defunct queue with its status, its frames and those of its kernel stack are free. *)
Record exited (s s1 : kstate) (V : gmap Z (list (Z * Z))) (a : Z) (x : pcb) (rs bs ds : list (Z * pcb)) (code n : Z)
    (fl : list Z) : Prop := {
  ex_active : active s1 = n;
  ex_region1 : r_ptbr1 (hw s1) = PtUser n;
  ex_queues : Q (qst s1) (<[defunct_q (gl s) := (entry <$> not_mine x ds) ++ [(pid x, a)]]>
    (<[blocked_q (gl s) := entry <$> kept x bs]> (<[ready_q (gl s) := tail ((entry <$> rs) ++ (entry <$> let_go x bs))]> V)));
  ex_frames : F s1 (rev (valid_pfns (kernel_stack_pt x) ++ valid_pfns (user_page_table x)) ++ fl);
  ex_pcbs : pcbs s1 = <[a := saved_pcb a (uc s) (set_exit_code code x)]> (family_pcbs (set_exit_code code x) rs bs (pcbs s)) }.

Lemma insert_under (V : gmap Z (list (Z * Z))) r b d A B C D : NoDup [r; b; d] ->
  <[d := D]> (<[r := tail A]> (<[d := C]> (<[b := B]> (<[r := A]> V)))) = <[d := D]> (<[b := B]> (<[r := tail A]> V)).
Proof.
  intros Hn. rewrite !NoDup_cons, !not_elem_of_cons in Hn. destruct Hn as ((Hrb & Hrd & _) & (Hbd & _) & _).
  rewrite (insert_insert_ne _ r d), insert_insert_eq, (insert_insert_ne _ r b), insert_insert_eq by done. done.
Qed.

Lemma KernelExit_spec s V a x code uctxt rs bs ds fl i y z K kt e0 e1 : uctxt <> NULL -> active s = a -> a <> NULL ->
  sized x -> family (Q := Q) s V a x rs bs ds -> F s fl -> parent_collects x rs bs = true -> ppid x <> 0 ->
  idle s = i -> pcbs s !! i = Some y -> pid y <> pid x ->
  let n := next_ready i ((entry <$> rs) ++ (entry <$> let_go x bs)) in
  n <> a -> pcbs s !! n = Some z -> kernel_stack_pt z = [e0; e1] -> on_kernel_table s K kt ->
  switches (KernelExit code uctxt) s (fun p t s1 k => p = a /\ t = kernel_context z /\ exited s s1 V a x rs bs ds code n fl).
Proof.
  intros Hu Ha Hn Hs Hf HF Hc Hpp Hi Hy Hyx n Hna Hz Hks HK. pose proof (fa_self _ _ _ _ _ _ _ Hf) as Hx.
  assert (Hia : i <> a) by (intros ->; rewrite Hx in Hy; by injection Hy as ->).
  destruct (family_like s V a x code rs bs ds n z Hf Hna Hz) as (z' & Hz' & Hk1 & Hk2 & _).
  destruct (family_like s V a x code rs bs ds i y Hf Hia Hy) as (y' & Hy' & _ & _ & Hk3).
  unfold KernelExit. destruct (Z.eqb_spec uctxt NULL); [done|].
  apply switches_after. rstep. apply switches_after. rewrite Ha. eapply returns_upd_pcb; [exact Hx|].
  apply switches_after. eapply returns_deref; [apply lookup_insert_eq|].
  apply switches_after. eapply returns_mono; [by apply (exit_search s V a x code rs bs ds)|]. cbv beta.
  intros r s1 (h & k & m & V' & -> & HQ & Hm & Hr & _). destruct Hr as (-> & -> & ->); [exact Hc| |].
  { by destruct (Z.eqb_spec (ppid x) 0). }
  assert (Hdq : family_queues s V x rs bs ds !! defunct_q (gl s) = Some (entry <$> not_mine x ds)) by apply lookup_insert_eq.
  destruct (qs_nonnull _ _ _ _ HQ Hdq) as [Hdn _].
  destruct (Z.eqb_spec (defunct_q (gl s)) NULL); [done|].
  apply switches_after. destruct Hs as [Hut Hkt]. set (m := family_pcbs _ _ _ _) in *.
  eapply returns_mono; [apply (free_addr_space_spec (scene s m h k) (PtUser a) (PtKstack a) (user_page_table x) (kernel_stack_pt x) fl MT)|].
  { eapply fa_frame; [| |exact HF]; done. } 1, 3: cbn; by rewrite Hm. 1, 2: done.
  cbv beta. intros r s1 (h1 & k1 & -> & -> & HF1). cbn [Z.eqb ERROR].
  set (s2 := set_lst h1 _) in *. pose proof (fa_queues _ _ _ _ _ _ _ Hf) as Hq.
  assert (Hrdy : family_queues s V x rs bs ds !! ready_q (gl s2) = Some ((entry <$> rs) ++ (entry <$> let_go x bs))).
  { change (ready_q (gl s2)) with (ready_q (gl s)). rewrite !NoDup_cons, !not_elem_of_cons in Hq. destruct Hq as ((Hrb & Hrd & _) & _).
    unfold family_queues. rewrite !lookup_insert_ne by done. apply lookup_insert_eq. }
  pose proof (SwapProcess_spec s2 _ a i (defunct_q (gl s)) uctxt _ y' _ z' K kt e0 e1 MT Hu HQ Hrdy Ha Hi Hn Hm Hy' Hz') as Hsw.
  rewrite Hk1, Hk2, Hk3 in Hsw. specialize (Hsw Hks ltac:(by destruct HK) ltac:(right; rewrite Hdq; by eexists)).
  cbv zeta in Hsw. change (pid (set_exit_code code x)) with (pid x) in Hsw. fold n in Hsw.
  destruct (Z.eqb_spec (pid x) (pid y)); [by destruct Hyx|]. cbn [andb] in Hsw.
  apply switches_before. eapply switches_mono; [exact Hsw|]. cbv beta.
  intros p t s3 q (-> & -> & (h3 & k3 & hw3 & -> & E1 & _) & HQ3 & _). rewrite decide_False by done. do 2 (split; [done|]).
  split; [done|exact E1| | |].
  - change (qst (set_hw _ _)) with h3. unfold queues_after in HQ3. rewrite Hrdy in HQ3. cbn [orb default id] in HQ3.
    destruct (Z.eqb_spec (defunct_q (gl s)) NULL); [done|]. unfold family_queues in HQ3.
    change (ready_q (gl s2)) with (ready_q (gl s)) in HQ3. rewrite (lookup_insert_ne _ (ready_q (gl s))) in HQ3.
    2: { rewrite !NoDup_cons, !not_elem_of_cons in Hq. by destruct Hq as ((_ & Hrd & _) & _). }
    rewrite lookup_insert_eq, insert_under in HQ3 by exact Hq. exact HQ3.
  - eapply fa_frame; [| |exact HF1]; done.
  - change (<[a := saved_pcb a (uc s) (set_exit_code code x)]> m = <[a := saved_pcb a (uc s) (set_exit_code code x)]>
      (family_pcbs (set_exit_code code x) rs bs (pcbs s))). unfold m. rewrite family_pcbs_insert, insert_insert_eq; [done|].
    pose proof (fa_distinct _ _ _ _ _ _ _ Hf) as Hd. apply NoDup_cons in Hd as [Hd _].
    rewrite app_assoc, fmap_app, not_elem_of_app in Hd. by destruct Hd.
Qed.

(** Whatever has happened since [s1], as long as the dead process [x] at [a] has not been
    touched and is the first dead child: its parent's [Wait] finds the status [code]. *)
Definition collectable (s1 : kstate) (a : Z) (x : pcb) (code : Z) : Prop :=
  forall s2 W b w ds1 ds2 ptr u, pcbs s2 !! a = pcbs s1 !! a -> Q (qst s2) W ->
    W !! defunct_q (gl s2) = Some (ds1 ++ (pid x, a) :: ds2) -> active s2 = b -> pcbs s2 !! b = Some w ->
    pid w = ppid x -> num_children w <> 0 -> others s2 (pid w) ds1 -> ptr <> NULL ->
    uaccess true s2 ptr 4 -> unaliased s2 ptr 4 ->
    returns (KernelWait ptr u) s2 (fun r s3 => r = 0 /\ bytes_int (ubytes s3 ptr 4) = i32 code /\
      Q (qst s3) (<[defunct_q (gl s2) := ds2 ++ ds1]> W) /\
      exists w', pcbs s3 !! b = Some w' /\ num_children w' = num_children w - 1).

(** C7: an exit status reaches the parent.  When a process exits whose parent is ready, or
    blocked in another call than [Wait], the next ready process runs, the frames of its
    space and of its kernel stack are free, its children are orphans and its dead children
    forgotten, and it is last among the dead; and whenever later its parent calls [Wait]
    and it is the first of its dead children, the call returns 0, with its status where
    the parent asked for it, and takes it off the queue. *)
Theorem exit_wait_roundtrip s V a x code uctxt rs bs ds fl i y z K kt e0 e1 : uctxt <> NULL -> active s = a -> a <> NULL ->
  sized x -> family (Q := Q) s V a x rs bs ds -> F s fl -> parent_collects x rs bs = true -> ppid x <> 0 ->
  idle s = i -> pcbs s !! i = Some y -> pid y <> pid x ->
  let n := next_ready i ((entry <$> rs) ++ (entry <$> let_go x bs)) in
  n <> a -> pcbs s !! n = Some z -> kernel_stack_pt z = [e0; e1] -> on_kernel_table s K kt ->
  switches (KernelExit code uctxt) s (fun p t s1 k => p = a /\ t = kernel_context z /\ exited s s1 V a x rs bs ds code n fl /\
    collectable s1 a x code).
Proof.
  intros. eapply switches_mono; [by eapply KernelExit_spec|]. cbv beta. intros p t s1 k (-> & -> & He).
  do 2 (split; [done|]). split; [exact He|].
  intros s2 W b w ds1 ds2 ptr u Ea HQ Hd Hb Hw Hpid Hnc Ho Hptr Hacc Hun.
  rewrite (ex_pcbs _ _ _ _ _ _ _ _ _ _ _ He), lookup_insert_eq in Ea.
  eapply returns_mono; [eapply (wait_reaps s2 W ptr u b w ds1 (pid x) a _ ds2 MT HQ Hd Hb Hw Hnc Ho Ea); done|].
  cbv beta. intros r s3 (-> & h & q & k2 & -> & HQ3 & _ & Hbs). split; [done|]. split; [exact Hbs|]. split; [exact HQ3|].
  eexists. split; [apply lookup_insert_eq|done].
Qed.

End exit.

(** ** Witnesses *)

(** Process 70 (pid 7) runs; 80 (pid 8) is its parent, 90 (pid 9) its child, blocked, and
    95 (pid 10) a dead child; 75 is the idle process. *)
Definition ex_exit_pcb : pcb := set_kernel_stack_pt (ex_kstack 20) (set_ppid 8 (set_num_children 2 (set_pid 7 pcb_zero))).
Definition ex_exit_parent (code : Z) : pcb :=
  set_blocked_code code (set_num_children 1 (set_kernel_context 80 (set_kernel_stack_pt (ex_kstack 24) (set_pid 8 pcb_zero)))).
Definition ex_exit_idle : pcb := set_kernel_stack_pt (ex_kstack 22) pcb_zero.
Definition ex_exit_child : pcb := set_blocked_code BLOCKED_DELAY (set_ppid 7 (set_pid 9 pcb_zero)).
Definition ex_exit_dead : pcb := set_ppid 7 (set_pid 10 pcb_zero).

Definition ex_exit_state (code : Z) (q : qheap) : kstate :=
  set_pcbs {[ 70 := ex_exit_pcb; 75 := ex_exit_idle; 80 := ex_exit_parent code; 90 := ex_exit_child; 95 := ex_exit_dead ]}
  (set_qst q (set_lst ex_lists (set_ptabs {[ 50 := ex_kt ]}
    (set_hw (set_r_ptbr0 (PtHeap 50) (set_r_ptbr1 (PtUser 70) init_hw))
    (set_gl (set_activePCB 70 (set_idlePCB 75 (set_ready_q 1 (set_blocked_q 3 (set_defunct_q 5 (set_pfn_list 1 init_glob)))))) init_state))))).

(** The parent ready, or waiting. *)
Definition ex_exit_ready_q : qheap := mkQheap
  {[ 1 := mkQueue 0 1 2 2; 3 := mkQueue 0 1 4 4; 5 := mkQueue 0 1 6 6 ]}
  {[ 2 := mkQnode 8 80 NULL; 4 := mkQnode 9 90 NULL; 6 := mkQnode 10 95 NULL ]}.
Definition ex_exit_waiting_q : qheap := mkQheap
  {[ 1 := mkQueue 0 0 NULL NULL; 3 := mkQueue 0 2 2 4; 5 := mkQueue 0 1 6 6 ]}
  {[ 2 := mkQnode 8 80 4; 4 := mkQnode 9 90 NULL; 6 := mkQnode 10 95 NULL ]}.

Definition ex_exit_ready : kstate := ex_exit_state NOT_BLOCKED ex_exit_ready_q.
Definition ex_exit_waiting : kstate := ex_exit_state BLOCKED_WAIT ex_exit_waiting_q.

Lemma ex_exit_ready_family : family (Q := qstore) ex_exit_ready {[ 1 := [(8, 80)]; 3 := [(9, 90)]; 5 := [(10, 95)] ]} 70 ex_exit_pcb
  [(80, ex_exit_parent NOT_BLOCKED)] [(90, ex_exit_child)] [(95, ex_exit_dead)].
Proof.
  split; try reflexivity; try by apply (bool_decide_unpack _).
  - apply (qstoreb_ok {[ 1 := [2]; 3 := [4]; 5 := [6] ]}). vm_compute. reflexivity.
  - repeat constructor.
Qed.

Lemma ex_exit_waiting_family : family (Q := qstore) ex_exit_waiting {[ 1 := []; 3 := [(8, 80); (9, 90)]; 5 := [(10, 95)] ]} 70 ex_exit_pcb
  [] [(80, ex_exit_parent BLOCKED_WAIT); (90, ex_exit_child)] [(95, ex_exit_dead)].
Proof.
  split; try reflexivity; try by apply (bool_decide_unpack _).
  - apply (qstoreb_ok {[ 1 := []; 3 := [2; 4]; 5 := [6] ]}). vm_compute. reflexivity.
  - repeat constructor.
Qed.

Lemma exit_wait_roundtrip_witness :
  switches (KernelExit (L := bump_libc) 42 1) ex_exit_ready (fun p t s1 k => p = 70 /\ t = 80 /\
    exited (Q := qstore) (F := free_list lstore ∅) ex_exit_ready s1 {[ 1 := [(8, 80)]; 3 := [(9, 90)]; 5 := [(10, 95)] ]} 70 ex_exit_pcb
      [(80, ex_exit_parent NOT_BLOCKED)] [(90, ex_exit_child)] [(95, ex_exit_dead)] 42 80 [71; 70] /\
    collectable (L := bump_libc) (Q := qstore) s1 70 ex_exit_pcb 42).
Proof.
  apply (exit_wait_roundtrip (L := bump_libc) (Q := qstore) (F := free_list lstore ∅) bump_libc_total ex_exit_ready
    {[ 1 := [(8, 80)]; 3 := [(9, 90)]; 5 := [(10, 95)] ]} 70 ex_exit_pcb 42 1
    [(80, ex_exit_parent NOT_BLOCKED)] [(90, ex_exit_child)] [(95, ex_exit_dead)] [71; 70] 75 ex_exit_idle
    (ex_exit_parent NOT_BLOCKED) 50 ex_kt (mkPte 1 3 24) (mkPte 1 3 25)).
  all: try reflexivity; try discriminate.
  - by split.
  - exact ex_exit_ready_family.
  - exact ex_lists_lstore.
  - by split.
Defined.

Lemma KernelExit_use_after_free_witness : KernelExit (L := bump_libc) 42 1 ex_exit_waiting = Fault FBadPtr.
Proof.
  apply (KernelExit_use_after_free (L := bump_libc) (Q := qstore) (F := free_list lstore ∅) bump_libc_total ex_exit_waiting
    {[ 1 := []; 3 := [(8, 80); (9, 90)]; 5 := [(10, 95)] ]} 70 ex_exit_pcb 42 1
    [] [(80, ex_exit_parent BLOCKED_WAIT); (90, ex_exit_child)] [(95, ex_exit_dead)] [71; 70]).
  all: try reflexivity; try discriminate.
  - by split.
  - exact ex_exit_waiting_family.
  - exact ex_lists_lstore.
Defined.
