(* ===== verification/SyscallsIO.v ===== *)
(** * Delay, terminal and pipe system calls ([syscalls.c], lines 416-934)

    [Delay], [TtyRead], [TtyWrite], [PipeInit], [PipeRead] and [PipeWrite].  The
    loops whose number of rounds depends on other processes take the bound [fuel]. *)

From Stdlib Require Import ZArith Lia.
From stdpp Require Import base gmap list.
From S2P Require Import Prelude Hardware State Logic KList KQueue KPipe Memory Frames Process ContextSwitch Sched Boot SyscallsProc.

Open Scope Z_scope.

(** ** The operations *)

Section io_calls.
Context `{L : Libc} (fuel : nat).

Definition KernelDelay (clock_ticks : Z) (uctxt : Z) : M Z :=
  if clock_ticks =? 0 then ret 0
  else if clock_ticks <? 0 then ret ERROR else
  let! a := gets active in
  upd_pcb a (set_clock_ticks clock_ticks) ;;
  upd_pcb a (set_blocked_code BLOCKED_DELAY) ;;
  let! bq := qptr blocked_q in
  let! r := SwapProcess bq uctxt in
  let! r := determinate r in
  if r =? ERROR then ret ERROR else ret 0.

(** ** Terminals *)

Definition get_buf (b : Z) : M (list Z) := deref bufs b.

(** The length of the first line among the [track] bytes of a terminal's buffer,
    newline included, or [track]; [None] when the search leaves the buffer. *)
Fixpoint scan_line (n : nat) (buf : list Z) (i track : Z) : option Z :=
  if i <? track then
    match n with
    | O => None
    | S n' =>
        match zget buf i with
        | None => None
        | Some c => if c =? 10 then Some (i + 1) else scan_line n' buf (i + 1) track
        end
    end
  else Some i.

(** [memset(buf, 0, track)] and [memcpy(buf, saved, track - n)] after the bytes from
    [n] on have been saved. *)
Definition shift_buffer (buf : list Z) (n track : Z) : list Z :=
  let saved := take (Z.to_nat (track - n)) (drop (Z.to_nat n) buf) in
  saved ++ replicate (Z.to_nat n) 0 ++ drop (Z.to_nat track) buf.

(** Put the first process waiting on a terminal's queue into the ready queue. *)
Definition wake_next (ttyQueue : Z) : M unit :=
  let! next := queue_peek ttyQueue in
  upd_pcb next (set_blocked_code NOT_BLOCKED) ;;
  let! np := get_pcb next in
  let! rq := qptr ready_q in
  queue_add rq next (pid np) ;;
  ret tt.

(** The part of [KernelTtyRead] that has input to read. *)
Definition tty_take_line (tty_id ttyBuffer ttyQueue buf len : Z) : M Z :=
  let! track := arr_get (fun s => ttyReadTrackers (gl s)) tty_id in
  let! content := get_buf ttyBuffer in
  let! bytes_num := in_bounds (scan_line (Z.to_nat track) content 0 track) in
  let bytes_num := if bytes_num >? len then len else bytes_num in
  write_bytes buf (take (Z.to_nat bytes_num) content) ;;
  (if Z.of_nat (length content) <? track then raise FOob else ret tt) ;;
  modify (put_buf ttyBuffer (shift_buffer content bytes_num track)) ;;
  arr_set ttyReadTrackers set_ttyReadTrackers tty_id (track - bytes_num) ;;
  let! n := size_of ttyQueue in
  let! content := get_buf ttyBuffer in
  let! c0 := in_bounds (zget content 0) in
  (if (n >? 0) && negb (c0 =? 0) then wake_next ttyQueue else ret tt) ;;
  ret bytes_num.

Definition KernelTtyRead (uctxt tty_id buf len : Z) : M Z :=
  let! ttyBuffer := arr_get (fun s => ttyReadbuffers (gl s)) tty_id in
  let! ttyQueue := arr_get (fun s => ttyReadQueues (gl s)) tty_id in
  if (ttyQueue =? NULL) || (ttyBuffer =? NULL) then ret ERROR
  else if len <? 0 then ret ERROR
  else if (tty_id <? 0) || (tty_id >? 3) then ret ERROR
  else if len =? 0 then ret 0 else
  let! n := size_of ttyQueue in
  let! c0 := (if n >? 0 then ret 0 else
              let! content := get_buf ttyBuffer in in_bounds (zget content 0)) in
  (if (n >? 0) || (c0 =? 0) then
     let! a := gets active in
     upd_pcb a (set_blocked_code BLOCKED_TTY_READ) ;;
     upd_pcb a (set_tty_terminal tty_id) ;;
     SwapProcess ttyQueue uctxt ;;
     ret tt
   else ret tt) ;;
  tty_take_line tty_id ttyBuffer ttyQueue buf len.

(** Wait for the terminal to be open, and start one transmission. *)
Definition tty_write_chunk (uctxt tty_id buf bytes_left bytes_written : Z) : M Z :=
  mwhile fuel
    (let! t := arr_get (fun s => ttyWriteTrackers (gl s)) tty_id in ret (t =? TERMINAL_CLOSED))
    (let! a := gets active in
     upd_pcb a (set_blocked_code BLOCKED_TTY_TRANSMIT) ;;
     upd_pcb a (set_tty_terminal tty_id) ;;
     SwapProcess NULL uctxt ;;
     ret tt) ;;
  arr_set ttyWriteTrackers set_ttyWriteTrackers tty_id TERMINAL_CLOSED ;;
  let to_write := if bytes_left >? TERMINAL_MAX_LINE then TERMINAL_MAX_LINE else bytes_left in
  let! bs := read_bytes (buf + bytes_written) (Z.to_nat to_write) in
  upd_hw (fun h => set_tty_out ((tty_id, bs) :: tty_out h) h) ;;
  ret to_write.

(** [while (bytes_left > 0)]: at most [n] chunks. *)
Fixpoint tty_write_loop (n : nat) (uctxt tty_id buf bytes_left bytes_written : Z) : M Z :=
  if bytes_left >? 0 then
    match n with
    | O => raise FFuel
    | S n' =>
        let! to_write := tty_write_chunk uctxt tty_id buf bytes_left bytes_written in
        tty_write_loop n' uctxt tty_id buf (bytes_left - to_write) (bytes_written + to_write)
    end
  else ret bytes_written.

Definition KernelTtyWrite (uctxt tty_id buf len : Z) : M Z :=
  let! ttyQueue := arr_get (fun s => ttyWriteQueues (gl s)) tty_id in
  if ttyQueue =? NULL then ret ERROR
  else if (tty_id <? 0) || (tty_id >? 3) then ret ERROR
  else if len <? 0 then ret ERROR
  else if len =? 0 then ret 0 else
  let! a := gets active in
  let! ap := get_pcb a in
  queue_add ttyQueue a (pid ap) ;;
  let! first := queue_peek ttyQueue in
  let! fp := get_pcb first in
  let! ap := get_pcb a in
  (if negb (pid fp =? pid ap) then
     upd_pcb a (set_blocked_code BLOCKED_TTY_WRITE) ;;
     upd_pcb a (set_tty_terminal tty_id) ;;
     SwapProcess NULL uctxt ;;
     ret tt
   else ret tt) ;;
  let! bytes_written := tty_write_loop (S (Z.to_nat (len / TERMINAL_MAX_LINE))) uctxt tty_id buf len 0 in
  queue_pop ttyQueue ;;
  let! n := size_of ttyQueue in
  (if n >? 0 then wake_next ttyQueue else ret tt) ;;
  ret bytes_written.

(** ** Pipes *)

Definition KernelPipeInit (pipe_idp : Z) : M Z :=
  if pipe_idp =? NULL then ret ERROR else
  let! hp := gets (fun s => head_pipe (gl s)) in
  let! id := add_pipe hp in
  if id =? ERROR then ret ERROR else
  store_int pipe_idp id ;;
  ret 0.

(** [curr_pipe->queue], an indeterminate pointer for the head pipe. *)
Definition pipe_queue (p : Z) : M Z :=
  let! x := get_pipe_obj p in determinate (pp_queue x).

(** Block the caller on a pipe. *)
Definition pipe_block (curr_pipe code uctxt : Z) : M unit :=
  let! a := gets active in
  upd_pcb a (set_blocked_code code) ;;
  let! q := pipe_queue curr_pipe in
  let! ap := get_pcb a in
  queue_add q a (pid ap) ;;
  let! bq := qptr blocked_q in
  SwapProcess bq uctxt ;;
  ret tt.

(** The bytes [off..off+n-1] of a pipe's buffer replaced. *)
Definition splice (buf : list Z) (off : Z) (bs : list Z) : option (list Z) :=
  if bool_decide (0 <= off /\ off + Z.of_nat (length bs) <= Z.of_nat (length buf))
  then Some (take (Z.to_nat off) buf ++ bs ++ drop (Z.to_nat off + length bs) buf)
  else None.

(** [for (i = 0; i < plen - len; i++) buf[i] = buf[i + len];] *)
Definition shift_pipe (buf : list Z) (plen len : Z) : option (list Z) :=
  splice buf 0 (take (Z.to_nat (plen - len)) (drop (Z.to_nat len) buf)).

(** Take at most [len] bytes out of the pipe into user memory. *)
Definition pipe_take (curr_pipe buf len : Z) : M Z :=
  let! x := get_pipe_obj curr_pipe in
  if pp_len x >? len then
    write_bytes buf (take (Z.to_nat len) (pp_buf x)) ;;
    let! b := in_bounds (shift_pipe (pp_buf x) (pp_len x) len) in
    upd_pipe curr_pipe (set_pp_buf b) ;;
    upd_pipe curr_pipe (fun x => set_pp_len (pp_len x - len) x) ;;
    ret len
  else
    write_bytes buf (take (Z.to_nat (pp_len x)) (pp_buf x)) ;;
    let! b := in_bounds (splice (pp_buf x) 0 (replicate (Z.to_nat (pp_len x)) 0)) in
    upd_pipe curr_pipe (set_pp_buf b) ;;
    let tmp := pp_len x in
    upd_pipe curr_pipe (set_pp_len 0) ;;
    ret tmp.

(** [for (int i = 0; i < blocked_q->size; i++)]: pop a blocked process, assign it
    the pid of the process to wake (the [=] of the condition), and test that pid. *)
Definition unblock_loop (process_to_wake : Z) (found : Z -> M bool) : M unit :=
  mloop fuel 0
    (fun i => let! bq := qptr blocked_q in let! n := size_of bq in ret (i <? n))
    (fun _ =>
      let! bq := qptr blocked_q in
      let! curr_pcb := queue_pop bq in
      let! w := get_pcb process_to_wake in
      upd_pcb curr_pcb (set_pid (pid w)) ;;
      if negb (pid w =? 0) then found curr_pcb
      else
        let! cp := get_pcb curr_pcb in
        queue_add bq curr_pcb (pid cp) ;;
        ret false).

Definition to_ready (p : Z) : M unit :=
  let! rq := qptr ready_q in
  let! x := get_pcb p in
  queue_add rq p (pid x) ;; ret tt.

(** After a read that left bytes in the pipe. *)
Definition pipe_wake_one (q : Z) : M unit :=
  let! process_to_wake := queue_pop q in
  upd_pcb process_to_wake (set_blocked_code NOT_BLOCKED) ;;
  unblock_loop process_to_wake (fun _ => ret true) ;;
  to_ready process_to_wake.

(** After a read that emptied the pipe: the condition assigns
    [BLOCKED_PIPE_WRITE] to the process's [blocked_code], so it always holds. *)
Definition pipe_wake_writer (q : Z) : M unit :=
  mloop fuel 0
    (fun i => let! n := size_of q in ret (i <? n))
    (fun _ =>
      let! process_to_wake := queue_pop q in
      upd_pcb process_to_wake (set_blocked_code BLOCKED_PIPE_WRITE) ;;
      if negb (BLOCKED_PIPE_WRITE =? 0) then
        upd_pcb process_to_wake (set_blocked_code NOT_BLOCKED) ;;
        unblock_loop process_to_wake (fun curr_pcb => to_ready curr_pcb ;; ret true) ;;
        ret true
      else
        let! bq := qptr blocked_q in
        let! w := get_pcb process_to_wake in
        queue_add bq process_to_wake (pid w) ;;
        ret false).

Definition KernelPipeRead (pipe_id buf len uctxt : Z) : M Z :=
  if buf =? NULL then ret ERROR else
  if (len <? 0) || (len >? PIPE_BUFFER_LEN) then ret ERROR else
  let! hp := gets (fun s => head_pipe (gl s)) in
  let! curr_pipe := get_pipe hp pipe_id in
  if curr_pipe =? NULL then ret ERROR else
  let! x := get_pipe_obj curr_pipe in
  (if pp_used x =? PIPE_NOT_FREE then pipe_block curr_pipe BLOCKED_PIPE_READ uctxt else ret tt) ;;
  mwhile fuel
    (let! x := get_pipe_obj curr_pipe in ret (pp_len x =? 0))
    (pipe_block curr_pipe BLOCKED_PIPE_READ uctxt) ;;
  upd_pipe curr_pipe (set_pp_used PIPE_NOT_FREE) ;;
  let! amount_read := pipe_take curr_pipe buf len in
  let! x := get_pipe_obj curr_pipe in
  let! q := pipe_queue curr_pipe in
  let! n := size_of q in
  (if pp_len x >? 0 then
     if n >? 0 then pipe_wake_one q else ret tt
   else pipe_wake_writer q) ;;
  upd_pipe curr_pipe (set_pp_used PIPE_FREE) ;;
  ret amount_read.

(** Put as many of the [len] bytes as fit into the pipe. *)
Definition pipe_put (curr_pipe buf len : Z) : M Z :=
  let! x := get_pipe_obj curr_pipe in
  let available_space := PIPE_BUFFER_LEN - pp_len x in
  let n := if available_space >=? len then len else available_space in
  let! bs := read_bytes buf (Z.to_nat n) in
  let! b := in_bounds (splice (pp_buf x) (pp_len x) bs) in
  upd_pipe curr_pipe (set_pp_buf b) ;;
  upd_pipe curr_pipe (fun x => set_pp_len (pp_len x + n) x) ;;
  ret n.

(** Wake the processes waiting on the pipe: for each, every process popped off the
    blocked queue is given its pid and made ready. *)
Definition pipe_wake_all (q : Z) : M unit :=
  mloop fuel 0
    (fun i => let! n := size_of q in ret (i <? n))
    (fun _ =>
      let! process_to_wake := queue_pop q in
      upd_pcb process_to_wake (set_blocked_code NOT_BLOCKED) ;;
      unblock_loop process_to_wake (fun curr_pcb => to_ready curr_pcb ;; ret false) ;;
      ret false).

Definition KernelPipeWrite (pipe_id buf len uctxt : Z) : M Z :=
  if pipe_id <=? 0 then ret ERROR else
  if (len <? 0) || (len >? PIPE_BUFFER_LEN) then ret ERROR else
  if buf =? NULL then ret ERROR else
  let! hp := gets (fun s => head_pipe (gl s)) in
  let! curr_pipe := get_pipe hp pipe_id in
  mwhile fuel
    (let! x := get_pipe_obj curr_pipe in ret (pp_used x =? PIPE_NOT_FREE))
    (pipe_block curr_pipe BLOCKED_PIPE_WRITE uctxt) ;;
  upd_pipe curr_pipe (set_pp_used PIPE_NOT_FREE) ;;
  let! amount_written := pipe_put curr_pipe buf len in
  let! q := pipe_queue curr_pipe in
  let! n := size_of q in
  (if n >? 0 then pipe_wake_all q else ret tt) ;;
  upd_pipe curr_pipe (set_pp_used PIPE_FREE) ;;
  ret amount_written.

End io_calls.

(** ** Delay *)

Section delay.
Context `{L : Libc} {Q : qheap -> gmap Z (list (Z * Z)) -> Prop} {QS : QueueStore L Q}.

(** A process that may be switched away from: it is active, not the idle one, and
    the process to run next, with its kernel stack, is another one. *)
Record runs (s : kstate) (V : gmap Z (list (Z * Z))) (a i K : Z) (x y z : pcb) (rs : list (Z * Z))
    (kt : list pte) (e0 e1 : pte) : Prop := {
  ru_queues : Q (qst s) V;
  ru_ready : V !! ready_q (gl s) = Some rs;
  ru_active : active s = a;
  ru_idle : idle s = i;
  ru_nonnull : a <> NULL;
  ru_pcb : pcbs s !! a = Some x;
  ru_idle_pcb : pcbs s !! i = Some y;
  ru_not_idle : pid x <> pid y;
  ru_next : pcbs s !! next_ready i rs = Some z;
  ru_other : next_ready i rs <> a;
  ru_stack : kernel_stack_pt z = [e0; e1];
  ru_table : on_kernel_table s K kt }.

(** Blocking: some fields of the caller's PCB are set, and the caller is switched
    away from to the queue [move]. *)
Lemma block_and_swap s V a i K x y z rs kt e0 e1 x' move uctxt :
  MallocTotal L -> uctxt <> NULL -> runs s V a i K x y z rs kt e0 e1 ->
  pid x' = pid x -> (move = NULL \/ is_Some (V !! move)) ->
  switches (SwapProcess move uctxt) (put_pcb a x' s) (fun p t s1 k =>
    p = a /\ t = kernel_context z /\
    swapped (put_pcb a x' s) s1 a (next_ready i rs) K x' kt [e0; e1] /\
    Q (qst s1) (queues_after V (ready_q (gl s)) move false a (pid x)) /\ resumes (uc s) k).
Proof.
  intros MT Hu [HQ Hr Ha Hi Hn Hx Hy Hni Hz Ho Hks HK] Hpid Hm.
  assert (Hia : i <> a) by (intros ->; congruence).
  pose proof (SwapProcess_spec (put_pcb a x' s) V a i move uctxt x' y rs z K kt e0 e1 MT Hu HQ Hr Ha Hi Hn) as H.
  cbn [pcbs put_pcb set_pcbs] in H. rewrite lookup_insert_eq, !lookup_insert_ne in H by congruence.
  specialize (H eq_refl Hy Hz Hks). rewrite Hpid in H.
  destruct (Z.eqb_spec (pid x) (pid y)); [done|]. cbn [andb] in H.
  eapply switches_mono; [apply H; [by destruct HK|done]|]. cbv beta.
  intros p t s1 k (-> & -> & Hsw & HQ1 & Hk). rewrite decide_False by done. done.
Qed.

(** [Delay] returns at once for zero ticks and refuses a negative number; for
    a positive number the caller joins the end of the blocked queue with its
    ticks set, the next process runs, and the call returns 0 when the caller
    runs again. *)
Theorem KernelDelay_blocks s V a i K x y z rs kt e0 e1 bs ticks uctxt :
  MallocTotal L -> uctxt <> NULL -> runs s V a i K x y z rs kt e0 e1 ->
  V !! blocked_q (gl s) = Some bs -> blocked_q (gl s) <> ready_q (gl s) ->
  (ticks = 0 -> KernelDelay ticks uctxt s = Ret 0 s) /\
  (ticks < 0 -> KernelDelay ticks uctxt s = Ret ERROR s) /\
  (0 < ticks ->
    let x' := set_blocked_code BLOCKED_DELAY (set_clock_ticks ticks x) in
    switches (KernelDelay ticks uctxt) s (fun p t s1 k => p = a /\ t = kernel_context z /\
      swapped (put_pcb a x' s) s1 a (next_ready i rs) K x' kt [e0; e1] /\
      Q (qst s1) (<[blocked_q (gl s) := bs ++ [(pid x, a)]]> (<[ready_q (gl s) := tail rs]> V)) /\
      forall t w, pcbs t !! activePCB (gl t) = Some w -> exists t', k t = Ret 0 t')).
Proof.
  intros MT Hu Hr Hb Hne. unfold KernelDelay. split; [by intros ->|]. split.
  - intros Hlt. destruct (Z.eqb_spec ticks 0); [lia|]. by destruct (Z.ltb_spec ticks 0); [|lia].
  - intros Hgt. set (x' := set_blocked_code BLOCKED_DELAY (set_clock_ticks ticks x)). destruct (Z.eqb_spec ticks 0); [lia|]. destruct (Z.ltb_spec ticks 0); [lia|].
    pose proof Hr as [HQ Hrs Ha Hi Hn Hx _ _ _ _ _ _].
    apply switches_after. rstep. rewrite Ha.
    apply switches_after. eapply returns_upd_pcb; [exact Hx|].
    apply switches_after. eapply returns_upd_pcb; [apply lookup_insert_eq|]. rewrite put_pcb_twice.
    apply switches_after. unfold qptr. rstep. apply switches_before.
    eapply switches_mono.
    { eapply (block_and_swap s V a i K x y z rs kt e0 e1 x' (blocked_q (gl s)) uctxt MT Hu Hr); [done|].
      right. by rewrite Hb. }
    cbv beta. intros p t s1 k (-> & -> & Hsw & HQ1 & Hk). split; [done|]. split; [done|]. split; [exact Hsw|]. split.
    + unfold queues_after in HQ1. rewrite Hrs, lookup_insert_ne, Hb in HQ1 by done. cbn [orb default] in HQ1.
      destruct (qs_nonnull _ _ _ _ HQ Hb) as [Hbn _]. by destruct (Z.eqb_spec (blocked_q (gl s)) NULL).
    + intros t w Hw. rewrite (Hk t _ w eq_refl Hw). eexists. reflexivity.
Qed.

End delay.

(** ** The bytes of a pipe *)

Definition pipe_wf (x : pipe) : Prop :=
  length (pp_buf x) = Z.to_nat PIPE_BUFFER_LEN /\ 0 <= pp_len x <= PIPE_BUFFER_LEN.

(** The bytes written and not yet read, oldest first. *)
Definition contents (x : pipe) : list Z := take (Z.to_nat (pp_len x)) (pp_buf x).

(** The pipe with other bytes. *)
Definition with_bytes (b : list Z) (n : Z) (x : pipe) : pipe := set_pp_len n (set_pp_buf b x).

Lemma splice_ok buf off bs : 0 <= off -> off + Z.of_nat (length bs) <= Z.of_nat (length buf) ->
  splice buf off bs = Some (take (Z.to_nat off) buf ++ bs ++ drop (Z.to_nat off + length bs) buf).
Proof. intros. unfold splice. by rewrite bool_decide_true. Qed.

Lemma ubytes_length s a n : length (ubytes s a n) = n.
Proof. unfold ubytes. by rewrite length_map, zrange_length. Qed.

Lemma returns_upd_pipe p f x s (P : unit -> kstate -> Prop) :
  pipes s !! p = Some x -> P tt (put_pipe p (f x) s) -> returns (upd_pipe p f) s P.
Proof. intros. apply returns_bind. by eapply returns_deref. Qed.

Lemma put_pipe_hw p x h s : put_pipe p x (set_hw h s) = set_hw h (put_pipe p x s).
Proof. by destruct s. Qed.

(** A write puts as many of the bytes as fit behind those the pipe holds, in
    order, returns their number, and leaves the pipe well formed. *)
Lemma pipe_put_appends s p x buf len :
  pipes s !! p = Some x -> pipe_wf x -> 0 <= len ->
  let n := Z.min len (PIPE_BUFFER_LEN - pp_len x) in
  uaccess false s buf (Z.to_nat n) ->
  returns (pipe_put p buf len) s (fun r s' => r = n /\ exists h x',
    s' = set_hw h (put_pipe p x' s) /\ hw_mem_only (hw s) h /\ frames h = frames (hw s) /\
    x' = with_bytes (pp_buf x') (pp_len x + n) x /\ pipe_wf x' /\
    contents x' = contents x ++ ubytes s buf (Z.to_nat n)).
Proof.
  intros Hx [Hl Hp] Hlen n Hacc. unfold pipe_put, get_pipe_obj.
  assert (En : (if PIPE_BUFFER_LEN - pp_len x >=? len then len else PIPE_BUFFER_LEN - pp_len x) = n).
  { unfold n. destruct (Z.geb_spec (PIPE_BUFFER_LEN - pp_len x) len); lia. }
  rstep. rstep; [exact Hx|]. cbv zeta. rewrite En. rstep.
  eapply returns_mono; [by apply read_bytes_spec|]. cbv beta.
  intros bs s1 (h & -> & Hm & Hf & ->). set (bs := ubytes s buf (Z.to_nat n)).
  assert (Hbs : length bs = Z.to_nat n) by apply ubytes_length.
  rstep. eapply returns_in_bounds; [apply splice_ok; [lia|]|].
  { rewrite Hbs, Hl. change (Z.of_nat (Z.to_nat PIPE_BUFFER_LEN)) with PIPE_BUFFER_LEN. lia. }
  set (b' := take _ _ ++ _). rstep. eapply returns_upd_pipe; [exact Hx|]. rstep.
  eapply returns_upd_pipe; [apply lookup_insert_eq|]. rstep. split; [done|].
  exists h, (with_bytes b' (pp_len x + n) x). rewrite put_pipe_twice, put_pipe_hw.
  split; [done|]. split; [done|]. split; [done|]. split; [done|].
  assert (Hb' : length b' = Z.to_nat PIPE_BUFFER_LEN).
  { unfold b'. rewrite !length_app, length_take, length_drop, Hbs, Hl.
    change (Z.to_nat PIPE_BUFFER_LEN) with 256%nat. change PIPE_BUFFER_LEN with 256 in *. lia. }
  split; [split; [done|cbn; lia]|]. unfold contents, with_bytes. cbn [pp_len pp_buf set_pp_len set_pp_buf].
  unfold b'. rewrite app_assoc, take_app_le by (rewrite length_app, length_take, Hbs, Hl;
    change (Z.to_nat PIPE_BUFFER_LEN) with 256%nat; change PIPE_BUFFER_LEN with 256 in *; lia).
  apply take_ge. rewrite length_app, length_take, Hbs. lia.
Qed.

(** A read takes the oldest bytes of the pipe, at most as many as asked for,
    stores them in order in the caller's memory, returns their number, and leaves
    exactly the others in the pipe. *)
Lemma pipe_take_removes s p x buf len :
  pipes s !! p = Some x -> pipe_wf x -> 0 <= len ->
  let n := Z.min len (pp_len x) in
  uaccess true s buf (Z.to_nat n) -> unaliased s buf (Z.to_nat n) ->
  returns (pipe_take p buf len) s (fun r s' => r = n /\ exists h x',
    s' = put_pipe p x' (set_hw h s) /\ hw_mem_only (hw s) h /\
    ubytes (set_hw h s) buf (Z.to_nat n) = map (fun b => b mod 256) (take (Z.to_nat n) (contents x)) /\
    x' = with_bytes (pp_buf x') (pp_len x - n) x /\ pipe_wf x' /\ contents x' = drop (Z.to_nat n) (contents x)).
Proof.
  intros Hx [Hl Hp] Hlen n Hacc Hun. unfold pipe_take, get_pipe_obj. change (Z.to_nat PIPE_BUFFER_LEN) with 256%nat in *.
  change PIPE_BUFFER_LEN with 256 in *. rstep. rstep; [exact Hx|].
  assert (Htake : forall k, (k <= Z.to_nat (pp_len x))%nat -> take k (contents x) = take k (pp_buf x)).
  { intros k Hk. unfold contents. rewrite take_take. f_equal. lia. }
  assert (Hlt : forall k, (k <= 256)%nat -> length (take k (pp_buf x)) = k) by (intros; rewrite length_take; lia).
  destruct (Z.gtb_spec (pp_len x) len) as [Hgt|Hle].
  - replace n with len in * by lia. rstep.
    eapply returns_mono; [apply write_bytes_spec; by rewrite Hlt by lia|]. cbv beta.
    rewrite Hlt by lia. intros _ s1 (h & -> & Hm & Hb & _). rstep.
    set (mid := take (Z.to_nat (pp_len x - len)) (drop (Z.to_nat len) (pp_buf x))).
    assert (Hmid : length mid = Z.to_nat (pp_len x - len)) by (unfold mid; rewrite length_take, length_drop; lia).
    eapply returns_in_bounds; [unfold shift_pipe; fold mid; apply splice_ok; [lia|]; rewrite Hmid, Hl; lia|].
    change (Z.to_nat 0) with 0%nat. rewrite take_0. cbn [app Nat.add]. rewrite Hmid.
    rstep. eapply returns_upd_pipe; [exact Hx|]. rstep. eapply returns_upd_pipe; [apply lookup_insert_eq|].
    rstep. split; [done|]. rewrite put_pipe_twice. eexists h, (with_bytes _ _ x). split; [reflexivity|].
    split; [done|]. split; [by rewrite Htake by lia|]. split; [done|]. split.
    + split; cbn [with_bytes pp_buf pp_len set_pp_buf set_pp_len]; change PIPE_BUFFER_LEN with 256; [|lia].
      change (Z.to_nat 256) with 256%nat. rewrite length_app, Hmid, length_drop, Hl. lia.
    + unfold contents. cbn [with_bytes pp_buf pp_len set_pp_buf set_pp_len]. rewrite take_app_le, take_ge by lia. 
      unfold mid. rewrite skipn_firstn_comm. f_equal. lia.
  - replace n with (pp_len x) in * by lia. rstep.
    eapply returns_mono; [apply write_bytes_spec; by rewrite Hlt by lia|]. cbv beta.
    rewrite Hlt by lia. intros _ s1 (h & -> & Hm & Hb & _). rstep.
    eapply returns_in_bounds; [apply splice_ok; [lia|]; rewrite length_replicate, Hl; lia|].
    change (Z.to_nat 0) with 0%nat. rewrite take_0. cbn [app Nat.add]. rewrite length_replicate.
    rstep. eapply returns_upd_pipe; [exact Hx|]. rstep. eapply returns_upd_pipe; [apply lookup_insert_eq|].
    rstep. split; [done|]. rewrite put_pipe_twice. eexists h, (with_bytes _ _ x). split; [reflexivity|].
    split; [done|]. split; [by rewrite Htake by lia|]. split; [by rewrite Z.sub_diag|]. split.
    + split; cbn [with_bytes pp_buf pp_len set_pp_buf set_pp_len]; change PIPE_BUFFER_LEN with 256; [|lia].
      change (Z.to_nat 256) with 256%nat. rewrite length_app, length_replicate, length_drop, Hl. lia.
    + unfold contents. cbn [with_bytes pp_buf pp_len set_pp_buf set_pp_len]. 
      transitivity (@nil Z); [done|]. symmetry. apply drop_ge. rewrite length_take. lia.
Qed.

Lemma same_memory_put_pipe p x s : same_memory s (put_pipe p x s).
Proof. split; [done|]. by intros []. Qed.

Lemma uaccess_after write s s1 h a n :
  same_memory s s1 -> hw_mem_only (hw s) h -> uaccess write s a n -> uaccess write (set_hw h s1) a n.
Proof.
  intros Hs Hm Ha. apply uaccess_mem_only; [by rewrite (proj1 Hs)|]. by apply (uaccess_same _ s).
Qed.

Lemma phys_after s s1 h a : same_memory s s1 -> hw_mem_only (hw s) h -> phys (set_hw h s1) a = phys s a.
Proof. intros Hs Hm. rewrite phys_mem_only by (by rewrite (proj1 Hs)). by apply phys_same. Qed.

(** A pipe is a bounded first-in first-out buffer of bytes: after a write and
    then a read, the reader's memory holds the first bytes of what the pipe held
    followed by what was written, as many as both calls allow, the rest is still
    in the pipe, in order, and both counts are returned. *)
Theorem pipe_write_then_read s p x b1 l1 b2 l2 :
  pipes s !! p = Some x -> pipe_wf x -> 0 <= l1 -> 0 <= l2 ->
  let n1 := Z.min l1 (PIPE_BUFFER_LEN - pp_len x) in
  let n2 := Z.min l2 (pp_len x + n1) in
  let bytes := contents x ++ ubytes s b1 (Z.to_nat n1) in
  uaccess false s b1 (Z.to_nat n1) -> uaccess true s b2 (Z.to_nat n2) -> unaliased s b2 (Z.to_nat n2) ->
  returns (let! r1 := pipe_put p b1 l1 in let! r2 := pipe_take p b2 l2 in ret (r1, r2)) s (fun r s' =>
    r = (n1, n2) /\ exists h x', s' = set_hw h (put_pipe p x' s) /\ hw_mem_only (hw s) h /\
    ubytes (set_hw h s) b2 (Z.to_nat n2) = map (fun b => b mod 256) (take (Z.to_nat n2) bytes) /\
    pipe_wf x' /\ contents x' = drop (Z.to_nat n2) bytes).
Proof.
  intros Hx Hwf H1 H2 n1 n2 bytes Ha1 Ha2 Hun. rstep.
  eapply returns_mono; [by apply (pipe_put_appends s p x)|]. cbv beta.
  intros r s1 (-> & h1 & x1 & -> & Hm1 & Hf1 & Ex1 & Hwf1 & Hc1). fold n1 in Ex1, Hc1. fold bytes in Hc1.
  assert (Hl1 : pp_len x1 = pp_len x + n1) by (by rewrite Ex1).
  set (s1 := set_hw h1 (put_pipe p x1 s)).
  assert (Hsm : same_memory s (put_pipe p x1 s)) by apply same_memory_put_pipe.
  assert (Hx1 : pipes s1 !! p = Some x1) by apply lookup_insert_eq.
  rstep. eapply returns_mono; [apply (pipe_take_removes s1 p x1 b2 l2 Hx1 Hwf1 H2); rewrite Hl1; fold n2|]; cbv beta.
  - by apply (uaccess_after true s).
  - intros i j Hi Hj. unfold s1. rewrite !(phys_after s) by done. by apply Hun.
  - rewrite Hl1. fold n2. intros r s2 (-> & h2 & x2 & -> & Hm2 & Hb & Ex2 & Hwf2 & Hc2). rstep. split; [done|].
    exists h2, x2. rewrite Hc1 in *. split.
    { unfold s1. rewrite put_pipe_hw. cbn. unfold put_pipe, set_pipes, set_hw. cbn. by rewrite insert_insert_eq. }
    split; [by eapply hw_mem_only_trans|]. split; [|done].
    rewrite <- Hb. symmetry. apply (ubytes_same (set_hw h2 s)). split; [done|]. by intros [].
Qed.

(** ** Waking the readers and writers of a pipe *)

Section pipe_wake.
Context `{L : Libc} {Q : qheap -> gmap Z (list (Z * Z)) -> Prop} {QS : QueueStore L Q}.

(** The PCBs [ps] given the pid [n]. *)
Definition repid (n : Z) (ps : list Z) (m : gmap Z pcb) : gmap Z pcb :=
  foldl (fun m p => alter (set_pid n) p m) m ps.

(** Rounds of a loop that pops a queue of [len] processes while [i] is below its size. *)
Definition rounds (i : Z) (len : nat) : nat := Z.to_nat ((Z.of_nat len - i + 1) / 2).

Lemma rounds_step i len : 0 <= i < Z.of_nat len -> rounds i len = S (rounds (i + 1) (len - 1)).
Proof.
  intros Hi. unfold rounds. rewrite <- Z2Nat.inj_succ by (apply Z.div_pos; lia). f_equal.
  replace (Z.of_nat len - i + 1) with (Z.of_nat (len - 1) - (i + 1) + 1 + 1 * 2) by lia.
  rewrite Z.div_add by done. lia.
Qed.

Lemma rounds_done i len : Z.of_nat len <= i -> rounds i len = 0%nat.
Proof.
  intros Hi. unfold rounds. assert ((Z.of_nat len - i + 1) / 2 < 1); [|lia]. apply Z.div_lt_upper_bound; lia.
Qed.

Lemma size_test s V q xs i : Q (qst s) V -> V !! q = Some xs ->
  (let! n := size_of q in ret (i <? n)) s = Ret (i <? Z.of_nat (length xs)) s.
Proof.
  intros HQ Hq. destruct (qs_size _ _ _ _ HQ Hq) as (k & Ek & Hk).
  unfold size_of, get_queue, bind, deref. rewrite Ek. cbn. by rewrite Hk.
Qed.

Lemma mloop_stop n i cond body s : cond i s = Ret false s -> mloop n i cond body s = Ret tt s.
Proof. intros H. destruct n; cbn [mloop]; by rewrite (bind_exec _ _ _ _ _ H). Qed.

Lemma returns_mloop_go n i cond body s (P : unit -> kstate -> Prop) : cond i s = Ret true s ->
  returns (let! brk := body i in (if brk : bool then ret tt else mloop n (i + 1) cond body)) s P ->
  returns (mloop (S n) i cond body) s P.
Proof. intros H HP. cbn [mloop]. apply returns_bind. by eapply returns_exec. Qed.

Lemma unblock_steals fuel i s V xs ys w wx :
  MallocTotal L -> Q (qst s) V -> V !! blocked_q (gl s) = Some xs -> V !! ready_q (gl s) = Some ys ->
  blocked_q (gl s) <> ready_q (gl s) -> pcbs s !! w = Some wx -> pid wx <> 0 -> 0 <= i ->
  Forall (fun x => is_Some (pcbs s !! x.2)) xs -> (rounds i (length xs) <= fuel)%nat ->
  let ps := take (rounds i (length xs)) (map snd xs) in
  returns (mloop fuel i
    (fun i => let! bq := qptr blocked_q in let! n := size_of bq in ret (i <? n))
    (fun _ =>
      let! bq := qptr blocked_q in
      let! curr_pcb := queue_pop bq in
      let! x := get_pcb w in
      upd_pcb curr_pcb (set_pid (pid x)) ;;
      if negb (pid x =? 0) then to_ready curr_pcb ;; ret false
      else let! cp := get_pcb curr_pcb in queue_add bq curr_pcb (pid cp) ;; ret false)) s
  (fun _ s' => exists h n, s' = set_pcbs (repid (pid wx) ps (pcbs s)) (set_qst h (set_mtick n s)) /\
    Q h (<[ready_q (gl s) := ys ++ map (pair (pid wx)) ps]>
        (<[blocked_q (gl s) := drop (rounds i (length xs)) xs]> V))).
Proof.
  intros MT. revert i s V xs ys wx. induction fuel as [|fuel IH];
    intros i s V xs ys wx HQ Hb Hr Hne Hw Hwp Hi Hall Hf ps;
    pose proof (size_test s V _ xs i HQ Hb) as Hc;
    (destruct (Z.ltb_spec i (Z.of_nat (length xs))) as [Hlt|Hge];
     [|eapply returns_exec; [by apply mloop_stop|]; unfold ps; rewrite rounds_done by done; exists (qst s), (mtick s);
       (split; [by destruct s|]); rewrite app_nil_r, drop_0, (insert_id V) by done; by rewrite insert_id]).
  - rewrite (rounds_step i) in Hf by lia. lia.
  - apply returns_mloop_go; [exact Hc|].
    destruct xs as [|[j p] xs]; [cbn in Hlt; lia|].
    destruct (qs_nonnull _ _ _ _ HQ Hb) as [_ Hnn]. apply Forall_cons in Hnn as [Hp _]. cbn in Hp.
    apply Forall_cons in Hall as [[x Hx] Hall]. cbn in Hx.
    unfold ps. rewrite rounds_step by lia. cbn [length map take Nat.sub drop snd] in *. rewrite Nat.sub_0_r in *.
    rewrite rounds_step in Hf by (cbn [length]; lia). cbn [length Nat.sub] in Hf. rewrite Nat.sub_0_r in Hf.
    clear ps. set (ps := take _ _).
    do 2 rstep. unfold qptr. do 2 rstep. eapply returns_mono; [by eapply (qs_pop (R := Q))|]. cbv beta.
    intros r s1 (h & -> & -> & HQ1). cbn [front map snd head_or List.hd tail] in *.
    rstep. rstep; [exact Hw|]. rstep. eapply returns_upd_pcb; [exact Hx|].
    destruct (Z.eqb_spec (pid wx) 0); [done|]. cbn [negb]. unfold to_ready, qptr. do 4 rstep.
    eapply returns_deref; [cbn; apply lookup_insert_eq|].
    rstep. set (s2 := put_pcb p _ (set_qst h s)).
    eapply returns_mono; [eapply (qs_add (R := Q) s2); [exact HQ1| |exact Hp]|].
    { cbn. rewrite lookup_insert_ne by done. exact Hr. }
    cbv beta. intros r s3 (h2 & -> & [[-> HQ2]|(_ & _ & E)]); [|by destruct (MT _ _ E)]. do 2 rstep.
    set (s4 := set_qst h2 _). cbn [pid set_pid] in HQ2.
    eapply returns_mono; [eapply (IH (i + 1) s4 _ xs (ys ++ [(pid wx, p)])
      (if decide (p = w) then set_pid (pid wx) x else wx))|]; try done.
    + cbn. rewrite lookup_insert_ne by congruence. by rewrite lookup_insert_eq.
    + cbn. by rewrite lookup_insert_eq.
    + cbn. destruct (decide (p = w)) as [->|]; [by rewrite lookup_insert_eq|by rewrite lookup_insert_ne].
    + by destruct (decide (p = w)).
    + lia.
    + eapply Forall_impl; [exact Hall|]. intros y [z Hz]. cbn.
      destruct (decide (p = y.2)) as [->|]; [by rewrite lookup_insert_eq|by rewrite lookup_insert_ne; eauto].
    + lia.
    + cbv beta. intros _ s' (h3 & n3 & -> & HQ3).
      assert (Ewp : pid (if decide (p = w) then set_pid (pid wx) x else wx) = pid wx) by (by destruct (decide (p = w))).
      rewrite Ewp in *. fold ps in HQ3 |- *. exists h3, n3. split.
      * unfold s4, s2. cbn [repid foldl]. assert (Ea : alter (set_pid (pid wx)) p (pcbs s) = <[p := set_pid (pid wx) x]> (pcbs s)).
        { apply map_eq. intros q. destruct (decide (p = q)) as [<-|].
          - by rewrite lookup_alter_eq, lookup_insert_eq, Hx.
          - by rewrite lookup_alter_ne, lookup_insert_ne. }
        rewrite Ea. by destruct s.
      * cbn in HQ3. rewrite (insert_insert_ne _ (blocked_q (gl s)) (ready_q (gl s))), !insert_insert_eq in HQ3 by done.
        by rewrite <- app_assoc in HQ3.
Qed.


End pipe_wake.

(** ** Pipe calls that go wrong *)

Section pipe_faults.
Context `{L : Libc} (fuel : nat).

Lemma pipe_queue_indet p x s : pipes s !! p = Some x -> pp_queue x = None -> pipe_queue p s = Fault FIndet.
Proof. intros Hx Hq. unfold pipe_queue, get_pipe_obj, bind, deref. rewrite Hx. cbn [obind]. by rewrite Hq. Qed.

Lemma pipe_block_indet p x code uctxt s : pipes s !! p = Some x -> pp_queue x = None ->
  is_Some (pcbs s !! active s) -> pipe_block p code uctxt s = Fault FIndet.
Proof.
  intros Hx Hq [ap Ha]. unfold pipe_block. rewrite bind_gets.
  rewrite (bind_exec _ _ _ _ _ (upd_pcb_ok _ _ _ _ Ha)). apply faults_before.
  by apply (pipe_queue_indet p x).
Qed.


(** On a pipe id that no pipe has, a read reports an error and changes
    nothing, while a write dereferences the null pointer the lookup returned. *)
Theorem unknown_pipe_id s head ps id buf len uctxt :
  prep (pipes s) head ps -> head_pipe (gl s) = head -> id ∉ map snd ps ->
  buf <> NULL -> 0 <= len <= PIPE_BUFFER_LEN -> 0 < id ->
  KernelPipeRead fuel id buf len uctxt s = Ret ERROR s /\
  (pipes s !! NULL = None -> KernelPipeWrite fuel id buf len uctxt s = Fault FNull).
Proof.
  intros Hp Hh Hni Hbuf Hlen Hid.
  assert (Hg : get_pipe (head_pipe (gl s)) id s = Ret NULL s).
  { rewrite Hh, (get_pipe_spec s head ps) by done. by rewrite pipe_addr_not_in. }
  split; [|intros Hnull].
  - unfold KernelPipeRead. destruct (Z.eqb_spec buf NULL); [done|].
    destruct (Z.ltb_spec len 0); [lia|]. destruct (Z.gtb_spec len PIPE_BUFFER_LEN); [lia|]. cbn [orb].
    by rewrite bind_gets, (bind_exec _ _ _ _ _ Hg).
  - unfold KernelPipeWrite. destruct (Z.leb_spec id 0); [lia|].
    destruct (Z.ltb_spec len 0); [lia|]. destruct (Z.gtb_spec len PIPE_BUFFER_LEN); [lia|]. cbn [orb].
    destruct (Z.eqb_spec buf NULL); [done|]. rewrite bind_gets, (bind_exec _ _ _ _ _ Hg).
    apply faults_before. destruct fuel; cbn [mwhile]; apply faults_before, faults_before;
      unfold get_pipe_obj, deref; by rewrite Hnull.
Qed.

End pipe_faults.

(** ** Witnesses *)

Lemma KernelDelay_blocks_witness :
  (5 = 0 -> KernelDelay (L := bump_libc) 5 1 ex_sched = Ret 0 ex_sched) /\
  (5 < 0 -> KernelDelay (L := bump_libc) 5 1 ex_sched = Ret ERROR ex_sched) /\
  (0 < 5 ->
    let x := set_kernel_stack_pt (ex_kstack 20) (set_pid 7 pcb_zero) in
    let x' := set_blocked_code BLOCKED_DELAY (set_clock_ticks 5 x) in
    switches (KernelDelay (L := bump_libc) 5 1) ex_sched (fun p t s1 k => p = 70 /\ t = 80 /\
      swapped (put_pcb 70 x' ex_sched) s1 70 80 50 x' ex_kt (ex_kstack 24) /\
      qstore (qst s1) (<[3 := [(7, 70)]]> (<[1 := []]> ex_sched_view)) /\
      forall t w, pcbs t !! activePCB (gl t) = Some w -> exists t', k t = Ret 0 t')).
Proof.
  apply (KernelDelay_blocks (L := bump_libc) (Q := qstore) ex_sched ex_sched_view 70 75 50
    (set_kernel_stack_pt (ex_kstack 20) (set_pid 7 pcb_zero)) (set_kernel_stack_pt (ex_kstack 22) pcb_zero)
    (set_kernel_context 80 (set_kernel_stack_pt (ex_kstack 24) (set_pid 8 pcb_zero)))
    [(8, 80)] ex_kt (mkPte 1 3 24) (mkPte 1 3 25) []).
  - exact bump_libc_total.
  - discriminate.
  - split; try reflexivity; try discriminate; [exact ex_sched_qstore|exact ex_sched_table].
  - reflexivity.
  - discriminate.
Defined.

(** The process of [ex_wait] with the head pipe, which holds two bytes, and the
    pipe with id 5102. *)
Definition ex_head : pipe := mkPipe ([65; 66] ++ replicate 254 0) 2 5101 11 PIPE_FREE None.
Definition ex_io : kstate :=
  set_pipes {[ 10 := ex_head; 11 := mkPipe zero_buf 0 5102 NULL PIPE_FREE (Some NULL) ]}
    (set_gl (set_head_pipe 10 (gl ex_wait)) ex_wait).

Lemma ex_io_prep : prep (pipes ex_io) 10 [(10, 5101); (11, 5102)].
Proof.
  split; [done|split].
  - cbn. by repeat (do 2 (split; [done|]); eexists; split; [reflexivity|]; split; [done|]).
  - cbn. repeat constructor.
Qed.

Lemma ex_io_memory : same_memory ex_wait ex_io.
Proof. split; [done|]. by intros []. Qed.

Lemma ex_io_access write n : Z.of_nat n <= PAGESIZE -> uaccess write ex_io VMEM_1_BASE n.
Proof. intros. apply (uaccess_same _ ex_wait); [exact ex_io_memory|by apply ex_wait_access]. Qed.

Lemma ex_io_unaliased n : Z.of_nat n <= PAGESIZE -> unaliased ex_io VMEM_1_BASE n.
Proof. intros. apply (unaliased_same ex_wait); [exact ex_io_memory|by apply ex_wait_unaliased]. Qed.

Lemma pipe_write_then_read_witness :
  returns (let! r1 := pipe_put 10 VMEM_1_BASE 3 in let! r2 := pipe_take 10 VMEM_1_BASE 4 in ret (r1, r2)) ex_io
    (fun r s' => r = (3, 4) /\ exists h x', s' = set_hw h (put_pipe 10 x' ex_io) /\ hw_mem_only (hw ex_io) h /\
      ubytes (set_hw h ex_io) VMEM_1_BASE 4 = [65; 66; 0; 0] /\ pipe_wf x' /\ contents x' = [0]).
Proof.
  apply (pipe_write_then_read ex_io 10 ex_head VMEM_1_BASE 3 VMEM_1_BASE 4).
  - reflexivity.
  - by split.
  - lia.
  - lia.
  - by apply ex_io_access.
  - by apply ex_io_access.
  - by apply ex_io_unaliased.
Defined.


Lemma unknown_pipe_id_witness :
  KernelPipeRead (L := bump_libc) 0 7 VMEM_1_BASE 4 1 ex_io = Ret ERROR ex_io /\
  (pipes ex_io !! NULL = None -> KernelPipeWrite (L := bump_libc) 0 7 VMEM_1_BASE 4 1 ex_io = Fault FNull).
Proof.
  apply (unknown_pipe_id (L := bump_libc) 0 ex_io 10 [(10, 5101); (11, 5102)] 7).
  - exact ex_io_prep.
  - reflexivity.
  - cbn. intros H. apply elem_of_cons in H as [|H]; [done|]. apply elem_of_cons in H as [|H]; [done|]. by apply elem_of_nil in H.
  - discriminate.
  - split; discriminate.
  - lia.
Defined.

(** Process 70 runs, 80 is ready; 75 (pid 5) waits for something else and 90 (pid
    9) for the pipe whose queue is 4. *)
Definition ex_wakers_q : qheap := mkQheap
  {[ 1 := mkQueue 0 1 2 2; 3 := mkQueue 0 2 5 6; 4 := mkQueue 0 1 7 7 ]}
  {[ 2 := mkQnode 8 80 NULL; 5 := mkQnode 5 75 6; 6 := mkQnode 9 90 NULL; 7 := mkQnode 9 90 NULL ]}.
Definition ex_wakers_view : gmap Z (list (Z * Z)) := {[ 1 := [(8, 80)]; 3 := [(5, 75); (9, 90)]; 4 := [(9, 90)] ]}.
Definition ex_wakers : kstate :=
  set_pcbs {[ 70 := set_pid 7 pcb_zero; 80 := set_pid 8 pcb_zero; 75 := set_pid 5 pcb_zero; 90 := set_pid 9 pcb_zero ]}
    (set_qst ex_wakers_q (set_gl (set_activePCB 70 (set_ready_q 1 (set_blocked_q 3 init_glob))) init_state)).

