(* ===== verification/SyscallsSync.v ===== *)
(** * Synchronisation system calls ([syscalls.c], lines 936-1105)

    Locks, condition variables and [Reclaim]. *)

From Stdlib Require Import ZArith Lia.
From stdpp Require Import base gmap list.
From S2P Require Import Prelude Hardware State Logic KList KQueue KPipe Memory Frames Process ContextSwitch Sched Boot SyscallsProc SyscallsIO.

Open Scope Z_scope.

(** ** The operations *)

Section sync_calls.
Context `{L : Libc} (fuel : nat).

(** [*lock_idp] is stored through before it is compared with [NULL]. *)
Definition KernelLockInit (lock_idp : Z) : M Z :=
  let! ll := gets (fun s => lock_list (gl s)) in
  let! l := get_list ll in
  if l_size l =? 0 then
    (if lock_idp =? NULL then raise FNull else store_int lock_idp (-1)) ;;
    ret ERROR
  else if lock_idp =? NULL then ret ERROR else
  let! id := list_pop ll in
  store_int lock_idp id ;;
  let! id := load_int lock_idp in
  arr_set lock_status set_lock_status id FREE_LOCK ;;
  ret SUCCESS.

Definition lock_stat (id : Z) : M Z := arr_get (fun s => lock_status (gl s)) id.
Definition cvar_stat (id : Z) : M Z := arr_get (fun s => cvar_status (gl s)) id.

Definition KernelAcquire (lock_id uctxt : Z) : M Z :=
  if (lock_id <? 0) || (lock_id >? MAX_LOCKS) || (uctxt =? NULL) then ret ERROR else
  let! st := lock_stat lock_id in
  if st =? UNUSED_LOCK then ret ERROR else
  let! a := gets active in
  let! ap := get_pcb a in
  if u32 st =? pid ap then ret ERROR else
  (if negb (st =? FREE_LOCK) then
     upd_pcb a (set_blocked_code BLOCKED_LOCK_ACQUIRE) ;;
     let! q := arr_get (fun s => lockAquireQueues (gl s)) lock_id in
     SwapProcess q uctxt ;;
     let! a := gets active in
     upd_pcb a (set_blocked_code NOT_BLOCKED)
   else ret tt) ;;
  let! a := gets active in
  let! ap := get_pcb a in
  arr_set lock_status set_lock_status lock_id (i32 (pid ap)) ;;
  ret SUCCESS.

Definition KernelRelease (lock_id : Z) : M Z :=
  if (lock_id <? 0) || (lock_id >? MAX_LOCKS) then ret ERROR else
  let! st := lock_stat lock_id in
  let! a := gets active in
  let! ap := get_pcb a in
  if negb (u32 st =? pid ap) || (st =? UNUSED_LOCK) then ret ERROR else
  arr_set lock_status set_lock_status lock_id FREE_LOCK ;;
  let! q := arr_get (fun s => lockAquireQueues (gl s)) lock_id in
  let! n := size_of q in
  (if n >? 0 then let! next := queue_pop q in to_ready next else ret tt) ;;
  ret SUCCESS.

Definition KernelCvarInit (cvar_idp : Z) : M Z :=
  if cvar_idp =? NULL then ret ERROR else
  let! cl := gets (fun s => cvar_list (gl s)) in
  let! l := get_list cl in
  if l_size l =? 0 then store_int cvar_idp ERROR ;; ret ERROR else
  let! id := list_pop cl in
  store_int cvar_idp id ;;
  let! id := load_int cvar_idp in
  arr_set cvar_status set_cvar_status (id - MAX_LOCKS) USED_CVAR ;;
  ret SUCCESS.

(** The guard of [KernelCvarSignal] and [KernelCvarBroadcast]. *)
Definition cvar_unusable (cvar_idp uctxt : Z) : M bool :=
  if (cvar_idp <? 0) || (uctxt =? NULL) then ret true else
  let! st := cvar_stat (cvar_idp - MAX_LOCKS) in
  ret (st =? UNUSED_CVAR).

Definition KernelCvarSignal (cvar_idp uctxt : Z) : M Z :=
  let! bad := cvar_unusable cvar_idp uctxt in
  if bad then ret ERROR else
  let! q := arr_get (fun s => cvarWaitQueues (gl s)) (cvar_idp - MAX_LOCKS) in
  let! n := size_of q in
  (if n >? 0 then let! receiver := queue_pop q in to_ready receiver else ret tt) ;;
  ret SUCCESS.

(** [while ((receiver = queue_pop(q)) != NULL)] *)
Fixpoint broadcast_loop (n : nat) (q : Z) : M unit :=
  let! receiver := queue_pop q in
  if receiver =? NULL then ret tt else
  match n with
  | O => raise FFuel
  | S n' => to_ready receiver ;; broadcast_loop n' q
  end.

Definition KernelCvarBroadcast (cvar_idp uctxt : Z) : M Z :=
  let! bad := cvar_unusable cvar_idp uctxt in
  if bad then ret ERROR else
  let! q := arr_get (fun s => cvarWaitQueues (gl s)) (cvar_idp - MAX_LOCKS) in
  broadcast_loop fuel q ;;
  ret SUCCESS.

Definition KernelCvarWait (cvar_idp lock_id uctxt : Z) : M Z :=
  if cvar_idp <? 0 then ret ERROR else
  let! st := cvar_stat (cvar_idp - MAX_LOCKS) in
  if st =? UNUSED_CVAR then ret ERROR else
  if lock_id <? 0 then ret ERROR else
  let! st := lock_stat lock_id in
  if (st =? UNUSED_LOCK) || (uctxt =? NULL) then ret ERROR else
  let! r := KernelRelease lock_id in
  if r =? ERROR then ret ERROR else
  let! q := arr_get (fun s => cvarWaitQueues (gl s)) (cvar_idp - MAX_LOCKS) in
  SwapProcess q uctxt ;;
  KernelAcquire lock_id uctxt.

(** A negative id is only reported, not refused. *)
Definition KernelReclaim (id : Z) : M Z :=
  if id <=? MAX_LOCKS then
    let! ll := gets (fun s => lock_list (gl s)) in
    let! r := list_add ll id in
    if r =? ERROR then ret ERROR else ret 0
  else if id <=? MAX_CVARS + MAX_LOCKS then
    let! cl := gets (fun s => cvar_list (gl s)) in
    let! r := list_add cl id in
    if r =? ERROR then ret ERROR else ret 0
  else
    let! hp := gets (fun s => head_pipe (gl s)) in
    let! r := remove_pipe hp id in
    if r =? ERROR then ret ERROR else ret 0.

End sync_calls.

(** ** The first condition variable *)

Section cvar_init.
Context `{L : Libc} {R : lheap -> gmap Z (list Z) -> Prop} {LS : ListStore L R}.

(** C32: the ids of condition variables are [MAX_LOCKS + 1] to [MAX_LOCKS +
    MAX_CVARS], and [CvarInit] stores the state of the variable [id] at [id -
    MAX_LOCKS]: the greatest id, which is the first one handed out, goes beyond
    the end of the array. *)
Theorem first_cvar_out_of_bounds s V a ids :
  R (lst s) V -> V !! cvar_list (gl s) = Some (MAX_LOCKS + MAX_CVARS :: ids) ->
  length (cvar_status (gl s)) = Z.to_nat MAX_CVARS -> a <> NULL ->
  uaccess true s a 4 -> uaccess false s a 4 -> unaliased s a 4 ->
  KernelCvarInit a s = Fault FOob.
Proof.
  intros HR Hl Hc Ha Hw Hrd Hun. unfold KernelCvarInit. destruct (Z.eqb_spec a NULL); [done|].
  destruct (ls_size _ _ _ _ HR Hl) as (k & Ek & Hk).
  rewrite bind_gets. unfold get_list. rewrite (bind_exec _ _ _ _ _ (deref_ok _ _ _ _ Ek)), Hk.
  destruct (Z.eqb_spec (Z.of_nat (length (MAX_LOCKS + MAX_CVARS :: ids))) 0); [done|].
  apply faults_after. eapply returns_mono; [by eapply (ls_pop (R := R))|]. cbv beta.
  intros r s1 (h & -> & -> & _). cbn [head_or List.hd].
  assert (Hs : same_memory s (set_lst h s)) by (split; [done|]; by intros []).
  apply faults_after. eapply returns_mono; [apply store_int_spec|].
  { by apply (uaccess_same _ s). }
  { by apply (unaliased_same s). }
  cbv beta. intros _ s2 (h2 & -> & Hm & Hb).
  apply faults_after. unfold load_int. rstep. eapply returns_mono; [apply read_bytes_spec|].
  { apply uaccess_mem_only; [done|]. by apply (uaccess_same _ s). }
  cbv beta. intros bs s3 (h3 & -> & _ & _ & ->). rstep. rewrite Hb.
  apply faults_before. unfold arr_set. rewrite bind_gets. apply faults_before.
  cbn [gl set_hw set_lst]. unfold zset. rewrite bool_decide_false; [done|]. rewrite Hc. vm_compute. by intros [_ ?].
Qed.

End cvar_init.

(** ** Witnesses *)

(** The process of [ex_wait] with the condition variables of ids 5100 and 5099 free. *)
Definition ex_cvars : lheap := mkLheap
  {[ 1 := mkList 2 3 2 ]} {[ 2 := mkLnode 5099 3 NULL; 3 := mkLnode 5100 NULL 2 ]}.
Definition ex_cvar_state : kstate := set_lst ex_cvars (set_gl (set_cvar_list 1 (gl ex_wait)) ex_wait).

Lemma ex_cvar_memory : same_memory ex_wait ex_cvar_state.
Proof. split; [done|]. by intros []. Qed.

Lemma ex_cvars_lstore : lstore ex_cvars {[ 1 := [5100; 5099] ]}.
Proof.
  exists {[ 1 := [3; 2] ]}. split; [|split].
  - intros a b na nb n Hab [<- <-]%lookup_singleton_Some [<- <-]%lookup_singleton_Some. done.
  - by rewrite !dom_singleton_L.
  - intros a x [<- <-]%lookup_singleton_Some. split; [done|]. exists [3; 2].
    split; [apply lookup_singleton_eq|]. split; [done|]. split; [|repeat constructor; set_solver].
    cbn. split; [done|]. split; [done|]. eexists _, _. split; [reflexivity|].
    split; [done|]. split; [done|]. eexists _, _. by split.
Qed.

Lemma first_cvar_out_of_bounds_witness : KernelCvarInit VMEM_1_BASE ex_cvar_state = Fault FOob.
Proof.
  apply (first_cvar_out_of_bounds (L := bump_libc) (R := lstore) ex_cvar_state {[ 1 := [5100; 5099] ]}
    VMEM_1_BASE [5099]).
  - exact ex_cvars_lstore.
  - reflexivity.
  - reflexivity.
  - discriminate.
  - apply (uaccess_same _ ex_wait); [exact ex_cvar_memory|by apply ex_wait_access].
  - apply (uaccess_same _ ex_wait); [exact ex_cvar_memory|by apply ex_wait_access].
  - apply (unaliased_same ex_wait); [exact ex_cvar_memory|by apply ex_wait_unaliased].
Defined.
