(* ===== verification/Traps.v ===== *)
(** * Trap handlers ([traphandlers.c])

    The dispatch of kernel calls, the clock, the exceptions and the terminals. *)

From Stdlib Require Import ZArith Lia.
From stdpp Require Import base gmap list.
From S2P Require Import Prelude Hardware State Logic KList KQueue KPipe Memory Frames Process ContextSwitch Sched LoadProgram Boot SyscallsProc SyscallsIO SyscallsSync.

Open Scope Z_scope.

(** ** The handlers *)

Section traps.
Context `{L : Libc} `{FS : FileSystem} (fuel : nat).

(** [regs[i]] of the trap's user context. *)
Definition reg (uctxt i : Z) : M Z :=
  let! u := get_uc uctxt in in_bounds (zget (uc_regs u) i).

(** [regs[0] = (u_long) v] *)
Definition set_reg0 (uctxt v : Z) : M unit :=
  let! u := get_uc uctxt in
  let! r := in_bounds (zset 0 (u32 v) (uc_regs u)) in
  upd_uc uctxt (uc_set_regs r).

Definition call0 (uctxt : Z) (f : M Z) : M unit := let! r := f in set_reg0 uctxt r.
Definition call1 (uctxt : Z) (f : Z -> M Z) : M unit :=
  let! r0 := reg uctxt 0 in let! r := f r0 in set_reg0 uctxt r.
Definition call2 (uctxt : Z) (f : Z -> Z -> M Z) : M unit :=
  let! r0 := reg uctxt 0 in let! r1 := reg uctxt 1 in let! r := f r0 r1 in set_reg0 uctxt r.
Definition call3 (uctxt : Z) (f : Z -> Z -> Z -> M Z) : M unit :=
  let! r0 := reg uctxt 0 in let! r1 := reg uctxt 1 in let! r2 := reg uctxt 2 in
  let! r := f r0 r1 r2 in set_reg0 uctxt r.

Definition trap_exec (uctxt : Z) : M unit :=
  call2 uctxt (fun name args => KernelExec uctxt name args) ;;
  let! r0 := reg uctxt 0 in
  if negb (r0 =? u32 ERROR) then
    let! a := gets active in
    let! ap := get_pcb a in
    upd_uc uctxt (uc_set_sp (uc_sp (user_context ap))) ;;
    upd_uc uctxt (uc_set_pc (uc_pc (user_context ap)))
  else
    KernelExit ERROR uctxt ;; ret tt.

Definition TrapKernelHandler (uctxt : Z) : M unit :=
  let! u := get_uc uctxt in
  let code := u32 (uc_code u) in
  if code =? YALNIX_FORK then call0 uctxt (KernelFork uctxt)
  else if code =? YALNIX_EXEC then trap_exec uctxt
  else if code =? YALNIX_EXIT then
    let! r0 := reg uctxt 0 in KernelExit (i32 r0) uctxt ;; ret tt
  else if code =? YALNIX_WAIT then call1 uctxt (fun p => KernelWait p uctxt)
  else if code =? YALNIX_GETPID then call0 uctxt KernelGetPid
  else if code =? YALNIX_BRK then call1 uctxt KernelBrk
  else if code =? YALNIX_DELAY then call1 uctxt (fun t => KernelDelay (i32 t) uctxt)
  else if code =? YALNIX_TTY_READ then
    call3 uctxt (fun t b n => KernelTtyRead uctxt (i32 t) b (i32 n))
  else if code =? YALNIX_TTY_WRITE then
    call3 uctxt (fun t b n => KernelTtyWrite fuel uctxt (i32 t) b (i32 n))
  else if code =? YALNIX_PIPE_INIT then call1 uctxt KernelPipeInit
  else if code =? YALNIX_PIPE_READ then
    call3 uctxt (fun i b n => KernelPipeRead fuel (i32 i) b (i32 n) uctxt)
  else if code =? YALNIX_PIPE_WRITE then
    call3 uctxt (fun i b n => KernelPipeWrite fuel (i32 i) b (i32 n) uctxt)
  else if code =? YALNIX_CVAR_INIT then call1 uctxt KernelCvarInit
  else if code =? YALNIX_CVAR_SIGNAL then call1 uctxt (fun c => KernelCvarSignal (i32 c) uctxt)
  else if code =? YALNIX_CVAR_BROADCAST then
    call1 uctxt (fun c => KernelCvarBroadcast fuel (i32 c) uctxt)
  else if code =? YALNIX_CVAR_WAIT then
    call2 uctxt (fun c l => KernelCvarWait (i32 c) (i32 l) uctxt)
  else if code =? YALNIX_LOCK_INIT then call1 uctxt KernelLockInit
  else if code =? YALNIX_LOCK_ACQUIRE then call1 uctxt (fun l => KernelAcquire (i32 l) uctxt)
  else if code =? YALNIX_LOCK_RELEASE then call1 uctxt (fun l => KernelRelease (i32 l))
  else if code =? YALNIX_RECLAIM then call1 uctxt (fun i => KernelReclaim (i32 i))
  else ret tt.

(** One process off the blocked queue and onto the queue it belongs to. *)
Definition wake_step (_ : Z) : M unit :=
  let! bq := qptr blocked_q in
  let! p := queue_pop bq in
  if negb (p =? NULL) then
    let! q := CheckBlocked p in
    let! x := get_pcb p in
    queue_add q p (pid x) ;; ret tt
  else ret tt.

(** The loop of the clock handler. *)
Definition wake_blocked : M unit :=
  let! bq := qptr blocked_q in
  let! limit := size_of bq in
  mfor (zseq 0 limit) wake_step.

Definition TrapClockHandler (ctx : Z) : M unit :=
  upd_gl (fun g => set_global_clock_ticks (global_clock_ticks g + 1) g) ;;
  let! rq := qptr ready_q in
  SwapProcess rq ctx ;;
  wake_blocked.

(** [TrapIllegalHandler] and [TrapMathHandler] are the same code. *)
Definition TrapIllegalHandler (ctx : Z) : M unit :=
  let! a := gets active in
  if a =? NULL then ret tt else
  upd_pcb a (set_exit_code ERROR) ;;
  let! dq := qptr defunct_q in
  SwapProcess dq ctx ;; ret tt.

Definition TrapMathHandler (ctx : Z) : M unit :=
  let! a := gets active in
  if a =? NULL then ret tt else
  upd_pcb a (set_exit_code ERROR) ;;
  let! dq := qptr defunct_q in
  SwapProcess dq ctx ;; ret tt.

(** The table is indexed with [target] before [target < 0] is tested. *)
Definition TrapMemoryHandler (ctx : Z) : M unit :=
  if ctx =? NULL then KernelExit ERROR ctx ;; ret tt else
  let! a := gets active in
  if a =? NULL then KernelExit ERROR ctx ;; ret tt else
  let user_page_base := Z.shiftr VMEM_1_BASE PAGESHIFT in
  let! ap := get_pcb a in
  let stack_index := user_stack_pt_index ap in
  let! u := get_uc ctx in
  let target := Z.shiftr (DOWN_TO_PAGE (uc_addr u)) PAGESHIFT - user_page_base in
  let! e := pt_get (PtUser a) target in
  if (valid e =? VALID_FRAME) || (target <? 0) then KernelExit ERROR ctx ;; ret tt else
  let! _ := mfor_ret (zseq target stack_index) (fun i =>
    let! e := pt_get (PtUser a) i in
    if valid e =? INVALID_FRAME then
      let! pfn := AllocatePFN in
      if pfn =? ERROR then ret (Some tt) else
      pt_upd (PtUser a) i (set_prot NO_X_W_R) ;;
      pt_upd (PtUser a) i (set_pfn pfn) ;;
      pt_upd (PtUser a) i (set_valid VALID_FRAME) ;;
      ret None
    else ret None) in
  ret tt.

(** [input] is what the device delivers to [TtyReceive], at most a line of
    [TERMINAL_MAX_LINE] bytes. *)
Definition TrapTTYReceiveHandler (input : list Z) (ctx : Z) : M unit :=
  let! u := get_uc ctx in
  let tty_id := i32 (uc_code u) in
  let! ttyBuffer := arr_get (fun s => ttyReadbuffers (gl s)) tty_id in
  let! ttyQueue := arr_get (fun s => ttyReadQueues (gl s)) tty_id in
  let bytes := Z.of_nat (length input) in
  let! track := arr_get (fun s => ttyReadTrackers (gl s)) tty_id in
  let to_copy := if TERMINAL_MAX_LINE - track <? bytes then TERMINAL_MAX_LINE - track else bytes in
  let! content := get_buf ttyBuffer in
  let! content' := in_bounds (splice content track (take (Z.to_nat to_copy) input)) in
  modify (put_buf ttyBuffer content') ;;
  arr_set ttyReadTrackers set_ttyReadTrackers tty_id (track + to_copy) ;;
  let! n := size_of ttyQueue in
  if n >? 0 then
    let! next := queue_pop ttyQueue in
    upd_pcb next (set_blocked_code NOT_BLOCKED) ;;
    to_ready next
  else ret tt.

Definition TrapTTYTransmitHandler (ctx : Z) : M unit :=
  let! u := get_uc ctx in
  let tty_id := i32 (uc_code u) in
  arr_set ttyWriteTrackers set_ttyWriteTrackers tty_id TERMINAL_OPEN ;;
  let! ttyQueue := arr_get (fun s => ttyWriteQueues (gl s)) tty_id in
  let! p := queue_peek ttyQueue in
  let! n := size_of ttyQueue in
  if n >? 0 then
    let! a := gets active in
    let! ap := get_pcb a in
    let! pp := get_pcb p in
    if negb (pid ap =? pid pp) then
      let! q := CheckBlocked p in
      let! pp := get_pcb p in
      queue_add q p (pid pp) ;; ret tt
    else ret tt
  else ret tt.

Definition TrapDiskHandler (ctx : Z) : M unit := ret tt.

End traps.

(** ** The clock's pass over the blocked queue *)

(** The processes after the pass, those that stay blocked, and those made ready. *)
Fixpoint wake_spec (trackers : list Z) (m : gmap Z pcb) (xs : list (Z * Z)) :
    gmap Z pcb * list (Z * Z) * list (Z * Z) :=
  match xs with
  | [] => (m, [], [])
  | (_, p) :: xs' =>
      match m !! p with
      | None => (m, [], [])
      | Some x =>
          let '(v, x') := check_verdict trackers x in
          let '(m', st, rd) := wake_spec trackers (<[p := x']> m) xs' in
          match v with
          | ToReady => (m', st, (pid x, p) :: rd)
          | Stays => (m', (pid x, p) :: st, rd)
          | Dropped => (m', st, rd)
          end
      end
  end.

Lemma check_verdict_pid trk x : pid (check_verdict trk x).2 = pid x.
Proof. unfold check_verdict. by repeat case_on. Qed.

Lemma check_verdict_like trk x : same_kernel x (check_verdict trk x).2.
Proof. unfold check_verdict. by repeat case_on. Qed.

Lemma check_verdict_tty s x : tty_ok s x -> tty_ok s (check_verdict (ttyWriteTrackers (gl s)) x).2.
Proof.
  intros Ht. unfold check_verdict.
  destruct (Z.eqb_spec (blocked_code x) BLOCKED_DELAY) as [E|].
  - destruct (clock_ticks x >? 0); cbn [snd]; intros H; cbn in H; [rewrite E in H|]; done.
  - destruct (blocked_code x =? BLOCKED_TTY_TRANSMIT); cbn [snd]; [|done].
    case_on; [by intros [=]|done].
Qed.

Section clock.
Context `{L : Libc} {Q : qheap -> gmap Z (list (Z * Z)) -> Prop} {QS : QueueStore L Q}.

Lemma queue_add_null p i s : queue_add NULL p i s = Ret ERROR s.
Proof. done. Qed.

(** One process moved by the loop. *)
Lemma wake_step_spec s V i p x todo ys n :
  MallocTotal L -> Q (qst s) V -> p <> NULL -> pcbs s !! p = Some x -> tty_ok s x ->
  V !! blocked_q (gl s) = Some ((i, p) :: todo) -> V !! ready_q (gl s) = Some ys ->
  blocked_q (gl s) <> ready_q (gl s) ->
  let '(v, x') := check_verdict (ttyWriteTrackers (gl s)) x in
  returns (wake_step n) s (fun _ s' => exists h k, s' = put_pcb p x' (set_qst h (set_mtick k s)) /\
    Q h (<[ready_q (gl s) := match v with ToReady => ys ++ [(pid x, p)] | _ => ys end]>
        (<[blocked_q (gl s) := match v with Stays => todo ++ [(pid x, p)] | _ => todo end]> V))).
Proof.
  intros MT HQ Hp Ex Ht Hb Hr Hne.
  destruct (check_verdict (ttyWriteTrackers (gl s)) x) as [v x'] eqn:Ec.
  pose proof (check_verdict_pid (ttyWriteTrackers (gl s)) x) as Hpid. rewrite Ec in Hpid. cbn in Hpid.
  unfold wake_step, qptr. rstep. rstep. rstep.
  eapply returns_mono; [by eapply (qs_pop (R := Q))|]. cbv beta. intros r s1 (h & -> & -> & HQ1).
  cbn [front map snd head_or List.hd tail] in *. destruct (Z.eqb_spec p NULL); [done|]. cbn [negb].
  rstep. eapply returns_exec.
  { pose proof (CheckBlocked_spec (set_qst h s) p x Hp Ex Ht) as H. cbn [gl set_qst] in H.
    rewrite Ec in H. exact H. }
  set (s2 := put_pcb p x' (set_qst h s)).
  rstep. eapply returns_deref; [cbn; apply lookup_insert_eq|]. rstep. rewrite Hpid.
  assert (Hb1 : (<[blocked_q (gl s) := todo]> V) !! blocked_q (gl s) = Some todo) by apply lookup_insert_eq.
  assert (Hr1 : (<[blocked_q (gl s) := todo]> V) !! ready_q (gl s) = Some ys) by (by rewrite lookup_insert_ne).
  destruct v; cbn [verdict_queue].
  - eapply returns_mono; [eapply (qs_add (R := Q) s2); [exact HQ1|exact Hr1|done]|]. cbv beta.
    intros r s' (h2 & -> & [[-> HQ2]|(_ & _ & E)]); [|by destruct (MT _ _ E)]. rstep.
    exists h2, (S (mtick s)). split; [by destruct s|]. exact HQ2.
  - eapply returns_mono; [eapply (qs_add (R := Q) s2); [exact HQ1|exact Hb1|done]|]. cbv beta.
    intros r s' (h2 & -> & [[-> HQ2]|(_ & _ & E)]); [|by destruct (MT _ _ E)]. rstep.
    exists h2, (S (mtick s)). split; [by destruct s|]. rewrite insert_insert_eq in HQ2.
    rewrite insert_id; [done|]. by rewrite lookup_insert_ne.
  - eapply returns_exec; [apply queue_add_null|]. rstep. exists h, (mtick s).
    split; [by destruct s|]. rewrite insert_id; [done|]. by rewrite lookup_insert_ne.
Qed.

Lemma wake_loop todo : forall st s V ys k,
  MallocTotal L -> Q (qst s) V ->
  V !! blocked_q (gl s) = Some (todo ++ st) -> V !! ready_q (gl s) = Some ys ->
  blocked_q (gl s) <> ready_q (gl s) ->
  (forall i p, (i, p) ∈ todo -> exists x, pcbs s !! p = Some x /\ tty_ok s x) ->
  returns (mfor (zrange k (length todo)) wake_step) s (fun _ s' =>
    let '(m', st', rd) := wake_spec (ttyWriteTrackers (gl s)) (pcbs s) todo in
    exists h n, s' = set_pcbs m' (set_qst h (set_mtick n s)) /\
      Q h (<[ready_q (gl s) := ys ++ rd]> (<[blocked_q (gl s) := st ++ st']> V))).
Proof.
  induction todo as [|[i p] todo IH]; intros st s V ys k MT HQ Hb Hr Hne Hall.
  - cbn. exists (qst s), (mtick s). split; [by destruct s|]. rewrite !app_nil_r.
    rewrite (insert_id V); [|done]. by rewrite insert_id.
  - destruct (Hall i p) as (x & Ex & Ht); [by left|].
    destruct (qs_nonnull _ _ _ _ HQ Hb) as [_ Hnn]. apply Forall_cons in Hnn as [Hp _]. cbn in Hp.
    cbn [length zrange mfor wake_spec]. rewrite Ex.
    pose proof (wake_step_spec s V i p x (todo ++ st) ys k MT HQ Hp Ex Ht Hb Hr Hne) as Hstep.
    pose proof (check_verdict_tty s x Ht) as Ht'.
    destruct (check_verdict (ttyWriteTrackers (gl s)) x) as [v x'] eqn:Ec. cbn [snd] in Ht'.
    rstep. eapply returns_mono; [exact Hstep|]. cbv beta. intros _ s1 (h & n & -> & HQ1).
    set (st1 := match v with Stays => st ++ [(pid x, p)] | _ => st end).
    set (ys1 := match v with ToReady => ys ++ [(pid x, p)] | _ => ys end).
    eapply returns_mono; [eapply (IH st1 (put_pcb p x' (set_qst h (set_mtick n s))) _ ys1 (k + 1) MT HQ1)|].
    + cbn. rewrite lookup_insert_ne by congruence. rewrite lookup_insert_eq. f_equal.
      unfold st1. destruct v; [done|by rewrite app_assoc|done].
    + cbn. by rewrite lookup_insert_eq.
    + done.
    + intros j q Hq. destruct (Hall j q) as (y & Ey & Hy); [by right|].
      destruct (decide (q = p)) as [->|].
      * exists x'. split; [apply lookup_insert_eq|]. exact Ht'.
      * exists y. split; [|done]. cbn. by rewrite lookup_insert_ne.
    + cbv beta. intros _ s'. cbn [gl pcbs put_pcb set_pcbs set_qst set_mtick].
      destruct (wake_spec _ (<[p := x']> (pcbs s)) todo) as [[m' st'] rd].
      intros (h2 & n2 & -> & HQ2).
      rewrite (insert_insert_ne _ (blocked_q (gl s)) (ready_q (gl s))), !insert_insert_eq in HQ2 by done.
      destruct v; exists h2, n2; (split; [by destruct s|]); unfold ys1, st1 in HQ2;
        rewrite <- ?app_assoc in HQ2; exact HQ2.
Qed.

Lemma wake_blocked_spec s V xs ys :
  MallocTotal L -> Q (qst s) V ->
  V !! blocked_q (gl s) = Some xs -> V !! ready_q (gl s) = Some ys ->
  blocked_q (gl s) <> ready_q (gl s) ->
  (forall i p, (i, p) ∈ xs -> exists x, pcbs s !! p = Some x /\ tty_ok s x) ->
  returns wake_blocked s (fun _ s' =>
    let '(m', st, rd) := wake_spec (ttyWriteTrackers (gl s)) (pcbs s) xs in
    exists h n, s' = set_pcbs m' (set_qst h (set_mtick n s)) /\
      Q h (<[ready_q (gl s) := ys ++ rd]> (<[blocked_q (gl s) := st]> V))).
Proof.
  intros MT HQ Hb Hr Hne Hall. unfold wake_blocked, qptr, size_of, get_queue. rstep. rstep. rstep. rstep.
  destruct (qs_size _ _ _ _ HQ Hb) as (k & Ek & Hk). eapply returns_deref; [exact Ek|]. rstep.
  rewrite Hk. unfold zseq. rewrite Z.sub_0_r, Nat2Z.id.
  apply (wake_loop xs [] s V ys 0); try done. by rewrite app_nil_r.
Qed.

(** *** How long a delay takes *)

Lemma wake_spec_facts trk xs : forall m, NoDup xs.*2 -> (forall p, p ∈ xs.*2 -> is_Some (m !! p)) ->
  let '(m', st, rd) := wake_spec trk m xs in
  NoDup st.*2 /\ (forall p, p ∈ st.*2 -> p ∈ xs.*2) /\ (forall p, p ∉ xs.*2 -> m' !! p = m !! p) /\
  (forall p x, p ∈ xs.*2 -> m !! p = Some x -> let '(v, x') := check_verdict trk x in m' !! p = Some x' /\
    (v = Stays -> p ∈ st.*2) /\ (v = ToReady -> p ∈ rd.*2)).
Proof.
  induction xs as [|[i q] xs IH]; intros m Hnd Hall; cbn [wake_spec fmap list_fmap snd] in *.
  - split; [done|]. split; [done|]. split; [done|]. by intros p x ?%not_elem_of_nil.
  - apply NoDup_cons in Hnd as [Hq Hnd]. destruct (Hall q) as [y Hy]; [by left|]. rewrite Hy.
    destruct (check_verdict trk y) as [v y'] eqn:Ey.
    specialize (IH (<[q := y']> m) Hnd).
    destruct (wake_spec trk (<[q := y']> m) xs) as [[m' st] rd].
    destruct IH as (H1 & H2 & H3 & H4).
    { intros p Hp. destruct (decide (p = q)) as [->|]; [rewrite lookup_insert_eq; by eexists|].
      rewrite lookup_insert_ne by done. apply Hall. by right. }
    assert (Hq' : m' !! q = Some y') by (rewrite H3 by done; apply lookup_insert_eq).
    assert (Hrest : forall p x, p ∈ xs.*2 -> m !! p = Some x -> <[q := y']> m !! p = Some x).
    { intros p x Hp Hx. rewrite lookup_insert_ne; [done|]. by intros ->. }
    assert (Hout : forall p, p ∉ q :: xs.*2 -> m' !! p = m !! p).
    { intros p Hp. rewrite not_elem_of_cons in Hp. destruct Hp as [Hpq Hp]. rewrite H3 by done. by rewrite lookup_insert_ne. }
    destruct v; cbn [fmap list_fmap snd]; (split; [first [done|apply NoDup_cons; split; [intros ?%H2; done|done]]|]);
      (split; [intros p; rewrite ?elem_of_cons; intros Hp; first [by right; apply H2|destruct Hp as [->|Hp]; [by left|right; by apply H2]]|]);
      (split; [done|]); intros p x [->|Hp]%elem_of_cons Hx.
    all: try (rewrite Hy in Hx; injection Hx as <-; rewrite Ey; split; [done|]; split; intros E; done || (by left)).
    all: pose proof (H4 p x Hp (Hrest p x Hp Hx)) as H5; destruct (check_verdict trk x) as [w x'];
      destruct H5 as (E & E1 & E2); (split; [done|]); (split; intros Ew; try (right)); auto.
Qed.

(** [k] passes over the blocked queue, one after the other. *)
Fixpoint passes (k : nat) : M unit :=
  match k with O => ret tt | S k' => wake_blocked ;; passes k' end.

(** C16: the clock handler's pass over the blocked queue moves exactly the
    processes whose delay has run out or whose terminal is open to the end of the
    ready queue, in order, keeps the others blocked, in order, after counting
    down their delays, and forgets those waiting for a terminal that is still
    transmitting. *)
Theorem wake_blocked_correct s V xs ys :
  MallocTotal L -> Q (qst s) V ->
  V !! blocked_q (gl s) = Some xs -> V !! ready_q (gl s) = Some ys ->
  blocked_q (gl s) <> ready_q (gl s) ->
  (forall i p, (i, p) ∈ xs -> exists x, pcbs s !! p = Some x /\ tty_ok s x) ->
  returns wake_blocked s (fun _ s' =>
    let '(m', st, rd) := wake_spec (ttyWriteTrackers (gl s)) (pcbs s) xs in
    exists h n, s' = set_pcbs m' (set_qst h (set_mtick n s)) /\
      Q h (<[ready_q (gl s) := ys ++ rd]> (<[blocked_q (gl s) := st]> V))).
Proof. apply wake_blocked_spec. Qed.

(** The two queues of the clock handler: each blocked process is there once. *)
Record waiting (s : kstate) (V : gmap Z (list (Z * Z))) (xs ys : list (Z * Z)) : Prop := {
  wt_store : Q (qst s) V;
  wt_blocked : V !! blocked_q (gl s) = Some xs;
  wt_ready : V !! ready_q (gl s) = Some ys;
  wt_distinct : blocked_q (gl s) <> ready_q (gl s);
  wt_once : NoDup xs.*2;
  wt_pcbs : forall p, p ∈ xs.*2 -> exists x, pcbs s !! p = Some x /\ tty_ok s x }.

Lemma pass_waiting s V xs ys : MallocTotal L -> waiting s V xs ys ->
  returns wake_blocked s (fun _ s' => exists V' st rd, waiting s' V' st (ys ++ rd) /\
    (exists m h n, s' = set_pcbs m (set_qst h (set_mtick n s)) /\
      forall p z, pcbs s !! p = Some z -> exists z', m !! p = Some z' /\ same_kernel z z') /\
    forall p x, p ∈ xs.*2 -> pcbs s !! p = Some x -> let '(v, x') := check_verdict (ttyWriteTrackers (gl s)) x in
      pcbs s' !! p = Some x' /\ (v = Stays -> p ∈ st.*2) /\ (v = ToReady -> p ∈ rd.*2)).
Proof.
  intros MT [HQ Hb Hr Hne Hnd Hall].
  eapply returns_mono; [apply (wake_blocked_spec s V xs ys MT HQ Hb Hr Hne)|].
  { intros i p Hp. apply Hall. apply list_elem_of_fmap. by exists (i, p). }
  cbv beta. intros _ s'.
  pose proof (wake_spec_facts (ttyWriteTrackers (gl s)) xs (pcbs s) Hnd) as Hf.
  destruct (wake_spec _ (pcbs s) xs) as [[m' st] rd]. destruct Hf as (Hn1 & Hsub & Hout & Hv).
  { intros p Hp. destruct (Hall p Hp) as (x & Hx & _). by eexists. }
  intros (h & n & -> & HQ1). eexists _, st, rd. split; [split; [exact HQ1| | |done|done|]|split; [|exact Hv]].
  - cbn. rewrite lookup_insert_ne by done. by rewrite lookup_insert_eq.
  - cbn. by rewrite lookup_insert_eq.
  - intros p Hp. destruct (Hall p (Hsub p Hp)) as (x & Hx & Ht). specialize (Hv p x (Hsub p Hp) Hx).
    pose proof (check_verdict_tty s x Ht) as Ht'. destruct (check_verdict _ x) as [v x']. exists x'. split; [apply Hv|done].
  - exists m', h, n. split; [done|]. intros p z Hz. destruct (decide (p ∈ xs.*2)) as [Hp|Hp].
    + specialize (Hv p z Hp Hz). pose proof (check_verdict_like (ttyWriteTrackers (gl s)) z) as Hl.
      destruct (check_verdict _ z) as [v z']. exists z'. split; [apply Hv|exact Hl].
    + exists z. by rewrite Hout.
Qed.

Lemma check_verdict_delay trk x : blocked_code x = BLOCKED_DELAY ->
  check_verdict trk x = if clock_ticks x >? 0 then (Stays, set_clock_ticks (clock_ticks x - 1) x)
    else (ToReady, set_blocked_code NOT_BLOCKED x).
Proof. intros E. unfold check_verdict. by rewrite E. Qed.

(** C27: a delay runs out: a process that waits for [n] ticks is on the blocked queue
    after up to [n] passes of the clock handler and ready to run after [n + 1], whatever
    other processes wait for. *)
Theorem delay_runs_out n p k : forall s V xs ys x, MallocTotal L -> waiting s V xs ys -> p ∈ xs.*2 ->
  pcbs s !! p = Some x -> blocked_code x = BLOCKED_DELAY -> clock_ticks x = Z.of_nat n -> (k <= n + 1)%nat ->
  returns (passes k) s (fun _ s' => exists V' xs' ys' x', waiting s' V' xs' ys' /\ pcbs s' !! p = Some x' /\
    if (k <=? n)%nat then p ∈ xs'.*2 /\ clock_ticks x' = Z.of_nat (n - k)
    else p ∈ ys'.*2 /\ blocked_code x' = NOT_BLOCKED).
Proof.
  revert n. induction k as [|k IH]; intros n s V xs ys x MT HW Hp Hx Hc Ht Hk; cbn [passes].
  - rstep. exists V, xs, ys, x. by rewrite Nat.sub_0_r.
  - rstep. eapply returns_mono; [by apply (pass_waiting s V xs ys)|]. cbv beta.
    intros _ s1 (V1 & st & rd & HW1 & _ & Hv). specialize (Hv p x Hp Hx). rewrite (check_verdict_delay _ x Hc) in Hv.
    destruct n as [|n].
    + replace (clock_ticks x >? 0) with false in Hv by (by rewrite Ht). destruct Hv as (Hx1 & _ & Hrd).
      assert (k = 0)%nat as -> by lia. cbn [passes]. rstep. eexists V1, st, (ys ++ rd), _. split; [done|]. split; [exact Hx1|].
      split; [|by destruct x]. rewrite fmap_app. apply elem_of_app. right. by apply Hrd.
    + destruct (Z.gtb_spec (clock_ticks x) 0); [|lia]. destruct Hv as (Hx1 & Hst & _).
      apply (IH n s1 V1 st (ys ++ rd) _ MT HW1 (Hst eq_refl) Hx1); [by destruct x| |lia].
      destruct x. cbn in *. lia.
Qed.

End clock.

(** ** The growth of a stack *)

Section stack.
Context `{L : Libc} {F : kstate -> list Z -> Prop} {FA : FrameAllocator L F}.

(** The page-table index of a faulting address. *)
Definition fault_target (addr : Z) : Z :=
  Z.shiftr (DOWN_TO_PAGE addr) PAGESHIFT - Z.shiftr VMEM_1_BASE PAGESHIFT.

(** C28: a fault on an unmapped page below the stack maps it and every unmapped page between
    it and the stack with a fresh frame, in the order of the free list, readable and
    writable, and leaves mapped ones alone. When the
    frames run out the handler returns all the same, with what it could map: the
    program faults again.  The recorded stack index is not moved. *)
Theorem TrapMemoryHandler_grows_stack ctx s a x l e r1 r2 fl :
  ctx <> NULL -> a <> NULL -> heap_of s a x (l ++ (e :: r1) ++ r2) -> fault_target (uc_addr (uc s)) = Z.of_nat (length l) ->
  user_stack_pt_index x = Z.of_nat (length l + length (e :: r1)) -> valid e = INVALID_FRAME ->
  F s fl -> Forall frame24 fl ->
  returns (TrapMemoryHandler ctx) s (fun _ s' => F s' (drop (wanted (e :: r1)) fl) /\
    exists h c, s' = set_lst h (set_hw (set_tlb c (hw s)) (put_pcb a
        (set_user_page_table (l ++ filled fl (e :: r1) ++ r2) x) s)) /\
      tlb_off (active_pages (PtUser a) (Z.of_nat (length l)) (length (e :: r1)) (hw s)) (tlb (hw s)) c).
Proof.
  intros Hctx Ha Hh Htg Hst He HF Hg. pose proof (heap_table _ _ _ _ Hh) as Ht. destruct Hh as [Hact Hx Hu].
  unfold TrapMemoryHandler. destruct (Z.eqb_spec ctx NULL); [done|]. rstep. rstep. rewrite Hact.
  destruct (Z.eqb_spec a NULL); [done|]. rstep. rstep; [exact Hx|]. rstep. unfold get_uc.
  destruct (Z.eqb_spec ctx NULL); [done|]. rstep. fold (fault_target (uc_addr (uc s))). rewrite Htg, Hst.
  rstep. eapply returns_pt_get; [exact Ht|apply zget_app|]. rewrite He. cbn [Z.eqb INVALID_FRAME VALID_FRAME orb].
  destruct (Z.ltb_spec (Z.of_nat (length l)) 0); [lia|]. rstep. unfold zseq.
  replace (Z.to_nat (Z.of_nat (length l + length (e :: r1)) - Z.of_nat (length l))) with (length (e :: r1)) by lia.
  eapply returns_mono; [by apply (alloc_entries tt a (e :: r1) l r2 s fl)|]. cbv beta.
  intros o s1 (_ & HF1 & h & c & -> & Hc). rstep. split; [done|]. exists h, c. by rewrite (tab_upd_pcb a _ c s x Hx).
Qed.

End stack.

(** ** Witnesses *)

(** Process 70 (pid 7) is ready; 80 (pid 8) delays for one more tick, 90 (pid 9)
    has delayed long enough, and 95 (pid 10) waits for terminal 1, which is open. *)
Definition ex_wake_q : qheap := mkQheap
  {[ 1 := mkQueue 0 1 2 2; 3 := mkQueue 0 3 4 6 ]}
  {[ 2 := mkQnode 7 70 NULL; 4 := mkQnode 8 80 5; 5 := mkQnode 9 90 6; 6 := mkQnode 10 95 NULL ]}.

Definition ex_wake_pcbs : gmap Z pcb :=
  {[ 70 := set_pid 7 pcb_zero;
     80 := set_clock_ticks 1 (set_blocked_code BLOCKED_DELAY (set_pid 8 pcb_zero));
     90 := set_blocked_code BLOCKED_DELAY (set_pid 9 pcb_zero);
     95 := set_tty_terminal 1 (set_blocked_code BLOCKED_TTY_TRANSMIT (set_pid 10 pcb_zero)) ]}.

Definition ex_wake : kstate :=
  set_pcbs ex_wake_pcbs (set_qst ex_wake_q
    (set_gl (set_ttyWriteTrackers (replicate 4 TERMINAL_OPEN) (set_ready_q 1 (set_blocked_q 3 init_glob))) init_state)).

Definition ex_wake_view : gmap Z (list (Z * Z)) := {[ 1 := [(7, 70)]; 3 := [(8, 80); (9, 90); (10, 95)] ]}.

Lemma ex_wake_qstore : qstore ex_wake_q ex_wake_view.
Proof. apply (qstoreb_ok {[ 1 := [2]; 3 := [4; 5; 6] ]}). vm_compute. reflexivity. Qed.

Lemma wake_blocked_correct_witness :
  returns (wake_blocked (L := bump_libc)) ex_wake (fun _ s' =>
    let '(m', st, rd) := wake_spec (replicate 4 TERMINAL_OPEN) ex_wake_pcbs [(8, 80); (9, 90); (10, 95)] in
    exists h n, s' = set_pcbs m' (set_qst h (set_mtick n ex_wake)) /\
      qstore h (<[1 := [(7, 70)] ++ rd]> (<[3 := st]> ex_wake_view))) /\
  (let '(_, st, rd) := wake_spec (replicate 4 TERMINAL_OPEN) ex_wake_pcbs [(8, 80); (9, 90); (10, 95)] in
    st = [(8, 80)] /\ rd = [(9, 90); (10, 95)]).
Proof.
  split; [|by split].
  apply (wake_blocked_correct (L := bump_libc) (Q := qstore) ex_wake ex_wake_view
    [(8, 80); (9, 90); (10, 95)] [(7, 70)]).
  - exact bump_libc_total.
  - exact ex_wake_qstore.
  - reflexivity.
  - reflexivity.
  - discriminate.
  - intros i p H. repeat (apply elem_of_cons in H as [H|H]); [..|by apply not_elem_of_nil in H];
      injection H as -> ->; eexists; (split; [reflexivity|]); intros _; by eexists.
Defined.

Lemma ex_waiting : waiting (Q := qstore) ex_wake ex_wake_view [(8, 80); (9, 90); (10, 95)] [(7, 70)].
Proof.
  split; [exact ex_wake_qstore|reflexivity|reflexivity|discriminate| |].
  - apply (bool_decide_eq_true_1 (NoDup _)). reflexivity.
  - intros p H. cbn in H. repeat (apply elem_of_cons in H as [->|H]; [eexists; split; [reflexivity|]; intros _; by eexists|]).
    by apply not_elem_of_nil in H.
Qed.

(** Process 80 asked for one more tick: it is ready after two passes. *)
Lemma delay_runs_out_witness :
  returns (passes (L := bump_libc) 2) ex_wake (fun _ s' => exists V' xs' ys' x',
    waiting (Q := qstore) s' V' xs' ys' /\ pcbs s' !! 80 = Some x' /\ 80 ∈ ys'.*2 /\ blocked_code x' = NOT_BLOCKED).
Proof.
  apply (delay_runs_out (L := bump_libc) (Q := qstore) 1 80 2 ex_wake ex_wake_view [(8, 80); (9, 90); (10, 95)] [(7, 70)]
    (set_clock_ticks 1 (set_blocked_code BLOCKED_DELAY (set_pid 8 pcb_zero)))).
  - exact bump_libc_total.
  - exact ex_waiting.
  - by left.
  - reflexivity.
  - reflexivity.
  - reflexivity.
  - lia.
Defined.

(** A fault at page 118 of a process whose stack starts at page 120, with one frame of its own between. *)
Definition ex_stack_table : list pte := ex_low ++ ex_heap2 ++ replicate 110 pte_zero.

Definition ex_stack : kstate :=
  set_uc (mkUserContext TRAP_MEMORY 0 (brk_addr 118) 0 0 0 (replicate 8 0))
    (ex_brk 8 (ex_stack_table ++ [pte_zero; mkPte 1 3 40] ++ replicate 8 pte_zero)).

Lemma TrapMemoryHandler_grows_stack_witness :
  returns (TrapMemoryHandler (L := bump_libc) 1) ex_stack (fun _ s' => free_list lstore ∅ s' [70] /\
    exists h c, s' = set_lst h (set_hw (set_tlb c (hw ex_stack)) (put_pcb 100
        (set_user_page_table (ex_stack_table ++ [mkPte 1 3 71; mkPte 1 3 40] ++ replicate 8 pte_zero)
          (ex_brk_pcb 8 (ex_stack_table ++ [pte_zero; mkPte 1 3 40] ++ replicate 8 pte_zero))) ex_stack)) /\
      tlb_off (active_pages (PtUser 100) 118 2 (hw ex_stack)) (tlb (hw ex_stack)) c).
Proof.
  apply (TrapMemoryHandler_grows_stack (L := bump_libc) (F := free_list lstore ∅) 1 ex_stack 100
    (ex_brk_pcb 8 (ex_stack_table ++ [pte_zero; mkPte 1 3 40] ++ replicate 8 pte_zero)) ex_stack_table pte_zero
    [mkPte 1 3 40] (replicate 8 pte_zero) [71; 70]).
  - discriminate.
  - discriminate.
  - by split.
  - vm_compute. reflexivity.
  - vm_compute. reflexivity.
  - reflexivity.
  - exact ex_free.
  - repeat (apply Forall_cons; split; [unfold frame24; lia|]). by apply Forall_nil.
Defined.
