(* ===== verification/Pipes.v ===== *)
(** * Pipes from end to end ([pipe.c], [queue.c] and [syscalls.c] together)

    The three calls on a pipe on which nobody waits, through the list of pipes, the queue
    of waiting processes, the pipe's buffer and the memory of the program. *)

From Stdlib Require Import ZArith Lia.
From stdpp Require Import base gmap list.
From S2P Require Import Prelude Hardware State Store Logic KQueue KPipe Memory LoadProgram LoadArgs SyscallsProc SyscallsIO.

Open Scope Z_scope.

(** ** States with the same address space *)

(** [s'] differs from [s] in the bytes of frames, cached translations that were not
    stale, and whatever is neither memory nor a page table. *)
Record same_maps (s s' : kstate) : Prop := {
  sm_memory : same_memory (set_hw (hw s') s) s';
  sm_hw : hw_mem_only (hw s) (hw s') }.

Lemma same_maps_trans s1 s2 s3 : same_maps s1 s2 -> same_maps s2 s3 -> same_maps s1 s3.
Proof.
  intros [[_ T1] H1] [[_ T2] H2]. split; [|by eapply hw_mem_only_trans].
  split; [done|]. intros t. rewrite (T2 t). transitivity (pt_table t s2); [by destruct t|]. rewrite (T1 t). by destruct t.
Qed.

Lemma view_maps s s' : same_view s s' -> same_maps s s'.
Proof. by intros []. Qed.

Lemma hw_maps s h : hw_mem_only (hw s) h -> same_maps s (set_hw h s).
Proof. intros H. by split. Qed.

Lemma uaccess_maps w s s' a n : same_maps s s' -> uaccess w s a n -> uaccess w s' a n.
Proof. intros [Hm Hh] H. eapply uaccess_same; [exact Hm|]. by apply uaccess_mem_only. Qed.

Lemma phys_maps s s' a : same_maps s s' -> phys s' a = phys s a.
Proof. intros [Hm Hh]. rewrite (phys_same _ _ _ Hm). by apply phys_mem_only. Qed.

Lemma unaliased_maps s s' a n : same_maps s s' -> unaliased s a n -> unaliased s' a n.
Proof. intros Hm H i j Hi Hj. rewrite !(phys_maps s s') by done. by apply H. Qed.

(** The [n] bytes at [a] and the [m] bytes at [b] are different bytes of memory. *)
Definition apart (s : kstate) (a : Z) (n : nat) (b : Z) (m : nat) : Prop :=
  forall i j, 0 <= i < Z.of_nat n -> 0 <= j < Z.of_nat m -> phys s (a + i) <> phys s (b + j).

Lemma uaccess_sub w s a N d n : uaccess w s a N -> 0 <= d -> d + Z.of_nat n <= Z.of_nat N -> uaccess w s (a + d) n.
Proof.
  intros (Hv & Ha & H) Hd Hn. split; [done|]. split; [lia|]. intros i Hi. rewrite <- Z.add_assoc. apply H. lia.
Qed.

Lemma unaliased_sub s a N d n : unaliased s a N -> 0 <= d -> d + Z.of_nat n <= Z.of_nat N -> unaliased s (a + d) n.
Proof.
  intros H Hd Hn i j Hi Hj E. rewrite <- !Z.add_assoc in E. apply H in E; lia.
Qed.

Lemma unaliased_apart s a N d n e m : unaliased s a N -> 0 <= d -> 0 <= e ->
  d + Z.of_nat n <= Z.of_nat N -> e + Z.of_nat m <= Z.of_nat N -> e + Z.of_nat m <= d -> apart s (a + d) n (a + e) m.
Proof. intros H Hd He Hn Hm Hde i j Hi Hj E. rewrite <- !Z.add_assoc in E. apply H in E; lia. Qed.

(** A store leaves the bytes apart from it alone. *)
Lemma write_bytes_maps bs s a : uaccess true s a (length bs) -> unaliased s a (length bs) ->
  returns (write_bytes a bs) s (fun _ s' => exists h, s' = set_hw h s /\ hw_mem_only (hw s) h /\
    ubytes s' a (length bs) = map (fun b => b mod 256) bs /\
    forall b n, apart s b n a (length bs) -> ubytes s' b n = ubytes s b n).
Proof.
  intros Ha Hu. eapply returns_mono; [by apply write_bytes_spec|]. cbv beta.
  intros _ s' (h & -> & Hm & Hb & Hf). exists h. do 3 (split; [done|]). intros b n Hap.
  unfold ubytes. apply map_ext_in. intros i Hin%list_elem_of_In. apply elem_of_zrange in Hin.
  rewrite (phys_maps s) by (by apply hw_maps). apply Hf. intros j Hj. rewrite <- surjective_pairing.
  intros E. by apply (Hap i j).
Qed.

(** ** A pipe in the list *)

Lemma pchain_set m p x x' : m !! p = Some x -> pp_id x' = pp_id x -> pp_next x' = pp_next x ->
  forall ps a, pchain m a ps -> pchain (<[p := x']> m) a ps.
Proof.
  intros Hx Hi Hn ps. induction ps as [|[q i] ps IH]; intros a; [done|]. intros (-> & Hq & y & Hy & Hid & Hc).
  do 2 (split; [done|]). destruct (decide (q = p)) as [->|Hne].
  - simplify_eq. exists x'. rewrite lookup_insert_eq. split; [done|]. split; [done|]. rewrite Hn. by apply IH.
  - exists y. rewrite lookup_insert_ne by done. split; [done|]. split; [done|]. by apply IH.
Qed.

Lemma prep_set m head ps p x x' : prep m head ps -> m !! p = Some x -> pp_id x' = pp_id x -> pp_next x' = pp_next x ->
  prep (<[p := x']> m) head ps.
Proof. intros (Hh & Hc & Hs) Hx Hi Hn. split; [done|]. split; [by eapply pchain_set|done]. Qed.

Lemma prep_last_fresh m head ps k : prep m head ps -> last (map snd ps) = Some k -> (k + 1) ∉ map snd ps.
Proof.
  intros (_ & _ & Hs) Hk Hin. apply last_Some in Hk as [l E]. rewrite E in Hs, Hin.
  pose proof (sorted_last_max _ _ Hs _ Hin). lia.
Qed.

(** Pipe [id] is the object [x] at [p]; no call on it is under way, and nobody waits
    on its queue [q]. *)
Record open_pipe (s : kstate) (id p q : Z) (x : pipe) : Prop := {
  op_list : exists ps, prep (pipes s) (head_pipe (gl s)) ps /\ pipe_addr ps id = p;
  op_nonnull : p <> NULL;
  op_pipe : pipes s !! p = Some x;
  op_wf : pipe_wf x;
  op_free : pp_used x = PIPE_FREE;
  op_queue : pp_queue x = Some q;
  op_empty : exists k, queues (qst s) !! q = Some k /\ q_size k = 0 }.

Lemma open_pipe_found s id p q x : open_pipe s id p q x -> get_pipe (head_pipe (gl s)) id s = Ret p s.
Proof. intros Ho. destruct (op_list _ _ _ _ _ Ho) as (ps & Hp & <-). by apply get_pipe_spec. Qed.

(** What a call that finds the pipe free does to it. *)
Lemma open_pipe_bytes s id p q x x' s' : open_pipe s id p q x -> pipes s' = <[p := x']> (pipes s) ->
  gl s' = gl s -> qst s' = qst s -> pp_id x' = pp_id x -> pp_next x' = pp_next x -> pp_queue x' = pp_queue x ->
  pp_used x' = PIPE_FREE -> pipe_wf x' -> open_pipe s' id p q x'.
Proof.
  intros [(ps & Hp & Ha) Hn Hx Hw Hf Hq He] Es Eg Eq E1 E2 E3 E4 Hw'. split; try done; rewrite ?Es, ?Eg, ?Eq; [| |by rewrite E3|done].
  - exists ps. split; [|done]. by eapply prep_set.
  - apply lookup_insert_eq.
Qed.

Section calls.
Context `{L : Libc} {LL : LibcLaws L} (fuel : nat).

Lemma mwhile_stop n cond body s : cond s = Ret false s -> mwhile n cond body s = Ret tt s.
Proof. intros H. destruct n; cbn [mwhile]; by rewrite (bind_exec _ _ _ _ _ H). Qed.

Lemma size_zero s q k : queues (qst s) !! q = Some k -> q_size k = 0 -> size_of q s = Ret 0 s.
Proof. intros Hq <-. unfold size_of, get_queue, bind, deref. by rewrite Hq. Qed.

Lemma pipe_queue_ok s p x q : pipes s !! p = Some x -> pp_queue x = Some q -> pipe_queue p s = Ret q s.
Proof. intros Hx Hq. unfold pipe_queue, get_pipe_obj, bind, deref. rewrite Hx. cbn [obind]. by rewrite Hq. Qed.

(** A write to a pipe on which nobody waits appends the bytes that fit, and returns
    their number. *)
Lemma KernelPipeWrite_spec s id p q x buf len uctxt : open_pipe s id p q x ->
  buf <> NULL -> 0 < id -> 0 <= len <= PIPE_BUFFER_LEN ->
  let n := Z.min len (PIPE_BUFFER_LEN - pp_len x) in
  uaccess false s buf (Z.to_nat n) ->
  returns (KernelPipeWrite fuel id buf len uctxt) s (fun r s' => r = n /\ same_view s s' /\ uc s' = uc s /\ exists x',
    open_pipe s' id p q x' /\ pp_len x' = pp_len x + n /\ contents x' = contents x ++ ubytes s buf (Z.to_nat n)).
Proof.
  intros Ho Hb Hid Hlen n Ha. pose proof Ho as [_ Hpn Hx Hwf Hf Hq (k & Hk & Hk0)].
  unfold KernelPipeWrite. destruct (Z.leb_spec id 0); [lia|]. destruct (Z.ltb_spec len 0); [lia|].
  destruct (Z.gtb_spec len PIPE_BUFFER_LEN); [lia|]. cbn [orb]. destruct (Z.eqb_spec buf NULL); [done|].
  rstep. rstep. rstep. eapply returns_exec; [by eapply open_pipe_found|].
  rstep. eapply returns_exec.
  { apply mwhile_stop. rewrite (bind_exec _ _ _ _ _ (deref_ok _ _ _ _ Hx)). by rewrite Hf. }
  rstep. eapply returns_upd_pipe; [exact Hx|]. set (x1 := set_pp_used _ x). set (s1 := put_pipe p x1 s).
  assert (Hs1 : same_memory s s1) by apply same_memory_put_pipe.
  rstep. eapply returns_mono; [apply (pipe_put_appends s1 p x1); [apply lookup_insert_eq|done|lia|by eapply uaccess_same]|].
  cbv beta. intros r s2 (-> & h & x2 & -> & Hm & Hfr & E2 & Hwf2 & Hc2). set (s2 := set_hw _ _).
  assert (Hx2 : pipes s2 !! p = Some x2) by apply lookup_insert_eq.
  assert (Eq2 : pp_queue x2 = Some q) by (by rewrite E2).
  rstep. eapply returns_exec; [by eapply pipe_queue_ok|]. rstep. eapply returns_exec; [by apply (size_zero s2 q k)|].
  cbn [Z.gtb Z.compare]. rstep. rstep. rstep. eapply returns_upd_pipe; [exact Hx2|]. rstep.
  split; [done|]. split; [|split; [done|exists (set_pp_used PIPE_FREE x2); split; [|split]]].
  - eapply same_view_trans; [|apply same_view_memory, same_memory_put_pipe].
    eapply same_view_trans; [apply same_view_memory; exact Hs1|].
    eapply same_view_trans; [apply same_view_memory, (same_memory_put_pipe p x2)|]. by apply same_view_hw.
  - eapply open_pipe_bytes; [exact Ho|..]; try done; try (by rewrite E2). unfold s2, s1, put_pipe. cbn. by rewrite !insert_insert_eq.
  - cbn. by rewrite E2.
  - change (contents (set_pp_used PIPE_FREE x2)) with (contents x2). rewrite Hc2. by rewrite (ubytes_same s s1).
Qed.

(** A read from a pipe that holds bytes takes the oldest, at most as many as asked for,
    and leaves the others. *)
Lemma KernelPipeRead_spec s id p q x buf len uctxt : open_pipe s id p q x ->
  buf <> NULL -> 0 <= len <= PIPE_BUFFER_LEN -> 0 < pp_len x ->
  let n := Z.min len (pp_len x) in
  uaccess true s buf (Z.to_nat n) -> unaliased s buf (Z.to_nat n) ->
  returns (KernelPipeRead fuel id buf len uctxt) s (fun r s' => r = n /\ same_maps s s' /\ uc s' = uc s /\
    ubytes s' buf (Z.to_nat n) = map (fun b => b mod 256) (take (Z.to_nat n) (contents x)) /\
    exists x', open_pipe s' id p q x' /\ pp_len x' = pp_len x - n /\ contents x' = drop (Z.to_nat n) (contents x)).
Proof.
  intros Ho Hb Hlen Hpl n Ha Hu. pose proof Ho as [_ Hpn Hx Hwf Hf Hq (k & Hk & Hk0)].
  unfold KernelPipeRead. destruct (Z.eqb_spec buf NULL); [done|]. destruct (Z.ltb_spec len 0); [lia|].
  destruct (Z.gtb_spec len PIPE_BUFFER_LEN); [lia|]. cbn [orb].
  rstep. rstep. rstep. eapply returns_exec; [by eapply open_pipe_found|]. destruct (Z.eqb_spec p NULL); [done|].
  rstep. eapply returns_exec; [exact (deref_ok _ _ _ _ Hx)|]. rewrite Hf. cbn [Z.eqb PIPE_FREE PIPE_NOT_FREE]. rstep. rstep.
  rstep. eapply returns_exec.
  { apply mwhile_stop. rewrite (bind_exec _ _ _ _ _ (deref_ok _ _ _ _ Hx)). by destruct (Z.eqb_spec (pp_len x) 0); [lia|]. }
  rstep. eapply returns_upd_pipe; [exact Hx|]. set (x1 := set_pp_used _ x). set (s1 := put_pipe p x1 s).
  assert (Hs1 : same_memory s s1) by apply same_memory_put_pipe.
  rstep. eapply returns_mono; [apply (pipe_take_removes s1 p x1); [apply lookup_insert_eq|done|lia|by eapply uaccess_same|by eapply unaliased_same]|].
  cbv beta. intros r s2 (-> & h & x2 & -> & Hm & Hby & E2 & Hwf2 & Hc2). set (s2 := put_pipe _ _ _).
  assert (Hx2 : pipes s2 !! p = Some x2) by apply lookup_insert_eq.
  assert (Eq2 : pp_queue x2 = Some q) by (by rewrite E2).
  assert (Hs2 : same_maps s s2).
  { eapply same_maps_trans; [apply view_maps, same_view_memory; exact Hs1|].
    eapply same_maps_trans; [apply hw_maps; exact Hm|]. apply view_maps, same_view_memory, same_memory_put_pipe. }
  rstep. eapply returns_exec; [exact (deref_ok _ _ _ _ Hx2)|].
  rstep. eapply returns_exec; [by eapply pipe_queue_ok|]. rstep. eapply returns_exec; [by apply (size_zero s2 q k)|].
  assert (Hz : size_of q s2 = Ret 0 s2) by (by apply (size_zero s2 q k)). cbn [Z.gtb Z.compare].
  rstep. eapply returns_exec with (a := tt) (s' := s2).
  { destruct (Z.gtb_spec (pp_len x2) 0); [done|]. unfold pipe_wake_writer. apply mloop_stop. by rewrite (bind_exec _ _ _ _ _ Hz). }
  rstep. eapply returns_upd_pipe; [exact Hx2|]. rstep.
  split; [done|]. split; [|split; [done|split; [|exists (set_pp_used PIPE_FREE x2); split; [|split]]]].
  - eapply same_maps_trans; [exact Hs2|]. apply view_maps, same_view_memory, same_memory_put_pipe.
  - rewrite (ubytes_same s2) by apply same_memory_put_pipe. rewrite (ubytes_same (set_hw h s1)) by apply same_memory_put_pipe. exact Hby.
  - eapply open_pipe_bytes; [exact Ho|..]; try done; try (by rewrite E2). unfold s2, s1, put_pipe. cbn. by rewrite !insert_insert_eq.
  - cbn. by rewrite E2.
  - exact Hc2.
Qed.

(** [KernelPipeInit] makes an empty pipe that is ready for use, and stores its id. *)
Lemma KernelPipeInit_spec (MT : MallocTotal L) s ps k V idp :
  prep (pipes s) (head_pipe (gl s)) ps -> last (map snd ps) = Some k -> 0 < k < 2 ^ 31 - 1 ->
  qstore (qst s) V -> dom V ⊆ live s ->
  idp <> NULL -> uaccess true s idp 4 -> unaliased s idp 4 ->
  returns (KernelPipeInit idp) s (fun r s' => r = 0 /\ same_maps s s' /\ uc s' = uc s /\ bytes_int (ubytes s' idp 4) = k + 1 /\
    (forall b n, apart s b n idp 4 -> ubytes s' b n = ubytes s b n) /\
    exists p q x, open_pipe s' (k + 1) p q x /\ pp_len x = 0).
Proof.
  intros Hp Hk Hkr HV Hd Hidp Ha Hu. unfold KernelPipeInit. destruct (Z.eqb_spec idp NULL); [done|].
  rstep. rstep. rstep. eapply returns_mono; [by apply (add_pipe_appends s _ ps k V)|]. cbv beta.
  intros r s1 [(_ & _ & H)|(-> & p & q & Hp1 & _ & Hx & _ & [[_ H]|(Hq & _ & HV1)] & Eh & Eg & Ec & Et & Eu)]; [done..|].
  destruct (Z.eqb_spec (k + 1) ERROR) as [E|_]; [unfold ERROR in E; lia|].
  assert (Hs1 : same_memory s s1) by (split; [done|]; intros [|a|a|a]; cbn; by rewrite ?Ec, ?Et).
  rstep. eapply returns_mono; [apply (write_bytes_maps (int_bytes (k + 1)) s1 idp)|]; [by eapply uaccess_same|by eapply unaliased_same|].
  cbv beta. change (length (int_bytes (k + 1))) with 4%nat. intros _ s2 (h & -> & Hm & Hb & Hf). rstep. split; [done|].
  split; [|split; [done|split; [|split]]].
  - eapply same_maps_trans; [by apply view_maps, same_view_memory|by apply hw_maps].
  - rewrite Hb, int_bytes_mod, bytes_int_int_bytes. unfold i32. rewrite Z.mod_small; lia.
  - intros b m Hap. rewrite Hf by (intros i j Hi Hj; rewrite !(phys_same s s1) by done; by apply Hap).
    by apply ubytes_same.
  - exists p, q, (mkPipe zero_buf 0 (k + 1) NULL PIPE_FREE (Some q)). split; [|done].
    assert (Hnn : p <> NULL).
    { destruct Hp1 as (_ & Hc & _). by destruct (pchain_elem _ _ _ p (k + 1) Hc) as (? & _); [apply elem_of_app; right; left|]. }
    split; try done.
    + exists (ps ++ [(p, k + 1)]). cbn [gl set_hw pipes]. rewrite Eg. split; [exact Hp1|].
      rewrite pipe_addr_app by (by apply (prep_last_fresh _ _ _ _ Hp Hk)). cbn [pipe_addr]. by rewrite Z.eqb_refl.
    + destruct (qs_size (R := qstore) _ _ _ _ HV1 (lookup_insert_eq V q [])) as (kq & E & Hz). by exists kq.
Qed.

End calls.

(** The process of [ex_wait], with two bytes of text at offset 16 of its page. *)
Definition ex_text_hw : khw := fput 60 17 105 (fput 60 16 104 (hw ex_io)).
Definition ex_text : kstate := set_hw ex_text_hw ex_io.

Lemma ex_text_maps : same_maps ex_io ex_text.
Proof. apply hw_maps. eapply hw_mem_only_trans; apply hw_fput_only. Qed.

Lemma ex_text_access w d n : 0 <= d -> d + Z.of_nat n <= PAGESIZE -> uaccess w ex_text (VMEM_1_BASE + d) n.
Proof.
  intros Hd Hn. apply (uaccess_maps _ _ _ _ _ ex_text_maps). apply (uaccess_sub _ _ _ (Z.to_nat PAGESIZE)); [|done|lia].
  by apply ex_io_access.
Qed.

Lemma ex_text_unaliased : unaliased ex_text VMEM_1_BASE (Z.to_nat PAGESIZE).
Proof. apply (unaliased_maps _ _ _ _ ex_text_maps). by apply ex_io_unaliased. Qed.
