(* ===== verification/Terminal.v ===== *)
(** * Terminals ([syscalls.c], [traphandlers.c])

    What is typed is what is read, line by line, and what is written is what the
    terminal shows, across the handlers and the calls that share a terminal's buffer. *)

From Stdlib Require Import ZArith Lia.
From stdpp Require Import base gmap list.
From S2P Require Import Prelude Hardware State Store Logic KList KQueue KPipe Memory Frames Process ContextSwitch Sched Boot SyscallsProc LoadArgs SyscallsIO Traps.

Open Scope Z_scope.

(** ** Input: the specification

    The characters typed and not read yet, at most [TERMINAL_MAX_LINE]. *)

(** The length of the first line, its newline included. *)
Fixpoint line_len (c : list Z) : nat :=
  match c with
  | [] => 0
  | x :: c' => if x =? 10 then 1%nat else S (line_len c')
  end.

Inductive tty_op :=
  | Typed (l : list Z)
  | ReadLine (len : Z).

(** What the reads of a script return, and what is left: a line typed is kept as far
    as it fits, a read takes the first line or as much of it as it asks for.  [None]
    when a read would wait. *)
Fixpoint tty_spec (c : list Z) (ops : list tty_op) : option (list (list Z) * list Z) :=
  match ops with
  | [] => Some ([], c)
  | Typed l :: ops' => tty_spec (c ++ take (Z.to_nat TERMINAL_MAX_LINE - length c) l) ops'
  | ReadLine len :: ops' =>
      if head_or 0 c =? 0 then None else
      let k := Nat.min (line_len c) (Z.to_nat len) in
      '(rs, c') ← tty_spec (drop k c) ops'; Some (take k c :: rs, c')
  end.

(** ** Input: the implementation *)

Section input.
Context `{L : Libc}.

(** The script on terminal [id]: the reader looks at its memory after each call. *)
Fixpoint tty_run (ctx id buf : Z) (ops : list tty_op) : M (list (list Z)) :=
  match ops with
  | [] => ret []
  | Typed l :: ops' => TrapTTYReceiveHandler l ctx ;; tty_run ctx id buf ops'
  | ReadLine len :: ops' =>
      let! r := KernelTtyRead ctx id buf len in
      let! bs := read_bytes buf (Z.to_nat r) in
      let! rs := tty_run ctx id buf ops' in
      ret (bs :: rs)
  end.

(** The buffer of a terminal: the characters waiting, then zeros. *)
Definition pad (c : list Z) : list Z := c ++ replicate (Z.to_nat TERMINAL_MAX_LINE - length c) 0.

(** Terminal [id] has the buffer [b] and the queue [q] of readers, which is empty, and
    [c] waits to be read. *)
Record tty (s : kstate) (id b q : Z) (c : list Z) : Prop := {
  tt_id : 0 <= id <= 3;
  tt_buf : zget (ttyReadbuffers (gl s)) id = Some b;
  tt_queue : zget (ttyReadQueues (gl s)) id = Some q;
  tt_ptrs : b <> NULL /\ q <> NULL;
  tt_track : zget (ttyReadTrackers (gl s)) id = Some (Z.of_nat (length c));
  tt_bytes : bufs s !! b = Some (pad c);
  tt_len : (length c <= Z.to_nat TERMINAL_MAX_LINE)%nat;
  tt_empty : exists k, queues (qst s) !! q = Some k /\ q_size k = 0 }.

(** A new content for the buffer, and a new count. *)
Definition put_tty (id b : Z) (c : list Z) (s : kstate) : kstate :=
  set_gl (set_ttyReadTrackers (<[Z.to_nat id := Z.of_nat (length c)]> (ttyReadTrackers (gl s))) (gl s)) (put_buf b (pad c) s).

Lemma put_tty_ok s id b q c c' : tty s id b q c -> (length c' <= Z.to_nat TERMINAL_MAX_LINE)%nat -> tty (put_tty id b c' s) id b q c'.
Proof.
  intros [] Hc. split; try done.
  - unfold put_tty. cbn [gl set_gl ttyReadTrackers set_ttyReadTrackers]. pose proof (zget_Some _ _ _ tt_track0).
    unfold zget. rewrite bool_decide_true by lia. apply list_lookup_insert_eq. lia.
  - apply lookup_insert_eq.
Qed.

Lemma tty_hw s h id b q c : tty s id b q c -> tty (set_hw h s) id b q c.
Proof. by intros []. Qed.

Lemma same_memory_put_tty id b c s : same_memory s (put_tty id b c s).
Proof. split; [done|]. by intros []. Qed.

Lemma returns_arr_set {A} (get : kglob -> list A) (put : list A -> kglob -> kglob) i v s (P : unit -> kstate -> Prop) x :
  zget (get (gl s)) i = Some x -> P tt (set_gl (put (<[Z.to_nat i := v]> (get (gl s))) (gl s)) s) ->
  returns (arr_set get put i v) s P.
Proof.
  intros Hx HP. unfold arr_set. pose proof (zget_Some _ _ _ Hx). rstep. apply returns_gets. rstep.
  eapply returns_in_bounds; [unfold zset; by rewrite bool_decide_true by lia|]. apply returns_modify. exact HP.
Qed.

Lemma returns_size_of q k s (P : Z -> kstate -> Prop) : queues (qst s) !! q = Some k -> P (q_size k) s -> returns (size_of q) s P.
Proof. intros Hk HP. unfold size_of, get_queue. rstep. eapply returns_deref; [exact Hk|]. by rstep. Qed.

(** *** Receiving *)

Lemma pad_length c : (length c <= Z.to_nat TERMINAL_MAX_LINE)%nat -> length (pad c) = Z.to_nat TERMINAL_MAX_LINE.
Proof. intros Hc. unfold pad. rewrite length_app, length_replicate. lia. Qed.

Lemma receive_spec s ctx id b q c l : tty s id b q c -> ctx <> NULL -> i32 (uc_code (uc s)) = id ->
  returns (TrapTTYReceiveHandler l ctx) s (fun _ s' => s' = put_tty id b (c ++ take (Z.to_nat TERMINAL_MAX_LINE - length c) l) s).
Proof.
  intros [] Hctx Hu. destruct tt_empty0 as (k & Hk & Hk0). unfold TrapTTYReceiveHandler, get_uc.
  destruct (Z.eqb_spec ctx NULL) as [|_]; [done|]. rstep. apply returns_gets. rewrite Hu.
  rstep. eapply returns_arr_get; [exact tt_buf0|]. rstep. eapply returns_arr_get; [exact tt_queue0|].
  rstep. eapply returns_arr_get; [exact tt_track0|]. cbv zeta. set (n := Z.to_nat TERMINAL_MAX_LINE) in *.
  assert (En : TERMINAL_MAX_LINE = Z.of_nat n) by done. set (w := take (n - length c) l).
  assert (Ew : take (Z.to_nat (if TERMINAL_MAX_LINE - Z.of_nat (length c) <? Z.of_nat (length l)
      then TERMINAL_MAX_LINE - Z.of_nat (length c) else Z.of_nat (length l))) l = w /\
    (if TERMINAL_MAX_LINE - Z.of_nat (length c) <? Z.of_nat (length l) then TERMINAL_MAX_LINE - Z.of_nat (length c)
      else Z.of_nat (length l)) = Z.of_nat (length w)).
  { unfold w. rewrite length_take. destruct (Z.ltb_spec (TERMINAL_MAX_LINE - Z.of_nat (length c)) (Z.of_nat (length l))).
    - split; [f_equal; lia|lia].
    - split; [|lia]. rewrite !take_ge by lia. done. }
  destruct Ew as [-> ->]. assert (Hw : (length w <= n - length c)%nat) by (unfold w; rewrite length_take; lia).
  rstep. eapply returns_deref; [exact tt_bytes0|]. rstep.
  eapply returns_in_bounds; [apply splice_ok; [lia|]; rewrite pad_length by done; fold n; lia|].
  assert (Ep : take (Z.to_nat (Z.of_nat (length c))) (pad c) ++ w ++ drop (Z.to_nat (Z.of_nat (length c)) + length w) (pad c) = pad (c ++ w)).
  { rewrite Nat2Z.id. unfold pad. rewrite take_app_length, <- drop_drop, drop_app_length, drop_replicate, <- app_assoc.
    do 2 f_equal. fold n. rewrite length_app. f_equal. lia. }
  rewrite Ep. rstep. apply returns_modify. rstep. eapply returns_arr_set; [exact tt_track0|].
  rstep. eapply returns_size_of; [exact Hk|]. rewrite Hk0. cbn [Z.gtb Z.compare]. rstep.
  unfold put_tty. rewrite length_app, Nat2Z.inj_add. done.
Qed.

(** *** Reading *)

Lemma scan_line_spec r : forall n p z, (length r <= n)%nat ->
  scan_line n (p ++ r ++ z) (Z.of_nat (length p)) (Z.of_nat (length p + length r)) = Some (Z.of_nat (length p + line_len r)).
Proof.
  induction r as [|x r IH]; intros n p z Hn; cbn [length line_len] in *.
  - destruct n; cbn [scan_line]; destruct (Z.ltb_spec (Z.of_nat (length p)) (Z.of_nat (length p + 0))); (lia || f_equal; lia).
  - destruct n as [|n]; [lia|]. cbn [scan_line]. destruct (Z.ltb_spec (Z.of_nat (length p)) (Z.of_nat (length p + S (length r)))); [|lia].
    cbn [app]. rewrite zget_app. destruct (x =? 10); [f_equal; lia|].
    specialize (IH n (p ++ [x]) z ltac:(lia)). rewrite <- app_assoc, length_app in IH. cbn [app length] in IH.
    replace (Z.of_nat (length p) + 1) with (Z.of_nat (length p + 1)) by lia.
    replace (length p + S (length r))%nat with (length p + 1 + length r)%nat by lia. rewrite IH. f_equal. lia.
Qed.

Lemma line_len_le c : (line_len c <= length c)%nat.
Proof. induction c as [|x c IH]; cbn; [done|]. destruct (x =? 10); lia. Qed.

Lemma shift_pad c k : (k <= length c <= Z.to_nat TERMINAL_MAX_LINE)%nat ->
  shift_buffer (pad c) (Z.of_nat k) (Z.of_nat (length c)) = pad (drop k c).
Proof.
  intros Hk. unfold shift_buffer, pad. rewrite !Nat2Z.id, drop_app_length.
  replace (Z.to_nat (Z.of_nat (length c) - Z.of_nat k)) with (length (drop k c)) by (rewrite length_drop; lia).
  rewrite drop_app_le by lia. rewrite take_app_length. f_equal. rewrite <- replicate_add. f_equal. rewrite length_drop. lia.
Qed.

Lemma read_line_spec s ctx id b q c buf len : tty s id b q c -> head_or 0 c <> 0 -> 0 < len ->
  let k := Nat.min (line_len c) (Z.to_nat len) in
  uaccess true s buf k -> unaliased s buf k -> Forall (fun x => 0 <= x < 256) c ->
  returns (KernelTtyRead ctx id buf len) s (fun r s' => r = Z.of_nat k /\ exists h, s' = put_tty id b (drop k c) (set_hw h s) /\
    hw_mem_only (hw s) h /\ ubytes (set_hw h s) buf k = take k c).
Proof.
  intros [] Hh Hl k Hacc Hun H256. destruct tt_empty0 as (j & Hj & Hj0). destruct tt_ptrs0 as [Hb Hq].
  unfold KernelTtyRead. rstep. eapply returns_arr_get; [exact tt_buf0|]. rstep. eapply returns_arr_get; [exact tt_queue0|].
  destruct (Z.eqb_spec q NULL); [done|]. destruct (Z.eqb_spec b NULL); [done|]. cbn [orb].
  destruct (Z.ltb_spec len 0); [lia|]. destruct (Z.ltb_spec id 0); [lia|]. destruct (Z.gtb_spec id 3); [lia|]. cbn [orb].
  destruct (Z.eqb_spec len 0); [lia|]. rstep. eapply returns_size_of; [exact Hj|]. rewrite Hj0. cbn [Z.gtb Z.compare orb].
  destruct c as [|x c]; [done|]. change (head_or 0 (x :: c)) with x in Hh.
  rstep. rstep. eapply returns_deref; [exact tt_bytes0|]. eapply returns_in_bounds; [reflexivity|].
  destruct (Z.eqb_spec x 0); [done|]. rstep. rstep. unfold tty_take_line.
  rstep. eapply returns_arr_get; [exact tt_track0|]. rstep. eapply returns_deref; [exact tt_bytes0|].
  rstep. eapply returns_in_bounds.
  { rewrite Nat2Z.id. unfold pad. exact (scan_line_spec (x :: c) (length (x :: c)) [] _ ltac:(lia)). }
  cbn [length Nat.add]. change (S (length c)) with (length (x :: c)) in *. set (d := x :: c) in *. cbv zeta.
  pose proof (line_len_le d) as Hld.
  assert (Ek : (if Z.of_nat (line_len d) >? len then len else Z.of_nat (line_len d)) = Z.of_nat k).
  { unfold k. destruct (Z.gtb_spec (Z.of_nat (line_len d)) len); lia. }
  rewrite Ek, Nat2Z.id. assert (Et : take k (pad d) = take k d) by (unfold pad; apply take_app_le; lia). rewrite Et.
  assert (Hlk : length (take k d) = k) by (rewrite length_take; lia).
  rstep. eapply returns_mono; [apply write_bytes_spec; by rewrite Hlk|]. cbv beta. intros _ s1 (h & -> & Hm & Hub & _).
  rewrite pad_length by done. destruct (Z.ltb_spec (Z.of_nat (Z.to_nat TERMINAL_MAX_LINE)) (Z.of_nat (length d))); [lia|].
  rstep. rstep. rstep. apply returns_modify. rewrite shift_pad by lia.
  rstep. eapply returns_arr_set; [exact tt_track0|]. rstep. eapply returns_size_of; [exact Hj|]. rewrite Hj0.
  rstep. eapply returns_deref; [apply lookup_insert_eq|]. rstep.
  destruct (zget_is_Some (pad (drop k d)) 0) as [c0 Hc0].
  { rewrite pad_length by (rewrite length_drop; lia). done. }
  eapply returns_in_bounds; [exact Hc0|]. cbn [Z.gtb Z.compare andb]. rstep. rstep. rstep. split; [done|].
  exists h. split; [|split; [done|]].
  - unfold put_tty. cbn [gl set_hw]. do 4 f_equal. rewrite length_drop. lia.
  - rewrite Hlk in Hub. rewrite Hub. rewrite <- (map_id (take k d)) at 2. apply map_ext_in. intros y Hy.
    rewrite Forall_forall in H256. apply Z.mod_small, H256. apply list_elem_of_In in Hy. by apply (subseteq_take k d).
Qed.

(** *** Scripts *)

(** The reader's buffer: [m] bytes that can be read and written. *)
Definition user_buffer (s : kstate) (buf : Z) (m : nat) : Prop :=
  uaccess true s buf m /\ uaccess false s buf m /\ unaliased s buf m.

Lemma user_buffer_after s s1 h buf m : same_memory s s1 -> hw_mem_only (hw s) h -> user_buffer s buf m -> user_buffer (set_hw h s1) buf m.
Proof.
  intros Hs Hm (H1 & H2 & H3). split; [by apply (uaccess_after true s)|]. split; [by apply (uaccess_after false s)|].
  intros i j Hi Hj. rewrite !(phys_after s) by done. by apply H3.
Qed.

Lemma user_buffer_le s buf m k : (k <= m)%nat -> user_buffer s buf m -> user_buffer s buf k.
Proof.
  intros Hk (H1 & H2 & H3). assert (Em : m = (k + (m - k))%nat) by lia. rewrite Em in H1, H2.
  split; [by apply uaccess_app in H1 as [? _]|]. split; [by apply uaccess_app in H2 as [? _]|].
  intros i j Hi Hj. apply H3; lia.
Qed.

Definition op_ok (m : nat) (op : tty_op) : Prop :=
  match op with
  | Typed l => Forall (fun x => 0 <= x < 256) l
  | ReadLine len => 0 < len <= Z.of_nat m
  end.


End input.

(** ** Output *)

(** The characters sent to terminal [id] so far. *)
Definition sent (id : Z) (s : kstate) : list Z :=
  concat (map snd (List.filter (fun x => fst x =? id) (rev (tty_out (hw s))))).

(** [P] holds when the computation returns, provided the state a suspended computation
    is resumed in is related by [E] to the one it was suspended in. *)
Fixpoint finally {A} (E : kstate -> kstate -> Prop) (o : outcome A) (P : A -> kstate -> Prop) : Prop :=
  match o with
  | Ret r s => P r s
  | Fault _ => False
  | Switch _ _ t k => forall s', E t s' -> finally E (k s') P
  | Clone _ _ _ => False
  end.

Section finally.
Context {A B : Type} (E : kstate -> kstate -> Prop).

Lemma finally_mono (o : outcome A) (P P' : A -> kstate -> Prop) :
  finally E o P -> (forall r s, P r s -> P' r s) -> finally E o P'.
Proof. induction o; cbn; auto. Qed.

Lemma finally_obind (o : outcome A) (f : A -> M B) P :
  finally E o (fun r s => finally E (f r s) P) -> finally E (obind o f) P.
Proof. induction o; cbn; auto. Qed.

Lemma finally_bind (m : M A) (f : A -> M B) s P :
  finally E (m s) (fun r s' => finally E (f r s') P) -> finally E (bind m f s) P.
Proof. apply finally_obind. Qed.

Lemma finally_returns (m : M A) s P : returns m s P -> finally E (m s) P.
Proof. unfold returns. by destruct (m s). Qed.

Lemma finally_switches (m : M A) s W P : switches m s W ->
  (forall p n t k, W p n t k -> forall s', E t s' -> finally E (k s') P) -> finally E (m s) P.
Proof. unfold switches. destruct (m s); try done. intros HW H. cbn. by eapply H. Qed.

End finally.

Lemma returns_assoc3 {A B C} (m1 : M A) (m2 : M B) (f : B -> M unit) (k : M C) s (P : C -> kstate -> Prop) :
  returns (m1 ;; let! x := m2 in f x) s (fun _ s' => returns k s' P) -> returns (m1 ;; let! x := m2 in f x ;; k) s P.
Proof. unfold returns, bind. destruct (m1 s); cbn; try done. destruct (m2 s0); cbn; try done. by destruct (f a0 s1). Qed.

Section output.
Context `{L : Libc} {Q : qheap -> gmap Z (list (Z * Z)) -> Prop} {QS : QueueStore L Q}.
Context (a i id q buf : Z) (bs : list Z).

(** The state in which process [a] runs in the middle of its call: it is not the idle
    process [i], the scheduler's structures are in order, [qs] waits for terminal
    [id], and the bytes to write are in its memory. *)
Record writer (s : kstate) (qs : list (Z * Z)) : Prop := {
  wr_active : active s = a;
  wr_idle : idle s = i;
  wr_sched : exists V rs x y z K kt e0 e1, Q (qst s) V /\ V !! ready_q (gl s) = Some rs /\ V !! q = Some qs /\
    pcbs s !! a = Some x /\ pcbs s !! i = Some y /\ pid x <> pid y /\
    pcbs s !! next_ready i rs = Some z /\ kernel_stack_pt z = [e0; e1] /\ on_kernel_table s K kt;
  wr_queue : zget (ttyWriteQueues (gl s)) id = Some q;
  wr_ready : q <> ready_q (gl s);
  wr_tracker : is_Some (zget (ttyWriteTrackers (gl s)) id);
  wr_waiting : Forall (fun x => is_Some (pcbs s !! x.2)) qs;
  wr_access : uaccess false s buf (length bs);
  wr_bytes : ubytes s buf (length bs) = bs }.

(** While the process is suspended, the others leave its memory, the terminal and its
    place at the head of the queue alone, and the terminal reports that it is done. *)
Definition undisturbed (t s' : kstate) : Prop :=
  (exists n ps, writer s' ((n, a) :: ps)) /\ zget (ttyWriteTrackers (gl s')) id = Some TERMINAL_OPEN /\ sent id s' = sent id t.

Lemma writer_view s s' qs : writer s qs -> gl s' = gl s -> pcbs s' = pcbs s -> qst s' = qst s -> same_view s s' -> writer s' qs.
Proof.
  intros [] Hg Hp Hq Hv. split; unfold active, idle in *; rewrite ?Hg, ?Hp; try done.
  - destruct wr_sched0 as (V & rs & x & y & z & K & kt & e0 & e1 & H1 & H2 & H3 & H4 & H5 & H6 & H7 & H8 & [K1 K2 K3 K4]).
    exists V, rs, x, y, z, K, kt, e0, e1. rewrite Hq. do 8 (split; [done|]). destruct Hv as [[_ Ht] (c & m & Hh & _) _].
    pose proof (Ht (PtHeap K)) as Hk. cbn in Hk. split; try done; rewrite ?Hh; try done. by rewrite Hk.
  - by eapply uaccess_view.
  - by rewrite (ubytes_view s s').
Qed.

Lemma writer_trackers s qs v : writer s qs ->
  writer (set_gl (set_ttyWriteTrackers (<[Z.to_nat id := v]> (ttyWriteTrackers (gl s))) (gl s)) s) qs.
Proof.
  intros []. split; try done.
  - destruct wr_sched0 as (V & rs & x & y & z & K & kt & e0 & e1 & H1 & H2 & H3 & H4 & H5 & H6 & H7 & H8 & []).
    exists V, rs, x, y, z, K, kt, e0, e1. done.
  - cbn [gl set_gl ttyWriteTrackers set_ttyWriteTrackers]. destruct wr_tracker0 as [x Hx]. apply zget_is_Some.
    rewrite length_insert. by apply zget_Some in Hx.
Qed.

Lemma writer_transmit s qs v : writer s qs -> writer (set_hw (set_tty_out v (hw s)) s) qs.
Proof.
  intros []. split; try done. destruct wr_sched0 as (V & rs & x & y & z & K & kt & e0 & e1 & H1 & H2 & H3 & H4 & H5 & H6 & H7 & H8 & []).
  exists V, rs, x, y, z, K, kt, e0, e1. done.
Qed.

Lemma sent_transmit s v : sent id (set_hw (set_tty_out ((id, v) :: tty_out (hw s)) (hw s)) s) = sent id s ++ v.
Proof.
  unfold sent. cbn [hw set_hw tty_out set_tty_out rev]. rewrite List.filter_app, map_app, concat_app. cbn [List.filter fst].
  rewrite Z.eqb_refl. cbn. by rewrite app_nil_r.
Qed.

(** *** One transmission *)

Context (fuel : nat) (uctxt : Z).
Hypothesis Hfuel : (0 < fuel)%nat.
Hypothesis Hu : uctxt <> NULL.
Hypothesis Ha : a <> NULL.
Hypothesis MT : MallocTotal L.

#[local] Abbreviation transmits := (finally undisturbed).

Lemma only_read_sent s s' : only_read s s' -> sent id s' = sent id s.
Proof. intros (h & -> & (c & m & -> & _) & _). done. Qed.

(** The terminal is open: the next piece goes out. *)
Lemma transmit_open s qs pos n (P : Z -> kstate -> Prop) : writer s qs ->
  0 <= pos -> 0 < n -> pos + Z.min n TERMINAL_MAX_LINE <= Z.of_nat (length bs) ->
  let k := Z.min n TERMINAL_MAX_LINE in
  (forall s', writer s' qs -> sent id s' = sent id s ++ take (Z.to_nat k) (drop (Z.to_nat pos) bs) -> P k s') ->
  returns (arr_set ttyWriteTrackers set_ttyWriteTrackers id TERMINAL_CLOSED ;;
    let to_write := if n >? TERMINAL_MAX_LINE then TERMINAL_MAX_LINE else n in
    let! bs := read_bytes (buf + pos) (Z.to_nat to_write) in
    upd_hw (fun h => set_tty_out ((id, bs) :: tty_out h) h) ;; ret to_write) s P.
Proof.
  intros Hw Hp Hn Hle k HP. destruct (wr_tracker _ _ Hw) as [t Ht].
  rstep. eapply returns_arr_set; [exact Ht|]. pose proof (writer_trackers s qs TERMINAL_CLOSED Hw) as Hw1. set (s1 := set_gl _ s) in *.
  cbv zeta. assert (Ek : (if n >? TERMINAL_MAX_LINE then TERMINAL_MAX_LINE else n) = k).
  { unfold k. destruct (Z.gtb_spec n TERMINAL_MAX_LINE); lia. }
  rewrite Ek. assert (Hk : 0 <= k) by (unfold k; change TERMINAL_MAX_LINE with 1024; lia).
  assert (El : length bs = (Z.to_nat pos + (Z.to_nat k + (length bs - Z.to_nat pos - Z.to_nat k)))%nat) by lia.
  pose proof (wr_access _ _ Hw1) as Hacc. rewrite El in Hacc. apply uaccess_app in Hacc as [_ Hacc].
  apply uaccess_app in Hacc as [Hacc _]. rewrite Z2Nat.id in Hacc by done.
  assert (Eb : ubytes s1 (buf + pos) (Z.to_nat k) = take (Z.to_nat k) (drop (Z.to_nat pos) bs)).
  { rewrite <- (wr_bytes _ _ Hw1) at 1. rewrite El. unfold ubytes. rewrite zrange_app, map_app, drop_app_length' by (by rewrite length_map, zrange_length).
    rewrite zrange_app, map_app, take_app_length' by (by rewrite length_map, zrange_length).
    rewrite Z.add_0_l, Z2Nat.id by done. clear. generalize (Z.to_nat k). intros m. 
    assert (H : forall c, map (fun j => fbyte (hw s1) (phys s1 (buf + pos + j)).1 (phys s1 (buf + pos + j)).2) (zrange c m) =
      map (fun j => fbyte (hw s1) (phys s1 (buf + j)).1 (phys s1 (buf + j)).2) (zrange (pos + c) m)); [|by rewrite H, Z.add_0_r].
    induction m as [|m IH]; intros c; cbn [zrange map]; [done|]. rewrite IH. f_equal; [by rewrite Z.add_assoc|]. by rewrite Z.add_assoc. }
  rstep. eapply returns_mono; [by apply read_bytes_spec|]. cbv beta. intros r s2 (h & -> & Hm & Hf & ->). rewrite Eb.
  rstep. apply returns_modify. rstep.
  assert (R : only_read s1 (set_hw h s1)) by (by exists h).
  assert (Hw2 : writer (set_hw h s1) qs) by (eapply (writer_view s1); [exact Hw1|done..|by apply only_read_view]).
  apply HP; [by apply writer_transmit|]. rewrite sent_transmit. f_equal. rewrite (only_read_sent _ _ R). done.
Qed.

(** The body of the loop that waits: the process is suspended, and goes on where it was. *)
Lemma wait_switches s qs : writer s qs ->
  switches (let! a := gets active in
    upd_pcb a (set_blocked_code BLOCKED_TTY_TRANSMIT) ;; upd_pcb a (set_tty_terminal id) ;; SwapProcess NULL uctxt ;; ret tt) s
    (fun p m t1 k1 => sent id t1 = sent id s /\ forall t' b w,
      activePCB (gl t') = b -> pcbs t' !! b = Some w -> exists u', k1 t' = Ret tt (set_uc u' t')).
Proof.
  intros Hw. destruct (wr_sched _ _ Hw) as (V & rs & x & y & z & K & kt & e0 & e1 & H1 & H2 & H3 & H4 & H5 & H6 & H7 & H8 & H9).
  assert (Hai : a <> i) by (intros <-; congruence).
  apply switches_after, returns_gets. rewrite (wr_active _ _ Hw).
  apply switches_after. eapply returns_upd_pcb; [exact H4|]. apply switches_after. eapply returns_upd_pcb; [apply lookup_insert_eq|].
  rewrite put_pcb_twice. set (x2 := set_tty_terminal id _). set (s1 := put_pcb a x2 s).
  assert (Hz : exists z1, pcbs s1 !! next_ready i rs = Some z1 /\ kernel_stack_pt z1 = [e0; e1]).
  { unfold s1. cbn. destruct (decide (a = next_ready i rs)) as [En|Hne].
    - rewrite <- En in H7 |- *. rewrite lookup_insert_eq. exists x2. split; [done|]. rewrite H4 in H7. by injection H7 as ->.
    - rewrite lookup_insert_ne by done. by exists z. }
  destruct Hz as (z1 & Hz1 & Hk1).
  pose proof (SwapProcess_spec s1 V a i NULL uctxt x2 y rs z1 K kt e0 e1 MT Hu H1 H2 (wr_active _ _ Hw) (wr_idle _ _ Hw) Ha
    (lookup_insert_eq _ _ _) ltac:(cbn; by rewrite lookup_insert_ne) Hz1 Hk1 ltac:(by destruct H9) (or_introl eq_refl)) as Hsp.
  assert (Eid : (pid x2 =? pid y) = false) by (by apply Z.eqb_neq). cbv zeta in Hsp. rewrite Eid in Hsp. cbn [andb] in Hsp.
  apply switches_before. eapply switches_mono; [exact Hsp|]. cbv beta.
  intros p m t1 k1 (_ & _ & (h & k2 & hw' & -> & _ & _ & _ & Ht' & _) & _ & Hres). split.
  - unfold sent. cbn [hw set_hw]. by rewrite Ht'.
  - intros t' b w Hb Hpw. rewrite (Hres t' b w Hb Hpw). eexists. reflexivity.
Qed.

(** The wait for the terminal, at most once. *)
Lemma write_chunk s n0 ps pos n (P : Z -> kstate -> Prop) : writer s ((n0, a) :: ps) ->
  0 <= pos -> 0 < n -> pos + Z.min n TERMINAL_MAX_LINE <= Z.of_nat (length bs) ->
  let k := Z.min n TERMINAL_MAX_LINE in
  (forall s' n' ps', writer s' ((n', a) :: ps') -> sent id s' = sent id s ++ take (Z.to_nat k) (drop (Z.to_nat pos) bs) -> P k s') ->
  transmits (tty_write_chunk fuel uctxt id buf n pos s) P.
Proof.
  intros Hw Hp Hn Hle k HP. unfold tty_write_chunk. apply finally_bind.
  assert (Hopen : forall s1 n1 ps1, writer s1 ((n1, a) :: ps1) -> sent id s1 = sent id s ->
    transmits ((arr_set ttyWriteTrackers set_ttyWriteTrackers id TERMINAL_CLOSED ;;
      let to_write := if n >? TERMINAL_MAX_LINE then TERMINAL_MAX_LINE else n in
      let! bs := read_bytes (buf + pos) (Z.to_nat to_write) in
      upd_hw (fun h => set_tty_out ((id, bs) :: tty_out h) h) ;; ret to_write) s1) P).
  { intros s1 n1 ps1 Hw1 Hs1. apply finally_returns. eapply transmit_open; [exact Hw1|done..|]. fold k. intros s' Hw' Hs'.
    eapply HP; [exact Hw'|]. by rewrite Hs', Hs1. }
  destruct (wr_tracker _ _ Hw) as [t Ht]. destruct fuel as [|fuel'] eqn:Ef; [lia|]. cbn [mwhile].
  assert (Hget : forall s1 t1, zget (ttyWriteTrackers (gl s1)) id = Some t1 ->
    (let! t := arr_get (fun s => ttyWriteTrackers (gl s)) id in ret (t =? TERMINAL_CLOSED)) s1 = Ret (t1 =? TERMINAL_CLOSED) s1).
  { intros s1 t1 H1. unfold arr_get, bind, gets. cbn [obind]. by rewrite H1. }
  unfold bind at 1. rewrite (Hget s t Ht). cbn [obind]. destruct (Z.eqb_spec t TERMINAL_CLOSED) as [Hc|Hc].
  2:{ cbn [finally ret]. by eapply Hopen. }
  set (body := (let! a0 := gets active in _)). set (rest := fun _ : unit => _).
  pose proof (wait_switches s _ Hw) as Hsw. fold body in Hsw.
  apply (finally_bind undisturbed body rest). eapply finally_switches; [exact Hsw|]. cbv beta.
  intros p m t1 k1 [Hs1 Hk1] s' ((n' & ps' & Hw') & Hop & Hs').
  destruct (wr_sched _ _ Hw') as (_ & _ & w & _ & _ & _ & _ & _ & _ & _ & _ & _ & Hpa & _).
  destruct (Hk1 s' a w) as [u' ->]; [exact (wr_active _ _ Hw')|exact Hpa|]. cbn [finally].
  assert (Hw2 : writer (set_uc u' s') ((n', a) :: ps')).
  { eapply writer_view; [exact Hw'|done..|]. apply same_view_memory. split; [done|]. by intros []. }
  unfold rest. destruct fuel'; cbn [mwhile]; (unfold bind at 1; rewrite (Hget (set_uc u' s') TERMINAL_OPEN Hop); cbn [obind];
    change (TERMINAL_OPEN =? TERMINAL_CLOSED) with false; cbn [finally ret]; eapply Hopen; [exact Hw2|]; by rewrite <- Hs1, <- Hs').
Qed.

(** All pieces: [m] rounds suffice for [left] bytes. *)
Lemma write_loop m : forall s n0 ps pos left (P : Z -> kstate -> Prop), writer s ((n0, a) :: ps) ->
  0 <= pos -> 0 <= left -> pos + left = Z.of_nat (length bs) -> left <= TERMINAL_MAX_LINE * Z.of_nat m ->
  (forall s' n' ps', writer s' ((n', a) :: ps') -> sent id s' = sent id s ++ drop (Z.to_nat pos) bs -> P (Z.of_nat (length bs)) s') ->
  transmits (tty_write_loop fuel m uctxt id buf left pos s) P.
Proof.
  induction m as [|m IH]; intros s n0 ps pos left P Hw Hp Hl Hs Hm HP; cbn [tty_write_loop]; change TERMINAL_MAX_LINE with 1024 in *;
    (destruct (Z.gtb_spec left 0) as [Hpos|Hpos];
      [|cbn; replace pos with (Z.of_nat (length bs)) by lia; eapply HP; [exact Hw|]; rewrite drop_ge by lia; by rewrite app_nil_r]).
  { lia. }
  apply finally_bind. eapply (write_chunk s n0 ps pos left); [exact Hw|lia|lia|change TERMINAL_MAX_LINE with 1024; lia|]. change TERMINAL_MAX_LINE with 1024.
  intros s1 n1 ps1 Hw1 Hs1. eapply (IH s1 n1 ps1); [exact Hw1|lia..|]. intros s' n' ps' Hw' Hs'.
  eapply HP; [exact Hw'|]. rewrite Hs', Hs1, <- app_assoc. f_equal.
  rewrite <- (take_drop (Z.to_nat (Z.min left 1024)) (drop (Z.to_nat pos) bs)) at 2. rewrite drop_drop. do 2 f_equal. lia.
Qed.

(** Its turn comes: the process joins the empty queue of the terminal. *)
Lemma writer_joins s : writer s [] -> exists x, pcbs s !! a = Some x /\
  returns (queue_add q a (pid x)) s (fun _ s' => pcbs s' = pcbs s /\ sent id s' = sent id s /\ writer s' [(pid x, a)]).
Proof.
  intros [H1 H2 (V & rs & x & y & z & K & kt & e0 & e1 & HQ & Hr & Hq & Hx & Hy & Hxy & Hz & Hk & [K1 K2 K3 K4]) H4 H5 H6 H7 H8 H9].
  exists x. split; [done|]. eapply returns_mono; [eapply (qs_add (R := Q)); [exact HQ|exact Hq|exact Ha]|]. cbv beta.
  intros r s' (h & -> & [[_ HQ']|(_ & _ & E)]); [|by destruct (MT _ _ E)]. split; [done|]. split; [done|].
  split; try done.
  - exists (<[q := [] ++ [(pid x, a)]]> V), rs, x, y, z, K, kt, e0, e1. split; [exact HQ'|].
    split; [by rewrite lookup_insert_ne|]. split; [apply lookup_insert_eq|]. do 5 (split; [done|]). by split.
  - apply Forall_cons. split; [by eexists|by apply Forall_nil].
Qed.

(** The end of the call: the process leaves the queue and the next writer is ready. *)
Lemma writer_leaves s n0 ps : writer s ((n0, a) :: ps) ->
  returns (queue_pop q ;; let! n := size_of q in (if n >? 0 then wake_next q else ret tt)) s (fun _ s' =>
    sent id s' = sent id s /\ exists V, Q (qst s') V /\ V !! q = Some ps /\
    match ps with [] => True | (_, p) :: _ => exists rs n, V !! ready_q (gl s') = Some (rs ++ [(n, p)]) end).
Proof.
  intros [H1 H2 (V & rs & x & y & z & K & kt & e0 & e1 & HQ & Hr & Hq & Hx & Hy & Hxy & Hz & Hk & _) H4 H5 H6 H7 H8 H9].
  rstep. eapply returns_mono; [eapply (qs_pop (R := Q)); [exact HQ|exact Hq]|]. cbv beta. intros r s1 (h & -> & _ & HQ1). cbn [tail] in HQ1.
  assert (Hq1 : <[q := ps]> V !! q = Some ps) by apply lookup_insert_eq.
  destruct (qs_size _ _ _ _ HQ1 Hq1) as (j & Hj & Hsz). rstep. eapply returns_size_of; [exact Hj|]. rewrite Hsz.
  destruct ps as [|[n p] ps]; [cbn; split; [done|]; by exists (<[q := []]> V)|].
  destruct (Z.gtb_spec (Z.of_nat (length ((n, p) :: ps))) 0); [|cbn in *; lia].
  apply Forall_cons in H7 as [_ H7]. apply Forall_cons in H7 as [[w Hp] _]. cbn [snd] in Hp.
  destruct (qs_nonnull _ _ _ _ HQ1 Hq1) as [_ Hnn]. apply Forall_cons in Hnn as [Hpn _]. cbn [snd] in Hpn.
  unfold wake_next, qptr. rstep. eapply returns_mono; [eapply (qs_peek (R := Q)); [exact HQ1|exact Hq1]|]. cbv beta.
  intros r' s2 [-> ->]. change (front ((n, p) :: ps)) with p.
  rstep. eapply returns_upd_pcb; [exact Hp|]. rstep. eapply returns_deref; [apply lookup_insert_eq|]. rstep. apply returns_gets.
  rstep. eapply returns_mono; [eapply (qs_add (R := Q)); [exact HQ1|cbn; rewrite lookup_insert_ne; [exact Hr|done]|done]|].
  cbv beta. intros r2 s3 (h3 & -> & [[_ HQ3]|(_ & _ & E)]); [|by destruct (MT _ _ E)]. rstep. split; [done|].
  eexists. split; [exact HQ3|]. split; [|eexists rs, _; apply lookup_insert_eq].
  rewrite lookup_insert_ne by (intros E; by apply H5). exact Hq1.
Qed.


End output.

(** ** Witnesses *)

(** [ex_sched], whose process 70 has the text "hi" in its memory; terminal 0 has the
    queues 5 of writers and 6 of readers, both empty, and the buffer 200. *)
Definition ex_tty_q : qheap := mkQheap
  {[ 1 := mkQueue 0 1 2 2; 3 := mkQueue 0 0 NULL NULL; 5 := mkQueue 0 0 NULL NULL; 6 := mkQueue 0 0 NULL NULL ]}
  {[ 2 := mkQnode 8 80 NULL ]}.
Definition ex_tty_view : gmap Z (list (Z * Z)) := {[ 1 := [(8, 80)]; 3 := []; 5 := []; 6 := [] ]}.
Definition ex_tty_pcb : pcb :=
  set_user_page_table (mkPte 1 3 60 :: replicate 127 pte_zero) (set_kernel_stack_pt (ex_kstack 20) (set_pid 7 pcb_zero)).
Definition ex_tty : kstate :=
  set_pcbs (<[70 := ex_tty_pcb]> ex_sched_pcbs) (set_qst ex_tty_q (set_bufs {[ 200 := replicate 1024 0 ]}
    (set_hw (set_r_vm VM_ENABLED (set_r_ptlr1 MAX_PT_LEN (set_frames {[ 60 := {[ 0 := 104; 1 := 105 ]} ]} (hw ex_sched))))
    (set_gl (set_ttyWriteQueues [5; 5; 5; 5] (set_ttyReadQueues [6; 6; 6; 6] (set_ttyReadbuffers [200; 200; 200; 200] (gl ex_sched))))
      ex_sched)))).

Lemma ex_tty_access write n : Z.of_nat n <= PAGESIZE -> uaccess write ex_tty VMEM_1_BASE n.
Proof.
  intros Hn. split; [done|]. split; [done|]. intros j Hj.
  replace (vpn (VMEM_1_BASE + j)) with 128; [|symmetry; apply (vpn_page 128 j); lia].
  split; [done|]. exists (mkPte 1 3 60). split; [reflexivity|]. by destruct write.
Qed.

Lemma ex_tty_buffer n : Z.of_nat n <= PAGESIZE -> user_buffer ex_tty VMEM_1_BASE n.
Proof.
  intros Hn. split; [by apply ex_tty_access|]. split; [by apply ex_tty_access|].
  intros j k Hj Hk H. apply (f_equal snd) in H. unfold phys in H. cbn [snd] in H.
  change VMEM_1_BASE with (128 * PAGESIZE) in H. rewrite !(Z.add_comm (128 * PAGESIZE)), !Z.mod_add in H by done.
  rewrite !Z.mod_small in H by lia. done.
Qed.

Lemma ex_tty_ok : tty ex_tty 0 200 6 [].
Proof. split; try done; try (cbn; lia). by eexists. Qed.

Lemma ex_tty_qstore : qstore ex_tty_q ex_tty_view.
Proof. apply (qstoreb_ok {[ 1 := [2]; 3 := []; 5 := []; 6 := [] ]}). vm_compute. reflexivity. Qed.


Lemma ex_tty_writer : writer (Q := qstore) 70 75 0 5 VMEM_1_BASE [104; 105] ex_tty [].
Proof.
  split; try done.
  - exists ex_tty_view, [(8, 80)], ex_tty_pcb, (set_kernel_stack_pt (ex_kstack 22) pcb_zero),
      (set_kernel_context 80 (set_kernel_stack_pt (ex_kstack 24) (set_pid 8 pcb_zero))), 50, ex_kt, (mkPte 1 3 24), (mkPte 1 3 25).
    split; [exact ex_tty_qstore|]. do 7 (split; [done|]). by split.
  - by apply ex_tty_access.
Qed.

