(* ===== verification/Machine.v ===== *)
(** * The machine that runs the kernel

    The interrupt vector table of [KernelStart], the suspended kernel
    computations that wait for a context switch, and the steps of the machine:
    user code runs, a trap enters its handler, a context switch resumes another
    computation.  Invariants of all reachable machines by rule induction. *)

From Stdlib Require Import ZArith Lia.
From stdpp Require Import base gmap list relations.
From S2P Require Import Prelude Hardware State Logic KList KQueue KPipe Memory Frames Process ContextSwitch Sched LoadProgram Boot SyscallsProc SyscallsIO SyscallsSync Traps.

Open Scope Z_scope.

(** ** Traps *)

Section machine.
Context `{L : Libc} `{FS : FileSystem} (fuel : nat).

(** The table [KernelStart] fills; [input] is what the terminal delivers. *)
Definition InterruptVectorTable (input : list Z) : list (option (Z -> M unit)) :=
  [Some (TrapKernelHandler fuel); Some TrapClockHandler; Some TrapIllegalHandler;
   Some TrapMemoryHandler; Some TrapMathHandler; Some (TrapTTYReceiveHandler input);
   Some TrapTTYTransmitHandler; Some TrapDiskHandler] ++
  replicate (Z.to_nat (TRAP_VECTOR_SIZE - 8)) None.

(** The handler of a trap; a trap without one halts the machine. *)
Definition interrupt (input : list Z) (trap ctx : Z) : M unit :=
  match zget (InterruptVectorTable input) trap with
  | Some (Some handler) => handler ctx
  | _ => raise FHalt
  end.

(** ** Machines

    The kernel's state between traps, and the suspended computations by the
    name of their kernel context. *)
Record machine := mkMachine {
  ks : kstate;
  susp : gmap Z (kstate -> outcome unit) }.

(** Run a handler to its end: at a context switch the rest of the computation
    is suspended and the named one resumed, once. *)
Inductive settles : outcome unit -> gmap Z (kstate -> outcome unit) -> machine -> Prop :=
  | settles_ret u s S : settles (Ret u s) S (mkMachine s S)
  | settles_switch p n s k k' S m :
      <[p := k]> S !! n = Some k' -> settles (k' s) (delete n (<[p := k]> S)) m ->
      settles (Switch p n s k) S m
  | settles_clone c s k S m : settles (k s) (<[c := k]> S) m -> settles (Clone c s k) S m.

(** The same as a function of the number of switches. *)
Fixpoint settle (n : nat) (o : outcome unit) (S : gmap Z (kstate -> outcome unit)) : option machine :=
  match o, n with
  | Ret _ s, _ => Some (mkMachine s S)
  | Switch p t s k, Datatypes.S n' =>
      match <[p := k]> S !! t with
      | Some k' => settle n' (k' s) (delete t (<[p := k]> S))
      | None => None
      end
  | Clone c s k, Datatypes.S n' => settle n' (k s) (<[c := k]> S)
  | _, _ => None
  end.

(** What user code may do between traps: any values in its registers (and in
    what the hardware reports with the next trap), any bytes in memory. *)
Definition user_step (s s' : kstate) : Prop :=
  exists u h, hw_mem_only (hw s) h /\ s' = set_uc u (set_hw h s).

Inductive step (ctx : Z) : machine -> machine -> Prop :=
  | step_user s s' S : user_step s s' -> step ctx (mkMachine s S) (mkMachine s' S)
  | step_trap input trap s S m : settles (interrupt input trap ctx s) S m -> step ctx (mkMachine s S) m.

(** ** Invariants *)

(** [I] holds of the kernel's state, and every suspended computation keeps it. *)
Definition machine_inv (I : kstate -> Prop) (m : machine) : Prop :=
  I (ks m) /\ forall p k, susp m !! p = Some k -> forall s, I s -> okeeps I (k s).

Lemma settle_settles n o S m : settle n o S = Some m -> settles o S m.
Proof.
  revert o S. induction n as [|n IH]; intros [u s|e|p t s k|c s k] S; cbn [settle]; try done.
  - intros [= <-]. constructor.
  - intros [= <-]. constructor.
  - destruct (<[p:=k]> S !! t) as [k'|] eqn:E; [|done]. intros H. econstructor; [done|]. by apply IH.
  - intros H. constructor. by apply IH.
Qed.

Lemma settles_inv I o S m :
  settles o S m -> okeeps I o -> (forall p k, S !! p = Some k -> forall s, I s -> okeeps I (k s)) ->
  machine_inv I m.
Proof.
  induction 1 as [u s S|p n s k k' S m E _ IH|c s k S m _ IH]; cbn; intros Ho HS.
  - by split.
  - destruct Ho as [Hs Hk].
    assert (HS' : forall q j, <[p := k]> S !! q = Some j -> forall t, I t -> okeeps I (j t)).
    { intros q j. destruct (decide (p = q)) as [<-|]; [rewrite lookup_insert_eq; by intros [= <-]|].
      rewrite lookup_insert_ne by done. apply HS. }
    apply IH; [by apply (HS' n)|]. intros q j. rewrite lookup_delete_Some. intros [_ E']. by apply (HS' q).
  - destruct Ho as [Hs Hk]. apply IH; [by apply Hk|]. intros q j.
    destruct (decide (c = q)) as [<-|]; [rewrite lookup_insert_eq; by intros [= <-]|].
    rewrite lookup_insert_ne by done. apply HS.
Qed.

(** An invariant of user steps and of every handler holds in all reachable machines. *)
Lemma reachable_inv (I : kstate -> Prop) ctx m m' :
  (forall s s', user_step s s' -> I s -> I s') -> (forall input trap, keeps I (interrupt input trap ctx)) ->
  machine_inv I m -> rtc (step ctx) m m' -> machine_inv I m'.
Proof.
  intros Hu Ht Hm Hr. revert Hm. induction Hr as [|m m1 m2 Hs _ IH]; [done|].
  intros [HI HS]. apply IH. destruct Hs as [s s' S Hus|input trap s S m Hset].
  - split; [by eapply Hu|done].
  - eapply settles_inv; [exact Hset|by apply Ht|done].
Qed.

End machine.
