(* ===== verification/Turns.v ===== *)
(** * Taking turns: the clock on the whole machine

    The scheduler, the context switch, the clock's handler and the suspended
    computations of the machine together: processes that have been interrupted by the
    clock run again in the order in which they were interrupted. *)

From Stdlib Require Import ZArith Lia.
From stdpp Require Import base gmap list.
From S2P Require Import Prelude Hardware State Logic KList KQueue Memory Frames Process ContextSwitch Sched LoadProgram Boot SyscallsProc SyscallsIO SyscallsSync Traps Machine.

Open Scope Z_scope.

Section turns.
Context `{L : Libc} `{FS : FileSystem} {Q : qheap -> gmap Z (list (Z * Z)) -> Prop} {QS : QueueStore L Q}.
Context (MT : MallocTotal L) (fuel : nat) (ctx : Z) (Hctx : ctx <> NULL).

(** A computation suspended in the clock's handler: it takes the stack pointer and program
    counter of the process that is then active, and goes over the blocked queue. *)
Definition in_clock (k : kstate -> outcome unit) : Prop :=
  exists u, forall t b w, active t = b -> pcbs t !! b = Some w ->
    k t = wake_blocked (set_uc (uc_set_pc (uc_pc (user_context w)) (uc_set_sp (uc_sp (user_context w)) u)) t).

(** An entry of the ready queue whose process the clock has interrupted. *)
Definition parked (m : machine) (e : Z * Z) : Prop :=
  exists z e0 e1 k, pcbs (ks m) !! e.2 = Some z /\ kernel_stack_pt z = [e0; e1] /\ kernel_context z = e.2 /\
    susp m !! e.2 = Some k /\ in_clock k.

(** Process [a] runs, and the first [n] ready processes are parked. *)
Record in_turn (m : machine) (a : Z) (ys : list (Z * Z)) (n : nat) : Prop := {
  it_active : active (ks m) = a;
  it_self : a <> NULL /\ is_Some (pcbs (ks m) !! a);
  it_idle : is_Some (pcbs (ks m) !! idle (ks m));
  it_queues : exists V xs, waiting (Q := Q) (ks m) V xs ys;
  it_table : exists K kt, on_kernel_table (ks m) K kt;
  it_many : (n <= length ys)%nat;
  it_distinct : NoDup (a :: (take n ys).*2);
  it_parked : Forall (parked m) (take n ys) }.

(** A tick of the clock, after whatever the running program did. *)
Inductive ticks : nat -> machine -> machine -> Prop :=
  | ticks_0 m : ticks 0 m m
  | ticks_user n s s' S m : user_step s s' -> ticks n (mkMachine s' S) m -> ticks n (mkMachine s S) m
  | ticks_S n input s S m m' : settles (interrupt fuel input TRAP_CLOCK ctx s) S m -> ticks n m m' ->
      ticks (Datatypes.S n) (mkMachine s S) m'.

Lemma settles_det o S m1 : settles o S m1 -> forall m2, settles o S m2 -> m1 = m2.
Proof.
  induction 1 as [u s S|p n s k k' S m E _ IH|c s k S m _ IH]; intros m2 H2; inversion H2; subst; [done| |by apply IH].
  match goal with E2 : <[p := k]> S !! n = Some ?k2 |- _ => rewrite E in E2; injection E2 as <- end. by apply IH.
Qed.

Lemma with_kstack_length kt e0 e1 : length kt = Z.to_nat KERNEL_PT_SIZE ->
  length (with_kstack kt [e0; e1]) = Z.to_nat KERNEL_PT_SIZE.
Proof. intros H. rewrite <- (with_kstack_insert kt e0 e1 H). by rewrite !length_insert. Qed.

Lemma in_turn_user s s' S a ys n : user_step s s' -> in_turn (mkMachine s S) a ys n -> in_turn (mkMachine s' S) a ys n.
Proof.
  intros Hu [H1 H2 H3 (V & xs & Hw) (K & kt & Hk) H6 H7 H8]. pose proof Hu as (u & h & (c & m & -> & _) & ->). split; try done.
  - destruct Hw as [W1 W2 W3 W4 W5 W6]. exists V, xs. by split.
  - destruct Hk as [K1 K2 K3 K4]. exists K, kt. by split.
Qed.

(** The switch of a tick. *)
Lemma tick_switches s V xs ys a j p x y z K kt e0 e1 : waiting (Q := Q) s V xs ((j, p) :: ys) -> active s = a -> a <> NULL ->
  pcbs s !! a = Some x -> pcbs s !! idle s = Some y -> pcbs s !! p = Some z -> kernel_stack_pt z = [e0; e1] ->
  kernel_context z = p -> p <> a -> on_kernel_table s K kt ->
  switches (TrapClockHandler ctx) s (fun q t s1 k => q = a /\ t = p /\ in_clock k /\
    swapped (set_gl (set_global_clock_ticks (global_clock_ticks (gl s) + 1) (gl s)) s) s1 a p K x kt [e0; e1] /\
    exists V1 caller, waiting (Q := Q) s1 V1 xs (ys ++ caller)).
Proof.
  intros [W1 W2 W3 W4 W5 W6] Ha Hn Hx Hy Hz Hks Hkc Hpa [K1 K2 K3 K4]. unfold TrapClockHandler, qptr.
  apply switches_after. rstep. apply switches_after. rstep.
  change (ready_q (gl (set_gl _ s))) with (ready_q (gl s)).
  set (s1 := set_gl _ s). apply switches_before.
  pose proof (SwapProcess_spec s1 V a (idle s) (ready_q (gl s)) ctx x y ((j, p) :: ys) z K kt e0 e1 MT Hctx W1 W3 Ha eq_refl
    Hn Hx Hy Hz Hks ltac:(by split) ltac:(right; by eexists)) as Hsw.
  cbv zeta in Hsw. cbn [next_ready] in Hsw. rewrite (bool_decide_false (_ :: _ = [])), andb_false_r, decide_False in Hsw by done.
  rewrite Hkc in Hsw. eapply switches_mono; [exact Hsw|]. cbv beta.
  intros q t s2 k (-> & -> & Hs2 & HQ2 & Hk). do 2 (split; [done|]). split; [|split; [exact Hs2|]].
  - exists (uc s1). intros u b w Hb Hw. by rewrite (Hk u b w Hb Hw).
  - destruct Hs2 as (h & k2 & hw2 & -> & _). unfold queues_after in HQ2. change (ready_q (gl s1)) with (ready_q (gl s)) in HQ2.
    rewrite W3 in HQ2. cbn [default id tail] in HQ2. rewrite lookup_insert_eq in HQ2. cbn [default id] in HQ2.
    destruct (qs_nonnull _ _ _ _ W1 W3) as [Hrq _].
    eexists _, (if pid x =? pid y then [] else [(pid x, a)]). split; [exact HQ2|..].
    + destruct (_ || _); rewrite ?lookup_insert_ne by (by apply not_eq_sym); exact W2.
    + destruct (Z.eqb_spec (ready_q (gl s)) NULL); [done|]. destruct (pid x =? pid y); cbn [orb];
        rewrite lookup_insert_eq, ?app_nil_r; done.
    + exact W4.
    + exact W5.
    + intros r Hr. destruct (W6 r Hr) as (w & Hw & Ht). destruct (decide (r = a)) as [->|Hra].
      * rewrite Hx in Hw. injection Hw as <-. eexists. split; [apply lookup_insert_eq|exact Ht].
      * exists w. split; [|exact Ht]. cbn. by rewrite lookup_insert_ne.
Qed.

(** A tick: the head of the ready queue runs, the others move up. *)
Lemma clock_tick s S a e ys n : in_turn (mkMachine s S) a (e :: ys) (Datatypes.S n) ->
  exists m' ys', (forall input, settles (interrupt fuel input TRAP_CLOCK ctx s) S m') /\ in_turn m' e.2 ys' n /\ take n ys' = take n ys.
Proof.
  intros [H1 [Hn [x Hx]] [y Hy] (V & xs & Hw) (K & kt & Hk) Hlen Hd Hp]. destruct e as [j p]. cbn [ks susp snd take fmap list_fmap length] in *.
  apply NoDup_cons in Hd as [Had Hd]. apply not_elem_of_cons in Had as [Hap Had]. apply NoDup_cons in Hd as [Hpd Hd].
  apply Forall_cons in Hp as [(z & e0 & e1 & k' & Hz & Hks & Hkc & HS & u & Hk') Hp]. cbn [ks susp snd] in *.
  pose proof (tick_switches s V xs ys a j p x y z K kt e0 e1 Hw H1 Hn Hx Hy Hz Hks Hkc (not_eq_sym Hap) Hk) as Hsw.
  unfold switches in Hsw. destruct (TrapClockHandler ctx s) as [| |q t s1 k|] eqn:E; try done.
  destruct Hsw as (-> & -> & Hkk & Hs1 & V1 & caller & Hw1).
  destruct Hs1 as (h & c & hw' & Es & Eb1 & Eb0 & Ef & Eo & Et).
  assert (Hpc : forall r w, pcbs s !! r = Some w -> exists w', pcbs s1 !! r = Some w' /\ (r <> a -> w' = w)).
  { intros r w Hr. rewrite Es. destruct (decide (r = a)) as [->|Hra]; [eexists; split; [apply lookup_insert_eq|done]|].
    exists w. split; [|done]. cbn. by rewrite lookup_insert_ne. }
  assert (Hz1 : pcbs s1 !! p = Some z) by (destruct (Hpc p z Hz) as (w & Hw' & Ew); by rewrite Hw', Ew by done).
  assert (Ha1 : active s1 = p) by (by rewrite Es).
  set (s2 := set_uc (uc_set_pc (uc_pc (user_context z)) (uc_set_sp (uc_sp (user_context z)) u)) s1).
  assert (Hw2 : waiting (Q := Q) s2 V1 xs (ys ++ caller)) by (by destruct Hw1; split).
  pose proof (pass_waiting s2 V1 xs (ys ++ caller) MT Hw2) as Hpass. apply returns_eq in Hpass as (r & s3 & E3 & HP).
  destruct HP as (V3 & st & rd & Hw3 & (m3 & h3 & n3 & Es3 & Hl) & _).
  exists (mkMachine s3 (delete p (<[a := k]> S))), ((ys ++ caller) ++ rd). split; [|split].
  - intros input. change (settles (TrapClockHandler ctx s) S (mkMachine s3 (delete p (<[a := k]> S)))). rewrite E.
    eapply settles_switch; [by rewrite lookup_insert_ne|]. rewrite (Hk' s1 p z Ha1 Hz1). fold s2. rewrite E3. constructor.
  - assert (Hl' : forall q w, pcbs s !! q = Some w -> exists w', pcbs s3 !! q = Some w' /\ (q <> a -> same_kernel w w')).
    { intros q w Hq. destruct (Hpc q w Hq) as (w1 & Hq1 & Hqa). destruct (Hl q w1 Hq1) as (w2 & Hq2 & Hsame).
      exists w2. rewrite Es3. split; [exact Hq2|]. intros Hne. by rewrite <- (Hqa Hne). }
    destruct (qs_nonnull _ _ _ _ (wt_store _ _ _ _ Hw) (wt_ready _ _ _ _ Hw)) as [_ Hnn].
    apply Forall_cons in Hnn as [Hpn _]. cbn [snd] in Hpn.
    assert (Eg : gl s3 = set_activePCB p (set_global_clock_ticks (global_clock_ticks (gl s) + 1) (gl s))) by (rewrite Es3; cbn; by rewrite Es).
    assert (Etk : take n ((ys ++ caller) ++ rd) = take n ys) by (rewrite !take_app_le; [done|lia|rewrite length_app; lia]).
    split; cbn [ks susp]; rewrite ?Etk.
    + unfold active. by rewrite Eg.
    + split; [done|]. destruct (Hl' p z Hz) as (w & -> & _). by eexists.
    + unfold idle. rewrite Eg. destruct (Hl' _ y Hy) as (w & Hw' & _). by exists w.
    + by exists V3, st.
    + exists K, (with_kstack kt [e0; e1]). destruct Hk as [K1 K2 K3 K4].
      assert (Eh : hw s3 = hw') by (rewrite Es3; cbn; by rewrite Es).
      split; [by rewrite Eh| |by apply with_kstack_length|by rewrite Eh, Eb1].
      rewrite Es3. cbn. rewrite Es. apply lookup_insert_eq.
    + rewrite !length_app. lia.
    + by apply NoDup_cons.
    + rewrite Forall_forall in Hp |- *. intros [i q] Hin. destruct (Hp _ Hin) as (w & f0 & f1 & kq & Hq1 & Hq2 & Hq3 & Hq4 & Hq5).
      cbn [ks susp snd] in *. assert (Hq : q ∈ (take n ys).*2) by (apply list_elem_of_fmap; by exists (i, q)).
      destruct (Hl' q w Hq1) as (w' & Hw' & Hsame). destruct Hsame as (Sa & Sb & _); [by intros ->|].
      exists w', f0, f1, kq. split; [done|]. rewrite Sa, Sb. split; [done|]. split; [done|]. split; [|done].
      cbn [ks susp snd]. rewrite lookup_delete_ne by (by intros ->). by rewrite lookup_insert_ne by (by intros ->).
  - rewrite !take_app_le; [done|lia|rewrite length_app; lia].
Qed.

(** Who runs after [k] ticks. *)
Definition turn (a : Z) (ys : list (Z * Z)) (k : nat) : Z :=
  match k with O => a | Datatypes.S i => from_option snd a (ys !! i) end.

Lemma ticks_in_turn k m m' : ticks k m m' -> forall a ys n, in_turn m a ys n -> (k <= n)%nat -> active (ks m') = turn a ys k.
Proof.
  induction 1 as [m|k s s' S m Hu _ IH|k input s S m m' Hs _ IH]; intros a ys n Ht Hk.
  - apply (it_active _ _ _ _ Ht).
  - apply (IH a ys n); [by eapply in_turn_user|done].
  - destruct n as [|n]; [lia|]. destruct ys as [|e ys]; [pose proof (it_many _ _ _ _ Ht); cbn in *; lia|].
    destruct (clock_tick s S a e ys n Ht) as (m1 & ys1 & Hs1 & Ht1 & Etk).
    rewrite (settles_det _ _ _ (Hs1 input) _ Hs) in Ht1. rewrite (IH e.2 ys1 n Ht1) by lia.
    destruct k as [|k]; [done|]. cbn [turn lookup list_lookup].
    assert (Ek : ys1 !! k = ys !! k) by (rewrite <- (lookup_take_lt ys1 n), <- (lookup_take_lt ys n), Etk; [done|lia|lia]).
    rewrite Ek. destruct (ys !! k) eqn:Ey; [done|]. apply lookup_ge_None in Ey.
    pose proof (it_many _ _ _ _ Ht). cbn [length] in *. lia.
Qed.

Lemma ticks_possible k : forall m a ys n, in_turn m a ys n -> (k <= n)%nat -> exists m', ticks k m m'.
Proof.
  induction k as [|k IH]; intros [s S] a ys n Ht Hk; [eexists; apply ticks_0|].
  destruct n as [|n]; [lia|]. destruct ys as [|e ys]; [pose proof (it_many _ _ _ _ Ht); cbn in *; lia|].
  destruct (clock_tick s S a e ys n Ht) as (m1 & ys1 & Hs1 & Ht1 & _).
  destruct (IH m1 e.2 ys1 n Ht1) as [m' Hm]; [lia|]. exists m'. by eapply (ticks_S _ []).
Qed.


End turns.

(** ** Witness *)

(** Process 70 runs, the clock has interrupted 80 and then 90, in that order. *)
Definition ex_turns_pcbs : gmap Z pcb :=
  <[90 := set_kernel_context 90 (set_kernel_stack_pt (ex_kstack 26) (set_pid 9 pcb_zero))]> ex_sched_pcbs.

Definition ex_turns_q : qheap := mkQheap
  {[ 1 := mkQueue 0 2 2 4; 3 := mkQueue 0 0 NULL NULL ]} {[ 2 := mkQnode 8 80 4; 4 := mkQnode 9 90 NULL ]}.

Definition ex_clock_rest (t : kstate) : outcome unit :=
  match pcbs t !! active t with
  | Some w => wake_blocked (L := bump_libc) (set_uc (uc_set_pc (uc_pc (user_context w)) (uc_set_sp (uc_sp (user_context w)) uctxt_zero)) t)
  | None => Fault FBadPtr
  end.

Definition ex_turns : machine :=
  mkMachine (set_pcbs ex_turns_pcbs (set_qst ex_turns_q ex_sched)) {[ 80 := ex_clock_rest; 90 := ex_clock_rest ]}.

Lemma ex_in_clock : in_clock (L := bump_libc) ex_clock_rest.
Proof. exists uctxt_zero. intros t b w Hb Hw. unfold ex_clock_rest. by rewrite Hb, Hw. Qed.

Lemma ex_in_turn : in_turn (L := bump_libc) (Q := qstore) ex_turns 70 [(8, 80); (9, 90)] 2.
Proof.
  split.
  - done.
  - by split.
  - by eexists.
  - exists {[ 1 := [(8, 80); (9, 90)]; 3 := [] ]}, []. split; try done; [|constructor|by intros p ?%not_elem_of_nil].
    apply (qstoreb_ok {[ 1 := [2; 4]; 3 := [] ]}). vm_compute. reflexivity.
  - exists 50, ex_kt. by split.
  - cbn. lia.
  - by apply (bool_decide_unpack _).
  - constructor; [|constructor; [|constructor]].
    all: do 4 eexists; split; [reflexivity|]; split; [reflexivity|]; split; [reflexivity|]; split; [reflexivity|exact ex_in_clock].
Qed.

