(* ===== verification/Invariants.v ===== *)
(** * The kernel's type invariant

    [kernel_wf]: the page tables, the buffers of every pipe and the arrays of the
    globals keep their declared sizes, the entries of the tables stay in the range of
    their bit fields, pipes hold between none and
    [PIPE_BUFFER_LEN] bytes, and no entry of [lock_status] or [cvar_status] ever
    changes.  Every operation of the kernel keeps it, at each return and each
    context switch, and so do all reachable machines. *)

From Stdlib Require Import ZArith Lia.
From stdpp Require Import base gmap list relations.
From S2P Require Import Prelude Hardware State Logic KList KQueue KPipe Memory Frames Process ContextSwitch Sched LoadProgram Boot SyscallsProc SyscallsIO SyscallsSync Traps Machine.

Open Scope Z_scope.

(** ** The invariant *)

(** A table of [n] entries whose bit fields are in range. *)
Definition table_ok (n : Z) (t : list pte) : Prop := length t = Z.to_nat n /\ Forall pte_ok t.

Definition pcb_ok (x : pcb) : Prop :=
  table_ok USER_PT_SIZE (user_page_table x) /\ table_ok KERNEL_STACK_SIZE (kernel_stack_pt x).

#[export] Instance pte_ok_dec e : Decision (pte_ok e).
Proof. unfold pte_ok. apply _. Defined.

#[export] Instance table_ok_dec n t : Decision (table_ok n t).
Proof. unfold table_ok. apply _. Defined.

#[export] Instance pcb_ok_dec x : Decision (pcb_ok x).
Proof. unfold pcb_ok. apply _. Defined.

(** All locks are [UNUSED_LOCK] and all condition variables [UNUSED_CVAR]. *)
Definition all_unused (g : kglob) : Prop :=
  lock_status g = replicate (Z.to_nat MAX_LOCKS) UNUSED_LOCK /\
  cvar_status g = replicate (Z.to_nat MAX_CVARS) UNUSED_CVAR.

Definition arrays_ok (g : kglob) : Prop :=
  length (ttyReadQueues g) = Z.to_nat NUM_TERMINALS /\ length (ttyWriteQueues g) = Z.to_nat NUM_TERMINALS /\
  length (ttyReadbuffers g) = Z.to_nat NUM_TERMINALS /\ length (ttyWriteTrackers g) = Z.to_nat NUM_TERMINALS /\
  length (ttyReadTrackers g) = Z.to_nat NUM_TERMINALS /\
  length (lockAquireQueues g) = Z.to_nat MAX_LOCKS /\ length (cvarWaitQueues g) = Z.to_nat MAX_CVARS.

Definition glob_ok (g : kglob) : Prop := all_unused g /\ arrays_ok g.

Definition kernel_wf (s : kstate) : Prop :=
  map_Forall (fun _ => pcb_ok) (pcbs s) /\ map_Forall (fun _ => pipe_wf) (pipes s) /\ glob_ok (gl s) /\
  map_Forall (fun _ => table_ok KERNEL_PT_SIZE) (ptabs s).

(** ** The primitives keep it *)

Abbreviation keepsI m := (keeps kernel_wf m).

(** State changes the invariant does not see. *)
Definition unseen (f : kstate -> kstate) : Prop :=
  forall s, pcbs (f s) = pcbs s /\ pipes (f s) = pipes s /\ gl (f s) = gl s /\ ptabs (f s) = ptabs s.

Lemma wf_unseen s s' : pcbs s' = pcbs s -> pipes s' = pipes s -> gl s' = gl s -> ptabs s' = ptabs s ->
  kernel_wf s -> kernel_wf s'.
Proof. unfold kernel_wf. by intros -> -> -> ->. Qed.

Lemma keeps_unseen f : unseen f -> keepsI (modify f).
Proof. intros H. apply keeps_modify. intros s. destruct (H s) as (?&?&?&?). by apply wf_unseen. Qed.

Lemma keeps_upd_hw f : keepsI (upd_hw f).
Proof. by apply keeps_unseen. Qed.

Lemma keeps_get_pcb p : keepsI (get_pcb p).
Proof. apply keeps_deref. Qed.

Lemma wf_put_pcb p x s : pcb_ok x -> kernel_wf s -> kernel_wf (put_pcb p x s).
Proof. intros Hx (H1 & H2 & H3). split; [|done]. by apply map_Forall_insert_2. Qed.

Lemma wf_put_pipe p x s : pipe_wf x -> kernel_wf s -> kernel_wf (put_pipe p x s).
Proof. intros Hx (H1 & H2 & H3). split; [done|]. split; [|done]. by apply map_Forall_insert_2. Qed.

Lemma keeps_upd_pcb p f : (forall x, pcb_ok x -> pcb_ok (f x)) -> keepsI (upd_pcb p f).
Proof.
  intros Hf s Hs. unfold upd_pcb, get_pcb, bind, deref. destruct (pcbs s !! p) as [x|] eqn:E; [|done].
  cbn. apply wf_put_pcb; [|done]. apply Hf. by apply (proj1 Hs p).
Qed.

Lemma keeps_upd_pipe p f : (forall x, pipe_wf x -> pipe_wf (f x)) -> keepsI (upd_pipe p f).
Proof.
  intros Hf s Hs. unfold upd_pipe, get_pipe_obj, bind, deref. destruct (pipes s !! p) as [x|] eqn:E; [|done].
  cbn. apply wf_put_pipe; [|done]. apply Hf. by apply (proj1 (proj2 Hs) p).
Qed.

Lemma keeps_upd_gl f : (forall g, glob_ok g -> glob_ok (f g)) -> keepsI (upd_gl f).
Proof.
  intros Hf. apply keeps_modify. intros s (H1 & H2 & H3 & H4). do 2 (split; [done|]). split; [by apply Hf|done].
Qed.

Lemma keeps_get_uc u : keepsI (get_uc u).
Proof. unfold get_uc. case_on; [apply keeps_raise|apply keeps_gets]. Qed.

Lemma keeps_upd_uc u f : keepsI (upd_uc u f).
Proof. unfold upd_uc. case_on; [apply keeps_raise|by apply keeps_unseen]. Qed.

Lemma keeps_switch p n : keepsI (ctx_switch p n).
Proof. by apply keeps_ctx_switch. Qed.

Lemma keeps_clone c : keepsI (ctx_clone c).
Proof. by apply keeps_ctx_clone. Qed.

Lemma keeps_if {A} (b : bool) (m m' : M A) : keepsI m -> keepsI m' -> keepsI (if b then m else m').
Proof. by destruct b. Qed.

Lemma keeps_arr_set {A} get (put : list A -> kglob -> kglob) i v :
  (forall g l, glob_ok g -> zset i v (get g) = Some l -> glob_ok (put l g)) -> keepsI (arr_set get put i v).
Proof.
  intros H s Hs. unfold arr_set, bind, gets. cbn. destruct (zset i v (get (gl s))) eqn:E; [|done].
  cbn. destruct Hs as (H1 & H2 & H3 & H4). do 2 (split; [done|]). split; [by eapply H|done].
Qed.

(** A store of the value all elements have changes nothing. *)
Lemma zset_replicate {A} i n (v : A) l : zset i v (replicate n v) = Some l -> l = replicate n v.
Proof.
  unfold zset. case_bool_decide as Hi; [|done]. intros [= <-]. apply list_insert_id.
  rewrite length_replicate in Hi. apply lookup_replicate_2. lia.
Qed.

Lemma keeps_malloc `{L : Libc} {A} (put : Z -> A -> kstate -> kstate) init :
  (forall a s, kernel_wf s -> kernel_wf (put a init s)) -> keepsI (malloc put init).
Proof. intros H s Hs. cbn. case_on; [done|]. by apply H. Qed.

(** *** Page tables *)

Lemma keeps_get_table t : keepsI (get_table t).
Proof. intros s Hs. unfold get_table. by destruct (pt_table t s). Qed.

Lemma keeps_pt_get t i : keepsI (pt_get t i).
Proof. apply keeps_bind; [apply keeps_get_table|intros; apply keeps_in_bounds]. Qed.

Lemma wf_alter f p s : (forall x, pcbs s !! p = Some x -> pcb_ok x -> pcb_ok (f x)) ->
  kernel_wf s -> kernel_wf (set_pcbs (alter f p (pcbs s)) s).
Proof.
  intros Hf (H1 & H2 & H3). split; [|done]. intros q y. cbn. rewrite lookup_alter_Some.
  intros [(<- & x & Hx & ->)|(Hne & Hy)]; [|by apply (H1 q)]. apply Hf; [done|]. by apply (H1 p).
Qed.

Lemma wf_pt_put t l l' s : pt_table t s = Some l -> (forall n, table_ok n l -> table_ok n l') ->
  kernel_wf s -> kernel_wf (pt_put_table t l' s).
Proof.
  intros Ht Hl Hs. destruct t as [|a|p|p]; cbn in *; [done| | |].
  - destruct Hs as (H1 & H2 & H3 & H4). do 3 (split; [done|]). apply map_Forall_insert_2; [|done]. by apply Hl, (H4 a).
  - apply wf_alter; [|done]. intros x Hx [H1 H2]. rewrite Hx in Ht. injection Ht as <-. split; cbn; auto.
  - apply wf_alter; [|done]. intros x Hx [H1 H2]. rewrite Hx in Ht. injection Ht as <-. split; cbn; auto.
Qed.

(** A store keeps the bits that fit the field. *)
Lemma land_ones_range v n : 0 <= n -> 0 <= Z.land v (Z.ones n) < 2 ^ n.
Proof. intros Hn. rewrite Z.land_ones by done. apply Z.mod_pos_bound. by apply Z.pow_pos_nonneg. Qed.

Lemma pte_ok_set_valid v e : pte_ok e -> pte_ok (set_valid v e).
Proof. intros (H1 & H2 & H3). split; [exact (land_ones_range v 1 ltac:(done))|done]. Qed.

Lemma pte_ok_set_prot v e : pte_ok e -> pte_ok (set_prot v e).
Proof. intros (H1 & H2 & H3). split; [done|]. split; [exact (land_ones_range v 3 ltac:(done))|done]. Qed.

Lemma pte_ok_set_pfn v e : pte_ok e -> pte_ok (set_pfn v e).
Proof. intros (H1 & H2 & H3). do 2 (split; [done|]). exact (land_ones_range v 24 ltac:(done)). Qed.

Lemma pte_ok_zero : pte_ok pte_zero.
Proof. done. Qed.

#[local] Hint Resolve pte_ok_set_valid pte_ok_set_prot pte_ok_set_pfn pte_ok_zero : yalnix.

Lemma pte_ok_region0_entry `{I : Image} brk i : pte_ok (region0_entry brk i).
Proof. unfold region0_entry, entry_of. repeat case_match; auto 10 with yalnix. Qed.

#[local] Hint Resolve pte_ok_region0_entry : yalnix.

Lemma keeps_pt_upd t i f : (forall e, pte_ok e -> pte_ok (f e)) -> keepsI (pt_upd t i f).
Proof.
  intros Hf s Hs. unfold pt_upd, bind, get_table. destruct (pt_table t s) as [l|] eqn:Ht; [|done]. cbn [obind].
  destruct (zget l i) as [e|] eqn:He; [|done]. cbn [in_bounds ret obind modify].
  assert (Hs' : kernel_wf (pt_put_table t (<[Z.to_nat i := f e]> l) s)).
  { eapply wf_pt_put; [done| |done]. intros n [H1 H2]. split; [by rewrite length_insert|].
    apply Forall_insert; [done|]. apply Hf. unfold zget in He. case_bool_decide; [|done].
    by eapply Forall_lookup_1. }
  destruct (decide _); [done|]. by apply keeps_upd_hw.
Qed.

Lemma keeps_free_pt u : keepsI (modify (fun s => set_ptabs (delete u (ptabs s)) s)).
Proof. apply keeps_modify. intros s (H1 & H2 & H3 & H4). do 3 (split; [done|]). by apply map_Forall_delete. Qed.

Lemma wf_put_pt a n s : kernel_wf s -> n = Z.to_nat KERNEL_PT_SIZE -> kernel_wf (put_pt a (replicate n pte_zero) s).
Proof.
  intros (H1 & H2 & H3 & H4) ->. do 3 (split; [done|]). apply map_Forall_insert_2; [|done].
  split; [apply length_replicate|]. by apply Forall_replicate.
Qed.

Lemma keeps_translate w a : keepsI (translate w a).
Proof. intros s Hs. unfold translate. by repeat (case_on; try done). Qed.

Lemma keeps_get_list l : keepsI (get_list l).
Proof. apply keeps_deref. Qed.

Lemma keeps_get_lnode n : keepsI (get_lnode n).
Proof. apply keeps_deref. Qed.

Lemma keeps_get_queue q : keepsI (get_queue q).
Proof. apply keeps_deref. Qed.

Lemma keeps_get_qnode n : keepsI (get_qnode n).
Proof. apply keeps_deref. Qed.

Lemma keeps_get_pipe_obj p : keepsI (get_pipe_obj p).
Proof. apply keeps_deref. Qed.

#[export] Hint Resolve keeps_get_list keeps_get_lnode keeps_get_queue keeps_get_qnode keeps_get_pipe_obj
  keeps_upd_hw keeps_get_pcb keeps_get_uc keeps_upd_uc keeps_switch keeps_clone
  keeps_get_table keeps_pt_get keeps_translate keeps_free_pt : yalnix.

(** *** Loops *)

Lemma keeps_mfor_acc {A R} ixs (acc : A) (body : Z -> A -> M (R + A)) :
  (forall i a, keepsI (body i a)) -> keepsI (mfor_acc ixs acc body).
Proof.
  intros H. revert acc. induction ixs as [|i ixs IH]; intros acc; [apply keeps_ret|].
  apply keeps_bind; [apply H|]. intros [v|a]; [apply keeps_ret|apply IH].
Qed.

Lemma keeps_mwhile n cond body : keepsI cond -> keepsI body -> keepsI (mwhile n cond body).
Proof.
  intros Hc Hb. induction n as [|n IH]; cbn [mwhile]; apply keeps_bind; try done; intros [];
    try apply keeps_ret; [apply keeps_raise|]. by apply keeps_bind.
Qed.

Lemma keeps_mloop n i cond body :
  (forall i, keepsI (cond i)) -> (forall i, keepsI (body i)) -> keepsI (mloop n i cond body).
Proof.
  intros Hc Hb. revert i. induction n as [|n IH]; intros i; cbn [mloop]; apply keeps_bind; try done; intros [];
    try apply keeps_ret; [apply keeps_raise|]. apply keeps_bind; [done|]. intros []; [apply keeps_ret|apply IH].
Qed.

(** *** Automation

    [kp] walks through a computation, [kp_unfold] replaces its head by its definition. *)

Ltac kp_unfold :=
  match goal with
  | |- keeps _ ?m => let rec head t := match t with ?f _ => head f | _ => t end in
                     let h := head m in unfold h
  end.

Ltac pipe_side :=
  intros ? [? ?]; unfold pipe_wf, PIPE_BUFFER_LEN in *; cbn; (split; [done || reflexivity|lia]).

Ltac kp_step :=
  lazymatch goal with
  | |- forall _, _ => intros
  | |- keeps _ (bind _ _) => apply keeps_bind
  | |- keeps _ (ret _) => apply keeps_ret
  | |- keeps _ (raise _) => apply keeps_raise
  | |- keeps _ (gets _) => apply keeps_gets
  | |- keeps _ (modify _) => first [by apply keeps_unseen | apply keeps_free_pt]
  | |- keeps _ (pt_upd _ _ _) => apply keeps_pt_upd; solve [intros; auto with yalnix]
  | |- keeps _ (upd_pcb _ _) => apply keeps_upd_pcb; exact (fun _ H => H)
  | |- keeps _ (upd_gl _) => apply keeps_upd_gl; exact (fun _ H => H)
  | |- keeps _ (upd_pipe _ _) => apply keeps_upd_pipe; solve [pipe_side]
  | |- keeps _ (malloc _ _) => apply keeps_malloc; first [done | (intros; apply wf_put_pipe; [split; [reflexivity|done]|done]) | (intros; by apply wf_put_pt)]
  | |- keeps _ (orelse _ _) => apply keeps_orelse
  | |- keeps _ (mfor _ _) => apply keeps_mfor
  | |- keeps _ (mfor_ret _ _) => apply keeps_mfor_ret
  | |- keeps _ (mfor_acc _ _ _) => apply keeps_mfor_acc
  | |- keeps _ (mwhile _ _ _) => apply keeps_mwhile
  | |- keeps _ (mloop _ _ _ _) => apply keeps_mloop
  | |- keeps _ (let _ := _ in _) => cbv zeta
  | |- keeps _ (if ?b then _ else _) => destruct b
  | |- keeps _ (match ?x with _ => _ end) => destruct x
  | |- keeps _ _ => solve [auto with yalnix nocore] || (progress cbv beta)
  end.

Ltac kp := repeat kp_step.

(** ** Lists, queues and user memory *)

Section ops.
Context `{L : Libc} {LL : LibcLaws L}.

Lemma keeps_list_add l i : keepsI (list_add l i).
Proof. unfold list_add, lnode_init, upd_list, upd_lnode. kp. Qed.

Lemma keeps_list_pop l : keepsI (list_pop l).
Proof. unfold list_pop, lnode_delete, free_lnode, upd_list. kp. Qed.

Lemma keeps_list_init `{C : Compiler} : keepsI list_init.
Proof. unfold list_init, upd_list. kp. Qed.

Lemma keeps_size_of q : keepsI (size_of q).
Proof. unfold size_of. kp. Qed.

Lemma keeps_queue_init : keepsI queue_init.
Proof. unfold queue_init. kp. Qed.

Lemma keeps_queue_add q d i : keepsI (queue_add q d i).
Proof. unfold queue_add, qnode_init, upd_queue, upd_qnode. kp. Qed.

Lemma keeps_queue_pop q : keepsI (queue_pop q).
Proof. unfold queue_pop, qnode_delete, free_qnode, upd_queue. kp. Qed.

Lemma keeps_queue_peek q : keepsI (queue_peek q).
Proof. unfold queue_peek. kp. Qed.

Lemma keeps_qptr f : keepsI (qptr f).
Proof. unfold qptr. kp. Qed.

Lemma keeps_WriteRegister r : keepsI (WriteRegister r).
Proof. unfold WriteRegister. kp. Qed.

Lemma keeps_read_bytes a n : keepsI (read_bytes a n).
Proof. revert a. induction n as [|n IH]; intros; cbn [read_bytes]; unfold read_byte, user_ptr; kp; apply IH. Qed.

Lemma keeps_write_bytes a bs : keepsI (write_bytes a bs).
Proof. revert a. induction bs as [|b bs IH]; intros; cbn [write_bytes]; unfold write_byte, user_ptr; kp; apply IH. Qed.

Lemma keeps_store_int a v : keepsI (store_int a v).
Proof. apply keeps_write_bytes. Qed.

Lemma keeps_load_int a : keepsI (load_int a).
Proof. apply keeps_bind; [apply keeps_read_bytes|intros; apply keeps_ret]. Qed.

Lemma keeps_copy_page d s : keepsI (copy_page d s).
Proof. unfold copy_page. kp. Qed.

Hint Resolve keeps_list_add keeps_list_pop keeps_list_init keeps_size_of keeps_queue_init keeps_queue_add
  keeps_queue_pop keeps_queue_peek keeps_qptr keeps_WriteRegister keeps_read_bytes keeps_write_bytes
  keeps_store_int keeps_load_int keeps_copy_page : yalnix.

(** ** Frames, processes, context switches *)

Lemma keeps_AllocatePFN : keepsI AllocatePFN.
Proof. unfold AllocatePFN. kp. Qed.

Lemma keeps_DeallocatePFN f : keepsI (DeallocatePFN f).
Proof. unfold DeallocatePFN. kp. Qed.

Hint Resolve keeps_AllocatePFN keeps_DeallocatePFN : yalnix.

Lemma keeps_free_addr_space u k : keepsI (free_addr_space u k).
Proof. unfold free_addr_space, free_valid. kp. Qed.

Hint Resolve keeps_free_addr_space : yalnix.

Lemma keeps_free_pcb p : keepsI (free_pcb p).
Proof.
  unfold free_pcb. apply keeps_bind; [apply keeps_get_pcb|]. intros _. apply keeps_modify.
  intros s (H1 & H2 & H3). split; [|done]. by apply map_Forall_delete.
Qed.

Lemma keeps_malloc_pcb : keepsI malloc_pcb.
Proof.
  intros s. unfold malloc_pcb. apply keeps_malloc. intros a t. apply wf_put_pcb.
  destruct (raw_pcb_tables (mtick s)), (raw_pcb_fields (mtick s)). by split.
Qed.

Hint Resolve keeps_free_pcb keeps_malloc_pcb : yalnix.

Lemma keeps_delete_process p : keepsI (delete_process p).
Proof. unfold delete_process. kp. Qed.

Lemma keeps_init_process u : keepsI (init_process u).
Proof. unfold init_process, helper_new_pid, init_kernel_stack. kp. Qed.

Lemma keeps_CopyUPT u1 u2 k r : keepsI (CopyUPT u1 u2 k r).
Proof. unfold CopyUPT, copy_user_page. kp. Qed.

Lemma keeps_find_invalid t : keepsI (find_invalid t).
Proof. unfold find_invalid. kp. Qed.

Hint Resolve keeps_delete_process keeps_init_process keeps_CopyUPT keeps_find_invalid : yalnix.

Lemma keeps_clone_context c : keepsI (clone_context c).
Proof. unfold clone_context, KCCopy, copy_kstack_page. kp. Qed.

Lemma keeps_switch_context a n : keepsI (switch_context a n).
Proof. unfold switch_context, KCSwitch, install_kstack. kp. Qed.

Hint Resolve keeps_clone_context keeps_switch_context : yalnix.

Lemma keeps_SwapProcess q u : keepsI (SwapProcess q u).
Proof. unfold SwapProcess, swap_to. kp. Qed.

Lemma keeps_CheckBlocked p : keepsI (CheckBlocked p).
Proof. unfold CheckBlocked. kp. Qed.

Hint Resolve keeps_SwapProcess keeps_CheckBlocked : yalnix.

(** ** Pipes *)

Lemma keeps_free_pipe p : keepsI (free_pipe p).
Proof.
  unfold free_pipe. apply keeps_bind; [apply keeps_get_pipe_obj|]. intros _. apply keeps_modify.
  intros s (H1 & H2 & H3). split; [done|]. split; [|done]. by apply map_Forall_delete.
Qed.

Lemma keeps_init_head_pipe : keepsI init_head_pipe.
Proof. unfold init_head_pipe. kp. Qed.

Lemma keeps_last_pipe n c : keepsI (last_pipe n c).
Proof. revert c. induction n as [|n IH]; intros; cbn [last_pipe]; kp; apply IH. Qed.

Lemma keeps_find_pipe_before n b c i : keepsI (find_pipe_before n b c i).
Proof. revert b c. induction n as [|n IH]; intros; cbn [find_pipe_before]; kp; apply IH. Qed.

Lemma keeps_get_pipe_loop n c i : keepsI (get_pipe_loop n c i).
Proof. revert c. induction n as [|n IH]; intros; cbn [get_pipe_loop]; kp; apply IH. Qed.

Hint Resolve keeps_free_pipe keeps_init_head_pipe keeps_last_pipe keeps_find_pipe_before keeps_get_pipe_loop : yalnix.

Lemma keeps_add_pipe h : keepsI (add_pipe h).
Proof. unfold add_pipe. kp. Qed.

Lemma keeps_remove_pipe h i : keepsI (remove_pipe h i).
Proof. unfold remove_pipe. kp. Qed.

Lemma keeps_get_pipe h i : keepsI (get_pipe h i).
Proof. unfold get_pipe. kp. Qed.

Hint Resolve keeps_add_pipe keeps_remove_pipe keeps_get_pipe : yalnix.

(** Reading and writing bytes only changes the hardware's state. *)
Definition only_hw {A} (m : M A) : Prop := forall s,
  match m s with Ret _ s' => exists h, s' = set_hw h s | Fault _ => True | _ => False end.

Lemma only_hw_bind {A B} (m : M A) (f : A -> M B) : only_hw m -> (forall a, only_hw (f a)) -> only_hw (bind m f).
Proof.
  intros Hm Hf s. specialize (Hm s). unfold bind. destruct (m s) as [a s'| | |]; cbn; try done.
  destruct Hm as [h ->]. specialize (Hf a (set_hw h s)). by destruct (f a _).
Qed.

Lemma only_hw_refl s : exists h, s = set_hw h s.
Proof. exists (hw s). by destruct s. Qed.

Lemma only_hw_byte w a : only_hw (let! _ := user_ptr a in translate w a).
Proof.
  intros s. unfold user_ptr, bind. destruct (a <? VMEM_1_BASE); cbn; [done|]. unfold translate.
  destruct (r_vm (hw s) =? VM_DISABLED); [apply only_hw_refl|].
  destruct (tlb (hw s) !! vpn a) as [[]|], (page_entry s (vpn a)) as [e|]; try done;
    (destruct (permits w e); [by eexists|done]).
Qed.

Lemma only_hw_read a n : only_hw (read_bytes a n).
Proof.
  revert a. induction n as [|n IH]; intros a; cbn [read_bytes]; [intros s; apply only_hw_refl|].
  apply only_hw_bind; [|intros b; apply only_hw_bind; [apply IH|intros bs s; apply only_hw_refl]].
  intros s. pose proof (only_hw_byte false a s) as H. unfold read_byte, bind in *.
  destruct (user_ptr a s); cbn in *; try done. destruct (translate false a _); cbn in *; done.
Qed.

Lemma only_hw_write a bs : only_hw (write_bytes a bs).
Proof.
  revert a. induction bs as [|b bs IH]; intros a; cbn [write_bytes]; [intros s; apply only_hw_refl|].
  apply only_hw_bind; [|intros _; apply IH].
  intros s. pose proof (only_hw_byte true a s) as H. unfold write_byte, bind in *.
  destruct (user_ptr a s); cbn in *; try done. destruct (translate true a _); cbn in *; [|done..].
  destruct H as [h ->]. by eexists.
Qed.

Lemma splice_length buf off bs b : splice buf off bs = Some b -> length b = length buf /\
  0 <= off /\ off + Z.of_nat (length bs) <= Z.of_nat (length buf).
Proof.
  unfold splice. case_bool_decide as H; [|done]. intros [= <-].
  rewrite !length_app, length_take, length_drop. lia.
Qed.

(** Known outcomes of the parts of [pipe_put] and [pipe_take]. *)
Lemma okeeps_hw {A B} (m : M A) (f : A -> M B) s :
  only_hw m -> (forall a h, okeeps kernel_wf (f a (set_hw h s))) -> okeeps kernel_wf (bind m f s).
Proof.
  intros Hm Hf. specialize (Hm s). unfold bind. destruct (m s); cbn; try done. by destruct Hm as [h ->].
Qed.

Lemma okeeps_upd_pipe {B} p g x (f : unit -> M B) s :
  pipes s !! p = Some x -> okeeps kernel_wf (f tt (put_pipe p (g x) s)) ->
  okeeps kernel_wf (bind (upd_pipe p g) f s).
Proof. intros Hx Hf. unfold upd_pipe, get_pipe_obj, bind, deref. by rewrite Hx. Qed.

Lemma okeeps_in_bounds {A B} (o : option A) (f : A -> M B) s :
  (forall a, o = Some a -> okeeps kernel_wf (f a s)) -> okeeps kernel_wf (bind (in_bounds o) f s).
Proof. intros Hf. destruct o; [by apply Hf|done]. Qed.

Lemma keeps_pipe_put p b n : 0 <= n -> keepsI (pipe_put p b n).
Proof.
  intros Hn s Hs. unfold pipe_put, get_pipe_obj. unfold bind at 1, deref.
  destruct (pipes s !! p) as [x|] eqn:Hx; [|done]. cbn [obind]. cbv zeta.
  destruct (proj1 (proj2 Hs) p x Hx) as [Hl Hp].
  set (n' := if _ >=? _ then _ else _).
  assert (0 <= n') by (unfold n'; case_on; lia).
  apply okeeps_hw; [apply only_hw_read|]. intros bs h. apply okeeps_in_bounds. intros b' Hb.
  apply splice_length in Hb as (Hb & _ & Hb').
  apply okeeps_upd_pipe with (x := x); [done|]. apply okeeps_upd_pipe with (x := set_pp_buf b' x); [apply lookup_insert_eq|].
  cbn. rewrite put_pipe_twice. apply wf_put_pipe; [|done]. split; cbn; [congruence|].
  unfold n' in *. clear n'. case_on; lia.
Qed.

(** What a read leaves in a pipe is well formed. *)
Lemma okeeps_pipe_left p b x n (v : Z) s :
  kernel_wf s -> pipes s !! p = Some x -> length b = length (pp_buf x) -> 0 <= n <= pp_len x ->
  pipe_wf x -> forall g, (forall y, pp_len y = pp_len x -> g y = set_pp_len n y) ->
  okeeps kernel_wf ((upd_pipe p (set_pp_buf b) ;; upd_pipe p g ;; ret v) s).
Proof.
  intros Hs Hx Hl Hn [Hw Hp] g Hg.
  apply okeeps_upd_pipe with (x := x); [done|]. apply okeeps_upd_pipe with (x := set_pp_buf b x); [apply lookup_insert_eq|].
  cbn. rewrite put_pipe_twice. apply wf_put_pipe; [|done]. rewrite Hg by done. split; cbn; [congruence|lia].
Qed.

Lemma keeps_pipe_take p b n : 0 <= n -> keepsI (pipe_take p b n).
Proof.
  intros Hn s Hs. unfold pipe_take, get_pipe_obj. unfold bind at 1, deref.
  destruct (pipes s !! p) as [x|] eqn:Hx; [|done]. cbn [obind].
  destruct (proj1 (proj2 Hs) p x Hx) as [Hl Hp].
  destruct (Z.gtb_spec (pp_len x) n); (apply okeeps_hw; [apply only_hw_write|]); intros u h;
    apply okeeps_in_bounds; intros b' Hb; apply splice_length in Hb as (Hb & _ & _).
  - apply okeeps_pipe_left with (x := x) (n := pp_len x - n); try done; [lia|]. by intros y ->.
  - apply okeeps_pipe_left with (x := x) (n := 0); try done; lia.
Qed.
(** ** The loader and the boot *)

Section loader.
Context `{FS : FileSystem}.

Lemma keeps_read_cstring n a : keepsI (read_cstring n a).
Proof. revert a. induction n as [|n IH]; intros; cbn [read_cstring]; unfold read_byte, user_ptr; kp; apply IH. Qed.

Lemma keeps_user_string a : keepsI (user_string a).
Proof. apply keeps_read_cstring. Qed.

Hint Resolve keeps_user_string : yalnix.

Lemma keeps_scan_args n args i : keepsI (scan_args n args i).
Proof. revert i. induction n as [|n IH]; intros; cbn [scan_args]; unfold get_arg; kp; apply IH. Qed.

Lemma keeps_place_args n cpp cp buf : keepsI (place_args n cpp cp buf).
Proof. revert cpp cp buf. induction n as [|n IH]; intros; cbn [place_args]; kp; apply IH. Qed.

Hint Resolve keeps_scan_args keeps_place_args : yalnix.

Lemma keeps_map_pages p lo hi : keepsI (map_pages p lo hi).
Proof. unfold map_pages, map_page. kp. Qed.

Lemma keeps_read_segment fd a v n : keepsI (read_segment fd a v n).
Proof. unfold read_segment. kp. Qed.

Hint Resolve keeps_map_pages keeps_read_segment : yalnix.

Lemma keeps_LoadProgram name args p : keepsI (LoadProgram name args p).
Proof.
  unfold LoadProgram, load_committed, discard_region1, discard_page, map_text, map_data, map_stack, protect_text, protect_page, build_stack,
    zero_bytes. kp.
Qed.

Hint Resolve keeps_LoadProgram : yalnix.

Context `{C : Compiler} `{I : Image}.

Lemma keeps_arr_plain {A} get (put : list A -> kglob -> kglob) i v :
  (forall g l, glob_ok g -> length l = length (get g) -> glob_ok (put l g)) -> keepsI (arr_set get put i v).
Proof. intros H. apply keeps_arr_set. intros g l Hg Hl. apply H; [done|]. by eapply zset_length. Qed.

Ltac arr_ok := intros g l [? (?&?&?&?&?&?&?)] Hl; split; [done|]; unfold arrays_ok; cbn; rewrite ?Hl; done.

Lemma keeps_ttyReadQueues i v : keepsI (arr_set ttyReadQueues set_ttyReadQueues i v).
Proof. apply keeps_arr_plain. arr_ok. Qed.

Lemma keeps_ttyWriteQueues i v : keepsI (arr_set ttyWriteQueues set_ttyWriteQueues i v).
Proof. apply keeps_arr_plain. arr_ok. Qed.

Lemma keeps_ttyReadbuffers i v : keepsI (arr_set ttyReadbuffers set_ttyReadbuffers i v).
Proof. apply keeps_arr_plain. arr_ok. Qed.

Lemma keeps_ttyWriteTrackers i v : keepsI (arr_set ttyWriteTrackers set_ttyWriteTrackers i v).
Proof. apply keeps_arr_plain. arr_ok. Qed.

Lemma keeps_ttyReadTrackers i v : keepsI (arr_set ttyReadTrackers set_ttyReadTrackers i v).
Proof. apply keeps_arr_plain. arr_ok. Qed.

Lemma keeps_lockAquireQueues i v : keepsI (arr_set lockAquireQueues set_lockAquireQueues i v).
Proof. apply keeps_arr_plain. arr_ok. Qed.

Lemma keeps_cvarWaitQueues i v : keepsI (arr_set cvarWaitQueues set_cvarWaitQueues i v).
Proof. apply keeps_arr_plain. arr_ok. Qed.

(** [FREE_LOCK] and [USED_CVAR] are the values of the unused. *)
Lemma keeps_lock_status i : keepsI (arr_set lock_status set_lock_status i FREE_LOCK).
Proof.
  apply keeps_arr_set. intros g l [[Hl Hc] Ha] E. split; [|exact Ha]. split; [|exact Hc]. cbn.
  rewrite Hl in E. by apply zset_replicate in E.
Qed.

Lemma keeps_cvar_status i : keepsI (arr_set cvar_status set_cvar_status i USED_CVAR).
Proof.
  apply keeps_arr_set. intros g l [[Hl Hc] Ha] E. split; [|exact Ha]. split; [exact Hl|]. cbn -[MAX_CVARS].
  rewrite Hc in E. by apply zset_replicate in E.
Qed.

Hint Resolve keeps_ttyReadQueues keeps_ttyWriteQueues keeps_ttyReadbuffers keeps_ttyWriteTrackers
  keeps_ttyReadTrackers keeps_lockAquireQueues keeps_cvarWaitQueues keeps_lock_status keeps_cvar_status : yalnix.

Lemma keeps_SetUpGlobals : keepsI SetUpGlobals.
Proof. unfold SetUpGlobals, set_up_terminal, set_up_lock, set_up_cvar. kp. Qed.

Lemma keeps_pt_clear t n : keepsI (pt_clear t n).
Proof. unfold pt_clear. kp. Qed.

Hint Resolve keeps_SetUpGlobals keeps_pt_clear : yalnix.

Lemma keeps_KernelStart args pmem ctx : keepsI (KernelStart args pmem ctx).
Proof. unfold KernelStart, boot_memory, boot_processes, install_vectors, SetRegion0_pt, SetRegion1_pt. kp. Qed.

(** ** System calls *)

Lemma keeps_KernelFork u : keepsI (KernelFork u).
Proof. unfold KernelFork, fork_child, fork_space. kp. Qed.

Lemma keeps_KernelExec u f a : keepsI (KernelExec u f a).
Proof. unfold KernelExec. kp. Qed.

Lemma keeps_KernelExit c u : keepsI (KernelExit c u).
Proof. unfold KernelExit, exit_family, exit_ready_step, exit_blocked_step, exit_defunct_step. kp. Qed.

Lemma keeps_KernelWait p u : keepsI (KernelWait p u).
Proof. unfold KernelWait, wait_defunct_step. kp. Qed.

Lemma keeps_KernelGetPid : keepsI KernelGetPid.
Proof. unfold KernelGetPid. kp. Qed.

Lemma keeps_KernelBrk a : keepsI (KernelBrk a).
Proof. unfold KernelBrk, brk_grow, alloc_heap_page, brk_shrink, free_heap_page. kp. Qed.

Lemma keeps_KernelDelay t u : keepsI (KernelDelay t u).
Proof. unfold KernelDelay. kp. Qed.

Lemma keeps_wake_next q : keepsI (wake_next q).
Proof. unfold wake_next. kp. Qed.

Hint Resolve keeps_KernelFork keeps_KernelExec keeps_KernelExit keeps_KernelWait keeps_KernelGetPid keeps_KernelBrk
  keeps_KernelDelay keeps_wake_next : yalnix.

Lemma keeps_KernelTtyRead u t b n : keepsI (KernelTtyRead u t b n).
Proof. unfold KernelTtyRead, tty_take_line, get_buf. kp. Qed.

Lemma keeps_tty_write_loop fuel n u t b l w : keepsI (tty_write_loop fuel n u t b l w).
Proof. revert l w. induction n as [|n IH]; intros; cbn [tty_write_loop]; unfold tty_write_chunk; kp; apply IH. Qed.

Hint Resolve keeps_KernelTtyRead keeps_tty_write_loop : yalnix.

Lemma keeps_KernelTtyWrite fuel u t b n : keepsI (KernelTtyWrite fuel u t b n).
Proof. unfold KernelTtyWrite. kp. Qed.

Lemma keeps_KernelPipeInit p : keepsI (KernelPipeInit p).
Proof. unfold KernelPipeInit. kp. Qed.

Lemma keeps_pipe_queue p : keepsI (pipe_queue p).
Proof. unfold pipe_queue. kp. Qed.

Lemma keeps_to_ready p : keepsI (to_ready p).
Proof. unfold to_ready. kp. Qed.

Hint Resolve keeps_KernelTtyWrite keeps_KernelPipeInit keeps_pipe_queue keeps_to_ready : yalnix.

Lemma keeps_pipe_block p c u : keepsI (pipe_block p c u).
Proof. unfold pipe_block. kp. Qed.

Lemma keeps_unblock_loop fuel w found : (forall p, keepsI (found p)) -> keepsI (unblock_loop fuel w found).
Proof. intros. unfold unblock_loop. kp; auto. Qed.

Hint Resolve keeps_pipe_block keeps_unblock_loop : yalnix.

Lemma keeps_pipe_wake fuel q :
  keepsI (pipe_wake_one fuel q) /\ keepsI (pipe_wake_writer fuel q) /\ keepsI (pipe_wake_all fuel q).
Proof.
  unfold pipe_wake_one, pipe_wake_writer, pipe_wake_all.
  split; [|split]; kp; apply keeps_unblock_loop; kp.
Qed.

Lemma keeps_KernelPipeRead fuel i b n u : keepsI (KernelPipeRead fuel i b n u).
Proof.
  pose proof (keeps_pipe_wake fuel) as Hw. unfold KernelPipeRead.
  destruct (b =? NULL); [kp|]. destruct (Z.ltb_spec n 0); [by intros s Hs|].
  kp; try apply Hw; by apply keeps_pipe_take.
Qed.

Lemma keeps_KernelPipeWrite fuel i b n u : keepsI (KernelPipeWrite fuel i b n u).
Proof.
  pose proof (keeps_pipe_wake fuel) as Hw. unfold KernelPipeWrite.
  destruct (i <=? 0); [kp|]. destruct (Z.ltb_spec n 0); [by intros s Hs|].
  kp; try apply Hw; by apply keeps_pipe_put.
Qed.

Hint Resolve keeps_KernelPipeRead keeps_KernelPipeWrite : yalnix.

Lemma keeps_KernelLockInit p : keepsI (KernelLockInit p).
Proof. unfold KernelLockInit. kp. Qed.

(** The element of a constant array. *)
Lemma zget_constant {A} n (v : A) i :
  zget (replicate n v) i = if bool_decide (0 <= i < Z.of_nat n) then Some v else None.
Proof.
  unfold zget. repeat case_bool_decide; try lia; [|by apply lookup_replicate_None; lia|done].
  apply lookup_replicate_2. lia.
Qed.

Lemma lock_unused s id : kernel_wf s ->
  lock_stat id s = if bool_decide (0 <= id < MAX_LOCKS) then Ret UNUSED_LOCK s else Fault FOob.
Proof.
  intros (_ & _ & [[Hl _] _] & _). unfold lock_stat, arr_get, bind, gets. cbn [obind].
  rewrite Hl, zget_constant, Z2Nat.id by done. by case_bool_decide.
Qed.

Lemma cvar_unused s id : kernel_wf s ->
  cvar_stat id s = if bool_decide (0 <= id < MAX_CVARS) then Ret UNUSED_CVAR s else Fault FOob.
Proof.
  intros (_ & _ & [[_ Hc] _] & _). unfold cvar_stat, arr_get, bind, gets. cbn [obind].
  rewrite Hc, zget_constant, Z2Nat.id by done. by case_bool_decide.
Qed.

Lemma keeps_KernelAcquire i u : keepsI (KernelAcquire i u).
Proof.
  intros s Hs. unfold KernelAcquire. case_on; [done|]. unfold bind at 1. rewrite lock_unused by done.
  by case_bool_decide.
Qed.

Lemma keeps_KernelRelease i : keepsI (KernelRelease i).
Proof. unfold KernelRelease, lock_stat. kp. Qed.

Lemma keeps_KernelCvarInit p : keepsI (KernelCvarInit p).
Proof. unfold KernelCvarInit. kp. Qed.

Hint Resolve keeps_KernelLockInit keeps_KernelAcquire keeps_KernelRelease keeps_KernelCvarInit : yalnix.

Lemma keeps_KernelCvarSignal c u : keepsI (KernelCvarSignal c u).
Proof. unfold KernelCvarSignal, cvar_unusable, cvar_stat. kp. Qed.

Lemma keeps_broadcast_loop n q : keepsI (broadcast_loop n q).
Proof. induction n as [|n IH]; cbn [broadcast_loop]; kp; apply IH. Qed.

Hint Resolve keeps_broadcast_loop : yalnix.

Lemma keeps_KernelCvarBroadcast fuel c u : keepsI (KernelCvarBroadcast fuel c u).
Proof. unfold KernelCvarBroadcast, cvar_unusable, cvar_stat. kp. Qed.

Lemma keeps_KernelCvarWait c i u : keepsI (KernelCvarWait c i u).
Proof. unfold KernelCvarWait, cvar_stat, lock_stat. kp. Qed.

Lemma keeps_KernelReclaim i : keepsI (KernelReclaim i).
Proof. unfold KernelReclaim. kp. Qed.

Hint Resolve keeps_KernelCvarSignal keeps_KernelCvarBroadcast keeps_KernelCvarWait keeps_KernelReclaim : yalnix.

(** ** Traps *)

Lemma keeps_reg u i : keepsI (reg u i).
Proof. unfold reg. kp. Qed.

Lemma keeps_set_reg0 u v : keepsI (set_reg0 u v).
Proof. unfold set_reg0. kp. Qed.

Hint Resolve keeps_reg keeps_set_reg0 : yalnix.

Lemma keeps_call0 u f : keepsI f -> keepsI (call0 u f).
Proof. intros. unfold call0. kp; auto. Qed.

Lemma keeps_call1 u f : (forall a, keepsI (f a)) -> keepsI (call1 u f).
Proof. intros. unfold call1. kp; auto. Qed.

Lemma keeps_call2 u f : (forall a b, keepsI (f a b)) -> keepsI (call2 u f).
Proof. intros. unfold call2. kp; auto. Qed.

Lemma keeps_call3 u f : (forall a b c, keepsI (f a b c)) -> keepsI (call3 u f).
Proof. intros. unfold call3. kp; auto. Qed.

Lemma keeps_TrapKernelHandler fuel u : keepsI (TrapKernelHandler fuel u).
Proof.
  unfold TrapKernelHandler, trap_exec.
  kp; first [apply keeps_call0|apply keeps_call1|apply keeps_call2|apply keeps_call3]; kp.
Qed.

Lemma keeps_TrapClockHandler u : keepsI (TrapClockHandler u).
Proof. unfold TrapClockHandler, wake_blocked, wake_step. kp. Qed.

Lemma keeps_TrapIllegalHandler u : keepsI (TrapIllegalHandler u).
Proof. unfold TrapIllegalHandler. kp. Qed.

Lemma keeps_TrapMathHandler u : keepsI (TrapMathHandler u).
Proof. unfold TrapMathHandler. kp. Qed.

Lemma keeps_TrapMemoryHandler u : keepsI (TrapMemoryHandler u).
Proof. unfold TrapMemoryHandler. kp. Qed.

Lemma keeps_TrapTTYReceiveHandler input u : keepsI (TrapTTYReceiveHandler input u).
Proof. unfold TrapTTYReceiveHandler, get_buf. kp. Qed.

Lemma keeps_TrapTTYTransmitHandler u : keepsI (TrapTTYTransmitHandler u).
Proof. unfold TrapTTYTransmitHandler. kp. Qed.

Lemma keeps_interrupt fuel input trap u : keepsI (interrupt fuel input trap u).
Proof.
  unfold interrupt. destruct (zget (InterruptVectorTable fuel input) trap) as [h|] eqn:E; [|apply keeps_raise].
  unfold zget in E. case_bool_decide; [|done]. apply list_elem_of_lookup_2 in E. revert E.
  unfold InterruptVectorTable. cbn [app replicate Z.to_nat]. rewrite !elem_of_cons.
  intros [->|[->|[->|[->|[->|[->|[->|[->|E]]]]]]]];
    auto using keeps_TrapKernelHandler, keeps_TrapClockHandler, keeps_TrapIllegalHandler, keeps_TrapMemoryHandler,
      keeps_TrapMathHandler, keeps_TrapTTYReceiveHandler, keeps_TrapTTYTransmitHandler.
  - apply keeps_ret.
  - apply elem_of_replicate in E as [-> _]. apply keeps_raise.
Qed.

End loader.
End ops.

(** ** All reachable machines *)

Lemma wf_user_step s s' : user_step s s' -> kernel_wf s -> kernel_wf s'.
Proof. intros (u & h & _ & ->). by apply wf_unseen. Qed.

Lemma wf_init : kernel_wf init_state.
Proof. do 2 (split; [done|]). split; [|done]. split; [split; reflexivity|]. repeat split. Qed.

Section reachable.
Context `{L : Libc} {LL : LibcLaws L} `{FS : FileSystem} `{C : Compiler} `{I : Image} (fuel : nat).

Lemma reachable_wf ctx m m' :
  machine_inv kernel_wf m -> rtc (step fuel ctx) m m' -> machine_inv kernel_wf m'.
Proof.
  apply reachable_inv; [apply wf_user_step|]. intros input trap. apply keeps_interrupt.
Qed.

(** C1: the kernel's type invariant: [KernelStart] establishes it, in its own
    state and in every computation it leaves suspended, and whatever user code
    does and whatever traps arrive in whatever order, in every state the machine
    reaches all page tables, the kernel's, the users' and the saved kernel stacks, have
    their sizes and entries whose fields are in the range of their bit fields, the
    arrays of the globals have their sizes, all pipes hold between 0 and
    [PIPE_BUFFER_LEN] bytes in a buffer of that size, and every suspended computation
    keeps all this. *)
Theorem reachable_kernel_wf args pmem ctx m m' :
  okeeps kernel_wf (KernelStart args pmem ctx init_state) /\
  (settles (KernelStart args pmem ctx init_state) ∅ m -> machine_inv kernel_wf m) /\
  (machine_inv kernel_wf m -> rtc (step fuel ctx) m m' -> machine_inv kernel_wf m').
Proof.
  assert (Hk : okeeps kernel_wf (KernelStart args pmem ctx init_state)) by apply keeps_KernelStart, wf_init.
  split; [exact Hk|]. split; [|apply reachable_wf].
  intros Hs. by apply (settles_inv kernel_wf _ _ _ Hs Hk).
Qed.

(** C13: no lock is ever acquired and no condition variable ever used: [FREE_LOCK]
    and [UNUSED_LOCK] are the same number, as are [USED_CVAR] and [UNUSED_CVAR], so
    in every reachable state every [Acquire], [Release], [CvarSignal],
    [CvarBroadcast] and [CvarWait] on an id of the tables reports an error and
    changes nothing; the id [MAX_LOCKS], which [Acquire] and [Release] let
    through, and the greatest id [CvarInit] hands out index beyond the tables. *)
Theorem no_lock_ever_acquired ctx m m' :
  machine_inv kernel_wf m -> rtc (step fuel ctx) m m' -> let s := ks m' in
  is_Some (pcbs s !! active s) -> ctx <> NULL ->
  (forall id, 0 <= id < MAX_LOCKS -> KernelAcquire id ctx s = Ret ERROR s /\ KernelRelease id s = Ret ERROR s) /\
  (forall id lock, MAX_LOCKS <= id < MAX_LOCKS + MAX_CVARS ->
    KernelCvarSignal id ctx s = Ret ERROR s /\ KernelCvarBroadcast fuel id ctx s = Ret ERROR s /\
    KernelCvarWait id lock ctx s = Ret ERROR s) /\
  KernelAcquire MAX_LOCKS ctx s = Fault FOob /\ KernelRelease MAX_LOCKS s = Fault FOob /\
  KernelCvarSignal (MAX_LOCKS + MAX_CVARS) ctx s = Fault FOob.
Proof.
  intros Hm Hr s [x Hx] Hctx. destruct (reachable_wf ctx m m' Hm Hr) as [Hs _]. fold s in Hs.
  split; [|split].
  - intros id Hid. assert (Hst : lock_stat id s = Ret UNUSED_LOCK s) by (by rewrite lock_unused, bool_decide_true).
    unfold KernelAcquire, KernelRelease. destruct (Z.ltb_spec id 0); [lia|]. destruct (Z.gtb_spec id MAX_LOCKS); [lia|].
    destruct (Z.eqb_spec ctx NULL); [done|]. cbn [orb]. rewrite !(bind_exec _ _ _ _ _ Hst). split; [done|].
    rewrite bind_gets. unfold get_pcb. rewrite (bind_exec _ _ _ _ _ (deref_ok _ _ _ _ Hx)).
    by rewrite orb_true_r.
  - intros id lock Hid.
    assert (Hst : cvar_stat (id - MAX_LOCKS) s = Ret UNUSED_CVAR s) by (rewrite cvar_unused, bool_decide_true; [done|lia|done]).
    assert (Hbad : cvar_unusable id ctx s = Ret true s).
    { unfold cvar_unusable. destruct (Z.ltb_spec id 0); [unfold MAX_LOCKS in *; lia|].
      destruct (Z.eqb_spec ctx NULL); [done|]. cbn [orb]. by rewrite (bind_exec _ _ _ _ _ Hst). }
    unfold KernelCvarSignal, KernelCvarBroadcast, KernelCvarWait. rewrite !(bind_exec _ _ _ _ _ Hbad).
    split; [done|]. split; [done|]. destruct (Z.ltb_spec id 0); [unfold MAX_LOCKS in *; lia|].
    by rewrite (bind_exec _ _ _ _ _ Hst).
  - unfold KernelAcquire, KernelRelease, KernelCvarSignal, cvar_unusable.
    destruct (Z.eqb_spec ctx NULL); [done|]. cbn -[lock_stat cvar_stat bind].
    split; [|split].
    + apply faults_before. by rewrite lock_unused.
    + apply faults_before. by rewrite lock_unused.
    + do 2 apply faults_before. rewrite cvar_unused by done. done.
Qed.

End reachable.

(** ** Witnesses *)

(** A file system without files, and an image of the kernel. *)
Definition ex_fs : FileSystem := {|
  fs_open := fun _ => None; fs_load_info := fun _ => None; fs_read := fun _ _ _ => [] |}.
Definition ex_compiler : Compiler := {| fallthrough := fun a => a |}.
Definition ex_image : Image := {|
  kernel_data_start := 10 * PAGESIZE; kernel_data_end := 20 * PAGESIZE; kernel_orig_brk := 24 * PAGESIZE;
  ivt_slack := true |}.

(** The machine of [ex_sched], whose process 80 was switched away from at the
    end of a handler, and the machine after a clock trap. *)
Definition ex_machine : machine := mkMachine ex_sched {[ 80 := fun s => Ret tt s ]}.
Definition ex_ticked : machine :=
  default ex_machine (settle 2 (interrupt (L := bump_libc) (FS := ex_fs) 0 [] TRAP_CLOCK 1 ex_sched) (susp ex_machine)).

Lemma ex_machine_wf : machine_inv kernel_wf ex_machine.
Proof.
  split; [|intros p k; cbn; rewrite lookup_singleton_Some; by intros [_ <-]].
  split; [|split; [done|]; split; [split; [split; reflexivity|repeat split]|]];
    apply (bool_decide_unpack _); vm_compute; exact I.
Qed.

Lemma ex_tick : rtc (step (L := bump_libc) (FS := ex_fs) 0 1) ex_machine ex_ticked.
Proof.
  apply rtc_once. apply (step_trap _ _ [] TRAP_CLOCK), (settle_settles 2). unfold ex_ticked.
  assert (H : (if settle 2 (interrupt (L := bump_libc) (FS := ex_fs) 0 [] TRAP_CLOCK 1 ex_sched) (susp ex_machine)
               is Some _ then true else false) = true) by (vm_compute; reflexivity).
  destruct (settle _ _ _); [done|discriminate H].
Qed.

Lemma reachable_kernel_wf_witness :
  active (ks ex_machine) = 70 /\ active (ks ex_ticked) = 80 /\ machine_inv kernel_wf ex_ticked.
Proof.
  split; [reflexivity|]. split; [vm_compute; reflexivity|].
  apply (reachable_kernel_wf (L := bump_libc) (FS := ex_fs) (C := ex_compiler) (I := ex_image) 0 [] 0 1
    ex_machine ex_ticked).
  - exact ex_machine_wf.
  - exact ex_tick.
Defined.

Lemma no_lock_ever_acquired_witness :
  KernelAcquire (L := bump_libc) 3 1 (ks ex_ticked) = Ret ERROR (ks ex_ticked) /\
  KernelCvarSignal (L := bump_libc) 5100 1 (ks ex_ticked) = Fault FOob.
Proof.
  destruct (no_lock_ever_acquired (L := bump_libc) (FS := ex_fs) 0 1 ex_machine ex_ticked) as (H1 & _ & _ & _ & H2).
  - exact ex_machine_wf.
  - exact ex_tick.
  - assert (H : (if pcbs (ks ex_ticked) !! active (ks ex_ticked) is Some _ then true else false) = true)
      by (vm_compute; reflexivity).
    destruct (pcbs (ks ex_ticked) !! active (ks ex_ticked)); [by eexists|discriminate H].
  - discriminate.
  - destruct (H1 3) as [H3 _]; [split; [discriminate|reflexivity]|]. split; [exact H3|exact H2].
Defined.
