(* ===== verification/UserMem.v ===== *)
(** * The user library's memory and string functions ([etc/yuserlib/common])

    The byte functions linked into every user program.  They run on the memory of
    one process: the bytes that are mapped, and the direction flag of the processor,
    which the i386 versions of [memcpy], [memmove] and [memset] use.  An access to
    a byte that is not mapped stops the program ([None]). *)

From Stdlib Require Import ZArith Lia.
From stdpp Require Import base gmap list.
From S2P Require Import Prelude Hardware.

Open Scope Z_scope.

(** ** The machine of a user program *)

Record umach := mkU {
  umem : gmap Z Z;
  udf : bool }.

Definition UM (A : Type) : Type := umach -> option (A * umach).

Definition uret {A} (a : A) : UM A := fun u => Some (a, u).
Definition ubind {A B} (m : UM A) (f : A -> UM B) : UM B := fun u =>
  match m u with
  | Some (a, u') => f a u'
  | None => None
  end.

Declare Scope umonad_scope.
Delimit Scope umonad_scope with umonad.
Bind Scope umonad_scope with UM.
Notation "'let*' x ':=' m 'in' k" := (ubind m (fun x => k))
  (at level 10, x binder, m at level 100, k at level 200,
   format "'[v' 'let*'  x  ':='  m  'in' '//' k ']'") : umonad_scope.
Notation "m ;;; k" := (ubind m (fun _ => k))
  (at level 100, right associativity, format "'[v' m  ;;; '//' k ']'") : umonad_scope.
Open Scope umonad_scope.

(** One byte read or written; a stored [int] keeps its low byte. *)
Definition ld (a : Z) : UM Z := fun u =>
  match umem u !! a with Some b => Some (b, u) | None => None end.
Definition st (a b : Z) : UM unit := fun u =>
  match umem u !! a with
  | Some _ => Some (tt, mkU (<[a := b mod 256]> (umem u)) (udf u))
  | None => None
  end.
Definition set_df (d : bool) : UM unit := fun u => Some (tt, mkU (umem u) d).
Definition get_df : UM bool := fun u => Some (udf u, u).

(** The program runs out of memory before a walk over it takes more steps than
    there are mapped bytes. *)
Definition umem_fuel (u : umach) : nat := S (size (umem u)).
Definition with_fuel {A} (f : nat -> UM A) : UM A := fun u => f (umem_fuel u) u.
Definition ufail {A} : UM A := fun _ => None.

(** A [char], signed on this processor. *)
Definition schar (b : Z) : Z := if b <? 128 then b else b - 256.

(** ** String instructions *)

(** [rep movsb] and [rep movsl], in the direction of the flag: the registers
    [edi] and [esi] afterwards. *)
Definition dstep (d : bool) (k : Z) : Z := if d then - k else k.

Fixpoint rep_movsb (n : nat) (di si : Z) : UM (Z * Z) :=
  match n with
  | O => uret (di, si)
  | S n' =>
      let* d := get_df in
      let* b := ld si in
      st di b ;;; rep_movsb n' (di + dstep d 1) (si + dstep d 1)
  end.

Fixpoint rep_movsl (n : nat) (di si : Z) : UM (Z * Z) :=
  match n with
  | O => uret (di, si)
  | S n' =>
      let* d := get_df in
      let* b0 := ld si in let* b1 := ld (si + 1) in
      let* b2 := ld (si + 2) in let* b3 := ld (si + 3) in
      st di b0 ;;; st (di + 1) b1 ;;; st (di + 2) b2 ;;; st (di + 3) b3 ;;;
      rep_movsl n' (di + dstep d 4) (si + dstep d 4)
  end.

(** [rep stosb] and [rep stosl] of a repeated byte. *)
Fixpoint rep_stosb (n : nat) (di b : Z) : UM Z :=
  match n with
  | O => uret di
  | S n' => let* d := get_df in st di b ;;; rep_stosb n' (di + dstep d 1) b
  end.

Fixpoint rep_stosl (n : nat) (di b : Z) : UM Z :=
  match n with
  | O => uret di
  | S n' =>
      let* d := get_df in
      st di b ;;; st (di + 1) b ;;; st (di + 2) b ;;; st (di + 3) b ;;;
      rep_stosl n' (di + dstep d 4) b
  end.

(** ** [mem*] *)

Definition memcpy (dst src : Z) (n : nat) : UM Z :=
  set_df false ;;;
  let* r := rep_movsl (n / 4) dst src in
  rep_movsb (n mod 4) (fst r) (snd r) ;;;
  uret dst.

Definition memmove (dst src : Z) (n : nat) : UM Z :=
  (if dst <? src then
     set_df false ;;; rep_movsb n dst src
   else
     set_df true ;;; rep_movsb n (dst + (Z.of_nat n - 1)) (src + (Z.of_nat n - 1))) ;;;
  uret dst.

(** No [cld]: the flag is used as it is found. *)
Definition memset (dst c : Z) (n : nat) : UM Z :=
  let* di := rep_stosl (n / 4) dst c in
  rep_stosb (n mod 4) di c ;;;
  uret dst.

Definition bzero (s : Z) (n : nat) : UM unit := memset s 0 n ;;; uret tt.

Fixpoint memcmp (c1 c2 : Z) (n : nat) : UM Z :=
  match n with
  | O => uret 0
  | S n' =>
      let* a := ld c1 in let* b := ld c2 in
      if negb (a - b =? 0) then uret (a - b) else memcmp (c1 + 1) (c2 + 1) n'
  end.

Fixpoint memchr (sp c : Z) (n : nat) : UM Z :=
  match n with
  | O => uret NULL
  | S n' => let* b := ld sp in if b =? c mod 256 then uret sp else memchr (sp + 1) c n'
  end.

Fixpoint memrchr_loop (sp c : Z) (n : nat) : UM Z :=
  match n with
  | O => uret NULL
  | S n' => let* b := ld sp in if b =? c mod 256 then uret sp else memrchr_loop (sp - 1) c n'
  end.
Definition memrchr (s c : Z) (n : nat) : UM Z := memrchr_loop (s + Z.of_nat n - 1) c n.

Fixpoint memccpy (q p c : Z) (n : nat) : UM Z :=
  match n with
  | O => uret NULL
  | S n' =>
      let* ch := ld p in
      st q ch ;;;
      if ch =? c mod 256 then uret (q + 1) else memccpy (q + 1) (p + 1) c n'
  end.

Fixpoint memswap (p q : Z) (n : nat) : UM unit :=
  match n with
  | O => uret tt
  | S n' =>
      let* tmp := ld p in let* b := ld q in
      st p b ;;; st q tmp ;;; memswap (p + 1) (q + 1) n'
  end.

(** The loop of [memmem] for needles of at least two bytes; [k] and [l] are the
    shifts after a mismatch of the second byte and after a match of it. *)
Fixpoint memmem_loop (fuel : nat) (y : Z) (n : nat) (x : Z) (m : nat) (k l j : Z) : UM Z :=
  if j <=? Z.of_nat n - Z.of_nat m then
    match fuel with
    | O => ufail
    | S fuel' =>
        let* x1 := ld (x + 1) in let* yj1 := ld (y + (j + 1)) in
        if negb (x1 =? yj1) then memmem_loop fuel' y n x m k l (j + k)
        else
          let* c := memcmp (x + 2) (y + j + 2) (m - 2) in
          let* same := (if c =? 0 then let* x0 := ld x in let* yj := ld (y + j) in uret (x0 =? yj)
                        else uret false) in
          if same then uret (y + j) else memmem_loop fuel' y n x m k l (j + l)
    end
  else uret NULL.

(** The loop for a needle of one byte. *)
Fixpoint memmem_byte (y x : Z) (n : nat) : UM Z :=
  match n with
  | O => uret NULL
  | S n' =>
      let* a := ld y in let* b := ld x in
      if a =? b then uret y else memmem_byte (y + 1) x n'
  end.

Definition memmem (y : Z) (n : nat) (x : Z) (m : nat) : UM Z :=
  if (n <? m)%nat || (m =? 0)%nat || (n =? 0)%nat then uret NULL
  else if negb (m =? 1)%nat then
    let* x0 := ld x in let* x1 := ld (x + 1) in
    if x0 =? x1 then memmem_loop (S n) y n x m 2 1 0
    else memmem_loop (S n) y n x m 1 2 0
  else memmem_byte y x n.

(** ** [str*] *)

Fixpoint strlen_loop (fuel : nat) (ss : Z) : UM Z :=
  let* c := ld ss in
  if negb (c =? 0) then match fuel with O => ufail | S fuel' => strlen_loop fuel' (ss + 1) end
  else uret ss.
Definition strlen (s : Z) : UM Z :=
  let* ss := with_fuel (fun fuel => strlen_loop fuel s) in uret (ss - s).

Fixpoint strnlen_loop (ss : Z) (maxlen : nat) : UM Z :=
  match maxlen with
  | O => uret ss
  | S n' => let* c := ld ss in if negb (c =? 0) then strnlen_loop (ss + 1) n' else uret ss
  end.
Definition strnlen (s : Z) (maxlen : nat) : UM Z :=
  let* ss := strnlen_loop s maxlen in uret (ss - s).

Fixpoint strchr_loop (fuel : nat) (s c : Z) : UM Z :=
  let* b := ld s in
  if negb (b =? c mod 256) then
    if b =? 0 then uret NULL
    else match fuel with O => ufail | S fuel' => strchr_loop fuel' (s + 1) c end
  else uret s.
Definition strchr (s c : Z) : UM Z := with_fuel (fun fuel => strchr_loop fuel s c).

Fixpoint strcmp_loop (fuel : nat) (c1 c2 : Z) : UM Z :=
  let* ch := ld c1 in let* b := ld c2 in
  let d := ch - b in
  if negb (d =? 0) || (ch =? 0) then uret d
  else match fuel with O => ufail | S fuel' => strcmp_loop fuel' (c1 + 1) (c2 + 1) end.
Definition strcmp (s1 s2 : Z) : UM Z := with_fuel (fun fuel => strcmp_loop fuel s1 s2).

(** [d] is 0 when the count runs out. *)
Fixpoint strncmp (c1 c2 : Z) (n : nat) : UM Z :=
  match n with
  | O => uret 0
  | S n' =>
      let* ch := ld c1 in let* b := ld c2 in
      let d := ch - b in
      if negb (d =? 0) || (ch =? 0) then uret d else strncmp (c1 + 1) (c2 + 1) n'
  end.

Fixpoint strcpy_loop (fuel : nat) (q p : Z) : UM unit :=
  let* ch := ld p in
  st q ch ;;;
  if negb (ch =? 0) then match fuel with O => ufail | S fuel' => strcpy_loop fuel' (q + 1) (p + 1) end
  else uret tt.
Definition strcpy (dst src : Z) : UM Z :=
  with_fuel (fun fuel => strcpy_loop fuel dst src) ;;; uret dst.

(** [len - i] bytes are left, [zmode] is set once the NUL has been copied. *)
Fixpoint strncpy_loop (left : nat) (dst src : Z) (zmode : bool) : UM unit :=
  match left with
  | O => uret tt
  | S left' =>
      if zmode then st dst 0 ;;; strncpy_loop left' (dst + 1) (src + 1) zmode
      else
        let* b := ld src in
        st dst b ;;;
        (* the test reads src[i] again *)
        let* b := ld src in
        strncpy_loop left' (dst + 1) (src + 1) (b =? 0)
  end.
Definition strncpy (dst src : Z) (len : nat) : UM Z :=
  strncpy_loop len dst src false ;;; uret dst.

Definition strcat (dst src : Z) : UM Z :=
  let* q := strchr dst 0 in strcpy q src ;;; uret dst.

Fixpoint strncat_loop (n : nat) (q p : Z) : UM unit :=
  match n with
  | O => st q 0
  | S n' =>
      let* ch := ld p in
      st q ch ;;;
      if ch =? 0 then uret tt else strncat_loop n' (q + 1) (p + 1)
  end.
Definition strncat (dst src : Z) (n : nat) : UM Z :=
  let* q := strchr dst 0 in strncat_loop n q src ;;; uret dst.

(** [matchmap] as the set of the bytes of [map]; the entry 0 is [parity]. *)
Fixpoint match_bytes (fuel : nat) (map : Z) : UM (list Z) :=
  let* c := ld map in
  if negb (c =? 0) then
    match fuel with
    | O => ufail
    | S fuel' => let* cs := match_bytes fuel' (map + 1) in uret (c :: cs)
    end
  else uret [].

Definition in_matchmap (cs : list Z) (parity : bool) (c : Z) : bool :=
  if c =? 0 then parity else existsb (Z.eqb c) cs.

Fixpoint span_loop (fuel : nat) (cs : list Z) (parity : bool) (s n : Z) : UM Z :=
  let* c := ld s in
  if xorb (in_matchmap cs parity c) parity then
    match fuel with O => ufail | S fuel' => span_loop fuel' cs parity (s + 1) (n + 1) end
  else uret n.

Definition strxspn (s map : Z) (parity : bool) : UM Z :=
  let* cs := with_fuel (fun fuel => match_bytes fuel map) in
  with_fuel (fun fuel => span_loop fuel cs parity s 0).

Definition strpbrk (s accept : Z) : UM Z :=
  let* n := strxspn s accept true in
  let* c := ld (s + n) in
  uret (if negb (c =? 0) then s + n else NULL).

(** The result and [*stringp] afterwards. *)
Definition strsep (s delim : Z) : UM (Z * Z) :=
  if s =? NULL then uret (NULL, s) else
  let* e := strpbrk s delim in
  if negb (e =? NULL) then st e 0 ;;; uret (s, e + 1) else uret (s, NULL).

(** [holder] is the function's static variable; the result comes with its new value. *)
Fixpoint strtok_loop (fuel : nat) (holder delim : Z) : UM (Z * Z) :=
  let* r := strsep holder delim in
  let '(s, holder) := r in
  let* again := (if s =? NULL then uret false else let* c := ld s in uret (c =? 0)) in
  if again then match fuel with O => ufail | S fuel' => strtok_loop fuel' holder delim end
  else uret (s, holder).
Definition strtok (holder s delim : Z) : UM (Z * Z) :=
  with_fuel (fun fuel => strtok_loop fuel (if negb (s =? NULL) then s else holder) delim).

(** ** Bytes in memory *)

(** [m] holds the bytes [bs] from [a] on. *)
Fixpoint holds (m : gmap Z Z) (a : Z) (bs : list Z) : Prop :=
  match bs with
  | [] => True
  | b :: bs' => m !! a = Some b /\ holds m (a + 1) bs'
  end.

Fixpoint put_bytes (a : Z) (bs : list Z) (m : gmap Z Z) : gmap Z Z :=
  match bs with
  | [] => m
  | b :: bs' => put_bytes (a + 1) bs' (<[a := b]> m)
  end.

Definition mapped (m : gmap Z Z) (a : Z) (n : nat) : Prop :=
  forall x, a <= x < a + Z.of_nat n -> is_Some (m !! x).

Definition ubyte (b : Z) : Prop := 0 <= b < 256.
Definition cchar (b : Z) : Prop := 0 < b < 256.

(** A NUL-terminated string. *)
Definition cstr (m : gmap Z Z) (a : Z) (s : list Z) : Prop := holds m a (s ++ [0]) /\ Forall cchar s.

Lemma put_bytes_below bs : forall a m x, x < a -> put_bytes a bs m !! x = m !! x.
Proof.
  induction bs as [|b bs IH]; intros a m x Hx; [done|]. cbn.
  rewrite IH by lia. by rewrite lookup_insert_ne by lia.
Qed.

Lemma put_bytes_outside bs : forall a m x, ~ (a <= x < a + Z.of_nat (length bs)) ->
  put_bytes a bs m !! x = m !! x.
Proof.
  induction bs as [|b bs IH]; intros a m x Hx; [done|]. cbn [length] in Hx. cbn.
  rewrite IH by lia. by rewrite lookup_insert_ne by lia.
Qed.

Lemma put_bytes_insert bs : forall a m x b, x < a \/ a + Z.of_nat (length bs) <= x ->
  put_bytes a bs (<[x := b]> m) = <[x := b]> (put_bytes a bs m).
Proof.
  induction bs as [|c bs IH]; intros a m x b Hx; [done|]. cbn [length] in Hx. cbn.
  rewrite insert_insert_ne by lia. apply IH. lia.
Qed.

Lemma put_bytes_snoc bs a b m :
  put_bytes a (bs ++ [b]) m = put_bytes a bs (<[a + Z.of_nat (length bs) := b]> m).
Proof.
  revert a m. induction bs as [|c bs IH]; intros a m; cbn.
  - by rewrite Z.add_0_r.
  - rewrite IH. rewrite insert_insert_ne by lia. do 3 f_equal. lia.
Qed.

Lemma put_bytes_app bs1 bs2 : forall a m,
  put_bytes a (bs1 ++ bs2) m = put_bytes (a + Z.of_nat (length bs1)) bs2 (put_bytes a bs1 m).
Proof.
  induction bs1 as [|c bs1 IH]; intros a m; cbn [app put_bytes length].
  - by rewrite Z.add_0_r.
  - rewrite IH. f_equal. lia.
Qed.

Lemma holds_insert m a bs x b :
  x < a \/ a + Z.of_nat (length bs) <= x -> holds m a bs -> holds (<[x := b]> m) a bs.
Proof.
  revert a. induction bs as [|c bs IH]; intros a Hx; [done|]. cbn [length] in Hx.
  intros [Hc Hbs]. split; [by rewrite lookup_insert_ne by lia|]. apply IH; [lia|done].
Qed.

Lemma holds_app m a bs1 bs2 :
  holds m a (bs1 ++ bs2) <-> holds m a bs1 /\ holds m (a + Z.of_nat (length bs1)) bs2.
Proof.
  revert a. induction bs1 as [|c bs1 IH]; intros a; cbn [app holds length].
  - rewrite Z.add_0_r. tauto.
  - rewrite IH. replace (a + 1 + Z.of_nat (length bs1)) with (a + Z.of_nat (S (length bs1))) by lia. tauto.
Qed.

Lemma holds_lookup m a bs i b : holds m a bs -> bs !! i = Some b -> m !! (a + Z.of_nat i) = Some b.
Proof.
  revert a i. induction bs as [|c bs IH]; intros a i; [done|]. intros [Hc Hbs].
  destruct i as [|i]; cbn [lookup list_lookup]; intros Hi.
  - rewrite Z.add_0_r. congruence.
  - replace (a + Z.of_nat (S i)) with (a + 1 + Z.of_nat i) by lia. by apply IH.
Qed.

Lemma holds_mapped m a bs : holds m a bs -> mapped m a (length bs).
Proof.
  intros H x Hx. destruct (lookup_lt_is_Some_2 bs (Z.to_nat (x - a))) as [b Hb]; [lia|].
  exists b. rewrite <- (holds_lookup _ _ _ _ _ H Hb). f_equal. lia.
Qed.

Lemma mapped_size m a n : mapped m a n -> (n <= size m)%nat.
Proof.
  intros H. rewrite <- (zrange_length a n), <- size_dom.
  rewrite <- (size_list_to_set (C := gset Z) (zrange a n)) by apply zrange_NoDup.
  apply subseteq_size. intros x Hx%elem_of_list_to_set%elem_of_zrange. apply elem_of_dom. apply H. lia.
Qed.

Lemma mapped_insert m a n x b : mapped m a n -> mapped (<[x := b]> m) a n.
Proof.
  intros H y Hy. destruct (decide (y = x)) as [->|]; [rewrite lookup_insert_eq; by eexists|].
  rewrite lookup_insert_ne by done. by apply H.
Qed.

Lemma put_bytes_holds bs : forall a m, holds (put_bytes a bs m) a bs.
Proof.
  induction bs as [|c bs IH]; intros a m; [done|]. cbn. split; [|apply IH].
  rewrite put_bytes_below by lia. apply lookup_insert_eq.
Qed.

Lemma put_bytes_keeps bs : forall a m x d,
  x + Z.of_nat (length d) <= a \/ a + Z.of_nat (length bs) <= x ->
  holds m x d -> holds (put_bytes a bs m) x d.
Proof.
  induction bs as [|c bs IH]; intros a m x d Hx Hd; [done|]. cbn [length] in Hx. cbn.
  apply IH; [lia|]. apply holds_insert; [lia|done].
Qed.

Lemma mapped_put_bytes m a n bs : forall b, mapped m a n -> mapped (put_bytes b bs m) a n.
Proof.
  revert m. induction bs as [|c bs IH]; intros m b H; [done|]. cbn. apply IH. by apply mapped_insert.
Qed.

Lemma mapped_tail m a n : mapped m a (S n) -> mapped m (a + 1) n.
Proof. intros H y Hy. apply H. lia. Qed.

Lemma mapped_head m a n : mapped m a (S n) -> is_Some (m !! a).
Proof. intros H. apply H. lia. Qed.

Lemma ld_ok u a b : umem u !! a = Some b -> ld a u = Some (b, u).
Proof. unfold ld. by intros ->. Qed.

Lemma st_ok u a b : is_Some (umem u !! a) -> ubyte b ->
  st a b u = Some (tt, mkU (<[a := b]> (umem u)) (udf u)).
Proof. intros [c E] Hb. unfold st. rewrite E. by rewrite Z.mod_small. Qed.

Lemma st_any u a b : is_Some (umem u !! a) ->
  st a b u = Some (tt, mkU (<[a := b mod 256]> (umem u)) (udf u)).
Proof. intros [c E]. unfold st. by rewrite E. Qed.

Lemma ubind_ok {A B} (m : UM A) (f : A -> UM B) u a u' : m u = Some (a, u') -> ubind m f u = f a u'.
Proof. unfold ubind. by intros ->. Qed.

Lemma cchar_ubyte b : cchar b -> ubyte b.
Proof. unfold cchar, ubyte. lia. Qed.

#[export] Hint Resolve cchar_ubyte mapped_insert mapped_tail mapped_head : yalnix.
#[export] Hint Extern 2 (ubyte _) => unfold ubyte, cchar in *; lia : yalnix.

(** One step of a user-library function on a memory that holds what it needs. *)
Ltac ustep :=
  first
    [ erewrite ubind_ok by (apply ld_ok; cbn; eassumption)
    | erewrite ubind_ok by (apply st_ok; cbn; eauto with yalnix)
    | erewrite ubind_ok by reflexivity ].

(** ** Copying *)

Lemma rep_movsb_forward bs : forall u di si,
  udf u = false -> di < si -> holds (umem u) si bs -> Forall ubyte bs ->
  mapped (umem u) di (length bs) ->
  exists r, rep_movsb (length bs) di si u = Some (r, mkU (put_bytes di bs (umem u)) (udf u)).
Proof.
  induction bs as [|b bs IH]; intros [m d] di si Hd Hlt Hs Hb Hm; cbn in Hd; subst d.
  - by eexists.
  - destruct Hs as [Hs1 Hs]. inversion Hb; subst. cbn [length rep_movsb put_bytes].
    do 3 ustep. cbn [umem udf dstep].
    destruct (IH (mkU (<[di := b]> m) false) (di + 1) (si + 1)) as [r Hr]; try done.
    + lia.
    + cbn. apply holds_insert; [lia|done].
    + cbn. eauto with yalnix.
    + rewrite Hr. by eexists.
Qed.

Lemma rep_movsb_backward bs : forall u di si,
  udf u = true -> si <= di -> holds (umem u) si bs -> Forall ubyte bs ->
  mapped (umem u) di (length bs) ->
  exists r, rep_movsb (length bs) (di + (Z.of_nat (length bs) - 1)) (si + (Z.of_nat (length bs) - 1)) u =
    Some (r, mkU (put_bytes di bs (umem u)) (udf u)).
Proof.
  induction bs as [|b bs IH] using rev_ind; intros [m d] di si Hd Hlt Hs Hb Hm; cbn in Hd; subst d.
  - by eexists.
  - apply holds_app in Hs as [Hs [Hs1 _]]. apply Forall_app in Hb as [Hb Hb1]. inversion Hb1; subst.
    rewrite length_app, Nat.add_1_r in *. cbn [length rep_movsb umem] in *.
    replace (Z.of_nat (S (length bs)) - 1) with (Z.of_nat (length bs)) by lia.
    assert (Hm1 : is_Some (m !! (di + Z.of_nat (length bs)))) by (apply Hm; lia).
    do 3 ustep. cbn [umem udf dstep].
    destruct (IH (mkU (<[di + Z.of_nat (length bs) := b]> m) true) di si) as [r Hr]; try done.
    + cbn. apply holds_insert; [lia|done].
    + cbn. apply mapped_insert. intros x Hx. apply Hm. lia.
    + exists r. rewrite put_bytes_snoc. etransitivity; [|exact Hr]. f_equal; lia.
Qed.

(** [memmove] copies the bytes at [src] to [dst] however the two areas
    overlap, changes no other byte, and leaves the direction flag set exactly
    when it copied from the end. *)
Theorem memmove_correct u dst src bs :
  holds (umem u) src bs -> Forall ubyte bs -> mapped (umem u) dst (length bs) ->
  memmove dst src (length bs) u =
    Some (dst, mkU (put_bytes dst bs (umem u)) (negb (dst <? src))).
Proof.
  intros Hs Hb Hm. unfold memmove. destruct (Z.ltb_spec dst src) as [Hlt|Hge]; cbn [negb].
  - destruct (rep_movsb_forward bs (mkU (umem u) false) dst src) as [r Hr]; try done.
    erewrite ubind_ok; [reflexivity|]. erewrite ubind_ok by reflexivity. exact Hr.
  - destruct (rep_movsb_backward bs (mkU (umem u) true) dst src) as [r Hr]; try done.
    erewrite ubind_ok; [reflexivity|]. erewrite ubind_ok by reflexivity. exact Hr.
Qed.

(** ** Filling *)

Lemma rep_stosb_up n : forall u di c, udf u = false -> mapped (umem u) di n ->
  exists r, rep_stosb n di c u = Some (r, mkU (put_bytes di (replicate n (c mod 256)) (umem u)) false).
Proof.
  induction n as [|n IH]; intros [m d] di c Hd Hm; cbn in Hd; subst d; [by eexists|].
  cbn [rep_stosb replicate put_bytes umem] in *. ustep.
  erewrite ubind_ok by (apply st_any; cbn; eauto with yalnix). cbn [umem udf dstep].
  destruct (IH (mkU (<[di := c mod 256]> m) false) (di + 1) c) as [r Hr]; [done|cbn; eauto with yalnix|].
  by exists r.
Qed.

Lemma rep_stosl_up n : forall u di c, udf u = false -> mapped (umem u) di (4 * n) ->
  rep_stosl n di c u = Some (di + Z.of_nat (4 * n),
    mkU (put_bytes di (replicate (4 * n) (c mod 256)) (umem u)) false).
Proof.
  induction n as [|n IH]; intros [m d] di c Hd Hm; cbn in Hd; subst d.
  { cbn. by rewrite Z.add_0_r. }
  replace (4 * S n)%nat with (S (S (S (S (4 * n))))) in * by lia.
  cbn [rep_stosl replicate put_bytes umem] in *. ustep.
  do 4 (erewrite ubind_ok; [|apply st_any; cbn [umem]; rewrite ?lookup_insert_ne by lia; apply Hm; lia]; cbn [umem udf]).
  cbn [dstep]. rewrite IH; [|done|].
  - cbn [umem]. replace (di + 1 + 1) with (di + 2) by lia. replace (di + 2 + 1) with (di + 3) by lia.
    replace (di + 3 + 1) with (di + 4) by lia. do 2 f_equal. lia.
  - cbn. repeat apply mapped_insert. intros x Hx. apply Hm. lia.
Qed.

Lemma memset_up u dst c n : udf u = false -> mapped (umem u) dst n ->
  memset dst c n u = Some (dst, mkU (put_bytes dst (replicate n (c mod 256)) (umem u)) false).
Proof.
  intros Hd Hm. unfold memset. pose proof (Nat.div_mod_eq n 4) as Hn.
  erewrite ubind_ok; [|apply rep_stosl_up; [done|]; intros x Hx; apply Hm; lia].
  destruct (rep_stosb_up (n mod 4) (mkU (put_bytes dst (replicate (4 * (n / 4)) (c mod 256)) (umem u)) false)
    (dst + Z.of_nat (4 * (n / 4))) c) as [r Hr]; [done| |].
  - intros x Hx. cbn [umem]. eapply mapped_put_bytes; [exact Hm|lia].
  - erewrite ubind_ok by exact Hr. unfold uret. cbn [umem]. do 3 f_equal.
    transitivity (put_bytes dst (replicate (4 * (n / 4) + n mod 4) (c mod 256)) (umem u)).
    + by rewrite replicate_add, put_bytes_app, length_replicate.
    + by rewrite <- Hn.
Qed.

(** With the flag set the stores go down from [dst + 3]. *)
Lemma rep_stosb_down n : forall u di c, udf u = true -> mapped (umem u) (di - Z.of_nat n + 1) n ->
  exists r u', rep_stosb n di c u = Some (r, u') /\ forall x, di < x -> umem u' !! x = umem u !! x.
Proof.
  induction n as [|n IH]; intros [m d] di c Hd Hm; cbn in Hd; subst d; [by eexists _, _|].
  cbn [rep_stosb umem] in *. ustep.
  erewrite ubind_ok by (apply st_any; cbn; apply Hm; lia). cbn [umem udf dstep].
  destruct (IH (mkU (<[di := c mod 256]> m) true) (di + - (1)) c) as (r & u' & E & Hu); [done| |].
  - cbn. apply mapped_insert. intros x Hx. apply Hm. lia.
  - exists r, u'. split; [done|]. intros x Hx. rewrite Hu by lia. cbn. by rewrite lookup_insert_ne by lia.
Qed.

Lemma rep_stosl_down n : forall u di c,
  udf u = true -> mapped (umem u) (di - Z.of_nat (4 * n) + 4) (4 * n) ->
  exists u', rep_stosl n di c u = Some (di - Z.of_nat (4 * n), u') /\ udf u' = true /\
    (forall x, is_Some (umem u !! x) -> is_Some (umem u' !! x)) /\
    forall x, di + 4 <= x -> umem u' !! x = umem u !! x.
Proof.
  induction n as [|n IH]; intros [m d] di c Hd Hm; cbn in Hd; subst d.
  { exists (mkU m true). cbn. by rewrite Z.sub_0_r. }
  cbn [rep_stosl umem] in *. ustep.
  do 4 (erewrite ubind_ok; [|apply st_any; cbn [umem]; rewrite ?lookup_insert_ne by lia; apply Hm; lia];
    cbn [umem udf]).
  cbn [dstep]. match goal with |- context [rep_stosl n _ _ ?u1] => set (u1' := u1) end.
  destruct (IH u1' (di + - (4)) c) as (u' & E & Hd & Hs & Hu); [done| |].
  - unfold u1'. cbn [umem]. repeat apply mapped_insert. intros x Hx. apply Hm. lia.
  - exists u'. rewrite E. split; [do 2 f_equal; lia|]. split; [done|]. split.
    + intros x Hx. apply Hs. unfold u1'. cbn [umem]. rewrite !lookup_insert_is_Some'. tauto.
    + intros x Hx. rewrite Hu by lia. unfold u1'. cbn [umem]. by rewrite !lookup_insert_ne by lia.
Qed.

(** [memset] relies on a clear direction flag, which [memmove] does not
    restore: with the flag clear it fills the [n] bytes at [dst] and nothing else,
    but after a [memmove] to a higher address it leaves every byte from [dst + 4]
    on as it was. *)
Theorem memset_direction u dst c n d s bs :
  holds (umem u) s bs -> Forall ubyte bs -> mapped (umem u) d (length bs) -> s <= d ->
  mapped (umem u) (dst - Z.of_nat n) (n + n + 4) ->
  (exists u', memset dst c n (mkU (umem u) false) = Some (dst, u') /\
    umem u' = put_bytes dst (replicate n (c mod 256)) (umem u)) /\
  (exists u', ubind (memmove d s (length bs)) (fun _ => memset dst c n) u = Some (dst, u') /\
    forall x, dst + 4 <= x -> umem u' !! x = put_bytes d bs (umem u) !! x).
Proof.
  intros Hs Hb Hd Hsd Hm. split.
  - eexists. split; [apply memset_up; [done|]|done]. intros x Hx. apply Hm. lia.
  - erewrite ubind_ok by (by apply memmove_correct). destruct (Z.ltb_spec d s); [lia|].
    cbn [negb]. set (u1 := mkU _ true). pose proof (Nat.div_mod_eq n 4) as Hn. unfold memset.
    assert (Hm1 : mapped (umem u1) (dst - Z.of_nat n) (n + n + 4)) by by apply mapped_put_bytes.
    destruct (rep_stosl_down (n / 4) u1 dst c) as (u2 & E & Hd2 & Hs2 & Hu2); [done| |].
    { intros x Hx. apply Hm1. lia. }
    erewrite ubind_ok by exact E.
    destruct (rep_stosb_down (n mod 4) u2 (dst - Z.of_nat (4 * (n / 4))) c) as (r & u3 & E3 & Hu3); [done| |].
    { intros x Hx. apply Hs2, Hm1. lia. }
    erewrite ubind_ok by exact E3. exists u3. split; [done|]. intros x Hx.
    rewrite Hu3, Hu2 by lia. done.
Qed.

(** ** Searching *)

Lemma memcmp_spec A : forall B a b u, length A = length B ->
  holds (umem u) a A -> holds (umem u) b B ->
  exists d, memcmp a b (length A) u = Some (d, u) /\ (d = 0 <-> A = B).
Proof.
  induction A as [|x A IH]; intros [|y B] a b u Hl Ha Hb; try done.
  - by exists 0.
  - destruct Ha as [Ha1 Ha], Hb as [Hb1 Hb]. cbn [length memcmp].
    do 2 (erewrite ubind_ok by (by apply ld_ok)).
    destruct (Z.eqb_spec (x - y) 0) as [E|E]; cbn [negb].
    + destruct (IH B (a + 1) (b + 1) u) as (d & Hd & Hd0); [by injection Hl|done..|].
      exists d. split; [done|]. rewrite Hd0. replace y with x by lia. split; congruence.
    + exists (x - y). split; [done|]. split; [lia|]. intros [= -> _]. lia.
Qed.

(** [X] occurs in [Y] at [j]. *)
Definition occurs (Y X : list Z) (j : nat) : Prop := take (length X) (drop j Y) = X.

(** The first occurrence at or after [j], as an address, is what [r] reports. *)
Definition first_from (Y X : list Z) (y : Z) (j : nat) (r : Z) : Prop :=
  (exists k, (j <= k)%nat /\ occurs Y X k /\ (forall i, (j <= i < k)%nat -> ~ occurs Y X i) /\
    r = y + Z.of_nat k) \/
  ((forall i, (j <= i)%nat -> ~ occurs Y X i) /\ r = NULL).

Lemma occurs_bound Y X j : X <> [] -> occurs Y X j -> (j + length X <= length Y)%nat.
Proof.
  intros HX H. assert (Hl : length (take (length X) (drop j Y)) = length X) by (by rewrite H).
  rewrite length_take, length_drop in Hl. destruct X; [done|]. cbn [length] in *. lia.
Qed.

Lemma first_from_skip Y X y j j' r : (j <= j')%nat ->
  (forall i, (j <= i < j')%nat -> ~ occurs Y X i) -> first_from Y X y j' r -> first_from Y X y j r.
Proof.
  intros Hj Hn [(k & Hk & Ho & Hf & Hr)|[Hf Hr]].
  - left. exists k. split; [lia|]. split; [done|]. split; [|done]. intros i Hi.
    destruct (decide (i < j')%nat); [apply Hn; lia|apply Hf; lia].
  - right. split; [|done]. intros i Hi.
    destruct (decide (i < j')%nat); [apply Hn; lia|apply Hf; lia].
Qed.

Lemma holds_drop m a Y j : holds m a Y -> holds m (a + Z.of_nat j) (drop j Y).
Proof.
  revert a j. induction Y as [|b Y IH]; intros a j HY; [by destruct j|]. destruct HY as [H1 HY].
  destruct j as [|j]; cbn [drop]; [by rewrite Z.add_0_r|].
  replace (a + Z.of_nat (S j)) with (a + 1 + Z.of_nat j) by lia. by apply IH.
Qed.

Lemma holds_take m a Y j : holds m a Y -> holds m a (take j Y).
Proof.
  intros H. rewrite <- (take_drop j Y) in H. by apply holds_app in H as [H _].
Qed.

(** The second byte decides whether the next position can be skipped. *)
Lemma occurs_cons2 Y x0 x1 X j y0 y1 W : drop j Y = y0 :: y1 :: W ->
  (occurs Y (x0 :: x1 :: X) j <-> y0 = x0 /\ y1 = x1 /\ take (length X) W = X) /\
  (occurs Y (x0 :: x1 :: X) (S j) -> y1 = x0).
Proof.
  intros E. unfold occurs. rewrite E. cbn [length take]. split; [split|].
  - by intros [= -> -> ->].
  - by intros (-> & -> & ->).
  - replace (S j) with (j + 1)%nat by lia. rewrite <- drop_drop, E. cbn. by intros [= -> _].
Qed.

Lemma memmem_loop_spec u y Y x x0 x1 X fuel : forall k l j,
  holds (umem u) y Y -> holds (umem u) x (x0 :: x1 :: X) ->
  (k, l) = (if x0 =? x1 then (2, 1) else (1, 2)) ->
  (length Y < j + fuel)%nat -> (2 + length X <= length Y)%nat ->
  exists r, memmem_loop fuel y (length Y) x (2 + length X) k l (Z.of_nat j) u = Some (r, u) /\
    first_from Y (x0 :: x1 :: X) y j r.
Proof.
  induction fuel as [|fuel IH]; intros k l j HY HX Hkl Hf Hl; cbn [memmem_loop];
    destruct (Z.leb_spec (Z.of_nat j) (Z.of_nat (length Y) - Z.of_nat (2 + length X))) as [Hle|Hgt]; try lia;
    try (exists NULL; split; [done|]; right; split; [|done]; intros i Hi Ho;
         apply occurs_bound in Ho; [|done]; cbn [length] in Ho; lia).
  assert (HW : exists y0 y1 W, drop j Y = y0 :: y1 :: W).
  { pose proof (length_drop Y j) as H. destruct (drop j Y) as [|y0 [|y1 W]]; cbn in H; [lia..|]. eauto. }
  destruct HW as (y0 & y1 & W & EW). destruct (occurs_cons2 Y x0 x1 X j y0 y1 W EW) as [Ho1 Ho2].
  pose proof (holds_drop _ _ _ j HY) as Hy. rewrite EW in Hy. destruct Hy as (Hy0 & Hy1 & Hyw).
  destruct HX as (Hx0 & Hx1 & Hxr). pose proof (conj Hx0 (conj Hx1 Hxr)) as HX.
  assert (Hnext : forall d, 1 <= d <= 2 -> (forall i, (j <= i < j + Z.to_nat d)%nat -> ~ occurs Y (x0 :: x1 :: X) i) ->
    exists r, memmem_loop fuel y (length Y) x (2 + length X) k l (Z.of_nat j + d) u = Some (r, u) /\
      first_from Y (x0 :: x1 :: X) y j r).
  { intros d Hd Hno. destruct (IH k l (j + Z.to_nat d)%nat) as (r & E & Hr); try done; [lia|].
    exists r. split; [rewrite <- E; f_equal; lia|]. eapply first_from_skip; [|exact Hno|exact Hr]. lia. }
  erewrite ubind_ok by (by apply ld_ok).
  erewrite ubind_ok by (apply ld_ok; rewrite <- Hy1; f_equal; lia).
  destruct (Z.eqb_spec x1 y1) as [E1|E1]; cbn [negb].
  - destruct (memcmp_spec X (take (length X) W) (x + 2) (y + Z.of_nat j + 2) u) as (d & Ed & Hd).
    { pose proof (length_drop Y j) as H. rewrite EW in H. cbn in H. rewrite length_take. lia. }
    { by replace (x + 2) with (x + 1 + 1) by lia. }
    { apply holds_take. by replace (y + Z.of_nat j + 2) with (y + Z.of_nat j + 1 + 1) by lia. }
    replace (2 + length X - 2)%nat with (length X) by lia. erewrite ubind_ok by exact Ed.
    assert (Hs : ubind (if d =? 0 then ubind (ld x) (fun a => ubind (ld (y + Z.of_nat j)) (fun b => uret (a =? b)))
        else uret false) (fun same : bool => if same then uret (y + Z.of_nat j) else
          memmem_loop fuel y (length Y) x (2 + length X) k l (Z.of_nat j + l)) u =
      (if (d =? 0) && (x0 =? y0) then uret (y + Z.of_nat j) else
          memmem_loop fuel y (length Y) x (2 + length X) k l (Z.of_nat j + l)) u).
    { destruct (d =? 0); cbn [andb]; [|done]. unfold ubind at 1 2 3. unfold ld. by rewrite Hx0, Hy0. }
    rewrite Hs. clear Hs. destruct (Z.eqb_spec d 0) as [E0|E0], (Z.eqb_spec x0 y0) as [E2|E2]; cbn [andb].
    { exists (y + Z.of_nat j). split; [done|]. left. exists j. split; [lia|]. split; [|split; [lia|done]].
      apply Ho1. split; [done|]. split; [done|]. symmetry. by apply Hd. }
    all: apply Hnext; destruct (Z.eqb_spec x0 x1) as [E3|E3]; injection Hkl as -> ->; try lia; intros i Hi Ho;
      (assert (i = j \/ i = S j) as [->| ->] by lia; [apply Ho1 in Ho as (?&?&?)|apply Ho2 in Ho]); try congruence;
      try lia; apply E0, Hd; congruence.
  - apply Hnext; destruct (Z.eqb_spec x0 x1) as [E3|E3]; injection Hkl as -> ->; try lia; intros i Hi Ho;
      (assert (i = j \/ i = S j) as [->| ->] by lia; [apply Ho1 in Ho as (?&?&?)|apply Ho2 in Ho]); try congruence; lia.
Qed.

Lemma memmem_byte_spec u x x0 Y0 n : forall y j,
  holds (umem u) y (drop j Y0) -> umem u !! x = Some x0 -> length (drop j Y0) = n ->
  exists r, memmem_byte y x n u = Some (r, u) /\ first_from Y0 [x0] (y - Z.of_nat j) j r.
Proof.
  induction n as [|n IH]; intros y j HY Hx Hn; cbn [memmem_byte].
  - exists NULL. split; [done|]. right. split; [|done]. intros i Hi Ho%occurs_bound; [|done].
    rewrite length_drop in Hn. cbn in Ho. lia.
  - destruct (drop j Y0) as [|b W] eqn:EW; [done|]. destruct HY as [Hb HW]. injection Hn as Hn.
    assert (EW1 : drop (S j) Y0 = W).
    { replace (S j) with (j + 1)%nat by lia. rewrite <- drop_drop, EW. done. }
    do 2 (erewrite ubind_ok by (by apply ld_ok)). destruct (Z.eqb_spec b x0) as [->|Hne].
    + exists y. split; [done|]. left. exists j. split; [lia|]. split; [|split; [lia|lia]].
      unfold occurs. by rewrite EW.
    + destruct (IH (y + 1) (S j)) as (r & E & Hr); [by rewrite EW1|done|by rewrite EW1|].
      exists r. split; [done|]. eapply (first_from_skip _ _ _ j (S j)); [lia| |].
      * intros i Hi Ho. assert (i = j) as -> by lia. unfold occurs in Ho. rewrite EW in Ho. cbn in Ho. congruence.
      * by replace (y - Z.of_nat j) with (y + 1 - Z.of_nat (S j)) by lia.
Qed.

(** [memmem], whose loop skips positions after comparing the second byte of
    the needle, returns the first occurrence of the needle, as the naive search
    does, and NULL when there is none; an empty needle is never found. *)
Theorem memmem_first u y x Y X :
  holds (umem u) y Y -> holds (umem u) x X ->
  exists r, memmem y (length Y) x (length X) u = Some (r, u) /\
    (X = [] -> r = NULL) /\ (X <> [] -> first_from Y X y 0 r).
Proof.
  intros HY HX. unfold memmem.
  assert (Hnone : (length Y < length X)%nat -> first_from Y X y 0 NULL).
  { intros Hlt. right. split; [|done]. intros i _ Ho%occurs_bound; [lia|]. by intros ->; cbn in *; lia. }
  destruct (Nat.ltb_spec (length Y) (length X)) as [Hlt|Hle]; cbn [orb].
  { exists NULL. repeat split; auto. }
  destruct X as [|x0 X]; cbn [length Nat.eqb orb].
  { exists NULL. repeat split; done. }
  destruct Y as [|y0 Y]; [cbn in Hle; lia|]. cbn [length Nat.eqb].
  destruct X as [|x1 X]; cbn [length Nat.eqb negb].
  - destruct HX as [Hx _].
    destruct (memmem_byte_spec u x x0 (y0 :: Y) (S (length Y)) y 0) as (r & E & Hr); [done..|].
    exists r. rewrite E. rewrite Z.sub_0_r in Hr. repeat split; done.
  - pose proof HX as (Hx0 & Hx1 & _). do 2 (erewrite ubind_ok by (by apply ld_ok)).
    destruct (memmem_loop_spec u y (y0 :: Y) x x0 x1 X (S (S (length Y)))
      (if x0 =? x1 then 2 else 1) (if x0 =? x1 then 1 else 2) 0) as (r & E & Hr); try done.
    { by destruct (x0 =? x1). }
    { cbn [length]. lia. }
    exists r. split; [|split; done]. rewrite <- E. by destruct (x0 =? x1).
Qed.

(** ** Strings *)

Lemma strlen_loop_spec s : forall u a fuel, cstr (umem u) a s -> (length s <= fuel)%nat ->
  strlen_loop fuel a u = Some (a + Z.of_nat (length s), u).
Proof.
  induction s as [|c s IH]; intros u a fuel [Hh Hc] Hf; destruct Hh as [H0 Hh];
    destruct fuel as [|fuel]; cbn [length] in Hf; try lia; cbn [strlen_loop].
  1, 2: ustep; cbn; by rewrite Z.add_0_r.
  inversion Hc as [|? ? Hc1 Hc2]; subst. ustep. unfold cchar in Hc1.
  destruct (Z.eqb_spec c 0); [lia|]. cbn [negb]. rewrite (IH u (a + 1) fuel); [|done|lia].
  cbn [length]. do 2 f_equal. lia.
Qed.

Lemma cstr_size m a s : cstr m a s -> (length s < size m)%nat.
Proof.
  intros [H%holds_mapped%mapped_size _]. rewrite length_app in H. cbn in H. lia.
Qed.

Lemma strlen_ok u a s : cstr (umem u) a s -> strlen a u = Some (Z.of_nat (length s), u).
Proof.
  intros H. unfold strlen, with_fuel, umem_fuel. pose proof (cstr_size _ _ _ H).
  erewrite ubind_ok by (apply (strlen_loop_spec s); [done|lia]). unfold uret. do 2 f_equal. lia.
Qed.

Lemma strchr_end u a s : cstr (umem u) a s -> strchr a 0 u = Some (a + Z.of_nat (length s), u).
Proof.
  intros H. unfold strchr, with_fuel, umem_fuel. pose proof (cstr_size _ _ _ H) as Hsz.
  assert (Hf : (length s <= S (size (umem u)))%nat) by lia. revert H Hf.
  generalize (S (size (umem u))) as fuel. clear Hsz. revert a.
  induction s as [|c s IH]; intros a fuel [[H0 Hh] Hc] Hf; destruct fuel as [|fuel];
    cbn [length] in Hf; try lia; cbn [strchr_loop].
  1, 2: ustep; cbn; by rewrite Z.add_0_r.
  inversion Hc as [|? ? Hc1 Hc2]; subst. ustep. unfold cchar in Hc1. rewrite Zmod_0_l.
  destruct (Z.eqb_spec c 0); [lia|]. cbn [negb]. rewrite (IH (a + 1) fuel); [|done|lia].
  cbn [length]. do 2 f_equal. lia.
Qed.

Lemma strcpy_loop_spec s : forall u q p fuel, cstr (umem u) p s -> (length s <= fuel)%nat ->
  mapped (umem u) q (S (length s)) -> (q <= p \/ p + Z.of_nat (length s) < q) ->
  strcpy_loop fuel q p u = Some (tt, mkU (put_bytes q (s ++ [0]) (umem u)) (udf u)).
Proof.
  induction s as [|c s IH]; intros [m d] q p fuel [[H0 Hh] Hc] Hf Hm Hqp;
    destruct fuel as [|fuel]; cbn [length umem] in *; try lia; cbn [strcpy_loop].
  1, 2: by do 2 ustep.
  inversion Hc as [|? ? Hc1 Hc2]; subst. do 2 ustep. unfold cchar in Hc1.
  destruct (Z.eqb_spec c 0); [lia|]. cbn [negb]. rewrite (IH _ (q + 1) (p + 1) fuel).
  - done.
  - split; [|done]. cbn. destruct (decide (q = p)) as [->|].
    + by rewrite insert_id.
    + apply holds_insert; [|done]. rewrite length_app. cbn. lia.
  - lia.
  - cbn. by apply mapped_insert, mapped_tail.
  - lia.
Qed.

(** [strcat] appends the string at [src] to the string at [dst], terminates
    it, and writes nothing else, when [dst] has room and the bytes it writes are
    not ahead of those it reads. *)
Theorem strcat_correct u dst src d s :
  cstr (umem u) dst d -> cstr (umem u) src s ->
  mapped (umem u) (dst + Z.of_nat (length d)) (S (length s)) ->
  (dst + Z.of_nat (length d) <= src \/ src + Z.of_nat (length s) < dst + Z.of_nat (length d)) ->
  exists u', strcat dst src u = Some (dst, u') /\ udf u' = udf u /\
    umem u' = put_bytes (dst + Z.of_nat (length d)) (s ++ [0]) (umem u) /\
    cstr (umem u') dst (d ++ s).
Proof.
  intros Hd Hs Hm Hov. unfold strcat, strcpy, with_fuel, umem_fuel.
  pose proof (cstr_size _ _ _ Hs). eexists. split; [|split; [|split]].
  - erewrite ubind_ok by (by apply strchr_end). erewrite ubind_ok; [reflexivity|].
    erewrite ubind_ok; [reflexivity|]. apply (strcpy_loop_spec s); [done|lia|done|lia].
  - done.
  - done.
  - destruct Hd as [Hd Hcd], Hs as [_ Hcs]. cbn [umem]. split; [|by apply Forall_app].
    rewrite <- app_assoc. apply holds_app in Hd as [Hd _]. apply holds_app.
    split; [apply put_bytes_keeps; [lia|done]|apply put_bytes_holds].
Qed.

(** Strings in the order of their bytes, a proper prefix first. *)
Fixpoint str_lt (s t : list Z) : Prop :=
  match s, t with
  | _, [] => False
  | [], _ :: _ => True
  | a :: s', b :: t' => a < b \/ (a = b /\ str_lt s' t')
  end.

Lemma strcmp_loop_spec s : forall t u a b fuel, cstr (umem u) a s -> cstr (umem u) b t ->
  (length s <= fuel)%nat ->
  exists d, strcmp_loop fuel a b u = Some (d, u) /\ (d = 0 <-> s = t) /\ (d < 0 <-> str_lt s t).
Proof.
  induction s as [|c s IH]; intros [|c' t] u a b fuel [[H0 Hh] Hc] [[H0' Hh'] Hc'] Hf;
    destruct fuel as [|fuel]; cbn [length] in Hf; try lia; cbn [strcmp_loop];
    do 2 (erewrite ubind_ok by (by apply ld_ok)).
  1, 2: by exists 0.
  1, 2: inversion Hc' as [|? ? Hc1' ?]; subst; unfold cchar in Hc1'; rewrite orb_true_r;
    exists (0 - c'); (split; [done|]); (split; [split; [lia|done]|]); cbn; (split; [done|lia]).
  - inversion Hc as [|? ? Hc1 ?]; subst. unfold cchar in Hc1. exists (c - 0).
    destruct (Z.eqb_spec (c - 0) 0); [lia|]. cbn [negb orb str_lt]. split; [done|].
    split; (split; [lia|done]).
  - inversion Hc as [|? ? Hc1 Hc2]; inversion Hc' as [|? ? Hc1' Hc2']; subst. unfold cchar in Hc1, Hc1'.
    destruct (Z.eqb_spec (c - c') 0) as [E|E]; cbn [negb orb].
    + destruct (Z.eqb_spec c 0); [lia|]. assert (c' = c) as -> by lia.
      destruct (IH t u (a + 1) (b + 1) fuel) as (d & Hd & Hd0 & Hd1); [done|done|lia|].
      exists d. split; [done|]. rewrite Hd0, Hd1. cbn [str_lt]. split; [split; congruence|].
      split; [tauto|]. intros [?|[_ ?]]; [lia|done].
    + exists (c - c'). split; [done|]. cbn [str_lt]. split; [split; [lia|]; intros [= -> _]; lia|].
      split; [intros; left; lia|]. intros [?|[-> _]]; lia.
Qed.

(** [strcmp] returns 0 exactly on equal strings and a negative number exactly
    when the first string is before the second in the order of their bytes. *)
Theorem strcmp_correct u a b s t :
  cstr (umem u) a s -> cstr (umem u) b t ->
  exists d, strcmp a b u = Some (d, u) /\ (d = 0 <-> s = t) /\ (d < 0 <-> str_lt s t).
Proof.
  intros Hs Ht. unfold strcmp, with_fuel, umem_fuel. pose proof (cstr_size _ _ _ Hs).
  apply strcmp_loop_spec; [done|done|lia].
Qed.

(** ** Witnesses *)

(** "ab" at 100, room for 4 more bytes, and "ca" at 200. *)
Definition ex_umem : umach :=
  mkU (put_bytes 90 (replicate 10 1) (put_bytes 200 [99; 97; 0] (put_bytes 100 [97; 98; 0; 9; 9; 9; 9] ∅))) false.

Lemma ex_ab : cstr (umem ex_umem) 100 [97; 98].
Proof. split; [repeat split; vm_compute; reflexivity|by repeat constructor]. Qed.

Lemma ex_ca : cstr (umem ex_umem) 200 [99; 97].
Proof. split; [repeat split; vm_compute; reflexivity|by repeat constructor]. Qed.

Lemma ex_mapped a n : (90 <= a /\ a + Z.of_nat n <= 107) -> mapped (umem ex_umem) a n.
Proof.
  intros Ha x Hx.
  assert (Hall : forallb (fun y => bool_decide (is_Some (umem ex_umem !! y))) (zseq 90 107) = true)
    by (vm_compute; reflexivity).
  rewrite forallb_forall in Hall. eapply bool_decide_eq_true, Hall.
  apply list_elem_of_In, elem_of_zseq. lia.
Qed.

Lemma memmove_correct_witness :
  memmove 101 100 2 ex_umem = Some (101, mkU (put_bytes 101 [97; 98] (umem ex_umem)) true).
Proof.
  apply (memmove_correct ex_umem 101 100 [97; 98]).
  - repeat split; vm_compute; reflexivity.
  - by repeat constructor.
  - apply ex_mapped. cbn. lia.
Defined.

Lemma memset_direction_witness :
  exists u', ubind (memmove 101 100 2) (fun _ => memset 98 7 5) ex_umem = Some (98, u') /\
    forall x, 102 <= x -> umem u' !! x = put_bytes 101 [97; 98] (umem ex_umem) !! x.
Proof.
  apply (memset_direction ex_umem 98 7 5 101 100 [97; 98]).
  - repeat split; vm_compute; reflexivity.
  - by repeat constructor.
  - apply ex_mapped. cbn. lia.
  - lia.
  - apply ex_mapped. cbn. lia.
Defined.

Lemma memmem_first_witness :
  exists r, memmem 100 7 103 2 ex_umem = Some (r, ex_umem) /\
    ([9; 9] = [] -> r = NULL) /\ ([9; 9] <> [] -> first_from [97; 98; 0; 9; 9; 9; 9] [9; 9] 100 0 r).
Proof.
  apply (memmem_first ex_umem 100 103 [97; 98; 0; 9; 9; 9; 9] [9; 9]);
    repeat split; vm_compute; reflexivity.
Defined.

Lemma strcat_correct_witness :
  exists u', strcat 100 200 ex_umem = Some (100, u') /\ udf u' = udf ex_umem /\
    umem u' = put_bytes 102 [99; 97; 0] (umem ex_umem) /\ cstr (umem u') 100 [97; 98; 99; 97].
Proof.
  apply (strcat_correct ex_umem 100 200 [97; 98] [99; 97]).
  - exact ex_ab.
  - exact ex_ca.
  - apply ex_mapped. cbn. lia.
  - left. cbn. lia.
Defined.

Lemma strcmp_correct_witness :
  exists d, strcmp 100 200 ex_umem = Some (d, ex_umem) /\ (d = 0 <-> [97; 98] = [99; 97]) /\
    (d < 0 <-> str_lt [97; 98] [99; 97]).
Proof. apply (strcmp_correct ex_umem 100 200); [exact ex_ab|exact ex_ca]. Defined.
