(* ===== verification/UserCtype.v ===== *)
(** * Character classes ([include/ctype.h], [etc/yuserlib/common/ctypes.c])

    The table of classes of ISO 8859-1 characters, the predicates and case
    conversions defined by it, and the interface the reading functions use. *)

From Stdlib Require Import ZArith Lia.
From stdpp Require Import base list.
From S2P Require Import Prelude.

Open Scope Z_scope.

(** ** The table *)

Definition __ctype_upper : Z := Z.shiftl 1 0.
Definition __ctype_lower : Z := Z.shiftl 1 1.
Definition __ctype_digit : Z := Z.shiftl 1 2.
Definition __ctype_xdigit : Z := Z.shiftl 1 3.
Definition __ctype_space : Z := Z.shiftl 1 4.
Definition __ctype_print : Z := Z.shiftl 1 5.
Definition __ctype_punct : Z := Z.shiftl 1 6.
Definition __ctype_cntrl : Z := Z.shiftl 1 7.

(** [n] entries of the table. *)
Definition classes (n : nat) (cs : list Z) : list Z := replicate n (foldr Z.lor 0 cs).

(** The entry for EOF, then one for each character of ASCII. *)
Definition __ctypes_ascii : list Z :=
  [0] ++
  classes 8 [__ctype_cntrl] ++ classes 6 [__ctype_cntrl; __ctype_space] ++ classes 18 [__ctype_cntrl] ++
  classes 1 [__ctype_print; __ctype_space] ++ classes 15 [__ctype_print; __ctype_punct] ++
  classes 10 [__ctype_print; __ctype_digit; __ctype_xdigit] ++ classes 7 [__ctype_print; __ctype_punct] ++
  classes 6 [__ctype_print; __ctype_upper; __ctype_xdigit] ++ classes 20 [__ctype_print; __ctype_upper] ++
  classes 6 [__ctype_print; __ctype_punct] ++
  classes 6 [__ctype_print; __ctype_lower; __ctype_xdigit] ++ classes 20 [__ctype_print; __ctype_lower] ++
  classes 4 [__ctype_print; __ctype_punct] ++ classes 1 [__ctype_cntrl].

(** The upper half of ISO 8859-1. *)
Definition __ctypes_latin1 : list Z :=
  classes 32 [__ctype_cntrl] ++
  classes 1 [__ctype_print; __ctype_space] ++ classes 31 [__ctype_print; __ctype_punct] ++
  classes 23 [__ctype_print; __ctype_upper] ++ classes 1 [__ctype_print; __ctype_punct] ++
  classes 7 [__ctype_print; __ctype_upper] ++ classes 24 [__ctype_print; __ctype_lower] ++
  classes 1 [__ctype_print; __ctype_punct] ++ classes 8 [__ctype_print; __ctype_lower].

Definition __ctypes : list Z := __ctypes_ascii ++ __ctypes_latin1.

(** ** The functions

    [None] when the character is outside the table. *)

Definition ctype_and (c mask : Z) : option Z := option_map (fun e => Z.land e mask) (zget __ctypes (c + 1)).

Definition __ctype_isalnum (c : Z) : option Z :=
  ctype_and c (Z.lor (Z.lor __ctype_upper __ctype_lower) __ctype_digit).
Definition __ctype_isalpha (c : Z) : option Z := ctype_and c (Z.lor __ctype_upper __ctype_lower).
Definition __ctype_isascii (c : Z) : option Z := Some (b2z (Z.land c (Z.lnot 0x7f) =? 0)).
Definition __ctype_isblank (c : Z) : option Z := Some (b2z ((c =? 9) || (c =? 32))).
Definition __ctype_iscntrl (c : Z) : option Z := ctype_and c __ctype_cntrl.
Definition __ctype_isdigit (c : Z) : option Z := Some (b2z (u32 (c - 48) <=? 9)).
Definition __ctype_isgraph (c : Z) : option Z :=
  ctype_and c (Z.lor (Z.lor (Z.lor __ctype_upper __ctype_lower) __ctype_digit) __ctype_punct).
Definition __ctype_islower (c : Z) : option Z := ctype_and c __ctype_lower.
Definition __ctype_isprint (c : Z) : option Z := ctype_and c __ctype_print.
Definition __ctype_ispunct (c : Z) : option Z := ctype_and c __ctype_punct.
Definition __ctype_isspace (c : Z) : option Z := ctype_and c __ctype_space.
Definition __ctype_isupper (c : Z) : option Z := ctype_and c __ctype_upper.
Definition __ctype_isxdigit (c : Z) : option Z := ctype_and c __ctype_xdigit.

Definition _toupper (c : Z) : Z := Z.land c (Z.lnot 32).
Definition _tolower (c : Z) : Z := Z.lor c 32.

Definition __ctype_toupper (c : Z) : option Z :=
  option_map (fun b => if negb (b =? 0) then _toupper c else c) (__ctype_islower c).
Definition __ctype_tolower (c : Z) : option Z :=
  option_map (fun b => if negb (b =? 0) then _tolower c else c) (__ctype_isupper c).

(** The value of a class function as a condition. *)
Definition holds_of (r : option Z) : bool := match r with Some v => negb (v =? 0) | None => false end.

(** ** The interface of the reading functions *)

Class Ctype := { isspace : Z -> bool }.

Definition alnum (c : Z) : Prop := 48 <= c <= 57 \/ 65 <= c <= 90 \/ 97 <= c <= 122.

(** The blank is white space; digits, letters and signs are not. *)
Class CtypeLaws (CT : Ctype) : Prop := {
  isspace_blank : isspace 32 = true;
  isspace_sign : isspace 43 = false /\ isspace 45 = false;
  isspace_alnum : forall c, alnum c -> isspace c = false }.

(** The library's own [isspace]. *)
Definition lib_ctype : Ctype := {| isspace := fun c => holds_of (__ctype_isspace c) |}.

(** A property of all characters, by trying them. *)
Lemma all_chars (P : Z -> bool) : forallb P (zrange 0 256) = true -> forall c, 0 <= c < 256 -> P c = true.
Proof.
  intros H c Hc. rewrite forallb_forall in H. apply H. apply list_elem_of_In.
  apply elem_of_zrange. lia.
Qed.

#[export] Instance lib_ctype_laws : CtypeLaws lib_ctype.
Proof.
  split; [done|done|]. intros c Hc. unfold alnum in Hc.
  pose proof (all_chars (fun c => negb (((48 <=? c) && (c <=? 57) || (65 <=? c) && (c <=? 90) || (97 <=? c) && (c <=? 122))
    && holds_of (__ctype_isspace c))) ltac:(vm_compute; reflexivity) c ltac:(lia)) as H.
  cbv beta in H. apply negb_true_iff, andb_false_iff in H as [H|H]; [lia|exact H].
Qed.

(** ** The classes and the case conversions *)

Definition is_upper (c : Z) : bool := holds_of (__ctype_isupper c).
Definition is_lower (c : Z) : bool := holds_of (__ctype_islower c).
Definition is_opt (r : option Z) (c : Z) : bool := match r with Some v => v =? c | None => false end.

(** C40: on the characters of ISO 8859-1 the classes are as [ctype.h] documents
    them: a character is a control character exactly when it is not printable,
    the graphic ones are the letters, digits and punctuation, and no class
    function leaves the table; the case conversions are inverse to each other on
    the letters of both cases, but for the two lower-case letters without a
    capital: the sharp s stays, and the y with diaeresis becomes a sharp s. *)
Theorem ctype_classes c : 0 <= c < 256 ->
  holds_of (__ctype_iscntrl c) = negb (holds_of (__ctype_isprint c)) /\
  holds_of (__ctype_isgraph c) = holds_of (__ctype_ispunct c) || holds_of (__ctype_isalpha c) || holds_of (__ctype_isdigit c) /\
  (exists u l, __ctype_toupper c = Some u /\ __ctype_tolower c = Some l /\
    (is_upper c = true -> is_lower l = true /\ __ctype_toupper l = Some c) /\
    (is_lower c = true -> c <> 223 -> c <> 255 -> is_upper u = true /\ __ctype_tolower u = Some c) /\
    (is_lower c = false -> u = c) /\ (is_upper c = false -> l = c)) /\
  __ctype_toupper 255 = Some 223 /\ is_lower 223 = true.
Proof.
  intros Hc.
  assert (H1 : Bool.eqb (holds_of (__ctype_iscntrl c)) (negb (holds_of (__ctype_isprint c))) = true)
    by (apply (all_chars (fun c => Bool.eqb (holds_of (__ctype_iscntrl c)) (negb (holds_of (__ctype_isprint c)))));
        [vm_compute; reflexivity|done]).
  assert (H2 : Bool.eqb (holds_of (__ctype_isgraph c))
      (holds_of (__ctype_ispunct c) || holds_of (__ctype_isalpha c) || holds_of (__ctype_isdigit c)) = true)
    by (apply (all_chars (fun c => Bool.eqb (holds_of (__ctype_isgraph c))
      (holds_of (__ctype_ispunct c) || holds_of (__ctype_isalpha c) || holds_of (__ctype_isdigit c))));
        [vm_compute; reflexivity|done]).
  set (P c := match __ctype_toupper c, __ctype_tolower c with
    | Some u, Some l =>
        (negb (is_upper c) || is_lower l && is_opt (__ctype_toupper l) c) &&
        (negb (is_lower c) || (c =? 223) || (c =? 255) || is_upper u && is_opt (__ctype_tolower u) c) &&
        (is_lower c || (u =? c)) && (is_upper c || (l =? c))
    | _, _ => false
    end).
  assert (H3 : P c = true) by (apply all_chars; [vm_compute; reflexivity|done]).
  apply eqb_prop in H1, H2. split; [done|]. split; [done|]. split; [|by split]. unfold P in H3.
  destruct (__ctype_toupper c) as [u|], (__ctype_tolower c) as [l|]; try done. exists u, l.
  assert (Hopt : forall r d, is_opt r d = true -> r = Some d).
  { intros [v|] d; [|done]. cbn. by intros ->%Z.eqb_eq. }
  apply andb_prop in H3 as [[[Hu Hl]%andb_prop Hku]%andb_prop Hkl]. do 2 (split; [done|]). split; [|split; [|split]].
  - intros E. rewrite E in Hu. apply andb_prop in Hu as [? ?]. split; [done|]. by apply Hopt.
  - intros E N1 N2. rewrite E in Hl. destruct (Z.eqb_spec c 223), (Z.eqb_spec c 255); try done.
    apply andb_prop in Hl as [? ?]. split; [done|]. by apply Hopt.
  - intros E. rewrite E in Hku. by apply Z.eqb_eq.
  - intros E. rewrite E in Hkl. by apply Z.eqb_eq.
Qed.

(** ** Witnesses *)

(** The capital U with diaeresis. *)
Lemma ctype_classes_witness :
  holds_of (__ctype_iscntrl 220) = false /\ __ctype_tolower 220 = Some 252 /\ __ctype_toupper 252 = Some 220.
Proof.
  destruct (ctype_classes 220) as (H1 & _ & (u & l & Hu & Hl & H & _) & _).
  - split; [discriminate|reflexivity].
  - split; [rewrite H1; reflexivity|]. injection Hl as <-. split; [reflexivity|]. apply H. reflexivity.
Defined.
