(* ===== verification/UserNum.v ===== *)
(** * The user library's numbers ([strntoumax.c], [vsnprintf.c], [rand48])

    Reading an integer in a base, printing one, and the pseudo-random generator. *)

From Stdlib Require Import ZArith Lia.
From stdpp Require Import base gmap list.
From S2P Require Import Prelude Hardware UserMem UserCtype.

Open Scope Z_scope.

(** ** Machine integers of the library: [uintmax_t] is 64 bits wide *)

Definition u64 (z : Z) : Z := z mod 2 ^ 64.

(** ** Reading *)

Definition digitval (ch : Z) : Z :=
  if (ch >=? 48) && (ch <=? 57) then ch - 48
  else if (ch >=? 65) && (ch <=? 90) then ch - 65 + 10
  else if (ch >=? 97) && (ch <=? 122) then ch - 97 + 10
  else -1.

Section reading.
Context `{CT : Ctype}.

(** [while (n && isspace( *nptr)) { nptr++; n--; }] *)
Fixpoint skip_spaces (nptr : Z) (n : nat) : UM (Z * nat) :=
  match n with
  | O => uret (nptr, O)
  | S n' =>
      let* c := ld nptr in
      if isspace c then skip_spaces (nptr + 1) n' else uret (nptr, n)
  end.

(** The single optional sign. *)
Definition take_sign (nptr : Z) (n : nat) : UM (bool * (Z * nat)) :=
  match n with
  | O => uret (false, (nptr, n))
  | S n' =>
      let* c := ld nptr in
      let c := schar c in
      if (c =? 45) || (c =? 43) then uret (c =? 45, (nptr + 1, n')) else uret (false, (nptr, n))
  end.

(** [n >= 2 && nptr[0] == '0' && (nptr[1] == 'x' || nptr[1] == 'X')] *)
Definition hex_prefix (nptr : Z) (n : nat) : UM bool :=
  if (n <? 2)%nat then uret false else
  let* c := ld nptr in
  if negb (schar c =? 48) then uret false else
  let* c := ld (nptr + 1) in
  uret ((schar c =? 120) || (schar c =? 88)).

Definition take_prefix (base nptr : Z) (n : nat) : UM (Z * (Z * nat)) :=
  if base =? 0 then
    let* h := hex_prefix nptr n in
    if h then uret (16, (nptr + 2, (n - 2)%nat)) else
    let* o := (if (n <? 1)%nat then uret false else let* c := ld nptr in uret (schar c =? 48)) in
    if o then uret (8, (nptr + 1, (n - 1)%nat)) else uret (10, (nptr, n))
  else if base =? 16 then
    let* h := hex_prefix nptr n in
    if h then uret (base, (nptr + 2, (n - 2)%nat)) else uret (base, (nptr, n))
  else uret (base, (nptr, n)).

Fixpoint read_digits (base v nptr : Z) (n : nat) : UM (Z * Z) :=
  match n with
  | O => uret (v, nptr)
  | S n' =>
      let* c := ld nptr in
      let d := digitval (schar c) in
      if (d >=? 0) && (d <? base) then read_digits base (u64 (v * u64 base + d)) (nptr + 1) n'
      else uret (v, nptr)
  end.

(** The value and [*endptr]. *)
Definition strntoumax (nptr base : Z) (n : nat) : UM (Z * Z) :=
  let* r := skip_spaces nptr n in
  let* s := take_sign (fst r) (snd r) in
  let* b := take_prefix base (fst (snd s)) (snd (snd s)) in
  let* v := read_digits (fst b) 0 (fst (snd b)) (snd (snd b)) in
  uret (if fst s then u64 (- fst v) else fst v, snd v).

End reading.

(** ** Printing *)

Definition FL_ZERO : Z := 0x01.
Definition FL_MINUS : Z := 0x02.
Definition FL_PLUS : Z := 0x04.
Definition FL_TICK : Z := 0x08.
Definition FL_SPACE : Z := 0x10.
Definition FL_HASH : Z := 0x20.
Definition FL_SIGNED : Z := 0x40.
Definition FL_UPPER : Z := 0x80.

(** [flags & mask], as a condition. *)
Definition has (flags mask : Z) : bool := negb (Z.land flags mask =? 0).

Definition lcdigits : list Z := [48; 49; 50; 51; 52; 53; 54; 55; 56; 57; 97; 98; 99; 100; 101; 102].
Definition ucdigits : list Z := [48; 49; 50; 51; 52; 53; 54; 55; 56; 57; 65; 66; 67; 68; 69; 70].

(** [EMIT(x)]: store while there is room, and count. *)
Definition EMIT (n x : Z) (qo : Z * Z) : UM (Z * Z) :=
  let '(q, o) := qo in
  if o <? n then st q x ;;; uret (q + 1, o + 1) else uret (q, o + 1).

(** [while (width > nchars) { EMIT(x); width--; }], for [k] rounds. *)
Fixpoint emit_pad (k : nat) (n x : Z) (qo : Z * Z) : UM (Z * Z) :=
  match k with
  | O => uret qo
  | S k' => let* qo := EMIT n x qo in emit_pad k' n x qo
  end.

(** [while (tmpval) { tmpval /= base; ndigits++; }]; the type has 64 bits. *)
Fixpoint count_digits (fuel : nat) (tmpval base ndigits : Z) : option Z :=
  if tmpval =? 0 then Some ndigits else
  match fuel with
  | O => None
  | S fuel' => count_digits fuel' (tmpval / base) base (ndigits + 1)
  end.

(** The number, from right to left. *)
Fixpoint gen_number (fuel : nat) (n : Z) (digits : list Z) (base tickskip : Z)
    (qq oo ndigits b4tick val : Z) : UM unit :=
  if ndigits >? 0 then
    match fuel with
    | O => ufail
    | S fuel' =>
        let tick := b4tick =? 0 in
        (if tick && (oo - 1 <? n) then st (qq - 1) 95 else uret tt) ;;;
        let k := if tick then 1 else 0 in
        let qq := qq - k in let oo := oo - k in let ndigits := ndigits - k in
        let b4tick := if tick then tickskip - 1 else b4tick - 1 in
        (if oo - 1 <? n then
           match zget digits (val mod base) with Some c => st (qq - 1) c | None => ufail end
         else uret tt) ;;;
        gen_number fuel' n digits base tickskip (qq - 1) (oo - 1) (ndigits - 1) b4tick (val / base)
    end
  else uret tt.

(** Advance to the end of the number, and generate it backwards. *)
Definition put_number (n : Z) (digits : list Z) (base tickskip ndigits val : Z) (qo : Z * Z) : UM (Z * Z) :=
  let qo := (fst qo + ndigits, snd qo + ndigits) in
  gen_number (Z.to_nat ndigits) n digits base tickskip (fst qo) (snd qo) ndigits tickskip val ;;;
  uret qo.

Definition format_int (q n val flags base width prec : Z) : UM Z :=
  let digits := if has flags FL_UPPER then ucdigits else lcdigits in
  let minus := has flags FL_SIGNED && (val >=? 2 ^ 63) in
  let val := if minus then u64 (- val) else val in
  match count_digits 64 val base 0 with
  | None => ufail
  | Some ndigits =>
      let prec := if has flags FL_HASH && (base =? 8) && (prec <? ndigits + 1) then ndigits + 1 else prec in
      let ndigits := if ndigits <? prec then prec else if val =? 0 then 1 else ndigits in
      let tickskip := if has flags FL_TICK then (if base =? 16 then 4 else 3) else ndigits in
      let ndigits := ndigits + Z.quot (ndigits - 1) tickskip in
      let nchars := ndigits + (if minus || has flags (Z.lor FL_PLUS FL_SPACE) then 1 else 0) +
        (if has flags FL_HASH && (base =? 16) then 2 else 0) in
      let early := if negb (has flags (Z.lor FL_MINUS FL_ZERO)) then Z.to_nat (width - nchars) else O in
      let* qo := emit_pad early n 32 (q, 0) in
      let width := width - Z.of_nat early in
      let* qo :=
        (if minus then EMIT n 45 qo
         else if has flags FL_PLUS then EMIT n 43 qo
         else if has flags FL_SPACE then EMIT n 32 qo
         else uret qo) in
      let* qo :=
        (if has flags FL_HASH && (base =? 16) then
           let* qo := EMIT n 48 qo in EMIT n (if has flags FL_UPPER then 88 else 120) qo
         else uret qo) in
      let zeros :=
        if (Z.land flags (Z.lor FL_MINUS FL_ZERO) =? FL_ZERO) && (width >? ndigits)
        then Z.to_nat (width - nchars) else O in
      let* qo := emit_pad zeros n 48 qo in
      let width := width - Z.of_nat zeros in
      let* qo := put_number n digits base tickskip ndigits val qo in
      let late := if has flags FL_MINUS then Z.to_nat (width - nchars) else O in
      let* qo := emit_pad late n 32 qo in
      uret (snd qo)
  end.

(** ** The pseudo-random generator *)

(** [xsubi[3]], 16 bits each, and the result of the call. *)
Definition jrand48 (xsubi : Z * Z * Z) : (Z * Z * Z) * Z :=
  let '(x0, x1, x2) := xsubi in
  let x := x0 + Z.shiftl x1 16 + Z.shiftl x2 32 in
  let x := u64 (u64 (0x5deece66d * x) + 0xb) in
  ((x mod 2 ^ 16, Z.shiftr x 16 mod 2 ^ 16, Z.shiftr x 32 mod 2 ^ 16), i32 (Z.shiftr x 16)).

Definition srand48 (seedval : Z) : Z * Z * Z :=
  (0x330e, seedval mod 2 ^ 16, Z.shiftr (u32 seedval) 16 mod 2 ^ 16).

Definition srand (seed : Z) : Z * Z * Z := srand48 (i32 seed).

Definition mrand48 (xsubi : Z * Z * Z) : (Z * Z * Z) * Z := jrand48 xsubi.

(** [rc = -rc] wraps around for the least [int]. *)
Definition rand (xsubi : Z * Z * Z) : (Z * Z * Z) * Z :=
  let '(x, rc) := jrand48 xsubi in (x, if rc <? 0 then i32 (- rc) else rc).

(** ** What [format_int] prints *)

Definition digit (digits : list Z) (d : Z) : Z := default 0 (zget digits d).

(** The last [k] digits of a number, most significant first. *)
Fixpoint numerals (digits : list Z) (base : Z) (k : nat) (val : Z) : list Z :=
  match k with
  | O => []
  | S k' => numerals digits base k' (val / base) ++ [digit digits (val mod base)]
  end.

(** The text of a number printed without tick marks. *)
Definition int_text (val flags base width prec : Z) : list Z :=
  let digits := if has flags FL_UPPER then ucdigits else lcdigits in
  let minus := has flags FL_SIGNED && (val >=? 2 ^ 63) in
  let val := if minus then u64 (- val) else val in
  let nd := default 0 (count_digits 64 val base 0) in
  let prec := if has flags FL_HASH && (base =? 8) then Z.max prec (nd + 1) else prec in
  let nd := if nd <? prec then prec else if val =? 0 then 1 else nd in
  let sign := if minus then [45] else if has flags FL_PLUS then [43]
              else if has flags FL_SPACE then [32] else [] in
  let prefix := if has flags FL_HASH && (base =? 16)
                then [48; if has flags FL_UPPER then 88 else 120] else [] in
  let fill := Z.to_nat (width - (nd + Z.of_nat (length sign + length prefix))) in
  (if negb (has flags FL_MINUS) && negb (has flags FL_ZERO) then replicate fill 32 else []) ++
  sign ++ prefix ++
  (if negb (has flags FL_MINUS) && has flags FL_ZERO then replicate fill 48 else []) ++
  numerals digits base (Z.to_nat nd) val ++
  (if has flags FL_MINUS then replicate fill 32 else []).

(** *** Emission *)

Definition room (m0 : gmap Z Z) (q0 n : Z) (t : list Z) : Prop :=
  mapped m0 q0 (Nat.min (Z.to_nat n) (length t)).

(** The text [t] has been emitted to the buffer of [n] bytes at [q0]. *)
Record emitted (q0 n : Z) (u0 : umach) (t : list Z) (qo : Z * Z) (u : umach) : Prop := {
  em_o : snd qo = Z.of_nat (length t);
  em_q : snd qo < n -> fst qo = q0 + snd qo;
  em_u : u = mkU (put_bytes q0 (take (Z.to_nat n) t) (umem u0)) (udf u0) }.

(** [c] emits the text [t]. *)
Definition emits (n : Z) (c : Z * Z -> UM (Z * Z)) (t : list Z) : Prop :=
  forall q0 u0 t0 qo u, emitted q0 n u0 t0 qo u -> room (umem u0) q0 n (t0 ++ t) ->
  exists qo' u', c qo u = Some (qo', u') /\ emitted q0 n u0 (t0 ++ t) qo' u'.

Lemma room_prefix m0 q0 n t t' : room m0 q0 n (t ++ t') -> room m0 q0 n t.
Proof. unfold room. intros H x Hx. apply H. rewrite length_app. lia. Qed.

Lemma emits_nil n : emits n uret [].
Proof. intros q0 u0 t0 qo u He Hr. rewrite app_nil_r. by exists qo, u. Qed.

Lemma emits_bind n c c' t t' : emits n c t -> emits n c' t' ->
  emits n (fun qo => ubind (c qo) c') (t ++ t').
Proof.
  intros H H' q0 u0 t0 qo u He Hr. rewrite app_assoc in Hr.
  destruct (H q0 u0 t0 qo u He) as (qo1 & u1 & E1 & He1); [by eapply room_prefix|].
  destruct (H' q0 u0 (t0 ++ t) qo1 u1 He1 Hr) as (qo2 & u2 & E2 & He2).
  exists qo2, u2. rewrite app_assoc. split; [|done]. by erewrite ubind_ok.
Qed.

Lemma emits_EMIT n x : ubyte x -> emits n (EMIT n x) [x].
Proof.
  intros Hx q0 u0 t0 [q o] u [Ho Hq ->] Hr. cbn in Ho, Hq. subst o. unfold EMIT.
  destruct (Z.ltb_spec (Z.of_nat (length t0)) n) as [Hlt|Hge].
  - rewrite (Hq Hlt), !take_ge by lia.
    assert (H1 : mapped (put_bytes q0 t0 (umem u0)) (q0 + Z.of_nat (length t0)) 1).
    { apply mapped_put_bytes. intros y Hy. apply Hr. rewrite length_app. cbn. lia. }
    erewrite ubind_ok by (apply st_ok; [apply H1; lia|done]).
    eexists _, _. split; [reflexivity|]. split; cbn; [rewrite length_app; cbn; lia|lia|].
    rewrite take_ge by (rewrite length_app; cbn; lia). by rewrite put_bytes_snoc, put_bytes_insert by lia.
  - eexists _, _. split; [reflexivity|]. split; cbn; [rewrite length_app; cbn; lia|lia|].
    rewrite take_app_le by lia. done.
Qed.

Lemma emits_pad k n x : ubyte x -> emits n (emit_pad k n x) (replicate k x).
Proof.
  intros Hx. induction k as [|k IH]; [apply emits_nil|].
  cbn [emit_pad replicate]. apply (emits_bind _ _ _ [x] _); [by apply emits_EMIT|done].
Qed.

(** *** The number itself *)

Lemma numerals_length digits base k val : length (numerals digits base k val) = k.
Proof.
  revert val. induction k as [|k IH]; intros val; [done|]. cbn [numerals].
  rewrite length_app, IH. cbn. lia.
Qed.

Definition good_digits (digits : list Z) : Prop := length digits = 16%nat /\ Forall ubyte digits.

Lemma good_lcdigits : good_digits lcdigits.
Proof. split; [done|]. by repeat constructor. Qed.

Lemma good_ucdigits : good_digits ucdigits.
Proof. split; [done|]. by repeat constructor. Qed.

Lemma zget_digit digits d : good_digits digits -> 0 <= d < 16 ->
  zget digits d = Some (digit digits d) /\ ubyte (digit digits d).
Proof.
  intros [Hl Hb] Hd. unfold digit. destruct (zget_is_Some digits d) as [c E]; [rewrite Hl; lia|].
  rewrite E. split; [done|]. cbn. unfold zget in E. case_bool_decide; [|done].
  rewrite Forall_forall in Hb. apply Hb. by eapply list_elem_of_lookup_2.
Qed.

Lemma gen_number_spec digits base n tick k : good_digits digits -> 2 <= base <= 16 ->
  forall u qq oo val, 0 <= val ->
  mapped (umem u) (qq - Z.of_nat k) (Nat.min (Z.to_nat (n - (oo - Z.of_nat k))) k) ->
  gen_number k n digits base tick qq oo (Z.of_nat k) (Z.of_nat k) val u =
    Some (tt, mkU (put_bytes (qq - Z.of_nat k)
      (take (Z.to_nat (n - (oo - Z.of_nat k))) (numerals digits base k val)) (umem u)) (udf u)).
Proof.
  intros Hg Hbase. induction k as [|k IH]; intros u qq oo val Hv Hm.
  - cbn. rewrite take_nil. by destruct u.
  - cbn [gen_number numerals]. change (Z.of_nat (S k) >? 0) with true. cbn iota.
    destruct (Z.eqb_spec (Z.of_nat (S k)) 0); [lia|]. cbn [andb]. rewrite !Z.sub_0_r.
    erewrite ubind_ok by reflexivity.
    pose proof (Z.mod_pos_bound val base ltac:(lia)) as Hmod.
    destruct (zget_digit digits (val mod base) Hg ltac:(lia)) as [Ed Hd]. rewrite Ed.
    assert (Hdiv : 0 <= val / base) by (apply Z.div_pos; lia).
    replace (Z.of_nat (S k) - 1) with (Z.of_nat k) by lia.
    set (w := Z.to_nat (n - (oo - Z.of_nat (S k)))) in *.
    assert (Hw : Z.to_nat (n - (oo - 1 - Z.of_nat k)) = w) by (unfold w; lia).
    destruct (Z.ltb_spec (oo - 1) n) as [Hlt|Hge].
    + assert (S k <= w)%nat by (unfold w; lia).
      erewrite ubind_ok by (apply st_ok; [apply Hm; lia|done]).
      rewrite IH; [|done|].
      * cbn [umem udf]. rewrite Hw, !take_ge by (rewrite ?length_app, ?numerals_length; cbn; lia).
        rewrite put_bytes_snoc, numerals_length. do 4 f_equal; [lia|]. f_equal. lia.
      * cbn. rewrite Hw. apply mapped_insert. intros x Hx. apply Hm. lia.
    + assert (w <= k)%nat by (unfold w; lia). erewrite ubind_ok by reflexivity. rewrite IH; [|done|].
      * rewrite Hw, take_app_le by (rewrite numerals_length; lia). do 4 f_equal. lia.
      * rewrite Hw. intros x Hx. apply Hm. lia.
Qed.

Lemma emits_number digits base n nd val : good_digits digits -> 2 <= base <= 16 -> 0 <= val -> 0 <= nd ->
  emits n (put_number n digits base nd nd val) (numerals digits base (Z.to_nat nd) val).
Proof.
  intros Hg Hb Hv Hnd q0 u0 t0 [q o] u [Ho Hq ->] Hr. cbn in Ho, Hq. subst o.
  destruct (Z_of_nat_complete nd Hnd) as [k ->]. unfold put_number, room in *. cbn [fst snd].
  rewrite length_app, numerals_length in Hr. rewrite Nat2Z.id in *.
  assert (Hpos : Z.of_nat (length t0) + Z.of_nat k - Z.of_nat k = Z.of_nat (length t0)) by lia.
  erewrite ubind_ok; [eexists _, _; split; [reflexivity|]|apply gen_number_spec; try done; rewrite Hpos].
  - rewrite Hpos. split; cbn [fst snd].
    + rewrite length_app, numerals_length. lia.
    + intros Hlt. rewrite Hq by lia. lia.
    + f_equal. cbn [umem]. destruct (Z.lt_ge_cases (Z.of_nat (length t0)) n) as [Hlt|Hge].
      * rewrite (Hq Hlt), (take_ge t0) by lia. rewrite take_app_ge by lia.
        rewrite put_bytes_app. f_equal; [lia|]. f_equal. lia.
      * replace (Z.to_nat (n - Z.of_nat (length t0))) with O by lia. rewrite take_0. cbn [put_bytes].
        by rewrite take_app_le by lia.
  - cbn [umem]. intros x Hx. destruct (Z.lt_ge_cases (Z.of_nat (length t0)) n) as [Hlt|Hge]; [|lia].
    rewrite (Hq Hlt) in Hx. eapply mapped_put_bytes; [exact Hr|]. lia.
Qed.

(** *** The whole *)

Lemma count_digits_spec base fuel : 2 <= base -> forall v nd, 0 <= v < 2 ^ Z.of_nat fuel ->
  exists k, count_digits fuel v base nd = Some (nd + Z.of_nat k) /\ v < base ^ Z.of_nat k /\
    (k = 0%nat <-> v = 0).
Proof.
  intros Hb. induction fuel as [|fuel IH]; intros v nd Hv; cbn [count_digits];
    destruct (Z.eqb_spec v 0) as [->|Hne].
  1, 3: exists 0%nat; rewrite Z.add_0_r; repeat split; done || lia.
  - cbn in Hv. lia.
  - destruct (IH (v / base) (nd + 1)) as (k & E & Hk & _).
    { rewrite Nat2Z.inj_succ, Z.pow_succ_r in Hv by lia. split; [apply Z.div_pos; lia|].
      apply Z.div_lt_upper_bound; [lia|]. nia. }
    exists (S k). rewrite E. split; [f_equal; lia|]. split; [|lia].
    rewrite Nat2Z.inj_succ, Z.pow_succ_r by lia. pose proof (Z.div_mod v base ltac:(lia)).
    pose proof (Z.mod_pos_bound v base ltac:(lia)). nia.
Qed.

Lemma has_lor flags a b : has flags (Z.lor a b) = has flags a || has flags b.
Proof.
  unfold has. rewrite Z.land_lor_distr_r.
  destruct (Z.eqb_spec (Z.land flags a) 0) as [->|Ha], (Z.eqb_spec (Z.land flags b) 0) as [->|Hb]; cbn.
  - done.
  - rewrite Z.lor_0_l. by destruct (Z.eqb_spec (Z.land flags b) 0).
  - rewrite Z.lor_0_r. by destruct (Z.eqb_spec (Z.land flags a) 0).
  - destruct (Z.eqb_spec (Z.lor (Z.land flags a) (Z.land flags b)) 0) as [E|]; [|done].
    by apply Z.lor_eq_0_iff in E as [? _].
Qed.

Lemma has_zero_only flags :
  (Z.land flags (Z.lor FL_MINUS FL_ZERO) =? FL_ZERO) = negb (has flags FL_MINUS) && has flags FL_ZERO.
Proof.
  assert (H : forall a, Z.land flags (2 ^ a) = if Z.testbit flags a then 2 ^ a else 0).
  { intros a. destruct (Z.lt_ge_cases a 0) as [Ha|Ha].
    - rewrite Z.pow_neg_r, Z.land_0_r by done. by rewrite Z.testbit_neg_r.
    - apply Z.bits_inj'. intros i Hi. rewrite Z.land_spec, Z.pow2_bits_eqb by done.
      destruct (Z.eqb_spec a i) as [->|Hne].
      + destruct (Z.testbit flags i) eqn:E; [by rewrite Z.pow2_bits_true|by rewrite Z.bits_0].
      + rewrite andb_false_r. destruct (Z.testbit flags a); [by rewrite Z.pow2_bits_false|by rewrite Z.bits_0]. }
  unfold has. rewrite Z.land_lor_distr_r.
  change FL_MINUS with (2 ^ 1). change FL_ZERO with (2 ^ 0). rewrite !H.
  by destruct (Z.testbit flags 0), (Z.testbit flags 1).
Qed.

Lemma emits_if n (b : bool) c t : (b = true -> emits n c t) ->
  emits n (fun qo => if b then c qo else uret qo) (if b then t else []).
Proof. intros H. destruct b; [by apply H|apply emits_nil]. Qed.

Lemma format_int_spec u q n val flags base width prec :
  2 <= base <= 16 -> 0 <= val < 2 ^ 64 -> has flags FL_TICK = false ->
  let t := int_text val flags base width prec in
  room (umem u) q n t ->
  format_int q n val flags base width prec u =
    Some (Z.of_nat (length t), mkU (put_bytes q (take (Z.to_nat n) t) (umem u)) (udf u)).
Proof.
  intros Hb Hval Htick t Hr. unfold format_int. unfold t, int_text in *. clear t. rewrite Htick.
  set (digits := if has flags FL_UPPER then ucdigits else lcdigits) in *.
  assert (Hg : good_digits digits) by (unfold digits; case_on; [apply good_ucdigits|apply good_lcdigits]).
  set (minus := has flags FL_SIGNED && (val >=? 2 ^ 63)) in *.
  set (mag := if minus then u64 (- val) else val) in *.
  assert (Hmag : 0 <= mag < 2 ^ Z.of_nat 64).
  { unfold mag, u64. destruct minus; [apply Z.mod_pos_bound; lia|exact Hval]. }
  destruct (count_digits_spec base 64 ltac:(lia) mag 0 Hmag) as (k & Ek & _ & Hk0). rewrite Ek in *.
  change (default 0 (Some (0 + Z.of_nat k))) with (0 + Z.of_nat k) in *.
  set (prec1 := if _ && (prec <? _) then _ else prec). set (prec2 := if _ && _ then Z.max _ _ else prec) in *.
  assert (prec1 = prec2) as ->.
  { unfold prec1, prec2. destruct (has flags FL_HASH && (base =? 8)); cbn [andb]; [|done].
    destruct (Z.ltb_spec prec (0 + Z.of_nat k + 1)); lia. }
  set (nd := if _ <? prec2 then prec2 else _) in *.
  assert (Hnd : 1 <= nd).
  { unfold nd. destruct (Z.ltb_spec (0 + Z.of_nat k) prec2); [lia|].
    destruct (Z.eqb_spec mag 0); [lia|]. destruct k; [tauto|lia]. }
  rewrite Z.quot_small, Z.add_0_r by lia. rewrite has_zero_only, !has_lor.
  set (hex := has flags FL_HASH && (base =? 16)) in *.
  set (sign := if minus then [45] else _) in *. set (prefix := if hex then _ else []) in *.
  set (nchars := nd + _ + _).
  assert (Hnc : nchars = nd + Z.of_nat (length sign + length prefix)).
  { unfold nchars, sign, prefix. destruct minus, (has flags FL_PLUS), (has flags FL_SPACE), hex; cbn; lia. }
  rewrite <- Hnc in *. assert (Hge : nd <= nchars) by lia. clearbody nchars.
  assert (Hsign : emits n (fun qo => if minus then EMIT n 45 qo else if has flags FL_PLUS then EMIT n 43 qo
    else if has flags FL_SPACE then EMIT n 32 qo else uret qo) sign).
  { unfold sign. repeat case_on; try (by apply emits_EMIT). apply emits_nil. }
  assert (Hprefix : emits n (fun qo => if hex then ubind (EMIT n 48 qo)
    (fun qo => EMIT n (if has flags FL_UPPER then 88 else 120) qo) else uret qo) prefix).
  { unfold prefix. apply emits_if. intros _. apply (emits_bind n _ _ [48] [_]); apply emits_EMIT; [done|].
    by case_on. }
  set (early := if negb _ then Z.to_nat _ else O). set (fill := Z.to_nat (width - nchars)) in *.
  assert (H0 : emitted q n u [] (q, 0) u) by (split; cbn; [done|lia|]; rewrite take_nil; by destruct u).
  set (mi := has flags FL_MINUS) in *. set (ze := has flags FL_ZERO) in *.
  set (zeros := if negb mi && ze && _ then _ else O). set (late := if mi then Z.to_nat _ else O).
  assert (Hearly : replicate early 32 = if negb mi && negb ze then replicate fill 32 else []).
  { unfold early, fill. by destruct mi, ze. }
  assert (Hzeros : replicate zeros 48 = if negb mi && ze then replicate fill 48 else []).
  { unfold zeros, early, fill. destruct mi, ze; cbn [negb andb orb]; try done. rewrite Z.sub_0_r.
    destruct (Z.gtb_spec width nd); [done|]. by replace (Z.to_nat (width - nchars)) with O by lia. }
  assert (Hlate : replicate late 32 = if mi then replicate fill 32 else []).
  { unfold late, zeros, early, fill. destruct mi, ze; cbn [negb andb orb]; try done; by rewrite !Z.sub_0_r. }
  rewrite <- Hearly, <- Hzeros, <- Hlate in *. clearbody early zeros late.
  destruct (emits_bind n _ _ _ _ (emits_pad early n 32 ltac:(done)) (emits_bind n _ _ _ _ Hsign
    (emits_bind n _ _ _ _ Hprefix (emits_bind n _ _ _ _ (emits_pad zeros n 48 ltac:(done))
    (emits_bind n _ _ _ _ (emits_number digits base n nd mag Hg Hb (proj1 Hmag) ltac:(lia))
      (emits_pad late n 32 ltac:(done))))))
    q u [] (q, 0) u H0 Hr) as (qo & u' & E & [Ho _ Hu]).
  cbn [app] in Ho, Hu. rewrite <- Hu, <- Ho. clear -E. unfold ubind in E |- *.
  repeat (match type of E with context [match ?x with Some _ => _ | None => _ end] =>
    destruct x as [[? ?]|]; [|done] end). by rewrite E.
Qed.

(** [format_int] without tick marks returns the length of the number's text
    (padding, sign, prefix, leading zeros, digits); it stores as much of the text
    as fits the [n] bytes of its buffer, and no byte outside the buffer changes. *)
Theorem format_int_correct u q n val flags base width prec :
  2 <= base <= 16 -> 0 <= val < 2 ^ 64 -> has flags FL_TICK = false -> 0 <= n ->
  let t := int_text val flags base width prec in
  room (umem u) q n t ->
  exists u', format_int q n val flags base width prec u = Some (Z.of_nat (length t), u') /\
    holds (umem u') q (take (Z.to_nat n) t) /\ udf u' = udf u /\
    forall x, ~ (q <= x < q + n) -> umem u' !! x = umem u !! x.
Proof.
  intros Hb Hval Htick Hn t Hr. eexists. split; [by apply format_int_spec|].
  split; [apply put_bytes_holds|]. split; [done|]. intros x Hx. apply put_bytes_outside.
  rewrite length_take. lia.
Qed.

(** ** Reading back *)

Definition is_digit (base c d : Z) : Prop := 0 <= d < base /\ digitval (schar c) = d /\ alnum c.

Lemma digit_is digits base d : digits = lcdigits \/ digits = ucdigits -> 2 <= base <= 16 -> 0 <= d < base ->
  is_digit base (digit digits d) d.
Proof.
  intros Hg Hb Hd. split; [done|].
  assert (Hall : forallb (fun d => (digitval (schar (digit lcdigits d)) =? d) &&
    (digitval (schar (digit ucdigits d)) =? d) &&
    bool_decide (alnum (digit lcdigits d) /\ alnum (digit ucdigits d))) (zseq 0 16) = true)
    by (vm_compute; reflexivity).
  rewrite forallb_forall in Hall. specialize (Hall d).
  rewrite <- list_elem_of_In, elem_of_zseq in Hall. specialize (Hall ltac:(lia)).
  apply andb_prop in Hall as [[H1 H2]%andb_prop [Ha Hb']%bool_decide_eq_true].
  bool_to_prop. by destruct Hg as [-> | ->].
Qed.

(** The value of a list of digits read after [v]. *)
Fixpoint read_value (base v : Z) (ds : list Z) : Z :=
  match ds with
  | [] => v
  | d :: ds' => read_value base (u64 (v * base + d)) ds'
  end.

Lemma read_digits_spec `{CT : Ctype} base u cs : forall ds v a rest,
  2 <= base <= 16 -> Forall2 (is_digit base) cs ds -> holds (umem u) a (cs ++ rest) ->
  (forall c, head rest = Some c -> digitval (schar c) = -1) ->
  read_digits base v a (length (cs ++ rest)) u =
    Some ((read_value base v ds, a + Z.of_nat (length cs)), u).
Proof.
  induction cs as [|c cs IH]; intros ds v a rest Hb Hds Hh Hr; inversion Hds as [|? d ? ds' Hd Hds']; subst.
  - cbn [app length read_value]. rewrite Z.add_0_r. destruct rest as [|c rest]; [done|].
    destruct Hh as [Hc _]. cbn [length read_digits]. erewrite ubind_ok by (by apply ld_ok).
    by rewrite (Hr c).
  - destruct Hh as [Hc Hh]. destruct Hd as (Hd & Ed & _). cbn [app length read_digits read_value].
    erewrite ubind_ok by (by apply ld_ok). rewrite Ed.
    destruct (Z.geb_spec d 0); [|lia]. destruct (Z.ltb_spec d base); [|lia]. cbn [andb].
    unfold u64 at 2. rewrite (Z.mod_small base) by lia.
    rewrite (IH ds' _ (a + 1) rest); try done. do 3 f_equal. cbn. lia.
Qed.

Lemma read_value_app base v ds ds' : read_value base v (ds ++ ds') = read_value base (read_value base v ds) ds'.
Proof. revert v. induction ds as [|d ds IH]; intros v; [done|]. cbn. apply IH. Qed.

Lemma read_value_zeros base k : read_value base 0 (replicate k 0) = 0.
Proof. induction k as [|k IH]; [done|]. cbn. done. Qed.

(** The digits [numerals] prints. *)
Fixpoint num_digits (base : Z) (k : nat) (val : Z) : list Z :=
  match k with
  | O => []
  | S k' => num_digits base k' (val / base) ++ [val mod base]
  end.

Lemma read_value_num base k : 2 <= base -> forall val, 0 <= val < 2 ^ 64 ->
  read_value base 0 (num_digits base k val) = u64 (val mod base ^ Z.of_nat k).
Proof.
  intros Hb. induction k as [|k IH]; intros val Hv; cbn [num_digits]; [by rewrite Z.mod_1_r|].
  assert (Hd : 0 <= val / base < 2 ^ 64).
  { split; [apply Z.div_pos; lia|]. apply Z.div_lt_upper_bound; [lia|]. nia. }
  rewrite read_value_app, IH by done. cbn [read_value].
  rewrite Nat2Z.inj_succ, Z.pow_succ_r by lia. rewrite Z.rem_mul_r by lia.
  unfold u64. rewrite Zplus_mod, Zmult_mod_idemp_l, <- Zplus_mod. f_equal. lia.
Qed.

(** The shape of a printed number: blanks, sign, prefix, digits, blanks. *)
Record printed (base : Z) (t : list Z) (a b : nat) (sg pf cs ds : list Z) : Prop := {
  pr_text : t = replicate a 32 ++ sg ++ pf ++ cs ++ replicate b 32;
  pr_sign : sg = [] \/ sg = [43] \/ sg = [45];
  pr_prefix : pf = [] \/ (base = 16 /\ (pf = [48; 120] \/ pf = [48; 88]));
  pr_digits : Forall2 (is_digit base) cs ds;
  pr_some : cs <> [] }.

Section parsing.
Context `{CT : Ctype} {CL : CtypeLaws CT}.

Lemma skip_spaces_spec k rest u : forall a, holds (umem u) a (replicate k 32 ++ rest) ->
  (forall c, head rest = Some c -> isspace c = false) ->
  skip_spaces a (length (replicate k 32 ++ rest)) u = Some ((a + Z.of_nat k, length rest), u).
Proof.
  induction k as [|k IH]; intros a Hh Hr; cbn [replicate app length].
  - rewrite Z.add_0_r. destruct rest as [|c rest]; [done|]. destruct Hh as [Hc _].
    cbn [length skip_spaces]. erewrite ubind_ok by (by apply ld_ok). by rewrite (Hr c).
  - destruct Hh as [Hc Hh]. cbn [skip_spaces]. erewrite ubind_ok by (by apply ld_ok).
    rewrite isspace_blank, IH by done. do 3 f_equal. lia.
Qed.

Lemma take_sign_none u a c rest : holds (umem u) a (c :: rest) -> c <> 45 -> c <> 43 -> 0 <= c < 128 ->
  take_sign a (length (c :: rest)) u = Some ((false, (a, length (c :: rest))), u).
Proof.
  intros [Hc _] H1 H2 H3. cbn [length take_sign]. erewrite ubind_ok by (by apply ld_ok).
  unfold schar. destruct (Z.ltb_spec c 128); [|lia].
  destruct (Z.eqb_spec c 45), (Z.eqb_spec c 43); done.
Qed.

Lemma take_sign_some u a c rest : holds (umem u) a (c :: rest) -> c = 45 \/ c = 43 ->
  take_sign a (length (c :: rest)) u = Some ((c =? 45, (a + 1, length rest)), u).
Proof.
  intros [Hc _] H. cbn [length take_sign]. erewrite ubind_ok by (by apply ld_ok). by destruct H as [-> | ->].
Qed.

Lemma is_digit_char base c d : base <= 16 -> is_digit base c d ->
  alnum c /\ c <> 120 /\ c <> 88 /\ c <> 45 /\ c <> 43 /\ 0 <= c < 128.
Proof.
  intros Hb (Hd & Ed & Ha). unfold alnum in Ha. split; [done|].
  split; [intros ->; vm_compute in Ed; lia|]. split; [intros ->; vm_compute in Ed; lia|]. lia.
Qed.

Lemma take_prefix_spec base pf cs ds b u a :
  2 <= base <= 16 -> (pf = [] \/ (base = 16 /\ (pf = [48; 120] \/ pf = [48; 88]))) ->
  Forall2 (is_digit base) cs ds -> cs <> [] -> holds (umem u) a (pf ++ cs ++ replicate b 32) ->
  take_prefix base a (length (pf ++ cs ++ replicate b 32)) u =
    Some ((base, (a + Z.of_nat (length pf), length (cs ++ replicate b 32))), u).
Proof.
  intros Hb Hpf Hds Hcs Hh. unfold take_prefix. destruct (Z.eqb_spec base 0); [lia|].
  destruct Hpf as [->|[-> Hpf]].
  - cbn [app length] in *. rewrite Z.add_0_r. destruct (Z.eqb_spec base 16) as [->|]; [|done].
    assert (E : hex_prefix a (length (cs ++ replicate b 32)) u = Some (false, u)); [|by erewrite ubind_ok by exact E].
    unfold hex_prefix. inversion Hds as [|c d cs' ds' Hd Hds']; subst; [done|]. cbn [app length].
    destruct Hh as [Hc Hh]. destruct (Nat.ltb_spec (S (length (cs' ++ replicate b 32))) 2); [done|].
    erewrite ubind_ok by (by apply ld_ok). destruct (schar c =? 48); cbn [negb]; [|done].
    destruct (cs' ++ replicate b 32) as [|c2 r2] eqn:E2; [cbn in *; lia|]. destruct Hh as [Hc2 _].
    erewrite ubind_ok by (by apply ld_ok). unfold uret. do 3 f_equal.
    assert (Hne : c2 <> 120 /\ c2 <> 88 /\ 0 <= c2 < 128).
    { inversion Hds' as [|c3 d3 cs3 ds3 Hd3 ?]; subst.
      - destruct b; [done|]. injection E2 as <- _. lia.
      - injection E2 as <- _. apply is_digit_char in Hd3; [|lia]. tauto. }
    unfold schar. destruct (Z.ltb_spec c2 128); [|lia].
    destruct (Z.eqb_spec c2 120), (Z.eqb_spec c2 88); lia || done.
  - cbn [Z.eqb Pos.eqb].
    assert (E : hex_prefix a (length (pf ++ cs ++ replicate b 32)) u = Some (true, u)).
    { unfold hex_prefix. destruct Hpf as [-> | ->]; destruct Hh as (H0 & H1 & _); cbn [app length Nat.ltb Nat.leb];
        (erewrite ubind_ok by (by apply ld_ok)); change (negb (schar 48 =? 48)) with false; cbn iota;
        by (erewrite ubind_ok by (by apply ld_ok)). }
    erewrite ubind_ok by exact E. destruct Hpf as [-> | ->]; cbn [app length]; unfold uret; do 4 f_equal; lia.
Qed.

Lemma strntoumax_printed base t a b sg pf cs ds u p :
  2 <= base <= 16 -> printed base t a b sg pf cs ds -> holds (umem u) p t ->
  strntoumax p base (length t) u = Some ((if decide (sg = [45]) then u64 (- read_value base 0 ds)
    else read_value base 0 ds, p + Z.of_nat (length t) - Z.of_nat b), u).
Proof.
  intros Hb [-> Hsg Hpf Hds Hcs] Hh. unfold strntoumax.
  destruct cs as [|c cs]; [done|]. inversion Hds as [|? d ? ds' Hd Hds']; subst.
  destruct (is_digit_char base c d ltac:(lia) Hd) as (Ha & H1 & H2 & H3 & H4 & H5).
  set (body := (c :: cs) ++ replicate b 32) in *.
  assert (Hpb : exists c1 r1, pf ++ body = c1 :: r1 /\ isspace c1 = false /\ c1 <> 45 /\ c1 <> 43 /\ 0 <= c1 < 128).
  { destruct Hpf as [->|[_ [-> | ->]]].
    - exists c, (cs ++ replicate b 32). split; [done|]. split; [by apply isspace_alnum|lia].
    - eexists 48, _. split; [reflexivity|]. split; [apply isspace_alnum; left; lia|lia].
    - eexists 48, _. split; [reflexivity|]. split; [apply isspace_alnum; left; lia|lia]. }
  destruct Hpb as (c1 & r1 & Epb & Hs1 & Hm1 & Hp1 & Hc1).
  erewrite ubind_ok.
  2: { apply skip_spaces_spec; [exact Hh|]. intros x. destruct Hsg as [->|[-> | ->]]; cbn [app head].
       - rewrite Epb. by intros [= <-].
       - intros [= <-]. apply isspace_sign.
       - intros [= <-]. apply isspace_sign. }
  apply holds_app in Hh as [_ Hh]. rewrite length_replicate in Hh. cbn [fst snd].
  assert (Hts : take_sign (p + Z.of_nat a) (length (sg ++ pf ++ body)) u =
    Some ((bool_decide (sg = [45]), (p + Z.of_nat a + Z.of_nat (length sg), length (pf ++ body))), u)).
  { destruct Hsg as [->|[-> | ->]]; cbn [app] in *.
    - rewrite Epb in *. rewrite take_sign_none by done. by rewrite Z.add_0_r.
    - rewrite take_sign_some by auto. done.
    - rewrite take_sign_some by auto. done. }
  erewrite ubind_ok by exact Hts. cbn [fst snd]. apply holds_app in Hh as [_ Hh].
  erewrite ubind_ok by (eapply take_prefix_spec; eassumption). cbn [fst snd].
  apply holds_app in Hh as [_ Hh].
  erewrite ubind_ok.
  2: { apply (read_digits_spec base u (c :: cs) (d :: ds')); try done. intros x Hx.
       destruct b; cbn in Hx; [done|]. by injection Hx as <-. }
  cbn [fst snd]. unfold uret. do 2 f_equal. f_equal.
  - case_bool_decide; by case_decide.
  - unfold body. rewrite !length_app, !length_replicate. lia.
Qed.

End parsing.

Lemma numerals_digits digits base k : digits = lcdigits \/ digits = ucdigits -> 2 <= base <= 16 ->
  forall val, 0 <= val -> Forall2 (is_digit base) (numerals digits base k val) (num_digits base k val).
Proof.
  intros Hg Hb. induction k as [|k IH]; intros val Hv; cbn; [constructor|].
  apply Forall2_app; [apply IH, Z.div_pos; lia|]. constructor; [|constructor].
  apply digit_is; [done..|]. apply Z.mod_pos_bound. lia.
Qed.

Lemma zeros_digits base k : 2 <= base <= 16 -> Forall2 (is_digit base) (replicate k 48) (replicate k 0).
Proof.
  intros Hb. induction k as [|k IH]; cbn; constructor; [|done].
  split; [lia|]. split; [done|]. left. lia.
Qed.

Lemma int_text_printed val flags base width prec : 2 <= base <= 16 -> 0 <= val < 2 ^ 64 ->
  exists a b sg pf cs ds, printed base (int_text val flags base width prec) a b sg pf cs ds /\
    (if decide (sg = [45]) then u64 (- read_value base 0 ds) else read_value base 0 ds) = val.
Proof.
  intros Hb Hval. unfold int_text.
  set (digits := if has flags FL_UPPER then ucdigits else lcdigits).
  assert (Hg : digits = lcdigits \/ digits = ucdigits) by (unfold digits; case_on; auto).
  set (minus := has flags FL_SIGNED && (val >=? 2 ^ 63)).
  set (mag := if minus then u64 (- val) else val).
  assert (Hmag : 0 <= mag < 2 ^ Z.of_nat 64).
  { unfold mag, u64. destruct minus; [apply Z.mod_pos_bound; lia|exact Hval]. }
  destruct (count_digits_spec base 64 ltac:(lia) mag 0 Hmag) as (k & Ek & Hk & Hk0). rewrite Ek.
  change (default 0 (Some (0 + Z.of_nat k))) with (0 + Z.of_nat k).
  set (prec2 := if _ && _ then _ else prec). set (nd := if _ <? prec2 then prec2 else _).
  assert (Hnd : 1 <= nd /\ Z.of_nat k <= nd).
  { unfold nd. destruct (Z.ltb_spec (0 + Z.of_nat k) prec2); [lia|].
    destruct (Z.eqb_spec mag 0); [lia|]. destruct k; [tauto|lia]. }
  set (sign := if minus then [45] else _). set (prefix := if _ && (base =? 16) then _ else []).
  set (fill := Z.to_nat _). set (early := if negb _ && negb _ then replicate fill 32 else []).
  set (zeros := if negb _ && _ then replicate fill 48 else []).
  assert (He : exists a, early = replicate a 32) by (unfold early; case_on; [by eexists|by exists 0%nat]).
  destruct He as [a He].
  assert (Hz : exists z, zeros = replicate z 48) by (unfold zeros; case_on; [by eexists|by exists 0%nat]).
  destruct Hz as [z Hz].
  assert (Hl : exists b, (if has flags FL_MINUS then replicate fill 32 else []) = replicate b 32)
    by (case_on; [by eexists|by exists 0%nat]).
  destruct Hl as [b ->].
  assert (Hs : exists a' sg, early ++ sign = replicate a' 32 ++ sg /\ (sg = [] \/ sg = [43] \/ sg = [45]) /\
    (sg = [45] <-> minus = true)).
  { unfold sign. rewrite He. destruct minus; [by exists a, [45]; repeat split; auto|].
    destruct (has flags FL_PLUS); [by exists a, [43]; repeat split; auto|].
    destruct (has flags FL_SPACE); [|by exists a, (@nil Z); repeat split; auto].
    exists (a + 1)%nat, (@nil Z). rewrite replicate_add, app_nil_r. repeat split; by auto. }
  destruct Hs as (a' & sg & Hs & Hsg & Hmin).
  exists a', b, sg, prefix, (zeros ++ numerals digits base (Z.to_nat nd) mag),
    (replicate z 0 ++ num_digits base (Z.to_nat nd) mag). split.
  - split.
    + rewrite (app_assoc early), Hs, <- !app_assoc. done.
    + done.
    + unfold prefix. case_on; [|by left]. right. bool_to_prop. split; [done|]. case_on; auto.
    + rewrite Hz. apply Forall2_app; [by apply zeros_digits|]. apply numerals_digits; [done..|lia].
    + intros E%app_eq_nil. destruct E as [_ E]. apply (f_equal length) in E.
      rewrite numerals_length in E. cbn in E. lia.
  - rewrite read_value_app, read_value_zeros, read_value_num by lia.
    rewrite Z2Nat.id by lia. rewrite (Z.mod_small mag).
    2: { split; [lia|]. eapply Z.lt_le_trans; [exact Hk|]. apply Z.pow_le_mono_r; lia. }
    assert (Hu : u64 mag = mag) by (apply Z.mod_small; exact Hmag). rewrite Hu.
    destruct (decide (sg = [45])) as [E|E].
    + apply Hmin in E. unfold mag. rewrite E. unfold u64.
      rewrite <- (Z.mod_small val (2 ^ 64)) at 2 by lia. rewrite <- (Z.opp_involutive val) at 2.
      rewrite <- (Z.sub_0_l (_ mod _)), Zminus_mod_idemp_r. done.
    + unfold mag. destruct minus; [by destruct E; apply Hmin|done].
Qed.

(** C22: a number printed by [format_int] into a large enough buffer, with any flags
    but tick marks, any width and any precision, is read back by [strntoumax] in
    the same base: the value is the one printed (negative numbers as their 64-bit
    two's complement), and everything up to trailing blanks is consumed. *)
Theorem print_read_roundtrip `{CT : Ctype} {CL : CtypeLaws CT} u q n val flags base width prec :
  2 <= base <= 16 -> 0 <= val < 2 ^ 64 -> has flags FL_TICK = false ->
  let t := int_text val flags base width prec in
  Z.of_nat (length t) <= n -> room (umem u) q n t ->
  exists u' e, ubind (format_int q n val flags base width prec)
      (fun o => strntoumax q base (Z.to_nat o)) u = Some ((val, e), u') /\
    q < e <= q + Z.of_nat (length t) /\
    exists b, t = take (Z.to_nat (e - q)) t ++ replicate b 32.
Proof.
  intros Hb Hval Htick t Hn Hr. erewrite ubind_ok by (by apply format_int_spec).
  fold t. rewrite Nat2Z.id, take_ge by lia.
  destruct (int_text_printed val flags base width prec Hb Hval) as (a & b & sg & pf & cs & ds & Hp & Hv).
  eexists _, _. rewrite (strntoumax_printed base t a b sg pf cs ds); [|done|done|apply put_bytes_holds].
  rewrite Hv. split; [reflexivity|]. destruct Hp as [Ht _ _ _ Hcs]. fold t in Ht.
  assert (Hlen : length t = (length (replicate a 32%Z ++ sg ++ pf ++ cs) + b)%nat).
  { rewrite Ht, !length_app, !length_replicate. lia. }
  split; [destruct cs; [done|]; rewrite !length_app in Hlen; cbn [length] in Hlen; lia|].
  exists b. replace (Z.to_nat (q + Z.of_nat (length t) - Z.of_nat b - q))
    with (length (replicate a 32 ++ sg ++ pf ++ cs)) by lia.
  assert (Et : t = (replicate a 32 ++ sg ++ pf ++ cs) ++ replicate b 32) by (by rewrite Ht, <- !app_assoc).
  rewrite Et at 2. rewrite take_app_length. done.
Qed.

(** ** Witnesses *)

Definition ex_buffer : umach := mkU (put_bytes 100 (replicate 12 1) ∅) false.

Lemma ex_buffer_mapped : mapped (umem ex_buffer) 100 12.
Proof. unfold ex_buffer. cbn [umem]. apply (holds_mapped _ _ (replicate 12 1)), put_bytes_holds. Qed.

(** "-0002a  " in base 16: SIGNED, MINUS and UPPER off, precision 5, width 8. *)
Lemma format_int_correct_witness :
  exists u', format_int 100 4 (2 ^ 64 - 42) (Z.lor FL_SIGNED FL_MINUS) 16 8 5 ex_buffer = Some (8, u') /\
    holds (umem u') 100 [45; 48; 48; 48] /\ udf u' = false /\
    forall x, ~ (100 <= x < 104) -> umem u' !! x = umem ex_buffer !! x.
Proof.
  apply (format_int_correct ex_buffer 100 4 (2 ^ 64 - 42) (Z.lor FL_SIGNED FL_MINUS) 16 8 5).
  - lia.
  - lia.
  - reflexivity.
  - lia.
  - intros x Hx. apply ex_buffer_mapped. vm_compute (length _) in Hx. lia.
Defined.

Lemma print_read_roundtrip_witness :
  exists u' e, ubind (format_int 100 12 (2 ^ 64 - 42) (Z.lor FL_SIGNED FL_MINUS) 16 8 5)
      (fun o => strntoumax (CT := lib_ctype) 100 16 (Z.to_nat o)) ex_buffer = Some ((2 ^ 64 - 42, e), u') /\
    100 < e <= 108 /\
    exists b, [45; 48; 48; 48; 50; 97; 32; 32] = take (Z.to_nat (e - 100)) [45; 48; 48; 48; 50; 97; 32; 32] ++ replicate b 32.
Proof.
  apply (print_read_roundtrip (CT := lib_ctype) ex_buffer 100 12 (2 ^ 64 - 42) (Z.lor FL_SIGNED FL_MINUS) 16 8 5).
  - lia.
  - lia.
  - reflexivity.
  - vm_compute. discriminate.
  - intros x Hx. apply ex_buffer_mapped. vm_compute (length _) in Hx. lia.
Defined.
