(* ===== verification/UserFmt.v ===== *)
(** * The user library's formatted output ([vsnprintf.c] and its callers)

    The interpreter of format strings, [vsnprintf], on top of [format_int], and
    [vsprintf], [sprintf] and [TtyPrintf].  A [va_list] is the caller's argument area on the
    i386: 32-bit words in order, a [long long] taking two. *)

From Stdlib Require Import ZArith Lia.
From stdpp Require Import base gmap list.
From S2P Require Import Prelude Hardware UserMem UserCtype UserNum.

Open Scope Z_scope.

(** ** Arguments *)

Definition va_list : Type := list Z.

(** An argument that is not there stops the program. *)
Definition uopt {A} (o : option A) : UM A := match o with Some a => uret a | None => ufail end.

Definition va_word (ap : va_list) : option (Z * va_list) :=
  match ap with w :: ap' => Some (u32 w, ap') | [] => None end.

Definition va_quad (ap : va_list) : option (Z * va_list) :=
  '(lo, ap) ← va_word ap; '(hi, ap) ← va_word ap; Some (lo + 2 ^ 32 * hi, ap).

Definition i8 (z : Z) : Z := (z + 2 ^ 7) mod 2 ^ 8 - 2 ^ 7.
Definition i16 (z : Z) : Z := (z + 2 ^ 15) mod 2 ^ 16 - 2 ^ 15.

(** An [int] computed by signed arithmetic: overflow is undefined. *)
Definition int_result (z : Z) : UM Z :=
  if (- 2 ^ 31 <=? z) && (z <? 2 ^ 31) then uret z else ufail.

(** ** Ranks *)

Definition rank_char : Z := -2.
Definition rank_short : Z := -1.
Definition rank_int : Z := 0.
Definition rank_long : Z := 1.
Definition rank_longlong : Z := 2.

Definition clamp_rank (rank : Z) : Z :=
  if rank <? rank_char then rank_char else if rank >? rank_longlong then rank_longlong else rank.

(** [val] of a signed conversion, converted to [uintmax_t]. *)
Definition signed_arg (rank : Z) (ap : va_list) : option (Z * va_list) :=
  if rank =? rank_longlong then va_quad ap else
  '(w, ap) ← va_word ap;
  Some (u64 (if rank =? rank_char then i8 w else if rank =? rank_short then i16 w else i32 w), ap).

Definition unsigned_arg (rank : Z) (ap : va_list) : option (Z * va_list) :=
  if rank =? rank_longlong then va_quad ap else
  '(w, ap) ← va_word ap;
  Some (if rank =? rank_char then w mod 2 ^ 8 else if rank =? rank_short then w mod 2 ^ 16 else w, ap).

(** The low [k] bytes of a value stored at [a]. *)
Fixpoint st_le (k : nat) (a v : Z) : UM unit :=
  match k with
  | O => uret tt
  | S k' => st a (v mod 256) ;;; st_le k' (a + 1) (v / 256)
  end.

(** The size of the object a rank denotes. *)
Definition rank_size (rank : Z) : nat :=
  if rank =? rank_char then 1%nat else if rank =? rank_short then 2%nat
  else if rank =? rank_longlong then 8%nat else 4%nat.

(** ** Strings *)

(** [sarg]: a string in memory, or one of the function's own. *)
Inductive sarg :=
  | SMem (a : Z)
  | SLit (l : list Z).

Definition sarg_get (s : sarg) (i : Z) : UM Z :=
  match s with
  | SMem a => ld (a + i)
  | SLit l => match zget l i with Some c => uret c | None => ufail end
  end.

Definition sarg_len (s : sarg) : UM Z :=
  match s with SMem a => strlen a | SLit l => uret (Z.of_nat (length l)) end.

(** "(null)" *)
Definition str_null : list Z := [40; 110; 117; 108; 108; 41].

(** [for (i = slen; i; i--) { sch = *sarg++; EMIT(sch); }] *)
Fixpoint emit_chars (k : nat) (n : Z) (s : sarg) (i : Z) (qo : Z * Z) : UM (Z * Z) :=
  match k with
  | O => uret qo
  | S k' =>
      let* sch := sarg_get s i in
      let* qo := EMIT n sch qo in
      emit_chars k' n s (i + 1) qo
  end.

(** The code at [is_string]. *)
Definition put_string (n : Z) (s : sarg) (slen flags width prec : Z) (qo : Z * Z) : UM (Z * Z) :=
  let slen := if negb (prec =? -1) && (slen >? prec) then prec else slen in
  let lead := if (width >? slen) && negb (has flags FL_MINUS) then Z.to_nat (width - slen) else O in
  let* qo := emit_pad lead n (if has flags FL_ZERO then 48 else 32) qo in
  let width := width - Z.of_nat lead in
  let* qo := emit_chars (Z.to_nat slen) n s 0 qo in
  let trail := if (width >? slen) && has flags FL_MINUS then Z.to_nat (width - slen) else O in
  emit_pad trail n 32 qo.

(** The code at [is_integer]. *)
Definition put_integer (n val flags base width prec : Z) (qo : Z * Z) : UM (Z * Z) :=
  let '(q, o) := qo in
  let* sz := format_int q (if o <? n then n - o else 0) val flags base width prec in
  uret (q + sz, o + sz).

(** ** The interpreter *)

Inductive fstate := st_normal | st_flags | st_width | st_prec | st_modifiers.

Record fmt := mkFmt {
  f_state : fstate;
  f_flags : Z;
  f_rank : Z;
  f_width : Z;
  f_prec : Z;
  f_ap : va_list;
  f_qo : Z * Z }.

(** [%n]: the number of characters written goes to the argument's integer. *)
Definition store_count (rank : Z) (ap : va_list) (qo : Z * Z) : UM (Z * Z * va_list) :=
  let* w := uopt (va_word ap) in
  st_le (rank_size rank) (fst w) (snd qo) ;;; uret (qo, snd w).

(** The terminal sequences: the output and the remaining arguments. *)
Definition convert (n ch : Z) (f : fmt) : UM (Z * Z * va_list) :=
  let flags := f_flags f in let rank := clamp_rank (f_rank f) in
  let width := f_width f in let prec := f_prec f in let ap := f_ap f in let qo := f_qo f in
  let integer flags base prec (v : option (Z * va_list)) :=
    let* v := uopt v in
    let* qo := put_integer n (fst v) flags base width prec qo in uret (qo, snd v) in
  if (ch =? 80) || (ch =? 112) then                                 (* 'P', 'p' *)
    integer (Z.lor (if ch =? 80 then Z.lor flags FL_UPPER else flags) FL_HASH) 16 8 (va_word ap)
  else if (ch =? 100) || (ch =? 105) then                           (* 'd', 'i' *)
    integer (Z.lor flags FL_SIGNED) 10 prec (signed_arg rank ap)
  else if ch =? 111 then integer flags 8 prec (unsigned_arg rank ap)   (* 'o' *)
  else if ch =? 117 then integer flags 10 prec (unsigned_arg rank ap)  (* 'u' *)
  else if (ch =? 88) || (ch =? 120) then                            (* 'X', 'x' *)
    integer (if ch =? 88 then Z.lor flags FL_UPPER else flags) 16 prec (unsigned_arg rank ap)
  else if ch =? 99 then                                             (* 'c' *)
    let* w := uopt (va_word ap) in
    let* qo := put_string n (SLit [fst w mod 256]) 1 flags width prec qo in uret (qo, snd w)
  else if ch =? 115 then                                            (* 's' *)
    let* w := uopt (va_word ap) in
    let s := if fst w =? NULL then SLit str_null else SMem (fst w) in
    let* slen := sarg_len s in
    let* qo := put_string n s slen flags width prec qo in uret (qo, snd w)
  else if ch =? 110 then                                            (* 'n' *)
    store_count rank ap qo
  else
    let* qo := EMIT n ch qo in uret (qo, ap).

(** The flag a character sets in the state [st_flags]. *)
Definition flag_of (ch : Z) : option Z :=
  if ch =? 45 then Some FL_MINUS else if ch =? 43 then Some FL_PLUS else if ch =? 39 then Some FL_TICK
  else if ch =? 32 then Some FL_SPACE else if ch =? 35 then Some FL_HASH else if ch =? 48 then Some FL_ZERO
  else None.

Definition is_dec (ch : Z) : bool := (ch >=? 48) && (ch <=? 57).

(** The rank after a length modifier. *)
Definition modify_rank (ch rank : Z) : option Z :=
  if ch =? 104 then Some (rank - 1) else if ch =? 108 then Some (rank + 1)      (* 'h', 'l' *)
  else if ch =? 106 then Some rank_longlong                                     (* 'j' *)
  else if (ch =? 122) || (ch =? 116) then Some rank_long                        (* 'z', 't' *)
  else if (ch =? 76) || (ch =? 113) then Some (rank + 2)                        (* 'L', 'q' *)
  else None.

(** One round of the loop: whether the character has been consumed, and the state. *)
Definition fmt_step (n ch : Z) (f : fmt) : UM (bool * fmt) :=
  let '(mkFmt state flags rank width prec ap qo) := f in
  match state with
  | st_normal =>
      if ch =? 37 then uret (true, mkFmt st_flags 0 rank_int 0 (-1) ap qo)
      else let* qo := EMIT n ch qo in uret (true, mkFmt st_normal flags rank width prec ap qo)
  | st_flags =>
      match flag_of ch with
      | Some fl => uret (true, mkFmt st_flags (Z.lor flags fl) rank width prec ap qo)
      | None => uret (false, mkFmt st_width flags rank width prec ap qo)
      end
  | st_width =>
      if is_dec ch then
        let* w := int_result (width * 10 + (ch - 48)) in
        uret (true, mkFmt st_width flags rank w prec ap qo)
      else if ch =? 42 then
        let* w := uopt (va_word ap) in
        let width := i32 (fst w) in
        if width <? 0 then
          let* width := int_result (- width) in
          uret (true, mkFmt st_width (Z.lor flags FL_MINUS) rank width prec (snd w) qo)
        else uret (true, mkFmt st_width flags rank width prec (snd w) qo)
      else if ch =? 46 then uret (true, mkFmt st_prec flags rank width 0 ap qo)
      else uret (false, mkFmt st_modifiers flags rank width prec ap qo)
  | st_prec =>
      if is_dec ch then
        let* p := int_result (prec * 10 + (ch - 48)) in
        uret (true, mkFmt st_prec flags rank width p ap qo)
      else if ch =? 42 then
        let* w := uopt (va_word ap) in
        let prec := i32 (fst w) in
        uret (true, mkFmt st_prec flags rank width (if prec <? 0 then -1 else prec) (snd w) qo)
      else uret (false, mkFmt st_modifiers flags rank width prec ap qo)
  | st_modifiers =>
      match modify_rank ch rank with
      | Some rank => uret (true, mkFmt st_modifiers flags rank width prec ap qo)
      | None =>
          let* r := convert n ch f in
          uret (true, mkFmt st_normal flags (clamp_rank rank) width prec (snd r) (fst r))
      end
  end.

(** [while ((ch = *p++))] *)
Fixpoint fmt_loop (fuel : nat) (n p : Z) (f : fmt) : UM fmt :=
  let* ch := ld p in
  let ch := schar ch in
  if ch =? 0 then uret f else
  match fuel with
  | O => ufail
  | S fuel' =>
      let* r := fmt_step n ch f in
      fmt_loop fuel' n (if fst r then p + 1 else p) (snd r)
  end.

(** The NUL behind the text, or over its last character when it did not fit. *)
Definition terminate (buffer n q o : Z) : UM unit :=
  if o <? n then st q 0 else if n >? 0 then st (buffer + n - 1) 0 else uret tt.

(** A character is looked at no more than three times. *)
Definition vsnprintf (buffer n format : Z) (ap : va_list) : UM Z :=
  let* f := with_fuel (fun fuel =>
    fmt_loop (3 * fuel) n format (mkFmt st_normal 0 rank_int 0 (-1) ap (buffer, 0))) in
  let '(q, o) := f_qo f in
  terminate buffer n q o ;;;
  uret o.

(** [~(size_t) 0] *)
Definition vsprintf (buffer format : Z) (ap : va_list) : UM Z := vsnprintf buffer (2 ^ 32 - 1) format ap.

Definition sprintf (buffer format : Z) (args : list Z) : UM Z := vsnprintf buffer (2 ^ 32 - 1) format args.

(** ** What a format string prints

    A format string as a list of directives: a character to be printed, or a
    conversion with its flags, width, precision, length modifiers and letter. *)

Inductive directive :=
  | DText (c : Z)
  | DConv (fl w : list Z) (p : option (list Z)) (ms : list Z) (ch : Z).

Definition modifiers : list Z := [104; 108; 106; 122; 116; 76; 113].
Definition conversions : list Z := [80; 112; 100; 105; 111; 117; 88; 120; 99; 115; 37].

(** The characters of a directive in the format string. *)
Definition dtext (d : directive) : list Z :=
  match d with
  | DText c => [c]
  | DConv fl w p ms ch => 37 :: fl ++ w ++ (match p with Some p => 46 :: p | None => [] end) ++ ms ++ [ch]
  end.

Definition dec_value (ds : list Z) : Z := foldl (fun v c => v * 10 + (c - 48)) 0 ds.

Definition flag_char (c : Z) : bool := match flag_of c with Some _ => true | None => false end.

Definition directive_ok (d : directive) : Prop :=
  match d with
  | DText c => cchar c /\ c <> 37
  | DConv fl w p ms ch =>
      Forall (fun c => flag_char c = true) fl /\ Forall (fun c => is_dec c = true) w /\ head w <> Some 48 /\
      dec_value w < 2 ^ 31 /\
      (forall q, p = Some q -> Forall (fun c => is_dec c = true) q /\ dec_value q < 2 ^ 31) /\
      Forall (fun c => c ∈ modifiers) ms /\ ch ∈ conversions
  end.

Definition flags_of (fl : list Z) : Z := foldl (fun v c => Z.lor v (default 0 (flag_of c))) 0 fl.
Definition rank_of (ms : list Z) : Z := foldl (fun r c => default r (modify_rank c r)) rank_int ms.
Definition prec_of (p : option (list Z)) : Z := match p with Some p => dec_value p | None => -1 end.

(** A string cut to the precision and filled to the width. *)
Definition str_text (s : list Z) (flags width prec : Z) : list Z :=
  let s := if prec =? -1 then s else take (Z.to_nat prec) s in
  let fill := Z.to_nat (width - Z.of_nat (length s)) in
  if has flags FL_MINUS then s ++ replicate fill 32
  else replicate fill (if has flags FL_ZERO then 48 else 32) ++ s.

(** The text of a conversion and the arguments left; [strs] are the strings in memory. *)
Definition conv_text (strs : gmap Z (list Z)) (flags width prec rank ch : Z) (ap : va_list) :
    option (list Z * va_list) :=
  let integer flags base prec (v : option (Z * va_list)) :=
    if has flags FL_TICK then None else
    '(v, ap) ← v; Some (int_text v flags base width prec, ap) in
  if (ch =? 80) || (ch =? 112) then
    integer (Z.lor (if ch =? 80 then Z.lor flags FL_UPPER else flags) FL_HASH) 16 8 (va_word ap)
  else if (ch =? 100) || (ch =? 105) then integer (Z.lor flags FL_SIGNED) 10 prec (signed_arg rank ap)
  else if ch =? 111 then integer flags 8 prec (unsigned_arg rank ap)
  else if ch =? 117 then integer flags 10 prec (unsigned_arg rank ap)
  else if (ch =? 88) || (ch =? 120) then
    integer (if ch =? 88 then Z.lor flags FL_UPPER else flags) 16 prec (unsigned_arg rank ap)
  else if ch =? 99 then '(w, ap) ← va_word ap; Some (str_text [w mod 256] flags width prec, ap)
  else if ch =? 115 then
    '(a, ap) ← va_word ap;
    s ← (if a =? NULL then Some str_null else strs !! a);
    Some (str_text s flags width prec, ap)
  else Some ([ch], ap).

Definition dir_text (strs : gmap Z (list Z)) (d : directive) (ap : va_list) : option (list Z * va_list) :=
  match d with
  | DText c => Some ([c], ap)
  | DConv fl w p ms ch =>
      conv_text strs (flags_of fl) (dec_value w) (prec_of p) (clamp_rank (rank_of ms)) ch ap
  end.

Fixpoint fmt_text (strs : gmap Z (list Z)) (ds : list directive) (ap : va_list) : option (list Z * va_list) :=
  match ds with
  | [] => Some ([], ap)
  | d :: ds' =>
      '(t, ap) ← dir_text strs d ap; '(t', ap) ← fmt_text strs ds' ap; Some (t ++ t', ap)
  end.

(** The buffer of [n] bytes at [q] does not overlap the [k] bytes at [a]. *)
Definition apart (q n a : Z) (k : nat) : Prop := a + Z.of_nat k <= q \/ q + n <= a.

(** ** The interpreter at work *)

(** Every comparison of the goal fails. *)
Ltac no_eqb := repeat match goal with |- context [?x =? ?y] => destruct (Z.eqb_spec x y); [lia|] end.

Lemma dec_ascii c : is_dec c = true -> 48 <= c <= 57.
Proof. unfold is_dec. intros [H1%Z.geb_le H2%Z.leb_le]%andb_prop. lia. Qed.

Lemma dec_value_from ds : forall v, Forall (fun c => is_dec c = true) ds -> 0 <= v ->
  v <= foldl (fun v c => v * 10 + (c - 48)) v ds.
Proof.
  induction ds as [|c ds IH]; intros v Hds Hv; [done|]. apply Forall_cons in Hds as [Hc Hds].
  apply dec_ascii in Hc. cbn. specialize (IH (v * 10 + (c - 48)) Hds ltac:(lia)). lia.
Qed.

Lemma EMIT_schar n c qo : ubyte c -> EMIT n (schar c) qo = EMIT n c qo.
Proof.
  intros Hc. unfold EMIT, st. destruct qo as [q o]. unfold schar. destruct (c <? 128); [done|].
  assert (E : (c - 256) mod 256 = c mod 256); [|by rewrite E].
  replace (c - 256) with (c + -1 * 256) by lia. apply Z_mod_plus_full.
Qed.

Lemma dec_value_pos ds : Forall (fun c => is_dec c = true) ds -> 0 <= dec_value ds.
Proof. intros H. by apply (dec_value_from ds 0 H). Qed.

Section interpreter.
Context (q0 n K : Z) (u0 : umach) (format : Z) (F : list Z).
Hypothesis Hn : 0 <= n.
Hypothesis HF : cstr (umem u0) format F.
Hypothesis HFq : apart q0 (Z.min n K) format (S (length F)).

(** The text [t], of no more than [K] bytes, has been emitted. *)
Definition out (t : list Z) (qo : Z * Z) (u : umach) : Prop := emitted q0 n u0 t qo u /\ Z.of_nat (length t) <= K.

(** There is room for the text [t]. *)
Definition fits (t : list Z) : Prop := room (umem u0) q0 n t /\ Z.of_nat (length t) <= K.

Lemma fits_prefix t t' : fits (t ++ t') -> fits t.
Proof. intros [Hr Hl]. rewrite length_app in Hl. split; [by eapply room_prefix|lia]. Qed.

Lemma out_keeps t qo u a bs : out t qo u -> apart q0 (Z.min n K) a (length bs) -> holds (umem u0) a bs -> holds (umem u) a bs.
Proof.
  intros [[_ _ ->] Hl] Ha H. cbn. apply put_bytes_keeps; [|done]. rewrite length_take. unfold apart in Ha. lia.
Qed.

Lemma format_char t qo u i c rest : out t qo u -> drop i F = c :: rest ->
  ld (format + Z.of_nat i) u = Some (c, u) /\ cchar c.
Proof.
  intros Ho Hd. destruct HF as [Hh Hc]. split.
  - apply ld_ok. eapply (holds_lookup _ _ (F ++ [0])).
    + eapply out_keeps; [exact Ho| |exact Hh]. rewrite length_app. cbn. by rewrite Nat.add_1_r.
    + rewrite lookup_app_l; [|apply lookup_lt_is_Some; exists c; by rewrite <- (Nat.add_0_r i), <- lookup_drop, Hd].
      by rewrite <- (Nat.add_0_r i), <- lookup_drop, Hd.
  - rewrite Forall_forall in Hc. apply Hc. apply (subseteq_drop i F). rewrite Hd. by left.
Qed.

(** One round of the loop. *)
Lemma fmt_round t qo u i c rest f b f' u' fuel :
  out t qo u -> drop i F = c :: rest -> fmt_step n (schar c) f u = Some ((b, f'), u') ->
  fmt_loop (S fuel) n (format + Z.of_nat i) f u =
    fmt_loop fuel n (format + Z.of_nat (if b then S i else i)) f' u'.
Proof.
  intros Ho Hd Hs. destruct (format_char _ _ _ _ _ _ Ho Hd) as [Hl Hc]. cbn [fmt_loop].
  erewrite ubind_ok by exact Hl.
  destruct (Z.eqb_spec (schar c) 0) as [E|_].
  { unfold schar, cchar in *. destruct (c <? 128); lia. }
  erewrite ubind_ok by exact Hs. cbn [fst snd]. destruct b; [|done].
  by replace (format + Z.of_nat (S i)) with (format + Z.of_nat i + 1) by lia.
Qed.

Lemma drop_step {A} (l : list A) i c rest : drop i l = c :: rest -> drop (S i) l = rest.
Proof. intros H. rewrite <- Nat.add_1_r, <- drop_drop, H. done. Qed.

(** A run of characters that leave the machine alone and change the state by [g]. *)
Lemma fmt_run {A} (S : A -> fmt) (g : A -> Z -> A) t qo u cs : forall i a rest fuel,
  out t qo u -> drop i F = cs ++ rest ->
  (forall a c, c ∈ cs -> fmt_step n (schar c) (S a) u = Some ((true, S (g a c)), u)) ->
  fmt_loop (length cs + fuel) n (format + Z.of_nat i) (S a) u =
    fmt_loop fuel n (format + Z.of_nat (i + length cs)) (S (foldl g a cs)) u.
Proof.
  induction cs as [|c cs IH]; intros i a rest fuel Ho Hd Hstep; cbn [length Nat.add foldl app] in *.
  - by rewrite Nat.add_0_r.
  - rewrite (fmt_round t qo u i c (cs ++ rest) (S a) true (S (g a c)) u); [|exact Ho|exact Hd|apply Hstep; by left].
    rewrite (IH (1 + i)%nat _ rest fuel Ho); [by replace (i + Datatypes.S (length cs))%nat with (1 + i + length cs)%nat by lia|by eapply drop_step|].
    intros b d Hin. apply Hstep. by right.
Qed.

Lemma schar_ascii c : c < 128 -> schar c = c.
Proof. intros H. unfold schar. destruct (Z.ltb_spec c 128); [done|lia]. Qed.

Lemma flag_ascii c : flag_char c = true -> c < 128.
Proof.
  unfold flag_char, flag_of.
  repeat match goal with |- context [?x =? ?y] => destruct (Z.eqb_spec x y); [lia|] end. done.
Qed.

(** The characters of the flags. *)
Lemma run_flags t qo u i fl rest v r w p ap o fuel :
  out t qo u -> drop i F = fl ++ rest -> Forall (fun c => flag_char c = true) fl ->
  fmt_loop (length fl + fuel) n (format + Z.of_nat i) (mkFmt st_flags v r w p ap o) u =
  fmt_loop fuel n (format + Z.of_nat (i + length fl))
    (mkFmt st_flags (foldl (fun v c => Z.lor v (default 0 (flag_of c))) v fl) r w p ap o) u.
Proof.
  intros Ho Hd Hfl. rewrite Forall_forall in Hfl.
  apply (fmt_run (fun v => mkFmt st_flags v r w p ap o) (fun v c => Z.lor v (default 0 (flag_of c)))
    t qo u fl i v rest fuel Ho Hd).
  intros a c Hc. rewrite schar_ascii by (by apply flag_ascii, Hfl). cbn [fmt_step].
  specialize (Hfl c Hc). unfold flag_char in Hfl. by destruct (flag_of c).
Qed.

(** Decimal digits, in the state [S] that reads them. *)
Lemma run_digits (S : Z -> fmt) t qo u i ds rest fuel :
  out t qo u -> drop i F = ds ++ rest -> Forall (fun c => is_dec c = true) ds -> dec_value ds < 2 ^ 31 ->
  (forall v c, is_dec c = true -> fmt_step n c (S v) u =
    (let* w := int_result (v * 10 + (c - 48)) in uret (true, S w)) u) ->
  fmt_loop (length ds + fuel) n (format + Z.of_nat i) (S 0) u =
  fmt_loop fuel n (format + Z.of_nat (i + length ds)) (S (dec_value ds)) u.
Proof.
  intros Ho Hd Hds Hv Hstep.
  assert (Hgen : forall k i v, drop i F = k ++ rest -> Forall (fun c => is_dec c = true) k -> 0 <= v ->
    foldl (fun v c => v * 10 + (c - 48)) v k < 2 ^ 31 ->
    fmt_loop (length k + fuel) n (format + Z.of_nat i) (S v) u =
    fmt_loop fuel n (format + Z.of_nat (i + length k)) (S (foldl (fun v c => v * 10 + (c - 48)) v k)) u).
  { clear i Hd Hds Hv. induction k as [|c k IH]; intros i v Hd Hk Hv Hlt; cbn [length Nat.add foldl app] in *.
    - by rewrite Nat.add_0_r.
    - apply Forall_cons in Hk as [Hc Hk]. pose proof (dec_ascii c Hc) as Hr.
      pose proof (dec_value_from k (v * 10 + (c - 48)) Hk ltac:(lia)) as Hle.
      rewrite (fmt_round t qo u i c (k ++ rest) (S v) true (S (v * 10 + (c - 48))) u); [|done|done|].
      + rewrite IH; [f_equal; lia|by eapply drop_step|done|lia|done].
      + rewrite schar_ascii by lia. rewrite Hstep by done. unfold ubind, int_result.
        destruct (Z.leb_spec (- 2 ^ 31) (v * 10 + (c - 48))); [|lia].
        destruct (Z.ltb_spec (v * 10 + (c - 48)) (2 ^ 31)); [done|lia]. }
  by apply Hgen.
Qed.

Lemma modifier_facts c : c ∈ modifiers ->
  is_Some (modify_rank c 0) /\ c < 128 /\ flag_char c = false /\ is_dec c = false /\ c <> 42 /\ c <> 46.
Proof.
  intros H. repeat (apply elem_of_cons in H as [->|H]; [split; [by eexists|]|]); [..|by apply not_elem_of_nil in H];
    vm_compute; repeat split; lia || done.
Qed.

Lemma conversion_facts c : c ∈ conversions ->
  (forall r, modify_rank c r = None) /\ 0 < c < 128 /\ flag_char c = false /\ is_dec c = false /\
  c <> 42 /\ c <> 46 /\ c <> 110.
Proof.
  intros H. repeat (apply elem_of_cons in H as [->|H]; [split; [done|]|]); [..|by apply not_elem_of_nil in H];
    vm_compute; repeat split; lia || done.
Qed.

(** The length modifiers. *)
Lemma run_modifiers t qo u i ms rest fl r w p ap o fuel :
  out t qo u -> drop i F = ms ++ rest -> Forall (fun c => c ∈ modifiers) ms ->
  fmt_loop (length ms + fuel) n (format + Z.of_nat i) (mkFmt st_modifiers fl r w p ap o) u =
  fmt_loop fuel n (format + Z.of_nat (i + length ms))
    (mkFmt st_modifiers fl (foldl (fun r c => default r (modify_rank c r)) r ms) w p ap o) u.
Proof.
  intros Ho Hd Hms. rewrite Forall_forall in Hms.
  apply (fmt_run (fun r => mkFmt st_modifiers fl r w p ap o) (fun r c => default r (modify_rank c r))
    t qo u ms i r rest fuel Ho Hd).
  intros a c Hc. destruct (modifier_facts c (Hms c Hc)) as ([x Hx] & Hl & _).
  rewrite schar_ascii by done. cbn [fmt_step]. unfold modify_rank in *.
  by repeat match goal with |- context [?x =? ?y] => destruct (Z.eqb_spec x y); [done|] end.
Qed.

(** *** The output of a conversion *)

(** [c] emits the text [t] behind what has been emitted. *)
Definition emits_at (c : Z * Z -> UM (Z * Z)) (t : list Z) : Prop :=
  forall t0 qo u, out t0 qo u -> fits (t0 ++ t) ->
  exists qo' u', c qo u = Some (qo', u') /\ out (t0 ++ t) qo' u'.

Lemma emits_anywhere c t : emits n c t -> emits_at c t.
Proof.
  intros H t0 qo u [He _] [Hr Hl]. destruct (H q0 u0 t0 qo u He Hr) as (qo' & u' & E & He').
  exists qo', u'. by split.
Qed.

Lemma emits_at_bind c c' t t' : emits_at c t -> emits_at c' t' ->
  emits_at (fun qo => ubind (c qo) c') (t ++ t').
Proof.
  intros H H' t0 qo u He Hr. rewrite app_assoc in Hr.
  destruct (H t0 qo u He) as (qo1 & u1 & E1 & He1); [by eapply fits_prefix|].
  destruct (H' (t0 ++ t) qo1 u1 He1 Hr) as (qo2 & u2 & E2 & He2).
  exists qo2, u2. rewrite app_assoc. split; [|done]. by erewrite ubind_ok.
Qed.

Lemma put_integer_at val flags base width prec : 2 <= base <= 16 -> 0 <= val < 2 ^ 64 -> has flags FL_TICK = false ->
  emits_at (put_integer n val flags base width prec) (int_text val flags base width prec).
Proof.
  intros Hb Hv Ht t0 [q o] u [[Ho Hq ->] _] [Hr HK]. cbn [fst snd] in *. set (t := int_text val flags base width prec) in *.
  unfold put_integer. subst o. destruct (Z.ltb_spec (Z.of_nat (length t0)) n) as [Hlt|Hge].
  - rewrite (Hq Hlt) in *. erewrite ubind_ok.
    2: { apply format_int_spec; [done..|]. fold t. unfold room in *. cbn [umem].
         apply mapped_put_bytes. intros x Hx. apply Hr. rewrite length_app. lia. }
    fold t. eexists _, _. split; [reflexivity|]. split; [|done].
    split; cbn [fst snd umem udf]; [rewrite length_app; lia|lia|]. f_equal.
    rewrite (take_ge t0) by lia.
    rewrite (take_app_ge t0 t) by lia. rewrite put_bytes_app.
    do 2 f_equal. lia.
  - erewrite ubind_ok.
    2: { apply format_int_spec; [done..|]. intros x Hx. cbn in Hx. lia. }
    fold t. eexists _, _. split; [reflexivity|]. split; [|done].
    split; cbn [fst snd umem udf]; [rewrite length_app; lia|rewrite ?length_app; lia|]. f_equal.
    change (Z.to_nat 0) with 0%nat. rewrite take_0. cbn [put_bytes]. by rewrite take_app_le by lia.
Qed.

(** The string argument [s] has the characters [cs]. *)
Definition sarg_is (s : sarg) (cs : list Z) : Prop :=
  Forall ubyte cs /\
  match s with
  | SLit l => l = cs
  | SMem a => holds (umem u0) a cs /\ apart q0 (Z.min n K) a (length cs)
  end.

Lemma sarg_get_at s cs t qo u i c : out t qo u -> sarg_is s cs -> cs !! i = Some c ->
  sarg_get s (Z.of_nat i) u = Some (c, u).
Proof.
  intros Ho [_ Hs] Hc. destruct s as [a|l]; cbn [sarg_get].
  - destruct Hs as [Hh Ha]. apply ld_ok. eapply (holds_lookup _ _ cs); [|done]. by eapply out_keeps.
  - subst l. unfold zget. rewrite bool_decide_true by lia. rewrite Nat2Z.id, Hc. done.
Qed.

Lemma emit_chars_at s cs k : sarg_is s cs -> forall i, (i + k <= length cs)%nat ->
  emits_at (emit_chars k n s (Z.of_nat i)) (take k (drop i cs)).
Proof.
  intros Hs. induction k as [|k IH]; intros i Hi; [apply emits_anywhere, emits_nil|].
  destruct (lookup_lt_is_Some_2 cs i) as [c Hc]; [lia|]. rewrite (drop_S _ _ _ Hc). cbn [take].
  intros t0 qo u Ho Hr. cbn [emit_chars]. erewrite ubind_ok by (by eapply sarg_get_at).
  pose proof (emits_at_bind (EMIT n c) (emit_chars k n s (Z.of_nat i + 1)) [c] (take k (drop (S i) cs))) as H.
  apply H; [| |done|done].
  - apply emits_anywhere, emits_EMIT. destruct Hs as [Hb _]. rewrite Forall_forall in Hb.
    apply Hb. by eapply list_elem_of_lookup_2.
  - replace (Z.of_nat i + 1) with (Z.of_nat (S i)) by lia. apply IH. lia.
Qed.

Lemma put_string_at s cs flags width prec : sarg_is s cs -> -1 <= prec ->
  emits_at (put_string n s (Z.of_nat (length cs)) flags width prec) (str_text cs flags width prec).
Proof.
  intros Hs Hp. unfold put_string, str_text.
  set (cut := if prec =? -1 then cs else take (Z.to_nat prec) cs).
  set (slen := if negb (prec =? -1) && _ then prec else _).
  assert (Hcut : slen = Z.of_nat (length cut) /\ cut = take (Z.to_nat slen) (drop 0 cs) /\ 0 <= slen <= Z.of_nat (length cs)).
  { unfold slen, cut. rewrite drop_0. destruct (Z.eqb_spec prec (-1)); cbn [negb andb].
    - rewrite Nat2Z.id, firstn_all. split; [done|]. split; [done|lia].
    - destruct (Z.gtb_spec (Z.of_nat (length cs)) prec).
      + rewrite length_take. split; [lia|]. split; [done|lia].
      + rewrite !take_ge by lia. split; [done|]. split; [done|lia]. }
  destruct Hcut as (Hl & Hc & Hle). clearbody slen. rewrite <- Hl.
  destruct (has flags FL_MINUS); cbn [negb]; rewrite ?andb_true_r, ?andb_false_r.
  - change (emits_at (fun qo => let* qo := emit_pad 0 n (if has flags FL_ZERO then 48 else 32) qo in
      let* qo := emit_chars (Z.to_nat slen) n s 0 qo in
      emit_pad (if width - Z.of_nat 0 >? slen then Z.to_nat (width - Z.of_nat 0 - slen) else 0%nat) n 32 qo)
      ([] ++ cut ++ replicate (Z.to_nat (width - slen)) 32)).
    apply emits_at_bind; [apply emits_anywhere, emits_nil|]. apply emits_at_bind.
    + rewrite Hc. apply (emit_chars_at s cs _ Hs 0). lia.
    + rewrite Z.sub_0_r. destruct (Z.gtb_spec width slen).
      * apply emits_anywhere, emits_pad. by split.
      * replace (Z.to_nat (width - slen)) with 0%nat by lia. apply emits_anywhere, emits_nil.
  - rewrite <- (app_nil_r cut).
    apply (emits_at_bind _ (fun qo => let* qo := emit_chars (Z.to_nat slen) n s 0 qo in emit_pad _ n 32 qo)).
    + destruct (Z.gtb_spec width slen).
      * apply emits_anywhere, emits_pad. by destruct (has flags FL_ZERO).
      * replace (Z.to_nat (width - slen)) with 0%nat by lia. apply emits_anywhere, emits_nil.
    + apply emits_at_bind; [rewrite Hc; apply (emit_chars_at s cs _ Hs 0); lia|]. apply emits_anywhere, emits_nil.
Qed.

Context (strs : gmap Z (list Z)).
Hypothesis Hstrs : map_Forall (fun a s => cstr (umem u0) a s /\ apart q0 (Z.min n K) a (S (length s))) strs.

Lemma u32_word ap w ap' : va_word ap = Some (w, ap') -> 0 <= w < 2 ^ 32.
Proof. destruct ap; [done|]. intros [= <- _]. apply u32_range. Qed.

Lemma va_quad_range ap v ap' : va_quad ap = Some (v, ap') -> 0 <= v < 2 ^ 64.
Proof.
  unfold va_quad. destruct (va_word ap) as [[lo ap1]|] eqn:E1; [|done]. cbn.
  destruct (va_word ap1) as [[hi ap2]|] eqn:E2; [|done]. cbn. intros [= <- _].
  apply u32_word in E1, E2. lia.
Qed.

Lemma signed_arg_range rank ap v ap' : signed_arg rank ap = Some (v, ap') -> 0 <= v < 2 ^ 64.
Proof.
  unfold signed_arg. case_on; [apply va_quad_range|]. destruct (va_word ap) as [[w ap1]|]; [|done]. cbn.
  intros [= <- _]. unfold u64. apply Z.mod_pos_bound. lia.
Qed.

Lemma unsigned_arg_range rank ap v ap' : unsigned_arg rank ap = Some (v, ap') -> 0 <= v < 2 ^ 64.
Proof.
  unfold unsigned_arg. case_on; [apply va_quad_range|]. destruct (va_word ap) as [[w ap1]|] eqn:E1; [|done]. cbn.
  intros [= <- _]. apply u32_word in E1.
  pose proof (Z.mod_pos_bound w (2 ^ 8) ltac:(lia)). pose proof (Z.mod_pos_bound w (2 ^ 16) ltac:(lia)).
  repeat case_on; lia.
Qed.

(** [c] produces the text [t] and leaves the arguments [ap]. *)
Definition converts (c : Z * Z -> UM (Z * Z * va_list)) (t : list Z) (ap : va_list) : Prop :=
  forall t0 qo u, out t0 qo u -> fits (t0 ++ t) ->
  exists qo' u', c qo u = Some ((qo', ap), u') /\ out (t0 ++ t) qo' u'.

Lemma converts_emits c t ap : emits_at c t -> converts (fun qo => let* qo := c qo in uret (qo, ap)) t ap.
Proof.
  intros H t0 qo u Ho Hr. destruct (H t0 qo u Ho Hr) as (qo' & u' & E & Ho').
  exists qo', u'. split; [|done]. by erewrite ubind_ok by exact E.
Qed.

Lemma integer_converts flags base width prec v t ap : 2 <= base <= 16 ->
  (forall x ap', v = Some (x, ap') -> 0 <= x < 2 ^ 64) ->
  (if has flags FL_TICK then None else '(x, ap') ← v; Some (int_text x flags base width prec, ap')) = Some (t, ap) ->
  converts (fun qo => let* v := uopt v in
    let* qo := put_integer n (fst v) flags base width prec qo in uret (qo, snd v)) t ap.
Proof.
  intros Hb Hv H. destruct (has flags FL_TICK) eqn:Ht; [done|]. destruct v as [[x ap1]|]; [|done].
  cbn in H. injection H as <- <-.
  apply (converts_emits (put_integer n x flags base width prec)). apply put_integer_at; [done| |done]. by eapply Hv.
Qed.

Lemma convert_converts flags rank width prec ch ap st t ap' :
  ch ∈ conversions -> -1 <= prec -> conv_text strs flags width prec (clamp_rank rank) ch ap = Some (t, ap') ->
  converts (fun qo => convert n ch (mkFmt st flags rank width prec ap qo)) t ap'.
Proof.
  intros Hch Hp. unfold conv_text, convert. cbn [f_flags f_rank f_width f_prec f_ap f_qo].
  destruct ((ch =? 80) || (ch =? 112)); [intros H; eapply integer_converts; [lia| |exact H]|].
  { intros x ap1 E%u32_word. lia. }
  destruct ((ch =? 100) || (ch =? 105)); [intros H; eapply integer_converts; [lia|apply signed_arg_range|exact H]|].
  destruct (ch =? 111); [intros H; eapply integer_converts; [lia|apply unsigned_arg_range|exact H]|].
  destruct (ch =? 117); [intros H; eapply integer_converts; [lia|apply unsigned_arg_range|exact H]|].
  destruct ((ch =? 88) || (ch =? 120)); [intros H; eapply integer_converts; [lia|apply unsigned_arg_range|exact H]|].
  destruct (ch =? 99).
  - destruct (va_word ap) as [[w ap1]|]; [|done]. cbn [mbind option_bind uopt]. intros [= <- <-].
    apply (converts_emits (put_string n (SLit [w mod 256]) 1 flags width prec)).
    apply (put_string_at (SLit [w mod 256]) [w mod 256]); [|done]. split; [|done].
    constructor; [|done]. apply Z.mod_pos_bound. lia.
  - destruct (ch =? 115).
    + destruct (va_word ap) as [[a ap1]|]; [|done]. cbn [mbind option_bind uopt].
      destruct (Z.eqb_spec a NULL) as [->|Ha]; cbn [mbind option_bind].
      * intros [= <- <-]. apply (converts_emits (put_string n (SLit str_null) 6 flags width prec)).
        apply (put_string_at (SLit str_null) str_null); [|done]. split; [|done]. unfold str_null, ubyte.
        repeat (apply Forall_cons; split; [lia|]). by apply Forall_nil.
      * destruct (strs !! a) as [s|] eqn:Es; [|done]. cbn [mbind option_bind]. intros [= <- <-].
        destruct (Hstrs a s Es) as [[Hh Hc] Hap].
        assert (Hs : sarg_is (SMem a) s).
        { split; [by eapply Forall_impl; [exact Hc|apply cchar_ubyte]|].
          apply holds_app in Hh as [Hh _]. split; [done|]. unfold apart in *. lia. }
        intros t0 qo u Ho Hr. cbv beta. erewrite ubind_ok by reflexivity. cbn [fst snd]. cbv zeta.
        destruct (Z.eqb_spec a NULL); [done|]. cbn [sarg_len].
        erewrite ubind_ok.
        2: { apply strlen_ok. split; [|exact Hc]. eapply out_keeps; [exact Ho| |exact Hh].
             rewrite length_app. cbn. by rewrite Nat.add_1_r. }
        apply (converts_emits (put_string n (SMem a) (Z.of_nat (length s)) flags width prec)); [|done|done].
        by apply put_string_at.
    + intros [= <- <-]. destruct (conversion_facts ch Hch) as (_ & Hl & _ & _ & _ & _ & Hn110).
      destruct (Z.eqb_spec ch 110) as [E|_]; [done|].
      apply (converts_emits (EMIT n ch)), emits_anywhere, emits_EMIT. unfold ubyte. lia.
Qed.

(** *** A directive *)

Lemma drop_run {A} (l x r : list A) i : drop i l = x ++ r -> drop (i + length x) l = r.
Proof. intros H. rewrite <- drop_drop, H. apply drop_app_length. Qed.

(** A character that ends a part of the directive is looked at again in the next state. *)
Lemma end_flags t qo u i c rest fl r w p ap o fuel :
  out t qo u -> drop i F = c :: rest -> flag_char c = false -> c < 128 ->
  fmt_loop (S fuel) n (format + Z.of_nat i) (mkFmt st_flags fl r w p ap o) u =
  fmt_loop fuel n (format + Z.of_nat i) (mkFmt st_width fl r w p ap o) u.
Proof.
  intros Ho Hd Hc Hl. rewrite (fmt_round t qo u i c rest _ false (mkFmt st_width fl r w p ap o) u); [done..|].
  rewrite schar_ascii by done. cbn [fmt_step]. unfold flag_char in Hc. by destruct (flag_of c).
Qed.

Lemma end_width t qo u i c rest fl r w p ap o fuel :
  out t qo u -> drop i F = c :: rest -> is_dec c = false -> c < 128 -> c <> 42 -> c <> 46 ->
  fmt_loop (S fuel) n (format + Z.of_nat i) (mkFmt st_width fl r w p ap o) u =
  fmt_loop fuel n (format + Z.of_nat i) (mkFmt st_modifiers fl r w p ap o) u.
Proof.
  intros Ho Hd Hc Hl H1 H2. rewrite (fmt_round t qo u i c rest _ false (mkFmt st_modifiers fl r w p ap o) u); [done..|].
  rewrite schar_ascii by done. cbn [fmt_step]. rewrite Hc. by no_eqb.
Qed.

Lemma end_prec t qo u i c rest fl r w p ap o fuel :
  out t qo u -> drop i F = c :: rest -> is_dec c = false -> c < 128 -> c <> 42 ->
  fmt_loop (S fuel) n (format + Z.of_nat i) (mkFmt st_prec fl r w p ap o) u =
  fmt_loop fuel n (format + Z.of_nat i) (mkFmt st_modifiers fl r w p ap o) u.
Proof.
  intros Ho Hd Hc Hl H1. rewrite (fmt_round t qo u i c rest _ false (mkFmt st_modifiers fl r w p ap o) u); [done..|].
  rewrite schar_ascii by done. cbn [fmt_step]. rewrite Hc. by no_eqb.
Qed.

(** What follows the precision: the modifiers and the conversion's letter. *)
Definition tail_of (ms : list Z) (ch : Z) : list Z := ms ++ [ch].

Lemma tail_head ms ch rest : Forall (fun c => c ∈ modifiers) ms -> ch ∈ conversions ->
  exists c rest', tail_of ms ch ++ rest = c :: rest' /\ flag_char c = false /\ is_dec c = false /\ c < 128 /\ c <> 42 /\ c <> 46.
Proof.
  intros Hms Hch. unfold tail_of. destruct ms as [|c ms].
  - destruct (conversion_facts ch Hch) as (_ & ? & ? & ? & ? & ? & _). eexists ch, _. cbn. repeat split; [done..|lia|done|done].
  - apply Forall_cons in Hms as [Hc _]. destruct (modifier_facts c Hc) as (_ & ? & ? & ? & ? & ?).
    eexists c, _. by cbn.
Qed.

(** From the end of the width to the state [st_modifiers]. *)
Definition prec_text (p : option (list Z)) : list Z := match p with Some p => 46 :: p | None => [] end.
Definition prec_rounds (p : option (list Z)) : nat := match p with Some p => S (S (length p)) | None => 1%nat end.

Lemma run_prec t qo u i p ms ch rest fl r w ap o fuel :
  out t qo u -> drop i F = prec_text p ++ tail_of ms ch ++ rest ->
  (forall q, p = Some q -> Forall (fun c => is_dec c = true) q /\ dec_value q < 2 ^ 31) ->
  Forall (fun c => c ∈ modifiers) ms -> ch ∈ conversions ->
  fmt_loop (prec_rounds p + fuel) n (format + Z.of_nat i) (mkFmt st_width fl r w (-1) ap o) u =
  fmt_loop fuel n (format + Z.of_nat (i + length (prec_text p))) (mkFmt st_modifiers fl r w (prec_of p) ap o) u.
Proof.
  intros Ho Hd Hp Hms Hch. destruct (tail_head ms ch rest Hms Hch) as (c & rest' & E & Hf & Hdc & Hl & H1 & H2).
  rewrite E in Hd. destruct p as [q|]; cbn [prec_text prec_rounds prec_of length Nat.add app] in *.
  - destruct (Hp q eq_refl) as [Hq Hv].
    rewrite (fmt_round t qo u i 46 (q ++ c :: rest') _ true (mkFmt st_prec fl r w 0 ap o) u); [|done..].
    pose proof (drop_step _ _ _ _ Hd) as Hd'.
    replace (S (length q + fuel)) with (length q + S fuel)%nat by lia.
    rewrite (run_digits (fun p => mkFmt st_prec fl r w p ap o) t qo u (S i) q (c :: rest')); [|done..|].
    + rewrite (end_prec t qo u (S i + length q) c rest'); [by replace (S i + length q)%nat with (i + S (length q))%nat by lia|done| |done..].
      by apply drop_run.
    + intros v d Hd1. cbn [fmt_step]. by rewrite Hd1.
  - rewrite Nat.add_0_r. by apply (end_width t qo u i c rest').
Qed.

Lemma dtext_conv fl w p ms ch : dtext (DConv fl w p ms ch) = 37 :: fl ++ w ++ prec_text p ++ tail_of ms ch.
Proof. by destruct p. Qed.

Lemma run_conv t qo u i fl w p ms ch rest f1 f2 f3 f4 ap fuel t' ap' :
  out t qo u -> drop i F = dtext (DConv fl w p ms ch) ++ rest -> directive_ok (DConv fl w p ms ch) ->
  dir_text strs (DConv fl w p ms ch) ap = Some (t', ap') -> fits (t ++ t') ->
  exists g1 g2 g3 g4 qo' u',
    fmt_loop (length (dtext (DConv fl w p ms ch)) + 2 + fuel) n (format + Z.of_nat i) (mkFmt st_normal f1 f2 f3 f4 ap qo) u =
    fmt_loop fuel n (format + Z.of_nat (i + length (dtext (DConv fl w p ms ch)))) (mkFmt st_normal g1 g2 g3 g4 ap' qo') u' /\
    out (t ++ t') qo' u'.
Proof.
  intros Ho Hd (Hfl & Hw & H0 & Hwv & Hp & Hms & Hch) Ht Hr. cbn [dir_text] in Ht.
  destruct (tail_head ms ch rest Hms Hch) as (c & rest' & E & Hf & Hdc & Hl & H1 & H2).
  assert (Hpv : -1 <= prec_of p).
  { destruct p as [q|]; [|cbn; lia]. destruct (Hp q eq_refl) as [Hq _]. cbn. by apply Z.le_trans with 0, dec_value_pos. }
  destruct (convert_converts (flags_of fl) (rank_of ms) (dec_value w) (prec_of p) ch ap st_modifiers t' ap' Hch Hpv Ht
    t qo u Ho Hr) as (qo' & u' & Ec & Ho').
  exists (flags_of fl), (clamp_rank (rank_of ms)), (dec_value w), (prec_of p), qo', u'. split; [|exact Ho']. rewrite dtext_conv in *. cbn [length app] in *.
  rewrite <- !app_assoc in Hd. pose proof (drop_step _ _ _ _ Hd) as Hd1.
  pose proof (drop_run _ _ _ _ Hd1) as Hd2. pose proof (drop_run _ _ _ _ Hd2) as Hd3. pose proof (drop_run _ _ _ _ Hd3) as Hd4.
  unfold tail_of in Hd4. rewrite <- app_assoc in Hd4. pose proof (drop_run _ _ _ _ Hd4) as Hd5.
  replace (S (length (fl ++ w ++ prec_text p ++ tail_of ms ch)) + 2 + fuel)%nat
    with (S (length fl + S (length w + (prec_rounds p + (length ms + S fuel)))))%nat.
  2: { unfold tail_of. rewrite !length_app. destruct p; cbn; lia. }
  rewrite (fmt_round t qo u i 37 _ _ true (mkFmt st_flags 0 rank_int 0 (-1) ap qo) u _ Ho Hd) by done.
  rewrite (run_flags t qo u (S i) fl _ _ _ _ _ _ _ _ Ho Hd1 Hfl).
  destruct (w ++ prec_text p ++ tail_of ms ch ++ rest) as [|c0 rest0] eqn:E0.
  { by destruct w, p, ms. }
  assert (Hc0 : flag_char c0 = false /\ c0 < 128).
  { destruct w as [|d w]; cbn in E0.
    - destruct p; cbn in E0; [by injection E0 as <- _|]. rewrite E in E0. by injection E0 as <- _.
    - injection E0 as <- _. apply Forall_cons in Hw as [Hd0%dec_ascii _]. split; [|lia]. cbn in H0.
      assert (d <> 48) by congruence. unfold flag_char, flag_of. by no_eqb. }
  rewrite (end_flags t qo u _ c0 rest0 _ _ _ _ _ _ _ Ho Hd2) by apply Hc0.
  rewrite <- E0 in Hd2.
  rewrite (run_digits (fun w => mkFmt st_width (flags_of fl) rank_int w (-1) ap qo) t qo u _ w _ _ Ho Hd2 Hw Hwv).
  2: { intros v d Hdd. cbn [fmt_step]. by rewrite Hdd. }
  rewrite (run_prec t qo u _ p ms ch rest _ _ _ _ _ _ Ho Hd3 Hp Hms Hch).
  rewrite (run_modifiers t qo u _ ms _ _ _ _ _ _ _ _ Ho Hd4 Hms).
  destruct (conversion_facts ch Hch) as (Hm & Hch1 & _).
  rewrite (fmt_round t qo u _ ch rest _ true
    (mkFmt st_normal (flags_of fl) (clamp_rank (rank_of ms)) (dec_value w) (prec_of p) ap' qo') u' _ Ho Hd5).
  2: { rewrite schar_ascii by lia. cbn [fmt_step]. rewrite Hm. by erewrite ubind_ok by exact Ec. }
  unfold tail_of. rewrite !length_app. cbn [length fst snd]. do 3 f_equal. lia.
Qed.

Lemma run_text t qo u i c rest f1 f2 f3 f4 ap fuel :
  out t qo u -> drop i F = c :: rest -> cchar c -> c <> 37 -> fits (t ++ [c]) ->
  exists qo' u',
    fmt_loop (S fuel) n (format + Z.of_nat i) (mkFmt st_normal f1 f2 f3 f4 ap qo) u =
    fmt_loop fuel n (format + Z.of_nat (S i)) (mkFmt st_normal f1 f2 f3 f4 ap qo') u' /\
    out (t ++ [c]) qo' u'.
Proof.
  intros Ho Hd Hc H37 Hr.
  destruct (emits_anywhere _ _ (emits_EMIT n c (cchar_ubyte c Hc)) t qo u Ho Hr) as (qo' & u' & E & Ho').
  exists qo', u'. split; [|done].
  apply (fmt_round t qo u i c rest _ true _ u' fuel Ho Hd). cbn [fmt_step].
  destruct (Z.eqb_spec (schar c) 37) as [E37|_].
  { revert E37. unfold schar, cchar in *. destruct (Z.ltb_spec c 128); lia. }
  erewrite ubind_ok; [reflexivity|]. rewrite EMIT_schar by (by apply cchar_ubyte). exact E.
Qed.

(** *** The whole format string *)

Lemma format_end t qo u i : out t qo u -> drop i F = [] -> (i <= length F)%nat ->
  ld (format + Z.of_nat i) u = Some (0, u).
Proof.
  intros Ho Hd Hi. destruct HF as [Hh _].
  assert (i = length F) as -> by (pose proof (length_drop F i) as Hl; rewrite Hd in Hl; cbn in Hl; lia).
  apply ld_ok. eapply (holds_lookup _ _ (F ++ [0])).
  - eapply out_keeps; [exact Ho| |exact Hh]. rewrite length_app. cbn. by rewrite Nat.add_1_r.
  - by rewrite list_lookup_middle.
Qed.

Lemma run_directives ds : forall t qo u i f1 f2 f3 f4 ap fuel t' ap',
  out t qo u -> drop i F = concat (map dtext ds) -> (i <= length F)%nat -> Forall directive_ok ds ->
  fmt_text strs ds ap = Some (t', ap') -> fits (t ++ t') ->
  (3 * length (concat (map dtext ds)) <= fuel)%nat ->
  exists g1 g2 g3 g4 qo' u',
    fmt_loop fuel n (format + Z.of_nat i) (mkFmt st_normal f1 f2 f3 f4 ap qo) u =
      Some (mkFmt st_normal g1 g2 g3 g4 ap' qo', u') /\ out (t ++ t') qo' u'.
Proof.
  induction ds as [|d ds IH]; intros t qo u i f1 f2 f3 f4 ap fuel t' ap' Ho Hd Hi Hok Ht Hr Hfu; cbn [map concat fmt_text] in *.
  - injection Ht as <- <-. rewrite app_nil_r. eexists _, _, _, _, _, _. split; [|exact Ho].
    destruct fuel; cbn [fmt_loop]; by erewrite ubind_ok by by apply (format_end t qo u i).
  - apply Forall_cons in Hok as [Hd0 Hok]. destruct (dir_text strs d ap) as [[t1 ap1]|] eqn:E1; [|done]. cbn in Ht.
    destruct (fmt_text strs ds ap1) as [[t2 ap2]|] eqn:E2; [|done]. cbn in Ht. injection Ht as <- <-.
    pose proof (drop_run _ _ _ _ Hd) as Hd'. rewrite app_assoc in Hr. rewrite length_app in Hfu.
    assert (Hone : exists h1 h2 h3 h4 qo1 u1 fuel', (3 * length (concat (map dtext ds)) <= fuel')%nat /\
      fmt_loop fuel n (format + Z.of_nat i) (mkFmt st_normal f1 f2 f3 f4 ap qo) u =
      fmt_loop fuel' n (format + Z.of_nat (i + length (dtext d))) (mkFmt st_normal h1 h2 h3 h4 ap1 qo1) u1 /\
      out (t ++ t1) qo1 u1).
    { destruct d as [c|fl w p ms ch].
      - cbn in E1. injection E1 as <- <-. destruct Hd0 as [Hc H37]. cbn [dtext app length] in *.
        destruct (run_text t qo u i c _ f1 f2 f3 f4 ap (fuel - 1) Ho Hd Hc H37) as (qo1 & u1 & E & Ho1); [by eapply fits_prefix|].
        exists f1, f2, f3, f4, qo1, u1, (fuel - 1)%nat. split; [lia|]. split; [|done].
        rewrite Nat.add_1_r, <- E. f_equal. lia.
      - set (len := length (dtext (DConv fl w p ms ch))) in *.
        assert (2 <= len)%nat by (unfold len; rewrite dtext_conv; unfold tail_of; cbn; rewrite !length_app; cbn; lia).
        destruct (run_conv t qo u i fl w p ms ch _ f1 f2 f3 f4 ap (fuel - (len + 2)) t1 ap1 Ho Hd Hd0 E1)
          as (h1 & h2 & h3 & h4 & qo1 & u1 & E & Ho1); [by eapply fits_prefix|]. fold len in E.
        eexists h1, h2, h3, h4, qo1, u1, (fuel - (len + 2))%nat. split; [lia|]. split; [|done]. rewrite <- E. f_equal. lia. }
    destruct Hone as (h1 & h2 & h3 & h4 & qo1 & u1 & fuel' & Hfu' & -> & Ho1).
    rewrite app_assoc. eapply IH; [done..| |done|done|done|done].
    pose proof (length_drop F i) as Hl. rewrite Hd, length_app in Hl. lia.
Qed.

End interpreter.

(** ** The whole function *)

(** The zero byte goes behind the text or over its last byte that fits. *)
Lemma end_of_text u buffer n T : 0 <= n ->
  mapped (put_bytes buffer (take (Z.to_nat n) T) (umem u)) buffer (Nat.min (Z.to_nat n) (S (length T))) ->
  forall q, (Z.of_nat (length T) < n -> q = buffer + Z.of_nat (length T)) ->
  exists u', (if Z.of_nat (length T) <? n then st q 0 else if n >? 0 then st (buffer + n - 1) 0 else uret tt)
      (mkU (put_bytes buffer (take (Z.to_nat n) T) (umem u)) (udf u)) = Some (tt, u') /\
    u' = mkU (if n >? 0 then put_bytes buffer (take (Z.to_nat n - 1) T ++ [0]) (umem u) else umem u) (udf u).
Proof.
  intros Hn Hm q Hq. eexists. split; [|reflexivity].
  destruct (Z.ltb_spec (Z.of_nat (length T)) n) as [Hlt|Hge].
  - rewrite (Hq Hlt). destruct (Z.gtb_spec n 0); [|lia]. rewrite (take_ge T (Z.to_nat n)) in * by lia.
    rewrite (take_ge T) by lia. rewrite st_any by (apply Hm; lia). cbn [umem udf]. by rewrite put_bytes_snoc, put_bytes_insert by lia.
  - destruct (Z.gtb_spec n 0) as [Hn0|].
    2: { by replace (Z.to_nat n) with 0%nat by lia. }
    rewrite st_any by (apply Hm; lia). cbn [umem udf]. repeat f_equal. rewrite put_bytes_snoc.
    replace (Z.to_nat n) with (S (Z.to_nat n - 1)) at 1 by lia.
    destruct (lookup_lt_is_Some_2 T (Z.to_nat n - 1)) as [x Hx]; [lia|].
    rewrite (take_S_r _ _ _ Hx), put_bytes_snoc, length_take.
    replace (buffer + n - 1) with (buffer + Z.of_nat (Nat.min (Z.to_nat n - 1) (length T))) by lia.
    rewrite <- put_bytes_insert by (rewrite length_take; lia). by rewrite insert_insert_eq.
Qed.

Lemma vsnprintf_spec u buffer n format ap ds strs T ap' :
  let size := Z.min n (Z.of_nat (length T) + 1) in
  0 <= n -> Forall directive_ok ds -> cstr (umem u) format (concat (map dtext ds)) ->
  apart buffer size format (S (length (concat (map dtext ds)))) ->
  map_Forall (fun a s => cstr (umem u) a s /\ apart buffer size a (S (length s))) strs ->
  fmt_text strs ds ap = Some (T, ap') -> mapped (umem u) buffer (Z.to_nat size) ->
  vsnprintf buffer n format ap u = Some (Z.of_nat (length T),
    mkU (if n >? 0 then put_bytes buffer (take (Z.to_nat n - 1) T ++ [0]) (umem u) else umem u) (udf u)).
Proof.
  intros size Hn Hds HF Hap Hstrs HT Hr. set (F := concat (map dtext ds)) in *.
  assert (He : out buffer n (Z.of_nat (length T) + 1) u [] (buffer, 0) u).
  { split; [|cbn; lia]. split; cbn; [done|lia|]. rewrite take_nil. by destruct u. }
  destruct (run_directives buffer n (Z.of_nat (length T) + 1) u format F Hn HF Hap strs Hstrs ds [] (buffer, 0) u 0 0
    rank_int 0 (-1) ap (3 * umem_fuel u) T ap' He) as (g1 & g2 & g3 & g4 & qo & u1 & E & [Ho _]);
    [by rewrite drop_0|lia|done|done| | |].
  { split; [|cbn; lia]. cbn [app]. intros x Hx. apply Hr. lia. }
  { pose proof (cstr_size _ _ _ HF). unfold umem_fuel. fold F. lia. }
  rewrite Z.add_0_r in E. unfold vsnprintf. erewrite ubind_ok by exact E. cbn [f_qo].
  cbn [app] in Ho. clear E He. destruct qo as [q o], Ho as [Ho Hq ->]. cbn [fst snd] in *. subst o.
  destruct (end_of_text u buffer n T Hn) with (q := q) as (u' & E' & ->); [|done|by erewrite ubind_ok by exact E'].
  apply mapped_put_bytes. intros x Hx. apply Hr. lia.
Qed.

(** C36: [vsnprintf] of a format string made of characters and conversions, with
    the arguments and strings they ask for, returns the length of the text they
    print and leaves as much of it as fits in the buffer, ended by a zero byte;
    it changes no other byte. *)
Theorem vsnprintf_correct u buffer n format ap ds strs T ap' :
  let size := Z.min n (Z.of_nat (length T) + 1) in
  0 <= n -> Forall directive_ok ds -> cstr (umem u) format (concat (map dtext ds)) ->
  apart buffer size format (S (length (concat (map dtext ds)))) ->
  map_Forall (fun a s => cstr (umem u) a s /\ apart buffer size a (S (length s))) strs ->
  fmt_text strs ds ap = Some (T, ap') -> mapped (umem u) buffer (Z.to_nat size) ->
  exists u', vsnprintf buffer n format ap u = Some (Z.of_nat (length T), u') /\
    (0 < n -> holds (umem u') buffer (take (Z.to_nat n - 1) T ++ [0])) /\ udf u' = udf u /\
    forall x, ~ (buffer <= x < buffer + size) -> umem u' !! x = umem u !! x.
Proof.
  intros size Hn Hds HF Hap Hstrs HT Hr. eexists. split; [by eapply vsnprintf_spec|]. cbn [umem udf].
  split; [|split; [done|]].
  - intros Hn0. destruct (Z.gtb_spec n 0); [apply put_bytes_holds|lia].
  - intros x Hx. destruct (Z.gtb_spec n 0); [|done]. apply put_bytes_outside.
    rewrite length_app, length_take. cbn. lia.
Qed.

(** ** Formatted output to a terminal ([ttylib.c])

    [tty_buff] is a static array of 4096 bytes; [TtyWrite] is the system call. *)

Section tty.
Context (tty_buff : Z) (TtyWrite : Z -> Z -> Z -> UM Z).

Definition TtyPrintf (tty_id fmt : Z) (args : va_list) : UM Z :=
  vsprintf tty_buff fmt args ;;;
  let* len := strlen tty_buff in
  TtyWrite tty_id tty_buff len.

(** A text without zero bytes that fits in the buffer is what [TtyPrintf] hands to [TtyWrite],
    whole, with its length, in a memory that differs in the buffer only. *)
Theorem TtyPrintf_writes_text u tty_id fmt args ds strs T ap' :
  let size := Z.of_nat (length T) + 1 in
  size <= 4096 -> Forall cchar T -> Forall directive_ok ds -> cstr (umem u) fmt (concat (map dtext ds)) ->
  apart tty_buff size fmt (S (length (concat (map dtext ds)))) ->
  map_Forall (fun a s => cstr (umem u) a s /\ apart tty_buff size a (S (length s))) strs ->
  fmt_text strs ds args = Some (T, ap') -> mapped (umem u) tty_buff (Z.to_nat 4096) ->
  TtyPrintf tty_id fmt args u =
    TtyWrite tty_id tty_buff (Z.of_nat (length T)) (mkU (put_bytes tty_buff (T ++ [0]) (umem u)) (udf u)).
Proof.
  intros size Hs Hc Hds HF Hap Hstrs HT Hm. unfold size in *. unfold TtyPrintf, vsprintf.
  assert (Hmin : Z.min (2 ^ 32 - 1) (Z.of_nat (length T) + 1) = Z.of_nat (length T) + 1) by lia.
  erewrite ubind_ok.
  2: { apply (vsnprintf_spec u tty_buff (2 ^ 32 - 1) fmt args ds strs T ap'); cbv zeta; rewrite ?Hmin; try done.
       intros x Hx. apply Hm. lia. }
  change (2 ^ 32 - 1 >? 0) with true. cbv iota. rewrite take_ge by lia.
  erewrite ubind_ok; [reflexivity|]. apply strlen_ok. split; [apply put_bytes_holds|done].
Qed.

End tty.

(** ** A concrete call *)

(** "%-4d|%.3s" followed by a line feed, at 100; "abcd" at 200; a buffer of 8 bytes at 300. *)
Definition ex_directives : list directive :=
  [DConv [45] [52] None [] 100; DText 124; DConv [] [] (Some [51]) [] 115; DText 10].

Definition ex_fmt_mem : umach :=
  mkU (put_bytes 300 (replicate 8 1) (put_bytes 200 [97; 98; 99; 100; 0]
    (put_bytes 100 (concat (map dtext ex_directives) ++ [0]) ∅))) false.

(** The same with a terminal buffer at 300. *)
Definition ex_tty_mem : umach :=
  mkU (put_bytes 200 [97; 98; 99; 100; 0]
    (put_bytes 100 (concat (map dtext ex_directives) ++ [0]) (put_bytes 300 (replicate (Z.to_nat 4096) 1) ∅))) false.

Lemma ex_tty_mapped : mapped (umem ex_tty_mem) 300 (Z.to_nat 4096).
Proof.
  do 2 apply mapped_put_bytes. rewrite <- (length_replicate (Z.to_nat 4096) 1).
  apply (holds_mapped _ _ (replicate (Z.to_nat 4096) 1)), put_bytes_holds.
Qed.

Lemma ex_directives_ok : Forall directive_ok ex_directives.
Proof.
  unfold ex_directives. rewrite !Forall_cons. split; [|split; [|split; [|split; [|by apply Forall_nil]]]]; cbn [directive_ok].
  - repeat split; by repeat constructor.
  - unfold cchar. lia.
  - repeat split; repeat match goal with H : Some _ = Some _ |- _ => injection H as <- end;
      by repeat constructor.
  - unfold cchar. lia.
Qed.

Lemma vsnprintf_correct_witness :
  exists u', vsnprintf 300 8 100 [u32 (-7); 200] ex_fmt_mem = Some (9, u') /\
    (0 < 8 -> holds (umem u') 300 [45; 55; 32; 32; 124; 97; 98; 0]) /\ udf u' = false /\
    forall x, ~ (300 <= x < 300 + 8) -> umem u' !! x = umem ex_fmt_mem !! x.
Proof.
  apply (vsnprintf_correct ex_fmt_mem 300 8 100 [u32 (-7); 200] ex_directives {[200 := [97; 98; 99; 100]]}
    [45; 55; 32; 32; 124; 97; 98; 99; 10] []).
  - lia.
  - apply ex_directives_ok.
  - split; [vm_compute; repeat split|by repeat constructor].
  - left. vm_compute. discriminate.
  - intros a s [<- <-]%lookup_singleton_Some.
    split; [split; [vm_compute; repeat split|by repeat constructor]|]. left. vm_compute. discriminate.
  - vm_compute. reflexivity.
  - assert (H : holds (umem ex_fmt_mem) 300 (replicate 8 1)) by (vm_compute; repeat split).
    apply (holds_mapped _ _ _ H).
Defined.

(** A terminal that reports the number of bytes it is given. *)
Lemma TtyPrintf_writes_text_witness :
  TtyPrintf 300 (fun _ _ n => uret n) 1 100 [u32 (-7); 200] ex_tty_mem =
    Some (9, mkU (put_bytes 300 [45; 55; 32; 32; 124; 97; 98; 99; 10; 0] (umem ex_tty_mem)) false).
Proof.
  apply (TtyPrintf_writes_text 300 (fun _ _ n => uret n) ex_tty_mem 1 100 [u32 (-7); 200] ex_directives
    {[200 := [97; 98; 99; 100]]} [45; 55; 32; 32; 124; 97; 98; 99; 10] []).
  - vm_compute. discriminate.
  - by repeat constructor.
  - apply ex_directives_ok.
  - split; [vm_compute; repeat split|by repeat constructor].
  - left. vm_compute. discriminate.
  - intros a s [<- <-]%lookup_singleton_Some.
    split; [split; [vm_compute; repeat split|by repeat constructor]|]. left. vm_compute. discriminate.
  - vm_compute. reflexivity.
  - apply ex_tty_mapped.
Defined.
