(* ===== verification/UserScan.v ===== *)
(** * The user library's formatted input ([vsscanf.c] and [sscanf.c])

    The interpreter of scanf's format strings, with its bit map of matching
    characters. *)

From Stdlib Require Import ZArith Lia.
From stdpp Require Import base gmap list.
From S2P Require Import Prelude Hardware UserMem UserCtype UserNum UserFmt.

Open Scope Z_scope.

(** ** Flags, ranks and reasons to stop *)

Definition FL_SPLAT : Z := 0x01.
Definition FL_INV : Z := 0x02.
Definition FL_WIDTH : Z := 0x04.

(** [INT_MAX]: a rank outside the range of the others. *)
Definition rank_ptr : Z := 2 ^ 31 - 1.
Definition UINT_MAX : Z := 2 ^ 32 - 1.

Inductive bailing := bail_none | bail_eof | bail_err.

Definition bailed (b : bailing) : bool := match b with bail_none => false | _ => true end.

(** ** The bit map of characters: words of [LONG_BIT] bits *)

Definition LONG_BIT : Z := 32.

Definition matchmap_zero : list Z := replicate 8 0.

Definition set_bit (bitmap : list Z) (bit : Z) : option (list Z) :=
  w ← zget bitmap (bit / LONG_BIT);
  zset (bit / LONG_BIT) (Z.lor w (Z.shiftl 1 (bit mod LONG_BIT))) bitmap.

Definition test_bit (bitmap : list Z) (bit : Z) : option bool :=
  w ← zget bitmap (bit / LONG_BIT);
  Some (Z.land (Z.shiftr w (bit mod LONG_BIT)) 1 =? 1).

(** [for (i = from; i < to; i++) set_bit(matchmap, i);], [k] rounds. *)
Fixpoint set_range (k : nat) (from : Z) (bitmap : list Z) : option (list Z) :=
  match k with
  | O => Some bitmap
  | S k' => bitmap ← set_bit bitmap from; set_range k' (from + 1) bitmap
  end.

Section scanning.
Context `{CT : Ctype}.

(** ** Loops over the input *)

Fixpoint skipspace_loop (fuel : nat) (p : Z) : UM Z :=
  let* c := ld p in
  if isspace c then match fuel with O => ufail | S fuel' => skipspace_loop fuel' (p + 1) end else uret p.

Definition skipspace (p : Z) : UM Z := with_fuel (fun fuel => skipspace_loop fuel p).

(** A count of bytes to be read or written one after the other: a larger one
    than the memory has bytes stops the program at the first that is not there. *)
Definition count (fuel : nat) (width : Z) : nat := Z.to_nat (Z.min width (Z.of_nat fuel)).

(** The loop of [%c]: [*sarg++ = *q++], [width] times; the new [q] and whether the input ended. *)
Fixpoint scan_chars (k : nat) (sarg q : Z) : UM (Z * bool) :=
  match k with
  | O => uret (q, false)
  | S k' =>
      let* c := ld q in
      if c =? 0 then uret (q, true) else st sarg c ;;; scan_chars k' (sarg + 1) (q + 1)
  end.

(** The loop of [%s]; [sp] is NULL when the value is dropped.  The new [sp], [q] and the last [uc]. *)
Fixpoint scan_word (k : nat) (store : bool) (sp q uc : Z) : UM (Z * (Z * Z)) :=
  match k with
  | O => uret (sp, (q, uc))
  | S k' =>
      let* c := ld q in
      if (c =? 0) || isspace c then uret (sp, (q, c)) else
      if store then st sp c ;;; scan_word k' store (sp + 1) (q + 1) c
      else scan_word k' store sp (q + 1) c
  end.

(** The loop at [match_run]; [width] is tested but never counted down. *)
Fixpoint match_loop (fuel : nat) (width : Z) (map : list Z) (inv : bool) (sarg q uc : Z) : UM (Z * (Z * Z)) :=
  if width =? 0 then uret (sarg, (q, uc)) else
  let* c := ld q in
  if c =? 0 then uret (sarg, (q, c)) else
  let* b := uopt (test_bit map c) in
  if negb (xorb b inv) then uret (sarg, (q, c)) else
  (if negb (sarg =? NULL) then st sarg c else uret tt) ;;;
  match fuel with
  | O => ufail
  | S fuel' => match_loop fuel' width map inv (if negb (sarg =? NULL) then sarg + 1 else sarg) (q + 1) c
  end.

(** ** The interpreter *)

Inductive sstate := st_normal | st_flags | st_width | st_modifiers | st_match_init | st_match | st_match_range.

Record scan := mkScan {
  s_state : sstate;
  s_flags : Z;
  s_rank : Z;
  s_width : Z;
  s_ap : va_list;
  s_q : Z;
  s_bail : bailing;
  s_converted : Z;
  s_map : list Z;
  s_inv : bool;
  s_range : Z;
  s_sarg : Z }.

Definition set_state v f := let '(mkScan _ fl r w ap q b c m i rg sa) := f in mkScan v fl r w ap q b c m i rg sa.
Definition set_flags v f := let '(mkScan st _ r w ap q b c m i rg sa) := f in mkScan st v r w ap q b c m i rg sa.
Definition set_rank v f := let '(mkScan st fl _ w ap q b c m i rg sa) := f in mkScan st fl v w ap q b c m i rg sa.
Definition set_width v f := let '(mkScan st fl r _ ap q b c m i rg sa) := f in mkScan st fl r v ap q b c m i rg sa.
Definition set_ap v f := let '(mkScan st fl r w _ q b c m i rg sa) := f in mkScan st fl r w v q b c m i rg sa.
Definition set_q v f := let '(mkScan st fl r w ap _ b c m i rg sa) := f in mkScan st fl r w ap v b c m i rg sa.
Definition set_bail v f := let '(mkScan st fl r w ap q _ c m i rg sa) := f in mkScan st fl r w ap q v c m i rg sa.
Definition set_converted v f := let '(mkScan st fl r w ap q b _ m i rg sa) := f in mkScan st fl r w ap q b v m i rg sa.
Definition set_map v f := let '(mkScan st fl r w ap q b c _ i rg sa) := f in mkScan st fl r w ap q b c v i rg sa.
Definition set_inv v f := let '(mkScan st fl r w ap q b c m _ rg sa) := f in mkScan st fl r w ap q b c m v rg sa.
Definition set_srange v f := let '(mkScan st fl r w ap q b c m i _ sa) := f in mkScan st fl r w ap q b c m i v sa.
Definition set_sarg v f := let '(mkScan st fl r w ap q b c m i rg _) := f in mkScan st fl r w ap q b c m i rg v.

Definition one_more (f : scan) : scan := set_converted (s_converted f + 1) f.

Definition splat (f : scan) : bool := has (s_flags f) FL_SPLAT.

(** The code at [set_integer]. *)
Definition set_integer (rank val : Z) (f : scan) : UM scan :=
  if splat f then uret f else
  let* w := uopt (va_word (s_ap f)) in
  st_le (rank_size rank) (fst w) val ;;; uret (set_ap (snd w) f).

(** The code at [scan_int]. *)
Definition scan_int (rank base : Z) (f : scan) : UM scan :=
  let* q := skipspace (s_q f) in
  let f := set_q q f in
  let* c := ld q in
  if c =? 0 then uret (set_bail bail_eof f) else
  let* v := with_fuel (fun fuel => strntoumax q base (count fuel (s_width f))) in
  if snd v =? q then uret (set_bail bail_err f) else
  let f := set_q (snd v) f in
  set_integer rank (fst v) (if splat f then f else one_more f).

(** [%c]; when the value is dropped the loop tests the same character [width] times. *)
Definition scan_char (f : scan) : UM scan :=
  let width := if has (s_flags f) FL_WIDTH then s_width f else 1 in
  if splat f then
    if width =? 0 then uret f else
    let* c := ld (s_q f) in uret (if c =? 0 then set_bail bail_eof f else f)
  else
    let* w := uopt (va_word (s_ap f)) in
    let* r := with_fuel (fun fuel => scan_chars (count fuel width) (fst w) (s_q f)) in
    let f := set_q (fst r) (set_ap (snd w) f) in
    uret (if snd r then set_bail bail_eof f else one_more f).

(** [%s] *)
Definition scan_string (f : scan) : UM scan :=
  let finish uc f := if uc =? 0 then set_bail bail_eof f else f in
  if splat f then
    let* r := with_fuel (fun fuel => scan_word (count fuel (s_width f)) false 0 (s_q f) 1) in
    uret (finish (snd (snd r)) (set_q (fst (snd r)) f))
  else
    let* w := uopt (va_word (s_ap f)) in
    let* r := with_fuel (fun fuel => scan_word (count fuel (s_width f)) true (fst w) (s_q f) 1) in
    let f := set_q (fst (snd r)) (set_ap (snd w) f) in
    if negb (fst w =? fst r) then st (fst r) 0 ;;; uret (finish (snd (snd r)) (one_more f))
    else uret (finish (snd (snd r)) f).

(** The terminal sequences. *)
Definition scan_convert (buffer ch : Z) (f : scan) : UM scan :=
  let rank := clamp_rank (s_rank f) in
  let f := set_rank rank (set_state st_normal f) in
  if (ch =? 80) || (ch =? 112) then scan_int rank_ptr 0 (set_rank rank_ptr f)      (* 'P', 'p' *)
  else if ch =? 105 then scan_int rank 0 f                                          (* 'i' *)
  else if ch =? 100 then scan_int rank 10 f                                         (* 'd' *)
  else if ch =? 111 then scan_int rank 8 f                                          (* 'o' *)
  else if ch =? 117 then scan_int rank 10 f                                         (* 'u' *)
  else if (ch =? 120) || (ch =? 88) then scan_int rank 16 f                         (* 'x', 'X' *)
  else if ch =? 110 then set_integer rank (s_q f - buffer) f                        (* 'n' *)
  else if ch =? 99 then scan_char f                                                 (* 'c' *)
  else if ch =? 115 then scan_string f                                              (* 's' *)
  else if ch =? 91 then                                                             (* '[' *)
    let* w := (if splat f then uret (NULL, s_ap f) else uopt (va_word (s_ap f))) in
    uret (set_sarg (fst w) (set_ap (snd w)
      (set_state st_match_init (set_inv false (set_map matchmap_zero f)))))
  else if ch =? 37 then                                                             (* '%' *)
    let* c := ld (s_q f) in
    uret (if schar c =? 37 then set_q (s_q f + 1) f else set_bail bail_err f)
  else uret (set_bail bail_err f).

(** The code at [match_run]; the state stays what it is. *)
Definition match_run (f : scan) : UM scan :=
  let* r := with_fuel (fun fuel => match_loop fuel (s_width f) (s_map f) (s_inv f) (s_sarg f) (s_q f) 1) in
  let '(sarg, (q, uc)) := r in
  let some := negb (q =? s_q f) && negb (sarg =? NULL) in
  (if some then st sarg 0 else uret tt) ;;;
  let f := set_sarg sarg (set_q q f) in
  let f := if some then one_more f else set_bail bail_err f in
  uret (if uc =? 0 then set_bail bail_eof f else f).

(** The rank after a length modifier. *)
Definition scan_modify (ch rank : Z) : option Z :=
  if ch =? 104 then Some (rank - 1) else if ch =? 108 then Some (rank + 1)      (* 'h', 'l' *)
  else if ch =? 106 then Some rank_longlong                                     (* 'j' *)
  else if (ch =? 122) || (ch =? 116) then Some rank_long                        (* 'z', 't' *)
  else if (ch =? 76) || (ch =? 113) then Some rank_longlong                     (* 'L', 'q' *)
  else None.

(** The first character of a scan set. *)
Definition set_first (c : Z) (f : scan) : UM (bool * scan) :=
  if (schar c =? 94) && negb (has (s_flags f) FL_INV) then uret (true, set_inv true f)
  else let* m := uopt (set_bit (s_map f) c) in uret (true, set_state st_match (set_map m f)).

(** A further one: the end of the set, a range, or a member. *)
Definition set_member (c : Z) (f : scan) : UM (bool * scan) :=
  if schar c =? 93 then let* f := match_run f in uret (true, f)
  else if schar c =? 45 then uret (true, set_state st_match_range (set_srange c f))
  else let* m := uopt (set_bit (s_map f) c) in uret (true, set_map m f).

(** The end of a range. *)
Definition set_end (c : Z) (f : scan) : UM (bool * scan) :=
  if schar c =? 93 then
    let* m := uopt (set_bit (s_map f) 45) in
    let* f := match_run (set_map m f) in uret (true, f)
  else
    let* m := uopt (set_range (Z.to_nat (c - s_range f)) (s_range f) (s_map f)) in
    uret (true, set_state st_match (set_map m f)).

(** One round of the loop: whether the character has been consumed, and the state. *)
Definition scan_step (buffer c : Z) (f : scan) : UM (bool * scan) :=
  let ch := schar c in
  match s_state f with
  | st_normal =>
      if ch =? 37 then
        uret (true, set_state st_flags (set_flags 0 (set_rank rank_int (set_width UINT_MAX f))))
      else if isspace c then let* q := skipspace (s_q f) in uret (true, set_q q f)
      else
        let* d := ld (s_q f) in
        uret (true, if schar d =? ch then set_q (s_q f + 1) f else set_bail bail_err f)
  | st_flags =>
      if ch =? 42 then uret (true, set_flags (Z.lor (s_flags f) FL_SPLAT) f)
      else if is_dec ch then
        uret (true, set_width (ch - 48) (set_state st_width (set_flags (Z.lor (s_flags f) FL_WIDTH) f)))
      else uret (false, set_state st_modifiers f)
  | st_width =>
      if is_dec ch then uret (true, set_width (u32 (s_width f * 10 + (ch - 48))) f)
      else uret (false, set_state st_modifiers f)
  | st_modifiers =>
      match scan_modify ch (s_rank f) with
      | Some rank => uret (true, set_rank rank f)
      | None => let* f := scan_convert buffer ch f in uret (true, f)
      end
  | st_match_init => set_first c f
  | st_match => set_member c f
  | st_match_range => set_end c f
  end.

(** [while ((ch = *p++) && !bail)] *)
Fixpoint scan_loop (fuel : nat) (buffer p : Z) (f : scan) : UM scan :=
  let* c := ld p in
  if (c =? 0) || bailed (s_bail f) then uret f else
  match fuel with
  | O => ufail
  | S fuel' =>
      let* r := scan_step buffer c f in
      scan_loop fuel' buffer (if fst r then p + 1 else p) (snd r)
  end.

(** A character is looked at no more than twice. *)
Definition vsscanf (buffer format : Z) (ap : va_list) : UM Z :=
  let* f := with_fuel (fun fuel => scan_loop (2 * fuel) buffer format
    (mkScan st_normal 0 rank_int UINT_MAX ap buffer bail_none 0 matchmap_zero false 0 NULL)) in
  uret (if match s_bail f with bail_eof => s_converted f =? 0 | _ => false end then -1 else s_converted f).

Definition sscanf (str format : Z) (args : list Z) : UM Z := vsscanf str format args.

End scanning.

(** ** Reading a number that ends before its count *)

Lemma ubind_inv {A B} (m : UM A) (f : A -> UM B) u b u' : ubind m f u = Some (b, u') ->
  exists a u1, m u = Some (a, u1) /\ f a u1 = Some (b, u').
Proof. unfold ubind. destruct (m u) as [[a u1]|]; [|done]. by exists a, u1. Qed.

Section stop.
Context `{CT : Ctype} (Hnul : isspace 0 = false).

(** The text read with [n] characters ends with a zero byte: more characters change nothing. *)
Lemma skip_spaces_more k u n : forall a r u', umem u !! (a + Z.of_nat n) = Some 0 ->
  skip_spaces a n u = Some (r, u') ->
  u' = u /\ fst r + Z.of_nat (snd r) = a + Z.of_nat n /\ skip_spaces a (n + k) u = Some ((fst r, (snd r + k)%nat), u).
Proof.
  induction n as [|n IH]; intros a r u' H0; cbn [skip_spaces Nat.add].
  - intros [= <- <-]. split; [done|]. split; [done|]. destruct k as [|k]; [done|]. rewrite Z.add_0_r in H0.
    cbn [skip_spaces fst snd Nat.add]. erewrite ubind_ok by (by apply ld_ok). by rewrite Hnul.
  - unfold ubind. destruct (ld a u) as [[c u1]|] eqn:E; [|done].
    assert (u1 = u) as -> by (unfold ld in E; destruct (umem u !! a); [by injection E|done]).
    destruct (isspace c).
    + intros H. destruct (IH (a + 1) r u') as (-> & E1 & E2); [by rewrite <- H0; f_equal; lia|done|].
      split; [done|]. split; [lia|done].
    + intros [= <- <-]. cbn [fst snd]. done.
Qed.

Lemma take_sign_more k u n a r u' : umem u !! (a + Z.of_nat n) = Some 0 -> take_sign a n u = Some (r, u') ->
  u' = u /\ fst (snd r) + Z.of_nat (snd (snd r)) = a + Z.of_nat n /\
  take_sign a (n + k) u = Some ((fst r, (fst (snd r), (snd (snd r) + k)%nat)), u).
Proof.
  intros H0. destruct n as [|n]; cbn [take_sign Nat.add].
  - intros [= <- <-]. split; [done|]. split; [done|]. destruct k as [|k]; [done|]. rewrite Z.add_0_r in H0.
    cbn [take_sign]. by erewrite ubind_ok by (by apply ld_ok).
  - unfold ubind. destruct (ld a u) as [[c u1]|] eqn:E; [|done].
    assert (u1 = u) as -> by (unfold ld in E; destruct (umem u !! a); [by injection E|done]).
    destruct ((schar c =? 45) || (schar c =? 43)); intros [= <- <-]; cbn [fst snd]; (split; [done|]); (split; [lia|done]).
Qed.

Lemma read_digits_more k base u n : forall v a r u', umem u !! (a + Z.of_nat n) = Some 0 ->
  read_digits base v a n u = Some (r, u') -> u' = u /\ read_digits base v a (n + k) u = Some (r, u).
Proof.
  induction n as [|n IH]; intros v a r u' H0; cbn [read_digits Nat.add].
  - intros [= <- <-]. split; [done|]. destruct k as [|k]; [done|]. rewrite Z.add_0_r in H0.
    cbn [read_digits]. by erewrite ubind_ok by (by apply ld_ok).
  - unfold ubind. destruct (ld a u) as [[c u1]|] eqn:E; [|done].
    assert (u1 = u) as -> by (unfold ld in E; destruct (umem u !! a); [by injection E|done]).
    destruct ((digitval (schar c) >=? 0) && (digitval (schar c) <? base)).
    + intros H. eapply IH; [|exact H]. rewrite <- H0. f_equal. lia.
    + by intros [= <- <-].
Qed.

Lemma strntoumax_more k base u n a r u' : base <> 0 -> base <> 16 -> umem u !! (a + Z.of_nat n) = Some 0 ->
  strntoumax a base n u = Some (r, u') -> strntoumax a base (n + k) u = Some (r, u).
Proof.
  intros Hb0 Hb16 H0 H. unfold strntoumax in *. apply ubind_inv in H as (r1 & u1 & E1 & H).
  destruct (skip_spaces_more k u n a r1 u1 H0 E1) as (-> & A1 & F1). rewrite <- A1 in H0.
  apply ubind_inv in H as (r2 & u2 & E2 & H).
  destruct (take_sign_more k u _ _ r2 u2 H0 E2) as (-> & A2 & F2). rewrite <- A2 in H0.
  apply ubind_inv in H as (r3 & u3 & E3 & H). unfold take_prefix in *.
  destruct (Z.eqb_spec base 0); [done|]. destruct (Z.eqb_spec base 16); [done|]. injection E3 as <- <-.
  apply ubind_inv in H as (r4 & u4 & E4 & H). cbn [fst snd] in *.
  destruct (read_digits_more k base u _ _ _ r4 u4 H0 E4) as (-> & F4). injection H as <- _.
  do 2 (erewrite ubind_ok by eassumption; cbn [fst snd]). erewrite ubind_ok by reflexivity. cbn [fst snd].
  by erewrite ubind_ok by eassumption.
Qed.

End stop.

(** ** Integers *)

(** The [k] bytes of an integer, least significant first. *)
Fixpoint le_bytes (k : nat) (v : Z) : list Z :=
  match k with O => [] | S k' => v mod 256 :: le_bytes k' (v / 256) end.

Lemma length_le_bytes k : forall v, length (le_bytes k v) = k.
Proof. induction k as [|k IH]; intros v; [done|]. cbn. by rewrite IH. Qed.

Lemma st_le_ok k : forall a v u, mapped (umem u) a k ->
  st_le k a v u = Some (tt, mkU (put_bytes a (le_bytes k v) (umem u)) (udf u)).
Proof.
  induction k as [|k IH]; intros a v u Hm; cbn [st_le le_bytes put_bytes]; [by destruct u|].
  erewrite ubind_ok by (apply st_any; by apply (mapped_head _ _ k)). rewrite Zmod_mod.
  rewrite IH; [done|]. cbn [umem]. apply mapped_insert. by apply mapped_tail.
Qed.

#[local] Existing Instance lib_ctype.

Lemma skipspace_loop_spec k c u : forall a fuel, (k <= fuel)%nat -> isspace c = false ->
  holds (umem u) a (replicate k 32 ++ [c]) -> skipspace_loop fuel a u = Some (a + Z.of_nat k, u).
Proof.
  induction k as [|k IH]; intros a fuel Hf Hc [H0 Hh]; destruct fuel as [|fuel]; try lia;
    cbn [skipspace_loop]; (erewrite ubind_ok by (by apply ld_ok)).
  - rewrite Hc. by rewrite Z.add_0_r.
  - rewrite Hc. by rewrite Z.add_0_r.
  - rewrite isspace_blank, IH by (done || lia). do 2 f_equal. lia.
Qed.

Lemma skipspace_ok k c rest u a : isspace c = false -> holds (umem u) a (replicate k 32 ++ c :: rest) ->
  skipspace a u = Some (a + Z.of_nat k, u).
Proof.
  intros Hc Hh. unfold skipspace, with_fuel, umem_fuel.
  pose proof (mapped_size _ _ _ (holds_mapped _ _ _ Hh)) as Hs. rewrite length_app, length_replicate in Hs.
  apply (skipspace_loop_spec k c); [lia|done|]. change (c :: rest) with ([c] ++ rest) in Hh.
  rewrite app_assoc in Hh. by apply holds_app in Hh as [Hh _].
Qed.

Lemma count_enough u q t : holds (umem u) q t -> Z.of_nat (length t) <= UINT_MAX ->
  exists k, count (umem_fuel u) UINT_MAX = (length t + k)%nat.
Proof.
  intros Hh Hl. pose proof (mapped_size _ _ _ (holds_mapped _ _ _ Hh)) as Hs.
  exists (count (umem_fuel u) UINT_MAX - length t)%nat. unfold count, umem_fuel. lia.
Qed.

(** A printed decimal number is read by [%d] and its like. *)
Lemma scan_int_printed rank f u t a b sg cs ds dst ap :
  splat f = false -> s_width f = UINT_MAX -> s_ap f = dst :: ap -> 
  printed 10 t a b sg [] cs ds -> holds (umem u) (s_q f) (t ++ [0]) -> Z.of_nat (length t) <= UINT_MAX ->
  mapped (umem u) (u32 dst) (rank_size rank) ->
  exists q, scan_int rank 10 f u = Some (one_more (set_ap ap (set_q q f)),
    mkU (put_bytes (u32 dst) (le_bytes (rank_size rank)
      (if decide (sg = [45]) then u64 (- read_value 10 0 ds) else read_value 10 0 ds)) (umem u)) (udf u)).
Proof.
  intros Hsp Hw Hap Hpr Hh Hl Hm. destruct Hpr as [-> Hsg Hpf Hds Hcs].
  set (t' := sg ++ cs ++ replicate b 32).
  assert (Hpr' : printed 10 t' 0 b sg [] cs ds) by by split.
  assert (Ht' : exists c r, t' = c :: r /\ isspace c = false /\ c <> 0).
  { destruct cs as [|c cs]; [done|]. inversion Hds as [|? d ? ds' Hd _]; subst.
    destruct (is_digit_char 10 c d ltac:(lia) Hd) as (Ha & _). unfold t'.
    destruct Hsg as [->|[-> | ->]]; cbn [app]; eexists _, _; (split; [reflexivity|]); [|by split..].
    split; [by apply isspace_alnum|]. unfold alnum in Ha. lia. }
  destruct Ht' as (c & r & Ec & Hsc & Hc0). cbn [app] in Hh, Hl. fold t' in Hh, Hl. rewrite <- app_assoc in Hh.
  rewrite length_app in Hl. unfold scan_int.
  erewrite ubind_ok. 2: { rewrite Ec in Hh. by apply (skipspace_ok a c (r ++ [0])). }
  apply holds_app in Hh as [_ Hh]. rewrite length_replicate in Hh. set (q := s_q f + Z.of_nat a) in *.
  cbv zeta. assert (Hq : umem u !! q = Some c) by (rewrite Ec in Hh; apply Hh).
  erewrite ubind_ok by (by apply ld_ok). destruct (Z.eqb_spec c 0); [done|].
  apply holds_app in Hh as [Hh [H0 _]].
  destruct (count_enough u q t' Hh) as [k Hk]; [lia|].
  assert (Hlt : (0 < length t' - b)%nat).
  { unfold t'. rewrite !length_app, length_replicate. destruct cs; [done|]. cbn. lia. }
  erewrite ubind_ok.
  2: { unfold with_fuel. replace (s_width (set_q q f)) with UINT_MAX by (by destruct f). rewrite Hk.
       eapply strntoumax_more; [done|lia|lia|exact H0|].
       eapply (strntoumax_printed 10 t' 0 b sg [] cs ds); [lia|done|done]. }
  cbn [fst snd]. destruct (Z.eqb_spec (q + Z.of_nat (length t') - Z.of_nat b) q); [lia|].
  exists (q + Z.of_nat (length t') - Z.of_nat b).
  destruct f as [st fl r0 w ap0 q0 bl cv m i rg sa]. cbn in Hsp, Hw, Hap. subst w ap0.
  unfold set_integer, one_more. cbn [splat set_q set_converted set_ap s_flags s_q s_ap s_converted].
  unfold splat in *. cbn [s_flags] in *. rewrite Hsp. cbn [splat s_flags s_ap]. rewrite Hsp. cbn [va_word uopt].
  erewrite ubind_ok by reflexivity. cbn [fst snd]. by erewrite ubind_ok by (by apply st_le_ok).
Qed.

(** ** Printing and reading back *)

(** The format "%d". *)
Definition scan_d : list Z := [37; 100].

Lemma vsscanf_d u buffer format t a b sg cs ds dst :
  printed 10 t a b sg [] cs ds -> holds (umem u) buffer (t ++ [0]) -> Z.of_nat (length t) <= UINT_MAX ->
  cstr (umem u) format scan_d -> apart (u32 dst) 4 format 3 -> mapped (umem u) (u32 dst) 4 ->
  vsscanf buffer format [dst] u = Some (1, mkU (put_bytes (u32 dst) (le_bytes 4
      (if decide (sg = [45]) then u64 (- read_value 10 0 ds) else read_value 10 0 ds)) (umem u)) (udf u)).
Proof.
  intros Hpr Hh Hl [Hf _] Hap Hm. unfold vsscanf, with_fuel, umem_fuel.
  pose proof (mapped_size _ _ _ (holds_mapped _ _ _ Hf)) as Hs. cbn in Hs.
  destruct Hf as (H0 & H1 & H2 & _).
  set (f := mkScan st_modifiers 0 rank_int UINT_MAX [dst] buffer bail_none 0 matchmap_zero false 0 NULL).
  destruct (scan_int_printed rank_int (set_state st_normal f) u t a b sg cs ds dst []) as [q Hq]; try done.
  cbn [set_state s_rank f] in Hq.
  match type of Hq with _ = Some (?g, ?v) => rewrite (ubind_ok _ _ u g v); [reflexivity|] end.
  cbv beta.
  replace (2 * S (size (umem u)))%nat with (3 + (2 * size (umem u) - 1))%nat by lia. cbn [Nat.add].
  cbn [scan_loop]. erewrite ubind_ok by (by apply ld_ok). cbn [Z.eqb orb bailed s_bail].
  erewrite ubind_ok by reflexivity. cbn [fst snd set_state set_flags set_rank set_width].
  erewrite ubind_ok by (by apply ld_ok). cbn [Z.eqb Pos.eqb orb bailed s_bail].
  erewrite ubind_ok by reflexivity. cbn [fst snd set_state].
  erewrite ubind_ok by (by apply ld_ok). cbn [Z.eqb Pos.eqb orb bailed s_bail].
  erewrite ubind_ok.
  2: { cbn [scan_step s_state]. change (scan_modify (schar 100) _) with (@None Z). cbv iota.
       erewrite ubind_ok; [reflexivity|exact Hq]. }
  cbn [fst snd]. destruct (2 * size (umem u) - 1)%nat; cbn [scan_loop];
    (erewrite ubind_ok; [|apply ld_ok; cbn [umem]; rewrite put_bytes_outside;
       [exact H2|rewrite length_le_bytes; unfold apart in Hap; cbn; lia]]); reflexivity.
Qed.

Lemma le_bytes_add k : forall v j z, (k <= j)%nat -> le_bytes k (v + 256 ^ Z.of_nat j * z) = le_bytes k v.
Proof.
  induction k as [|k IH]; intros v j z Hj; [done|]. destruct j as [|j]; [lia|]. cbn [le_bytes].
  rewrite Nat2Z.inj_succ, Z.pow_succ_r by lia.
  replace (v + 256 * 256 ^ Z.of_nat j * z) with (v + (256 ^ Z.of_nat j * z) * 256) by lia.
  rewrite Z_mod_plus_full, Z.div_add by lia. rewrite IH by lia. done.
Qed.

Lemma le_bytes_u64 k v : (k <= 8)%nat -> le_bytes k (u64 v) = le_bytes k v.
Proof.
  intros Hk. rewrite <- (le_bytes_add k (u64 v) 8 (v / 2 ^ 64) Hk). f_equal.
  unfold u64. rewrite (Z.div_mod v (2 ^ 64)) at 3 by lia. change (256 ^ Z.of_nat 8) with (2 ^ 64). lia.
Qed.

(** C37: an [int] printed by [sprintf] with a directive [%d] of any flags but
    tick marks, any width and any precision is read back by [sscanf] with "%d":
    one value is converted, and the four bytes stored are the integer's. *)
Theorem printf_scanf_roundtrip u buffer fmt1 fmt2 fl w p x dst :
  let d := DConv fl w p [] 100 in
  let T := int_text (u64 x) (Z.lor (flags_of fl) FL_SIGNED) 10 (dec_value w) (prec_of p) in
  let size := Z.of_nat (length T) + 1 in
  directive_ok d -> has (Z.lor (flags_of fl) FL_SIGNED) FL_TICK = false -> - 2 ^ 31 <= x < 2 ^ 31 ->
  cstr (umem u) fmt1 (dtext d) -> apart buffer size fmt1 (S (length (dtext d))) ->
  cstr (umem u) fmt2 scan_d -> apart buffer size fmt2 3 ->
  mapped (umem u) buffer (S (length T)) -> size <= UINT_MAX ->
  0 <= dst < 2 ^ 32 -> mapped (umem u) dst 4 -> apart dst 4 fmt2 3 ->
  exists u', ubind (sprintf buffer fmt1 [x]) (fun _ => sscanf buffer fmt2 [dst]) u = Some (1, u') /\
    holds (umem u') dst (le_bytes 4 x).
Proof.
  intros d T size Hd Ht Hx H1 Ha1 H2 Ha2 Hm Hs Hdst Hmd Had. unfold size, UINT_MAX in *.
  assert (Hu : 0 <= u64 x < 2 ^ 64) by (apply Z.mod_pos_bound; lia).
  assert (Htext : fmt_text ∅ [d] [x] = Some (T, [])).
  { cbn [fmt_text dir_text d]. unfold conv_text. cbn [Z.eqb Pos.eqb orb]. rewrite Ht.
    assert (E : signed_arg (clamp_rank (rank_of [])) [x] = Some (u64 x, [])).
    { change (Some (u64 (i32 (u32 x)), []) = Some (u64 x, @nil Z)). by rewrite i32_u32, i32_id by lia. }
    rewrite E. cbn [mbind option_bind]. by rewrite app_nil_r. }
  assert (Hmin : Z.min (2 ^ 32 - 1) (Z.of_nat (length T) + 1) = Z.of_nat (length T) + 1) by lia.
  erewrite ubind_ok.
  2: { apply (vsnprintf_spec u buffer (2 ^ 32 - 1) fmt1 [x] [d] ∅ T []); cbv zeta; rewrite ?Hmin.
       - lia.
       - by apply Forall_cons.
       - cbn [map concat]. by rewrite app_nil_r.
       - cbn [map concat]. by rewrite app_nil_r.
       - apply map_Forall_empty.
       - done.
       - by replace (Z.to_nat (Z.of_nat (length T) + 1)) with (S (length T)) by lia. }
  change (2 ^ 32 - 1 >? 0) with true. cbv iota. rewrite take_ge by lia.
  destruct (int_text_printed (u64 x) (Z.lor (flags_of fl) FL_SIGNED) 10 (dec_value w) (prec_of p) ltac:(lia) Hu)
    as (a & b & sg & pf & cs & ds & Hpr & Hv). fold T in Hpr.
  assert (pf = []) as -> by (destruct (pr_prefix _ _ _ _ _ _ _ _ Hpr) as [?|[? _]]; [done|lia]).
  assert (Hd32 : u32 dst = dst) by (apply Z.mod_small; lia).
  eexists. split.
  - apply (vsscanf_d _ buffer fmt2 T a b sg cs ds dst Hpr); cbn [umem].
    + apply put_bytes_holds.
    + unfold UINT_MAX; lia.
    + destruct H2 as [H2 Hc]. split; [|done]. apply put_bytes_keeps; [|done]. rewrite !length_app. unfold apart in Ha2. cbn [length scan_d]. lia.
    + by rewrite Hd32.
    + rewrite Hd32. by apply mapped_put_bytes.
  - cbn [umem]. rewrite Hd32, Hv, le_bytes_u64 by lia. apply put_bytes_holds.
Qed.

(** ** A scan set runs to the end of the format *)

(** A format without a closing bracket. *)
Definition no_bracket (cs : list Z) : Prop := Forall (fun c => cchar c /\ c <> 93) cs.

(** The states in which [%\[] reads its characters. *)
Definition in_set (s : sstate) : Prop := s = st_match \/ s = st_match_range.

Lemma set_bit_some m b : length m = 8%nat -> 0 <= b < 256 -> exists m', set_bit m b = Some m' /\ length m' = 8%nat.
Proof.
  intros Hl Hb. assert (Hi : 0 <= b / LONG_BIT < 8).
  { split; [apply Z.div_pos; unfold LONG_BIT; lia|]. apply Z.div_lt_upper_bound; unfold LONG_BIT; lia. }
  unfold set_bit. destruct (zget m (b / LONG_BIT)) as [w|] eqn:E.
  2: { unfold zget in E. rewrite bool_decide_true in E by lia. apply lookup_ge_None in E. lia. }
  cbn [mbind option_bind]. unfold zset. rewrite bool_decide_true by lia. eexists. split; [done|]. by rewrite length_insert.
Qed.

Lemma set_range_some k : forall m b, length m = 8%nat -> 0 <= b -> b + Z.of_nat k <= 256 ->
  exists m', set_range k b m = Some m' /\ length m' = 8%nat.
Proof.
  induction k as [|k IH]; intros m b Hl Hb Hk; [by exists m|]. cbn [set_range].
  destruct (set_bit_some m b Hl) as (m' & -> & Hl'); [lia|]. cbn [mbind option_bind]. apply IH; [done|lia|lia].
Qed.

(** One character of a set. *)
Lemma in_set_step buffer c f u : cchar c -> c <> 93 -> in_set (s_state f) -> s_bail f = bail_none ->
  length (s_map f) = 8%nat -> 0 <= s_range f < 256 ->
  exists f', scan_step buffer c f u = Some ((true, f'), u) /\ in_set (s_state f') /\ s_bail f' = s_bail f /\
    s_converted f' = s_converted f /\ length (s_map f') = 8%nat /\ 0 <= s_range f' < 256.
Proof.
  intros Hc H93 Hs Hb Hl Hr. unfold cchar in Hc. unfold scan_step, set_first, set_member, set_end.
  assert (E : (schar c =? 93) = false) by (unfold schar; destruct (Z.ltb_spec c 128); apply Z.eqb_neq; lia).
  destruct f as [st fl r w ap q b cv m i rg sa]. cbn in *.
  destruct Hs as [-> | ->]; cbn [s_state]; rewrite E.
  - destruct (schar c =? 45).
    + eexists. split; [reflexivity|]. repeat split; cbn; try done; try lia. by right.
    + destruct (set_bit_some m c Hl) as (m' & Em & Hl'); [lia|]. unfold s_map. rewrite Em.
      eexists. split; [reflexivity|]. repeat split; cbn; try done; try lia. by left.
  - destruct (set_range_some (Z.to_nat (c - rg)) m rg Hl) as (m' & Em & Hl'); [lia..|]. unfold s_map, s_range. rewrite Em.
    eexists. split; [reflexivity|]. repeat split; cbn; try done; try lia. by left.
Qed.

(** What follows a scan set in the format only adds to the set. *)
Lemma in_set_end cs buffer u : forall p f fuel, holds (umem u) p (cs ++ [0]) -> no_bracket cs ->
  in_set (s_state f) -> s_bail f = bail_none -> length (s_map f) = 8%nat -> 0 <= s_range f < 256 ->
  (length cs <= fuel)%nat ->
  exists f', scan_loop fuel buffer p f u = Some (f', u) /\ s_bail f' = bail_none /\ s_converted f' = s_converted f.
Proof.
  induction cs as [|c cs IH]; intros p f fuel [H0 Hh] Hcs Hs Hb Hl Hr Hf.
  - exists f. split; [|done]. destruct fuel; cbn [scan_loop]; by erewrite ubind_ok by (by apply ld_ok).
  - apply Forall_cons in Hcs as [[Hc H93] Hcs]. destruct fuel as [|fuel]; [cbn in Hf; lia|].
    destruct (in_set_step buffer c f u Hc H93 Hs Hb Hl Hr) as (f1 & E & Hs1 & Hb1 & Hc1 & Hl1 & Hr1).
    destruct (IH (p + 1) f1 fuel Hh Hcs Hs1) as (f2 & E2 & Hb2 & Hc2); [by rewrite Hb1|done..|cbn in Hf; lia|].
    exists f2. rewrite Hc2. split; [|done]. cbn [scan_loop]. erewrite ubind_ok by (by apply ld_ok).
    unfold cchar in Hc. destruct (Z.eqb_spec c 0); [lia|]. rewrite Hb. cbn [orb bailed].
    by erewrite ubind_ok by exact E.
Qed.

Lemma land_bit w j : 0 <= j -> (Z.land (Z.shiftr w j) 1 =? 1) = Z.testbit w j.
Proof.
  intros Hj. change 1 with (Z.ones 1) at 1. rewrite Z.land_ones by lia. change (2 ^ 1) with 2.
  rewrite <- Z.bit0_mod, Z.shiftr_spec by lia. rewrite Z.add_0_l. by destruct (Z.testbit w j).
Qed.

Definition bit_of (m : list Z) (c : Z) : bool := default false (test_bit m c).

Lemma zget_len {A} (l : list A) i : 0 <= i < Z.of_nat (length l) -> exists x, zget l i = Some x.
Proof.
  intros Hi. unfold zget. rewrite bool_decide_true by lia. apply lookup_lt_is_Some_2. lia.
Qed.

Lemma word_range c : 0 <= c < 256 -> 0 <= c / LONG_BIT < 8 /\ 0 <= c mod LONG_BIT < 32.
Proof.
  intros Hc. unfold LONG_BIT. split; [|apply Z.mod_pos_bound; lia].
  split; [apply Z.div_pos; lia|]. apply Z.div_lt_upper_bound; lia.
Qed.

Lemma test_bit_some m c : length m = 8%nat -> 0 <= c < 256 -> test_bit m c = Some (bit_of m c).
Proof.
  intros Hl Hc. destruct (zget_len m (c / LONG_BIT)) as [w Hw]; [rewrite Hl; by apply word_range|].
  unfold bit_of, test_bit. by rewrite Hw.
Qed.

Lemma set_bit_adds m b m' : length m = 8%nat -> 0 <= b < 256 -> set_bit m b = Some m' ->
  forall c, 0 <= c < 256 -> bit_of m' c = bit_of m c || (c =? b).
Proof.
  intros Hl Hb. destruct (zget_len m (b / LONG_BIT)) as [w Hw]; [rewrite Hl; by apply word_range|].
  pose proof (word_range b Hb) as [Hb1 Hb2]. unfold set_bit, zset. rewrite Hw. cbn [mbind option_bind].
  rewrite bool_decide_true by lia. intros [= <-] c Hc. pose proof (word_range c Hc) as [Hc1 Hc2].
  destruct (zget_len m (c / LONG_BIT)) as [v Hv]; [lia|]. unfold bit_of, test_bit. rewrite Hv. cbn [mbind option_bind default].
  assert (Hdm : c = b <-> c / LONG_BIT = b / LONG_BIT /\ c mod LONG_BIT = b mod LONG_BIT).
  { split; [by intros ->|]. intros [E1 E2]. rewrite (Z.div_mod c LONG_BIT), (Z.div_mod b LONG_BIT) by done. lia. }
  unfold zget in *. rewrite bool_decide_true in * by lia.
  destruct (Z.eq_dec (c / LONG_BIT) (b / LONG_BIT)) as [E|E].
  - rewrite E, list_lookup_insert_eq by lia. cbn [mbind option_bind default]. rewrite E, Hw in Hv. injection Hv as <-.
    rewrite !land_bit, Z.lor_spec, Z.shiftl_spec by lia. unfold id. f_equal.
    destruct (Z.eqb_spec c b) as [->|Hne]; [by rewrite Z.sub_diag|].
    assert (Hm : c mod LONG_BIT - b mod LONG_BIT <> 0) by (intros H0; apply Hne, Hdm; split; [done|lia]).
    destruct (Z.ltb_spec (c mod LONG_BIT - b mod LONG_BIT) 0) as [Hlt|Hge]; [by apply Z.testbit_neg_r|].
    rewrite Z.bits_above_log2; [done|lia|]. cbn. lia.
  - rewrite list_lookup_insert_ne by lia. rewrite Hv. cbn [mbind option_bind default].
    destruct (Z.eqb_spec c b) as [->|]; [done|]. by rewrite orb_false_r.
Qed.

(** The loop at [match_run] over characters of the set. *)
Lemma match_loop_spec w m W : forall e u sarg q uc fuel, w <> 0 -> length m = 8%nat ->
  Forall (fun c => cchar c /\ bit_of m c = true) W -> 0 <= e < 256 -> e = 0 \/ bit_of m e = false ->
  holds (umem u) q (W ++ [e]) -> mapped (umem u) sarg (length W) ->
  apart sarg (Z.of_nat (length W)) q (S (length W)) -> 0 < sarg -> (length W <= fuel)%nat ->
  match_loop fuel w m false sarg q uc u =
    Some ((sarg + Z.of_nat (length W), (q + Z.of_nat (length W), e)), mkU (put_bytes sarg W (umem u)) (udf u)).
Proof.
  induction W as [|c W IH]; intros e u sarg q uc fuel Hw Hm HW He Hs Hh Hmp Hap Hn Hf.
  - destruct Hh as [H0 _]. cbn [put_bytes length]. rewrite !Z.add_0_r.
    destruct fuel; cbn [match_loop]; (destruct (Z.eqb_spec w 0); [done|]); (erewrite ubind_ok by (by apply ld_ok));
      (destruct (Z.eqb_spec e 0) as [->|]; [by destruct u|]); rewrite test_bit_some by done;
      (erewrite ubind_ok by reflexivity); (destruct Hs as [?|Hs]; [done|]); rewrite Hs; by destruct u.
  - apply Forall_cons in HW as [[Hc Hbit] HW]. destruct Hh as [H0 Hh]. destruct fuel as [|fuel]; [cbn in Hf; lia|].
    unfold cchar, apart in *. cbn [match_loop]. cbn [length] in *. destruct (Z.eqb_spec w 0); [done|].
    erewrite ubind_ok by (by apply ld_ok). destruct (Z.eqb_spec c 0); [lia|].
    rewrite test_bit_some by (done || lia). erewrite ubind_ok by reflexivity. rewrite Hbit. cbn [negb xorb].
    destruct (Z.eqb_spec sarg NULL) as [E|_]; [unfold NULL in E; lia|]. cbn [negb].
    erewrite ubind_ok by (apply st_ok; [by apply (mapped_head _ _ (length W))|unfold ubyte; lia]).
    rewrite (IH e); [|done|done|done|done|done| | | |lia|lia]; cbn [umem udf put_bytes].
    + do 3 f_equal; [|f_equal]; lia.
    + apply holds_insert; [|done]. rewrite length_app. cbn [length]. lia.
    + by apply mapped_insert, mapped_tail.
    + unfold apart. lia.
Qed.

(** Plain characters of a set. *)
Definition plain (c : Z) : Prop := cchar c /\ c <> 93 /\ c <> 45.

Lemma run_set buffer u cs : forall p f fuel rest, holds (umem u) p (cs ++ rest) -> Forall plain cs ->
  s_state f = st_match -> s_bail f = bail_none -> length (s_map f) = 8%nat ->
  exists m, scan_loop (length cs + fuel) buffer p f u = scan_loop fuel buffer (p + Z.of_nat (length cs)) (set_map m f) u /\
    length m = 8%nat /\ forall c, 0 <= c < 256 -> bit_of m c = bit_of (s_map f) c || bool_decide (c ∈ cs).
Proof.
  induction cs as [|c cs IH]; intros p f fuel rest Hh Hcs Hs Hb Hl.
  - exists (s_map f). rewrite Z.add_0_r. split; [by destruct f|]. split; [done|]. intros c _. by rewrite orb_false_r.
  - destruct Hh as [H0 Hh]. apply Forall_cons in Hcs as [(Hc & H93 & H45) Hcs]. unfold cchar in Hc.
    destruct (set_bit_some (s_map f) c Hl) as (m1 & E1 & Hl1); [lia|].
    destruct (IH (p + 1) (set_map m1 f) fuel rest) as (m & E & Hlm & Hm); [done|done|by destruct f..|].
    exists m. split; [|split; [done|]].
    + cbn [length Nat.add scan_loop]. erewrite ubind_ok by (by apply ld_ok). destruct (Z.eqb_spec c 0); [lia|].
      rewrite Hb. cbn [orb bailed]. erewrite ubind_ok.
      2: { unfold scan_step, set_first, set_member, set_end. rewrite Hs.
           assert (Hne : (schar c =? 93) = false /\ (schar c =? 45) = false)
             by (unfold schar; destruct (Z.ltb_spec c 128); split; apply Z.eqb_neq; lia).
           destruct Hne as [-> ->]. rewrite E1. reflexivity. }
      cbn [fst snd]. rewrite E. destruct f. cbn [set_map]. f_equal. lia.
    + intros d Hd. rewrite (Hm d Hd). replace (s_map (set_map m1 f)) with m1 by (by destruct f).
      rewrite (set_bit_adds (s_map f) c m1 Hl ltac:(lia) E1 d Hd), <- orb_assoc. f_equal.
      destruct (Z.eqb_spec d c) as [->|Hne]; cbn [orb].
      * symmetry. apply bool_decide_eq_true. by left.
      * apply bool_decide_ext. rewrite elem_of_cons. tauto.
Qed.

(** The first characters of the format: up to the first of the set. *)
Lemma run_set_head buffer u p c0 rest dst fuel : holds (umem u) p (37 :: 91 :: c0 :: rest) -> plain c0 -> c0 <> 94 ->
  exists m, scan_loop (4 + fuel) buffer p
      (mkScan st_normal 0 rank_int UINT_MAX [dst] buffer bail_none 0 matchmap_zero false 0 NULL) u =
    scan_loop fuel buffer (p + 3) (mkScan st_match 0 rank_int UINT_MAX [] buffer bail_none 0 m false 0 (u32 dst)) u /\
    length m = 8%nat /\ forall c, 0 <= c < 256 -> bit_of m c = (c =? c0).
Proof.
  intros (H0 & H1 & H2 & _) (Hc & H93 & H45) H94. unfold cchar in Hc.
  destruct (set_bit_some matchmap_zero c0 eq_refl) as (m & Em & Hl); [lia|]. exists m. split; [|split; [done|]].
  - cbn [Nat.add scan_loop].
    erewrite ubind_ok by (by apply ld_ok). cbn [Z.eqb orb bailed s_bail].
    erewrite ubind_ok by reflexivity. cbn [fst snd set_state set_flags set_rank set_width].
    erewrite ubind_ok by (by apply ld_ok). cbn [Z.eqb Pos.eqb orb bailed s_bail].
    erewrite ubind_ok by reflexivity. cbn [fst snd set_state].
    erewrite ubind_ok by (by apply ld_ok). cbn [Z.eqb Pos.eqb orb bailed s_bail].
    erewrite ubind_ok by reflexivity. cbn [fst snd set_state set_rank set_inv set_map set_ap set_sarg].
    erewrite ubind_ok by (by apply ld_ok). destruct (Z.eqb_spec c0 0); [lia|]. cbn [orb bailed s_bail].
    erewrite ubind_ok.
    2: { unfold scan_step, set_first, set_member, set_end. cbn [s_state s_flags s_map].
         assert (Hne : (schar c0 =? 94) = false) by (unfold schar; destruct (Z.ltb_spec c0 128); apply Z.eqb_neq; lia).
         rewrite Hne, Em. reflexivity. }
    cbn [fst snd set_state set_map]. by rewrite <- !Z.add_assoc.
  - intros c Hd. rewrite (set_bit_adds matchmap_zero c0 m eq_refl ltac:(lia) Em c Hd).
    rewrite (all_chars (fun c => negb (bit_of matchmap_zero c)) ltac:(vm_compute; reflexivity) c Hd)
      || (assert (E : bit_of matchmap_zero c = false)
            by (apply negb_true_iff, (all_chars (fun c => negb (bit_of matchmap_zero c))); [vm_compute; reflexivity|done]);
          by rewrite E).
Qed.

Lemma match_run_ok u f W e : length (s_map f) = 8%nat -> s_inv f = false -> s_width f <> 0 -> W <> [] ->
  Forall (fun c => cchar c /\ bit_of (s_map f) c = true) W -> 0 <= e < 256 -> e = 0 \/ bit_of (s_map f) e = false ->
  holds (umem u) (s_q f) (W ++ [e]) -> 0 < s_sarg f -> mapped (umem u) (s_sarg f) (length W + 1) ->
  apart (s_sarg f) (Z.of_nat (length W) + 1) (s_q f) (S (length W)) ->
  exists q sa, match_run f u = Some (let g := one_more (set_sarg sa (set_q q f)) in
      if e =? 0 then set_bail bail_eof g else g,
    mkU (put_bytes (s_sarg f) (W ++ [0]) (umem u)) (udf u)).
Proof.
  intros Hl Hi Hw HW Hall He Hs Hh Hsa Hm Hap. unfold match_run, with_fuel. unfold apart in *.
  pose proof (mapped_size _ _ _ (holds_mapped _ _ _ Hh)) as Hsz. rewrite length_app in Hsz. cbn in Hsz.
  assert (0 < length W)%nat by (destruct W; [done|cbn; lia]). rewrite Hi.
  erewrite ubind_ok.
  2: { apply (match_loop_spec _ _ W e); try done; [|unfold apart; lia|unfold umem_fuel; lia].
       intros x Hx. apply Hm. lia. }
  cbv beta iota zeta.
  destruct (Z.eqb_spec (s_q f + Z.of_nat (length W)) (s_q f)); [lia|].
  destruct (Z.eqb_spec (s_sarg f + Z.of_nat (length W)) NULL) as [E|_]; [unfold NULL in E; lia|]. cbn [negb andb].
  eexists _, _. erewrite ubind_ok.
  2: { apply st_any. cbn [umem]. apply mapped_put_bytes with (a := s_sarg f) (n := (length W + 1)%nat); [done|lia]. }
  cbn [umem udf]. rewrite put_bytes_snoc, put_bytes_insert by lia. reflexivity.
Qed.

(** The state in which the interpreter starts, and that of a set being read. *)
Definition scan_start (ap : va_list) (q : Z) : scan :=
  mkScan st_normal 0 rank_int UINT_MAX ap q bail_none 0 matchmap_zero false 0 NULL.

Definition set_start (q sarg : Z) (m : list Z) : scan :=
  mkScan st_match 0 rank_int UINT_MAX [] q bail_none 0 m false 0 sarg.

Lemma run_whole_set buffer u p c0 cs rest dst fuel :
  holds (umem u) p (37 :: 91 :: c0 :: cs ++ rest) -> plain c0 -> c0 <> 94 -> Forall plain cs ->
  exists m, scan_loop (4 + (length cs + fuel)) buffer p (scan_start [dst] buffer) u =
    scan_loop fuel buffer (p + 3 + Z.of_nat (length cs)) (set_start buffer (u32 dst) m) u /\
    length m = 8%nat /\ forall c, 0 <= c < 256 -> bit_of m c = bool_decide (c ∈ c0 :: cs).
Proof.
  intros HF Hc0 H94 Hcs.
  destruct (run_set_head buffer u p c0 _ dst (length cs + fuel) HF Hc0 H94) as (m0 & E0 & Hl0 & Hb0).
  destruct HF as (_ & _ & _ & HF). replace (p + 1 + 1 + 1) with (p + 3) in HF by lia.
  destruct (run_set buffer u cs (p + 3) (set_start buffer (u32 dst) m0) fuel rest HF Hcs) as (m & E1 & Hl & Hb); [done..|].
  exists m. split; [etransitivity; [exact E0|exact E1]|]. split; [done|]. intros c Hc. rewrite (Hb c Hc). cbn [s_map set_start].
  rewrite (Hb0 c Hc). destruct (Z.eqb_spec c c0) as [->|Hne]; cbn [orb].
  - symmetry. apply bool_decide_eq_true. by left.
  - apply bool_decide_ext. rewrite elem_of_cons. tauto.
Qed.

(** The end of the set, and what follows it. *)
Lemma run_set_end buffer u p W e rest m dst fuel : length m = 8%nat -> W <> [] ->
  Forall (fun c => cchar c /\ bit_of m c = true) W -> 0 <= e < 256 -> e = 0 \/ bit_of m e = false ->
  holds (umem u) buffer (W ++ [e]) -> 0 < dst -> mapped (umem u) dst (length W + 1) ->
  apart dst (Z.of_nat (length W) + 1) buffer (S (length W)) ->
  holds (umem u) p (93 :: rest ++ [0]) -> apart dst (Z.of_nat (length W) + 1) p (S (S (length rest))) ->
  no_bracket rest -> (length rest <= fuel)%nat ->
  exists g, scan_loop (S fuel) buffer p (set_start buffer dst m) u =
    Some (g, mkU (put_bytes dst (W ++ [0]) (umem u)) (udf u)) /\ s_converted g = 1.
Proof.
  intros Hl HWn HW He Hes Hh Hdst Hm Ha1 [H93 HF] Ha2 Hrest Hfu.
  destruct (match_run_ok u (set_start buffer dst m) W e) as (q & sa & E2); try done.
  assert (HF' : holds (put_bytes dst (W ++ [0]) (umem u)) (p + 1) (rest ++ [0])).
  { apply put_bytes_keeps; [|done]. unfold apart in *. rewrite !length_app. cbn [length]. lia. }
  cbn [scan_loop]. erewrite ubind_ok by (by apply ld_ok). cbn [Z.eqb orb bailed s_bail set_start].
  erewrite ubind_ok.
  2: { unfold scan_step, set_first, set_member, set_end. cbn [s_state set_start]. change (schar 93 =? 93) with true. cbv iota. erewrite ubind_ok by exact E2. reflexivity. }
  cbn [fst snd]. cbv zeta. destruct (Z.eqb_spec e 0) as [->|Hne].
  - destruct rest as [|c rest]; destruct HF' as [H0 _];
      exists (set_bail bail_eof (one_more (set_sarg sa (set_q q (set_start buffer dst m))))); (split; [|reflexivity]);
      destruct fuel; cbn [scan_loop]; (erewrite ubind_ok by (by apply ld_ok));
      cbn [set_bail one_more set_converted set_sarg set_q s_bail s_converted bailed set_start]; by rewrite orb_true_r.
  - destruct (in_set_end rest buffer (mkU (put_bytes dst (W ++ [0]) (umem u)) (udf u)) (p + 1)
      (one_more (set_sarg sa (set_q q (set_start buffer dst m)))) fuel) as (g & Eg & _ & Hg); try done; [by left|].
    exists g. split; [exact Eg|]. by rewrite Hg.
Qed.


(** ** Concrete calls *)

(** "%+6d" at 100, "%d" at 120, a buffer of 7 bytes at 300 and an integer at 400. *)
Definition ex_scan_mem : umach :=
  mkU (put_bytes 400 (replicate 4 1) (put_bytes 300 (replicate 7 1) (put_bytes 120 [37; 100; 0]
    (put_bytes 100 [37; 43; 54; 100; 0] ∅)))) false.

Lemma printf_scanf_roundtrip_witness :
  exists u', ubind (sprintf 300 100 [-42]) (fun _ => sscanf 300 120 [400]) ex_scan_mem = Some (1, u') /\
    holds (umem u') 400 [214; 255; 255; 255].
Proof.
  apply (printf_scanf_roundtrip ex_scan_mem 300 100 120 [43] [54] None (-42) 400).
  - repeat split; repeat match goal with H : None = Some _ |- _ => discriminate H end; by repeat constructor.
  - reflexivity.
  - lia.
  - split; [vm_compute; repeat split|by repeat constructor].
  - left. vm_compute. discriminate.
  - split; [vm_compute; repeat split|by repeat constructor].
  - left. vm_compute. discriminate.
  - assert (H : holds (umem ex_scan_mem) 300 (replicate 7 1)) by (vm_compute; repeat split).
    apply (holds_mapped _ _ _ H).
  - vm_compute. discriminate.
  - lia.
  - assert (H : holds (umem ex_scan_mem) 400 (replicate 4 1)) by (vm_compute; repeat split).
    apply (holds_mapped _ _ _ H).
  - left. vm_compute. discriminate.
Defined.

(** "%[ab]%d" at 100, the input "abc" at 200, 3 bytes at 300. *)
Definition ex_set_mem : umach :=
  mkU (put_bytes 300 (replicate 3 1) (put_bytes 200 [97; 98; 99; 0]
    (put_bytes 100 [37; 91; 97; 98; 93; 37; 100; 0] ∅))) false.

