(* ===== verification/UserCalls.v ===== *)
(** * The user library's system calls ([calls.c], [libc.c])

    A call puts its number and arguments in registers, traps, and finds its result
    in a register.  [brk], [sbrk] and [Brk] keep the program's own idea of its
    break, which has to agree with the kernel's limit of the heap. *)

From Stdlib Require Import ZArith Lia.
From stdpp Require Import base gmap list.
From S2P Require Import Prelude Hardware State Logic KList KQueue Memory Frames Process LoadProgram SyscallsProc Traps.

Open Scope Z_scope.

(** ** The calls the kernel does not implement *)

Definition YALNIX_REGISTER := yalnix_call 0x31.
Definition YALNIX_SEND := yalnix_call 0x32.
Definition YALNIX_RECEIVE := yalnix_call 0x33.
Definition YALNIX_RECEIVESPECIFIC := yalnix_call 0x34.
Definition YALNIX_REPLY := yalnix_call 0x35.
Definition YALNIX_FORWARD := yalnix_call 0x36.
Definition YALNIX_COPY_FROM := yalnix_call 0x37.
Definition YALNIX_COPY_TO := yalnix_call 0x38.
Definition YALNIX_READ_SECTOR := yalnix_call 0x41.
Definition YALNIX_WRITE_SECTOR := yalnix_call 0x42.
Definition YALNIX_NOP := yalnix_call 0x50.
Definition YALNIX_SEM_INIT := yalnix_call 0x60.
Definition YALNIX_SEM_UP := yalnix_call 0x61.
Definition YALNIX_SEM_DOWN := yalnix_call 0x62.
Definition YALNIX_CUSTOM_0 := yalnix_call 0x70.
Definition YALNIX_CUSTOM_1 := yalnix_call 0x71.
Definition YALNIX_CUSTOM_2 := yalnix_call 0x72.
Definition YALNIX_ABORT := yalnix_call 0xF0.

(** ** The break of a program ([libc.c]) *)

Section breaks.
Context (SysBrk : Z -> M Z).

(** The result and the new [current_break]. *)
Definition brk_unlocked (addr current_break : Z) : M (Z * Z) :=
  let addr := Z.land (u32 (addr + 7)) (Z.lnot 7) in
  let pageaddr := u32 (UP_TO_PAGE addr) in
  if negb (pageaddr =? u32 (UP_TO_PAGE current_break)) then
    let! status := SysBrk pageaddr in
    if negb (status =? 0) then ret (-1, current_break) else ret (0, addr)
  else ret (0, addr).

(** [(void * ) -1] *)
Definition MINUS_ONE : Z := 2 ^ 32 - 1.

Definition sbrk (incr current_break : Z) : M (Z * Z) :=
  if incr =? 0 then ret (current_break, current_break) else
  let! r := brk_unlocked (u32 (current_break + incr)) current_break in
  ret (if negb (fst r =? 0) then MINUS_ONE else current_break, snd r).

Definition _sbrk (incr current_break : Z) : M (Z * Z) := sbrk incr current_break.
Definition __sbrk (incr current_break : Z) : M (Z * Z) := sbrk incr current_break.

Definition __default_morecore (increment current_break : Z) : M (Z * Z) :=
  let! r := __sbrk increment current_break in
  ret (if fst r =? MINUS_ONE then NULL else fst r, snd r).

Definition brk (addr current_break : Z) : M (Z * Z) := brk_unlocked addr current_break.
Definition _brk (addr current_break : Z) : M (Z * Z) := brk addr current_break.
Definition __brk (addr current_break : Z) : M (Z * Z) := brk addr current_break.

(** The system call as programs see it. *)
Definition Brk (addr current_break : Z) : M (Z * Z) :=
  let! status := SysBrk addr in
  ret (status, if status =? 0 then addr else current_break).

(** A program's calls, one after the other; the new break. *)
Inductive heap_call :=
  | CSbrk (incr : Z)
  | CMorecore (incr : Z)
  | CBrk (addr : Z)
  | CKBrk (addr : Z).

Definition run_call (c : heap_call) (current_break : Z) : M (Z * Z) :=
  match c with
  | CSbrk incr => sbrk incr current_break
  | CMorecore incr => __default_morecore incr current_break
  | CBrk addr => brk addr current_break
  | CKBrk addr => Brk addr current_break
  end.

Fixpoint run_calls (cs : list heap_call) (current_break : Z) : M Z :=
  match cs with
  | [] => ret current_break
  | c :: cs' => let! r := run_call c current_break in run_calls cs' (snd r)
  end.

End breaks.

(** What [brk] and its like need of the system call: [H s lim] says that the limit is
    [lim]; a call moves it or reports a failure. *)
Class HeapServer (SysBrk : Z -> M Z) (H : kstate -> Z -> Prop) : Prop := {
  hs_brk : forall addr s lim, H s lim -> returns (SysBrk addr) s (fun r s' =>
    (r = 0 /\ H s' (brk_target addr)) \/ (r = -1 /\ H s' lim)) }.

Lemma UP_TO_PAGE_idem n : UP_TO_PAGE (u32 (UP_TO_PAGE n)) = UP_TO_PAGE n.
Proof.
  unfold UP_TO_PAGE at 1. rewrite i32_u32. unfold UP_TO_PAGE. rewrite !land_PAGEMASK.
  set (m := i32 (i32 n + PAGEOFFSET)). assert (Hm : - 2 ^ 31 <= m < 2 ^ 31) by apply i32_range.
  unfold PAGEOFFSET. change PAGESIZE with 8192.
  pose proof (Z.mod_pos_bound m 8192 ltac:(lia)) as Hr. pose proof (Z.div_mod m 8192 ltac:(lia)) as Hd.
  assert (Hlo : - 2 ^ 31 <= m - m mod 8192).
  { assert (-262144 <= m / 8192) by (apply Z.div_le_lower_bound; lia). lia. }
  assert (Hhi : m - m mod 8192 <= 2 ^ 31 - 8192).
  { assert (m / 8192 < 262144) by (apply Z.div_lt_upper_bound; lia). lia. }
  rewrite (i32_id (m - m mod 8192)) by lia. rewrite i32_id by lia.
  replace (m - m mod 8192 + (8192 - 1)) with (8191 + (m / 8192) * 8192) by lia.
  rewrite Z_mod_plus_full. change (8191 mod 8192) with 8191. lia.
Qed.

Lemma brk_target_page a : brk_target (u32 (UP_TO_PAGE a)) = brk_target a.
Proof. unfold brk_target. by rewrite UP_TO_PAGE_idem. Qed.

Lemma brk_target_same a b : u32 (UP_TO_PAGE a) = u32 (UP_TO_PAGE b) -> brk_target a = brk_target b.
Proof. intros E. rewrite <- (brk_target_page a), <- (brk_target_page b). by rewrite E. Qed.

Section clients.
Context {SysBrk : Z -> M Z} {H : kstate -> Z -> Prop} {HS : HeapServer SysBrk H}.

(** The break a successful call leaves: the next multiple of 8. *)
Definition round8 (addr : Z) : Z := Z.land (u32 (addr + 7)) (Z.lnot 7).

Lemma brk_unlocked_spec addr cur s : H s (brk_target cur) ->
  returns (brk_unlocked SysBrk addr cur) s (fun r s' => H s' (brk_target (snd r)) /\
    (fst r = 0 /\ snd r = round8 addr \/ fst r = -1 /\ snd r = cur)).
Proof.
  intros HH. unfold brk_unlocked. fold (round8 addr). cbv zeta.
  destruct (Z.eqb_spec (u32 (UP_TO_PAGE (round8 addr))) (u32 (UP_TO_PAGE cur))) as [E|E]; cbn [negb].
  - rstep. cbn [fst snd]. rewrite (brk_target_same _ _ E). split; [done|by left].
  - rstep. eapply returns_mono; [by apply hs_brk|]. cbv beta. intros r s' [[-> H']|[-> H']]; cbn [Z.eqb negb]; rstep; cbn [fst snd].
    + rewrite brk_target_page in H'. split; [done|by left].
    + split; [done|by right].
Qed.

Lemma sbrk_spec incr cur s : H s (brk_target cur) ->
  returns (sbrk SysBrk incr cur) s (fun r s' => H s' (brk_target (snd r)) /\
    (fst r = cur /\ snd r = (if incr =? 0 then cur else round8 (u32 (cur + incr))) \/ fst r = MINUS_ONE /\ snd r = cur)).
Proof.
  intros HH. unfold sbrk. destruct (Z.eqb_spec incr 0); [rstep; split; [done|by left]|]. rstep.
  eapply returns_mono; [by apply brk_unlocked_spec|]. cbv beta. intros [r cur'] s' [H' Hr]. cbn [fst snd] in *.
  destruct Hr as [[-> ->]|[-> ->]]; rstep; cbn [fst snd Z.eqb negb] in *.
  - split; [done|by left].
  - split; [done|by right].
Qed.

Lemma run_call_keeps c cur s : H s (brk_target cur) ->
  returns (run_call SysBrk c cur) s (fun r s' => H s' (brk_target (snd r))).
Proof.
  intros HH. destruct c as [incr|incr|addr|addr]; cbn [run_call].
  - eapply returns_mono; [by apply sbrk_spec|]. by intros r s' [? _].
  - unfold __default_morecore, __sbrk. rstep. eapply returns_mono; [by apply sbrk_spec|]. intros r s' [? _]. by rstep.
  - eapply returns_mono; [by apply brk_unlocked_spec|]. by intros r s' [? _].
  - unfold Brk. rstep. eapply returns_mono; [by apply hs_brk|]. cbv beta. intros r s' [[-> H']|[-> H']]; by rstep.
Qed.

Lemma run_calls_keep cs : forall cur s, H s (brk_target cur) ->
  returns (run_calls SysBrk cs cur) s (fun cur' s' => H s' (brk_target cur')).
Proof.
  induction cs as [|c cs IH]; intros cur s HH; cbn [run_calls]; [by rstep|]. rstep.
  eapply returns_mono; [by apply run_call_keeps|]. cbv beta. intros r s' H'. by apply IH.
Qed.

End clients.

(** ** The system calls ([calls.c]) *)

Section calls.
Context `{L : Libc} `{FS : FileSystem} (fuel : nat) (ctx : Z).

(** The context of the trap a call makes. *)
Definition uc_trap (code : Z) (regs : list Z) (u : UserContext) : UserContext :=
  mkUserContext TRAP_KERNEL code (uc_addr u) (uc_pc u) (uc_sp u) (uc_ebp u) regs.

Definition trap_args (A B C D : Z) (regs : list Z) : option (list Z) :=
  regs ← zset 0 (u32 A) regs; regs ← zset 1 (u32 B) regs; regs ← zset 2 (u32 C) regs; zset 3 (u32 D) regs.

(** The kernel finds the arguments in [regs\[0..3\]] and leaves the result in [regs\[0\]]. *)
Definition YSYSCALL (code A B C D : Z) : M Z :=
  let! u := get_uc ctx in
  let! r := in_bounds (trap_args A B C D (uc_regs u)) in
  upd_uc ctx (uc_trap code r) ;;
  TrapKernelHandler fuel ctx ;;
  let! r0 := reg ctx 0 in
  ret (i32 r0).

Definition Nop (a b c d : Z) : M Z := YSYSCALL YALNIX_NOP a b c d.
Definition Fork : M Z := YSYSCALL YALNIX_FORK 0 0 0 0.
Definition Exec (a b : Z) : M Z := YSYSCALL YALNIX_EXEC a b 0 0.
Definition Wait (a : Z) : M Z := YSYSCALL YALNIX_WAIT a 0 0 0.
Definition GetPid : M Z := YSYSCALL YALNIX_GETPID 0 0 0 0.
Definition SysBrk (a : Z) : M Z := YSYSCALL YALNIX_BRK a 0 0 0.
Definition Delay (a : Z) : M Z := YSYSCALL YALNIX_DELAY a 0 0 0.
Definition TtyRead (a b c : Z) : M Z := YSYSCALL YALNIX_TTY_READ a b c 0.
Definition TtyWrite (a b c : Z) : M Z := YSYSCALL YALNIX_TTY_WRITE a b c 0.
Definition Register (a : Z) : M Z := YSYSCALL YALNIX_REGISTER a 0 0 0.
Definition Send (a b : Z) : M Z := YSYSCALL YALNIX_SEND a b 0 0.
Definition Receive (_ : Z) : M Z := YSYSCALL YALNIX_RECEIVE 0 0 0 0.
Definition ReceiveSpecific (a b : Z) : M Z := YSYSCALL YALNIX_RECEIVESPECIFIC a b 0 0.
Definition Reply (a b : Z) : M Z := YSYSCALL YALNIX_REPLY a b 0 0.
Definition Forward (a b c : Z) : M Z := YSYSCALL YALNIX_FORWARD a b c 0.
Definition CopyFrom (a b c d : Z) : M Z := YSYSCALL YALNIX_COPY_FROM a b c d.
Definition CopyTo (a b c d : Z) : M Z := YSYSCALL YALNIX_COPY_TO a b c d.
Definition ReadSector (a b : Z) : M Z := YSYSCALL YALNIX_READ_SECTOR a b 0 0.
Definition WriteSector (a b : Z) : M Z := YSYSCALL YALNIX_WRITE_SECTOR a b 0 0.
Definition PipeInit (a : Z) : M Z := YSYSCALL YALNIX_PIPE_INIT a 0 0 0.
Definition PipeRead (a b c : Z) : M Z := YSYSCALL YALNIX_PIPE_READ a b c 0.
Definition PipeWrite (a b c : Z) : M Z := YSYSCALL YALNIX_PIPE_WRITE a b c 0.
Definition SemInit (a b : Z) : M Z := YSYSCALL YALNIX_SEM_INIT a b 0 0.
Definition SemUp (a : Z) : M Z := YSYSCALL YALNIX_SEM_UP a 0 0 0.
Definition SemDown (a : Z) : M Z := YSYSCALL YALNIX_SEM_DOWN a 0 0 0.
Definition LockInit (a : Z) : M Z := YSYSCALL YALNIX_LOCK_INIT a 0 0 0.
Definition Acquire (a : Z) : M Z := YSYSCALL YALNIX_LOCK_ACQUIRE a 0 0 0.
Definition Release (a : Z) : M Z := YSYSCALL YALNIX_LOCK_RELEASE a 0 0 0.
Definition CvarInit (a : Z) : M Z := YSYSCALL YALNIX_CVAR_INIT a 0 0 0.
Definition CvarWait (a b : Z) : M Z := YSYSCALL YALNIX_CVAR_WAIT a b 0 0.
Definition CvarSignal (a : Z) : M Z := YSYSCALL YALNIX_CVAR_SIGNAL a 0 0 0.
Definition CvarBroadcast (a : Z) : M Z := YSYSCALL YALNIX_CVAR_BROADCAST a 0 0 0.
Definition Reclaim (a : Z) : M Z := YSYSCALL YALNIX_RECLAIM a 0 0 0.
Definition Custom0 (a b c d : Z) : M Z := YSYSCALL YALNIX_CUSTOM_0 a b c d.
Definition Custom1 (a b c d : Z) : M Z := YSYSCALL YALNIX_CUSTOM_1 a b c d.
Definition Custom2 (a b c d : Z) : M Z := YSYSCALL YALNIX_CUSTOM_2 a b c d.
Definition helper_maybort (msg ra : Z) : M Z := YSYSCALL YALNIX_ABORT msg ra 0 0.

Definition _Exit (a : Z) : M unit := YSYSCALL YALNIX_EXIT a 0 0 0 ;; ret tt.

(** The ways a program ends. *)
Definition exit (status : Z) : M unit := _Exit status.
Definition _exit (status : Z) : M unit := exit status.
Definition Exit (status : Z) : M unit := _Exit status.
Definition abort : M unit := _exit 255.
Definition BadLib : M unit := _Exit (-1).
Definition getpagesize : Z := PAGESIZE.
Definition _getpagesize : Z := PAGESIZE.

(** What the C library's allocator may call and must not rely on. *)
Definition __libc_memalign (boundary size : Z) : Z := NULL.
Definition __mmap (start length prot flags fd offset : Z) : Z := MINUS_ONE.

(** The start of a program whose [main] returns a status. *)
Definition __libc_start_main (main : M Z) : M unit := let! result := main in _exit result.

End calls.

(** ** Through the trap *)

Section through.
Context `{L : Libc} `{FS : FileSystem} (fuel : nat) (ctx : Z).
Hypothesis Hctx : ctx <> NULL.

(** The saved registers are all there. *)
Definition regs_ok (s : kstate) : Prop := length (uc_regs (uc s)) = 8%nat.

Lemma get_uc_ok s : get_uc ctx s = Ret (uc s) s.
Proof. unfold get_uc. destruct (Z.eqb_spec ctx NULL); done. Qed.

Lemma upd_uc_ok f s : upd_uc ctx f s = Ret tt (set_uc (f (uc s)) s).
Proof. unfold upd_uc. destruct (Z.eqb_spec ctx NULL); done. Qed.

Lemma returns_get_uc s (P : UserContext -> kstate -> Prop) : P (uc s) s -> returns (get_uc ctx) s P.
Proof. intros HP. eapply returns_exec; [apply get_uc_ok|done]. Qed.

Lemma returns_upd_uc f s (P : unit -> kstate -> Prop) : P tt (set_uc (f (uc s)) s) -> returns (upd_uc ctx f) s P.
Proof. intros HP. eapply returns_exec; [apply upd_uc_ok|done]. Qed.

End through.

(** The test of the kernel's codes on a concrete code. *)
Ltac decode E :=
  unfold TrapKernelHandler, bind at 1; rewrite get_uc_ok by assumption; cbn [obind]; rewrite E; cbv zeta;
  repeat match goal with |- context [if u32 ?a =? ?b then _ else _] =>
    let v := eval vm_compute in (u32 a =? b) in change (u32 a =? b) with v; cbv iota end.

Section echo.
Context `{L : Libc} `{FS : FileSystem} (fuel : nat) (ctx : Z).
Hypothesis Hctx : ctx <> NULL.

Lemma trap_args_ok A B C D regs : length regs = 8%nat ->
  exists r, trap_args A B C D regs = Some (u32 A :: u32 B :: u32 C :: u32 D :: r) /\ length r = 4%nat.
Proof.
  intros Hl. destruct regs as [|a [|b [|c [|d r]]]]; try done. exists r. split; [|cbn in Hl; lia].
  destruct r as [|e [|f [|g [|h [|? ?]]]]]; done.
Qed.

(** What the kernel's handler of a call with one argument or with three does, seen from
    the program: the handler runs with the call's registers, and keeps them. *)
Lemma YSYSCALL_call1 code A B C D f s (Q : Z -> kstate -> Prop) : regs_ok s ->
  (forall s, uc_code (uc s) = code -> TrapKernelHandler fuel ctx s = call1 ctx f s) ->
  (forall u, length (uc_regs u) = 8%nat -> returns (f (u32 A)) (set_uc u s) (fun v s' => uc s' = u /\
    forall u', length (uc_regs u') = 8%nat -> Q (i32 v) (set_uc u' s'))) ->
  returns (YSYSCALL fuel ctx code A B C D) s Q.
Proof.
  intros Hr Hk Hf. destruct (trap_args_ok A B C D _ Hr) as (r & Er & Hlr). unfold YSYSCALL.
  rstep. apply (returns_get_uc ctx Hctx). rstep. rstep; [exact Er|]. rstep. apply (returns_upd_uc ctx Hctx).
  rstep. eapply returns_eqm; [by apply Hk|]. unfold call1. rstep. unfold reg at 1. rstep.
  apply (returns_get_uc ctx Hctx). rstep; [reflexivity|]. rstep. eapply returns_mono; [apply Hf; cbn; lia|]. cbv beta.
  intros v s2 [Hu HQ]. unfold set_reg0. rstep. apply (returns_get_uc ctx Hctx). rewrite Hu. rstep.
  rstep; [reflexivity|]. apply (returns_upd_uc ctx Hctx). rstep. unfold reg. rstep. apply (returns_get_uc ctx Hctx).
  rstep; [reflexivity|]. rstep. rewrite i32_u32. apply HQ. change (4 + length r = 8)%nat. lia.
Qed.

Lemma YSYSCALL_call3 code A B C D f s (Q : Z -> kstate -> Prop) : regs_ok s ->
  (forall s, uc_code (uc s) = code -> TrapKernelHandler fuel ctx s = call3 ctx f s) ->
  (forall u, length (uc_regs u) = 8%nat -> returns (f (u32 A) (u32 B) (u32 C)) (set_uc u s) (fun v s' => uc s' = u /\
    forall u', length (uc_regs u') = 8%nat -> Q (i32 v) (set_uc u' s'))) ->
  returns (YSYSCALL fuel ctx code A B C D) s Q.
Proof.
  intros Hr Hk Hf. destruct (trap_args_ok A B C D _ Hr) as (r & Er & Hlr). unfold YSYSCALL.
  rstep. apply (returns_get_uc ctx Hctx). rstep. rstep; [exact Er|]. rstep. apply (returns_upd_uc ctx Hctx).
  rstep. eapply returns_eqm; [by apply Hk|]. unfold call3.
  do 3 (rstep; unfold reg at 1; rstep; apply (returns_get_uc ctx Hctx); rstep; [reflexivity|]).
  rstep. eapply returns_mono; [apply Hf; cbn; lia|]. cbv beta.
  intros v s2 [Hu HQ]. unfold set_reg0. rstep. apply (returns_get_uc ctx Hctx). rewrite Hu. rstep.
  rstep; [reflexivity|]. apply (returns_upd_uc ctx Hctx). rstep. unfold reg. rstep. apply (returns_get_uc ctx Hctx).
  rstep; [reflexivity|]. rstep. rewrite i32_u32. apply HQ. change (4 + length r = 8)%nat. lia.
Qed.

(** A call the kernel has no case for: the trap changes nothing. *)
Lemma YSYSCALL_unknown code A B C D s : regs_ok s ->
  (forall s, uc_code (uc s) = code -> TrapKernelHandler fuel ctx s = Ret tt s) ->
  exists u, YSYSCALL fuel ctx code A B C D s = Ret (i32 A) (set_uc u s).
Proof.
  intros Hr Hk. destruct (trap_args_ok A B C D _ Hr) as (r & Er & _).
  unfold YSYSCALL, bind. rewrite get_uc_ok by done. cbn [obind]. rewrite Er. cbn [in_bounds obind ret]. rewrite upd_uc_ok by done. cbn [obind].
  rewrite Hk by done. cbn [obind]. unfold reg, bind. rewrite get_uc_ok by done. cbn [obind].
  eexists. rewrite <- (i32_u32 A). reflexivity.
Qed.

(** The numbers the kernel has no case for. *)
Definition unimplemented : list Z :=
  [YALNIX_REGISTER; YALNIX_SEND; YALNIX_RECEIVE; YALNIX_RECEIVESPECIFIC; YALNIX_REPLY; YALNIX_FORWARD;
   YALNIX_COPY_FROM; YALNIX_COPY_TO; YALNIX_READ_SECTOR; YALNIX_WRITE_SECTOR; YALNIX_NOP; YALNIX_SEM_INIT;
   YALNIX_SEM_UP; YALNIX_SEM_DOWN; YALNIX_CUSTOM_0; YALNIX_CUSTOM_1; YALNIX_CUSTOM_2; YALNIX_ABORT].

Lemma unimplemented_falls_through code s : code ∈ unimplemented -> uc_code (uc s) = code ->
  TrapKernelHandler fuel ctx s = Ret tt s.
Proof.
  intros Hin E. unfold unimplemented in Hin.
  repeat (apply elem_of_cons in Hin as [->|Hin]; [decode E; reflexivity|]). by apply not_elem_of_nil in Hin.
Qed.

Lemma YSYSCALL_echo code A B C D s : code ∈ unimplemented -> regs_ok s ->
  exists u, YSYSCALL fuel ctx code A B C D s = Ret (i32 A) (set_uc u s).
Proof. intros Hc Hr. apply YSYSCALL_unknown; [done|]. intros t Ht. by eapply unimplemented_falls_through. Qed.

(** C39: the kernel has no case for semaphores, messages, disk sectors, [Nop], the custom calls and
    the abort of the heap checker, and says so to nobody: each of these calls changes nothing
    but the registers and returns its own first argument; [Receive] returns 0. *)
Theorem unimplemented_calls_echo s a b c d : regs_ok s ->
  Forall (fun call => exists u, call s = Ret (i32 a) (set_uc u s))
    [Nop fuel ctx a b c d; Register fuel ctx a; Send fuel ctx a b; ReceiveSpecific fuel ctx a b; Reply fuel ctx a b;
     Forward fuel ctx a b c; CopyFrom fuel ctx a b c d; CopyTo fuel ctx a b c d; ReadSector fuel ctx a b;
     WriteSector fuel ctx a b; SemInit fuel ctx a b; SemUp fuel ctx a; SemDown fuel ctx a;
     Custom0 fuel ctx a b c d; Custom1 fuel ctx a b c d; Custom2 fuel ctx a b c d; helper_maybort fuel ctx a b] /\
  exists u, Receive fuel ctx a s = Ret 0 (set_uc u s).
Proof.
  intros Hr. split.
  - repeat (apply Forall_cons; split; [apply YSYSCALL_echo; [by apply (bool_decide_eq_true_1 (_ ∈ unimplemented))|done]|]).
    by apply Forall_nil.
  - apply (YSYSCALL_echo YALNIX_RECEIVE 0 0 0 0); [by apply (bool_decide_eq_true_1 (_ ∈ unimplemented))|done].
Qed.

End echo.

(** ** The kernel's side of the heap *)

Section server.
Context `{L : Libc} `{FS : FileSystem} {F : kstate -> list Z -> Prop} {FA : FrameAllocator L F} (MT : MallocTotal L).
Context (fuel : nat) (ctx : Z) (Hctx : ctx <> NULL).

Lemma brk_target_u32 a : brk_target (u32 a) = brk_target a.
Proof. unfold brk_target, UP_TO_PAGE. by rewrite i32_u32. Qed.

(** The kernel's heap, and a program's registers. *)
Definition heap_serves (s : kstate) (lim : Z) : Prop := heap_inv (F := F) s lim /\ regs_ok s.

Lemma heap_serves_uc s lim u : heap_inv (F := F) s lim -> length (uc_regs u) = 8%nat -> heap_serves (set_uc u s) lim.
Proof. intros H Hu. split; [by apply heap_inv_uc|done]. Qed.

Lemma trap_brk s : uc_code (uc s) = YALNIX_BRK -> TrapKernelHandler fuel ctx s = call1 ctx KernelBrk s.
Proof. intros E. decode E. reflexivity. Qed.

#[export] Instance kernel_heap_server : HeapServer (SysBrk fuel ctx) heap_serves.
Proof.
  split. intros addr s lim [Hinv Hr]. unfold SysBrk.
  eapply (YSYSCALL_call1 fuel ctx Hctx); [exact Hr|exact trap_brk|].
  intros u Hu. pose proof (heap_inv_uc s lim u Hinv) as Hinv'. set (s1 := set_uc u s) in *.
  eapply returns_mono; [by apply (KernelBrk_heap_inv (u32 addr) s1 lim MT)|]. cbv beta.
  intros v s2 [Eu Hv]. split; [exact Eu|]. intros u' Hu'. rewrite brk_target_u32 in Hv.
  destruct Hv as [[-> Hv]|[-> Hv]]; [left|right]; (split; [reflexivity|]); (apply heap_serves_uc; [exact Hv|exact Hu']).
Qed.

(** C34: a program whose break agrees with the kernel's limit of its heap (the limit is the
    page above the break) may call [sbrk], [brk], [Brk] and [__default_morecore] in any order
    and with any arguments: every call returns, and the break and the limit agree again,
    also after calls that fail. *)
Theorem break_agrees_with_kernel cs current_break s : heap_serves s (brk_target current_break) ->
  returns (run_calls (SysBrk fuel ctx) cs current_break) s (fun current_break' s' =>
    heap_serves s' (brk_target current_break')).
Proof. apply run_calls_keep. Qed.

End server.

(** ** Concrete programs *)

(** A process at 100 whose heap ends at page 8 of its region, with two frames free. *)
Definition ex_prog : kstate := ex_brk 8 (ex_low ++ ex_heap2 ++ replicate 120 pte_zero).

Lemma ex_prog_serves : heap_serves (F := free_list lstore ∅) ex_prog 8.
Proof.
  split; [|reflexivity].
  exists 100, (ex_brk_pcb 8 (ex_low ++ ex_heap2 ++ replicate 120 pte_zero)), (ex_low ++ ex_heap2 ++ replicate 120 pte_zero), [71; 70].
  split; [by split|]. split; [done|]. split; [exact ex_free|].
  assert (Hp : forall f, 0 < f < 2 ^ 24 -> page_ok (mkPte 1 3 f)) by (intros f Hf; split; [by left|by intros _]).
  split; [repeat (apply Forall_cons; split; [unfold frame24; lia|]); by apply Forall_nil|]. split.
  - apply Forall_app. split; [apply Forall_replicate, Hp; lia|]. apply Forall_app. split.
    + repeat (apply Forall_cons; split; [apply Hp; lia|]). by apply Forall_nil.
    + apply Forall_replicate. split; [by right|discriminate].
  - vm_compute. repeat split; discriminate.
Qed.

Lemma unimplemented_calls_echo_witness :
  Forall (fun call => exists u, call ex_prog = Ret 7 (set_uc u ex_prog))
    [Nop (L := bump_libc) (FS := ex_disk) 0 1 7 0 0 0; Register (L := bump_libc) (FS := ex_disk) 0 1 7;
     Send (L := bump_libc) (FS := ex_disk) 0 1 7 0; ReceiveSpecific (L := bump_libc) (FS := ex_disk) 0 1 7 0;
     Reply (L := bump_libc) (FS := ex_disk) 0 1 7 0; Forward (L := bump_libc) (FS := ex_disk) 0 1 7 0 0;
     CopyFrom (L := bump_libc) (FS := ex_disk) 0 1 7 0 0 0; CopyTo (L := bump_libc) (FS := ex_disk) 0 1 7 0 0 0;
     ReadSector (L := bump_libc) (FS := ex_disk) 0 1 7 0; WriteSector (L := bump_libc) (FS := ex_disk) 0 1 7 0;
     SemInit (L := bump_libc) (FS := ex_disk) 0 1 7 0; SemUp (L := bump_libc) (FS := ex_disk) 0 1 7;
     SemDown (L := bump_libc) (FS := ex_disk) 0 1 7; Custom0 (L := bump_libc) (FS := ex_disk) 0 1 7 0 0 0;
     Custom1 (L := bump_libc) (FS := ex_disk) 0 1 7 0 0 0; Custom2 (L := bump_libc) (FS := ex_disk) 0 1 7 0 0 0;
     helper_maybort (L := bump_libc) (FS := ex_disk) 0 1 7 0] /\
  exists u, Receive (L := bump_libc) (FS := ex_disk) 0 1 7 ex_prog = Ret 0 (set_uc u ex_prog).
Proof.
  apply (unimplemented_calls_echo (L := bump_libc) (FS := ex_disk) 0 1 ltac:(discriminate) ex_prog 7 0 0 0). reflexivity.
Defined.

Lemma break_agrees_with_kernel_witness :
  returns (run_calls (SysBrk (L := bump_libc) (FS := ex_disk) 0 1)
      [CSbrk 8192; CMorecore (-24); CBrk (brk_addr 7); CKBrk 0; CSbrk 0] (brk_addr 8)) ex_prog
    (fun current_break' s' => heap_serves (F := free_list lstore ∅) s' (brk_target current_break')).
Proof.
  apply (break_agrees_with_kernel (L := bump_libc) (FS := ex_disk) (F := free_list lstore ∅) bump_libc_total 0 1
    ltac:(discriminate)). exact ex_prog_serves.
Defined.
