(* ===== verification/UserPipes.v ===== *)
(** * A program and its pipe ([calls.c], [traphandlers.c], [syscalls.c], [pipe.c], [queue.c])

    The calls of the user library go through the registers, the trap, the kernel's
    dispatch, its checks, the list of pipes, the pipe's buffer, and user memory. *)

From Stdlib Require Import ZArith Lia.
From stdpp Require Import base gmap list.
From S2P Require Import Prelude Hardware State Store Logic KQueue KPipe Memory LoadProgram LoadArgs SyscallsProc SyscallsIO Traps Pipes UserCalls.

Open Scope Z_scope.

(** ** The program's registers are not memory *)

Lemma same_maps_uc s u : same_maps s (set_uc u s).
Proof. split; [|apply hw_mem_only_refl]. split; [done|]. by intros []. Qed.

Lemma open_pipe_uc s u id p q x : open_pipe s id p q x -> open_pipe (set_uc u s) id p q x.
Proof. by intros []. Qed.

Lemma same_memory_uc s u : same_memory s (set_uc u s).
Proof. split; [done|]. by intros []. Qed.

Lemma ubytes_uc s u a n : ubytes (set_uc u s) a n = ubytes s a n.
Proof. by apply ubytes_same. Qed.

(** A pointer of the program. *)
Definition pointer (a : Z) : Prop := 0 < a < 2 ^ 32.

Lemma pointer_u32 a : pointer a -> u32 a = a.
Proof. intros H. apply u32_id. unfold pointer in H. lia. Qed.

Section calls.
Context `{L : Libc} {LL : LibcLaws L} `{FS : FileSystem} (MT : MallocTotal L) (fuel : nat) (ctx : Z).
Hypothesis Hctx : ctx <> NULL.

Lemma trap_pipe_init s : uc_code (uc s) = YALNIX_PIPE_INIT -> TrapKernelHandler fuel ctx s = call1 ctx KernelPipeInit s.
Proof. intros E. decode E. reflexivity. Qed.

Lemma trap_pipe_write s : uc_code (uc s) = YALNIX_PIPE_WRITE ->
  TrapKernelHandler fuel ctx s = call3 ctx (fun i b n => KernelPipeWrite fuel (i32 i) b (i32 n) ctx) s.
Proof. intros E. decode E. reflexivity. Qed.

Lemma trap_pipe_read s : uc_code (uc s) = YALNIX_PIPE_READ ->
  TrapKernelHandler fuel ctx s = call3 ctx (fun i b n => KernelPipeRead fuel (i32 i) b (i32 n) ctx) s.
Proof. intros E. decode E. reflexivity. Qed.

(** [PipeInit] *)
Lemma PipeInit_spec s ps k V idp : regs_ok s ->
  prep (pipes s) (head_pipe (gl s)) ps -> last (map snd ps) = Some k -> 0 < k < 2 ^ 31 - 1 ->
  qstore (qst s) V -> dom V ⊆ live s -> pointer idp -> uaccess true s idp 4 -> unaliased s idp 4 ->
  returns (PipeInit fuel ctx idp) s (fun r s' => r = 0 /\ regs_ok s' /\ same_maps s s' /\
    bytes_int (ubytes s' idp 4) = k + 1 /\ (forall b n, apart s b n idp 4 -> ubytes s' b n = ubytes s b n) /\
    exists p q x, open_pipe s' (k + 1) p q x /\ pp_len x = 0).
Proof.
  intros Hr Hp Hk Hkr HV Hd Hi Ha Hu. unfold PipeInit. eapply (YSYSCALL_call1 fuel ctx Hctx); [exact Hr|exact trap_pipe_init|].
  intros u Hul. rewrite pointer_u32 by done. pose proof (same_maps_uc s u) as M0.
  eapply returns_mono; [apply (KernelPipeInit_spec MT (set_uc u s) ps k V idp Hp Hk Hkr HV Hd)|].
  { unfold pointer, NULL in *. lia. } { by apply (uaccess_maps _ s). } { by apply (unaliased_maps s). }
  cbv beta. intros v s' (-> & M & Eu & Eid & Hf & p & q & x & O & Hx). split; [exact Eu|]. intros u' Hu'.
  split; [done|]. split; [exact Hu'|]. split.
  { eapply same_maps_trans; [exact M0|]. eapply same_maps_trans; [exact M|apply same_maps_uc]. }
  rewrite ubytes_uc. split; [exact Eid|]. split; [|exists p, q, x; split; [by apply open_pipe_uc|exact Hx]].
  intros b n Hap. rewrite ubytes_uc, Hf; [apply ubytes_uc|]. intros i j Hi' Hj. rewrite !(phys_maps s) by done. by apply Hap.
Qed.

(** [PipeWrite] *)
Lemma PipeWrite_spec s id p q x buf len : regs_ok s -> open_pipe s id p q x -> pointer buf -> 0 < id < 2 ^ 31 ->
  0 <= len <= PIPE_BUFFER_LEN ->
  let n := Z.min len (PIPE_BUFFER_LEN - pp_len x) in
  uaccess false s buf (Z.to_nat n) ->
  returns (PipeWrite fuel ctx id buf len) s (fun r s' => r = n /\ regs_ok s' /\ same_view s s' /\ exists x',
    open_pipe s' id p q x' /\ pp_len x' = pp_len x + n /\ contents x' = contents x ++ ubytes s buf (Z.to_nat n)).
Proof.
  intros Hr Ho Hp Hid Hlen n Ha. unfold PipeWrite. eapply (YSYSCALL_call3 fuel ctx Hctx); [exact Hr|exact trap_pipe_write|].
  intros u Hul. cbv beta. rewrite (pointer_u32 buf Hp), !i32_u32. change PIPE_BUFFER_LEN with 256 in *. rewrite !i32_id by lia.
  eapply returns_mono; [apply (KernelPipeWrite_spec fuel (set_uc u s) id p q x buf len ctx)|].
  { by apply open_pipe_uc. } { unfold pointer, NULL in *. lia. } { lia. } { exact Hlen. }
  { apply (uaccess_maps _ s); [apply same_maps_uc|exact Ha]. }
  cbv beta. change PIPE_BUFFER_LEN with 256. fold n. rewrite ubytes_uc.
  intros v s' (-> & V & Eu & x' & O & Hl & Hc). split; [exact Eu|]. intros u' Hu'.
  pose proof (op_wf _ _ _ _ _ Ho) as [_ Hwf]. change PIPE_BUFFER_LEN with 256 in Hwf.
  split; [apply i32_id; unfold n; lia|]. split; [exact Hu'|]. split.
  - eapply same_view_trans; [apply same_view_memory, same_memory_uc|]. eapply same_view_trans; [exact V|]. apply same_view_memory, same_memory_uc.
  - exists x'. split; [by apply open_pipe_uc|done].
Qed.

(** [PipeRead] *)
Lemma PipeRead_spec s id p q x buf len : regs_ok s -> open_pipe s id p q x -> pointer buf -> 0 < id < 2 ^ 31 ->
  0 <= len <= PIPE_BUFFER_LEN -> 0 < pp_len x ->
  let n := Z.min len (pp_len x) in
  uaccess true s buf (Z.to_nat n) -> unaliased s buf (Z.to_nat n) ->
  returns (PipeRead fuel ctx id buf len) s (fun r s' => r = n /\ regs_ok s' /\ same_maps s s' /\
    ubytes s' buf (Z.to_nat n) = map (fun b => b mod 256) (take (Z.to_nat n) (contents x)) /\
    exists x', open_pipe s' id p q x' /\ contents x' = drop (Z.to_nat n) (contents x)).
Proof.
  intros Hr Ho Hp Hid Hlen Hpl n Ha Hun. unfold PipeRead. eapply (YSYSCALL_call3 fuel ctx Hctx); [exact Hr|exact trap_pipe_read|].
  intros u Hul. cbv beta. rewrite (pointer_u32 buf Hp), !i32_u32. change PIPE_BUFFER_LEN with 256 in *. rewrite !i32_id by lia.
  eapply returns_mono; [apply (KernelPipeRead_spec fuel (set_uc u s) id p q x buf len ctx)|].
  { by apply open_pipe_uc. } { unfold pointer, NULL in *. lia. } { exact Hlen. } { exact Hpl. }
  { apply (uaccess_maps _ s); [apply same_maps_uc|exact Ha]. } { apply (unaliased_maps s); [apply same_maps_uc|exact Hun]. }
  cbv beta. fold n. intros v s' (-> & M & Eu & Hb & x' & O & _ & Hc). split; [exact Eu|]. intros u' Hu'.
  split; [apply i32_id; unfold n; lia|]. split; [exact Hu'|]. split; [|split; [by rewrite ubytes_uc|]].
  - eapply same_maps_trans; [apply same_maps_uc|]. eapply same_maps_trans; [exact M|apply same_maps_uc].
  - exists x'. split; [by apply open_pipe_uc|done].
Qed.

(** C9: a program makes a pipe, takes the id from where the kernel stored it, writes
    [l1] bytes to the pipe and reads up to [l2], all through the library's calls, the trap
    and the kernel: it gets the id that follows the last one, both calls return the
    numbers of bytes moved, the bytes read are the first of those written, and the
    others stay in the pipe, which is ready for the next call. *)
Theorem pipe_through_the_kernel s ps k V idp b1 l1 b2 l2 : regs_ok s ->
  prep (pipes s) (head_pipe (gl s)) ps -> last (map snd ps) = Some k -> 0 < k < 2 ^ 31 - 1 ->
  qstore (qst s) V -> dom V ⊆ live s ->
  pointer idp -> uaccess true s idp 4 -> uaccess false s idp 4 -> unaliased s idp 4 ->
  pointer b1 -> 0 < l1 <= PIPE_BUFFER_LEN -> uaccess false s b1 (Z.to_nat l1) -> apart s b1 (Z.to_nat l1) idp 4 ->
  let n := Z.min l2 l1 in
  pointer b2 -> 0 <= l2 <= PIPE_BUFFER_LEN -> uaccess true s b2 (Z.to_nat n) -> unaliased s b2 (Z.to_nat n) ->
  returns (let! r0 := PipeInit fuel ctx idp in
           let! id := load_int idp in
           let! r1 := PipeWrite fuel ctx id b1 l1 in
           let! r2 := PipeRead fuel ctx id b2 l2 in
           ret (r0, id, r1, r2)) s (fun r s' =>
    r = (0, k + 1, l1, n) /\ regs_ok s' /\ same_maps s s' /\
    ubytes s' b2 (Z.to_nat n) = map (fun b => b mod 256) (take (Z.to_nat n) (ubytes s b1 (Z.to_nat l1))) /\
    exists p q x, open_pipe s' (k + 1) p q x /\ contents x = drop (Z.to_nat n) (ubytes s b1 (Z.to_nat l1))).
Proof.
  intros Hr Hp Hk Hkr HV Hd Hidp Ha Har Hu Hb1 Hl1 Ha1 Hap n Hb2 Hl2 Ha2 Hu2.
  rstep. eapply returns_mono; [by eapply PipeInit_spec|]. cbv beta.
  intros r0 s1 (-> & R1 & M1 & Eid & Hf & p & q & x & O1 & Hx0). rstep.
  eapply returns_mono; [apply load_int_spec; by eapply uaccess_maps|]. cbv beta. intros id s2 (-> & V2). rewrite Eid.
  assert (O2 : open_pipe s2 (k + 1) p q x) by (by destruct V2 as (h & -> & _), O1).
  assert (R2 : regs_ok s2) by (by destruct V2 as (h & -> & _)).
  assert (M2 : same_maps s s2) by (eapply same_maps_trans; [exact M1|]; by apply view_maps, only_read_view).
  assert (E1 : Z.min l1 (PIPE_BUFFER_LEN - pp_len x) = l1) by (rewrite Hx0; lia).
  rstep. eapply returns_mono; [eapply (PipeWrite_spec s2 _ _ _ _ b1 l1 R2 O2 Hb1); [lia|lia|]|].
  { rewrite E1. by eapply uaccess_maps. }
  cbv beta. rewrite E1, Hx0, Z.add_0_l. intros r1 s3 (-> & R3 & V3 & x3 & O3 & Hx3 & C3).
  assert (Eb : ubytes s2 b1 (Z.to_nat l1) = ubytes s b1 (Z.to_nat l1)).
  { rewrite (ubytes_view s1) by (by apply only_read_view). by apply Hf. }
  assert (C3' : contents x3 = ubytes s b1 (Z.to_nat l1)) by (rewrite C3, Eb; unfold contents; by rewrite Hx0).
  assert (M3 : same_maps s s3) by (eapply same_maps_trans; [exact M2|by apply view_maps]).
  rstep. eapply returns_mono; [eapply (PipeRead_spec s3 _ _ _ _ b2 l2 R3 O3 Hb2); [lia|lia|lia|..]|].
  { rewrite Hx3. by eapply uaccess_maps. }
  { rewrite Hx3. by eapply unaliased_maps. }
  cbv beta. rewrite Hx3, C3'. fold n. intros r2 s4 (-> & R4 & M4 & B4 & x4 & O4 & C4). rstep.
  split; [done|]. split; [done|]. split; [by eapply same_maps_trans|]. split; [exact B4|]. by exists p, q, x4.
Qed.

End calls.

(** ** A concrete program *)

(** The process of [ex_text] with its registers. *)
Definition ex_piper : kstate := set_uc (mkUserContext 0 0 0 0 0 0 (replicate 8 0)) ex_text.

Lemma ex_piper_maps : same_maps ex_text ex_piper.
Proof. apply same_maps_uc. Qed.

Lemma ex_piper_access w d n : 0 <= d -> d + Z.of_nat n <= PAGESIZE -> uaccess w ex_piper (VMEM_1_BASE + d) n.
Proof. intros Hd Hn. apply (uaccess_maps _ _ _ _ _ ex_piper_maps). by apply ex_text_access. Qed.

Lemma ex_piper_unaliased : unaliased ex_piper VMEM_1_BASE (Z.to_nat PAGESIZE).
Proof. apply (unaliased_maps _ _ _ _ ex_piper_maps), ex_text_unaliased. Qed.

Lemma pipe_through_the_kernel_witness :
  returns (let! r0 := PipeInit (L := bump_libc) (FS := ex_disk) 1 1 (VMEM_1_BASE + 0) in
           let! id := load_int (VMEM_1_BASE + 0) in
           let! r1 := PipeWrite (L := bump_libc) (FS := ex_disk) 1 1 id (VMEM_1_BASE + 16) 2 in
           let! r2 := PipeRead (L := bump_libc) (FS := ex_disk) 1 1 id (VMEM_1_BASE + 32) 5 in
           ret (r0, id, r1, r2)) ex_piper (fun r s' =>
    r = (0, 5103, 2, 2) /\ regs_ok s' /\ same_maps ex_piper s' /\ ubytes s' (VMEM_1_BASE + 32) 2 = [104; 105] /\
    exists p q x, open_pipe s' 5103 p q x /\ contents x = []).
Proof.
  apply (pipe_through_the_kernel (L := bump_libc) (FS := ex_disk) bump_libc_total 1 1 ltac:(discriminate) ex_piper
    [(10, 5101); (11, 5102)] 5102 {[ 5 := [(8, 101); (9, 102)] ]} (VMEM_1_BASE + 0) (VMEM_1_BASE + 16) 2 (VMEM_1_BASE + 32) 5).
  - reflexivity.
  - exact ex_io_prep.
  - reflexivity.
  - lia.
  - exact ex_wait_qstore.
  - intros x. rewrite dom_singleton_L, elem_of_singleton. intros ->. vm_compute. reflexivity.
  - done.
  - by apply ex_piper_access.
  - by apply ex_piper_access.
  - apply (unaliased_sub _ _ _ _ _ ex_piper_unaliased); done.
  - done.
  - by change PIPE_BUFFER_LEN with 256.
  - by apply ex_piper_access.
  - apply (unaliased_apart _ _ _ _ _ _ _ ex_piper_unaliased); done.
  - done.
  - by change PIPE_BUFFER_LEN with 256.
  - by apply ex_piper_access.
  - apply (unaliased_sub _ _ _ _ _ ex_piper_unaliased); done.
Defined.
