(* ===== verification/UserHeap.v ===== *)
(** * The user library's heap ([libc.c]: [init_heap], [grow_heap])

    The allocator itself is the header [new_heap.c], which the repository does not
    hold; [libc.c] gives it the memory it starts with and grows it.  The size of a
    block's header and its magic number come from that header: they are parameters.
    A block is a record at its address; the heap is tiled by its blocks. *)

From Stdlib Require Import ZArith Lia.
From stdpp Require Import base gmap list.
From S2P Require Import Prelude Hardware State Logic KList KQueue Memory Frames Process LoadProgram SyscallsProc Traps UserCalls.

Open Scope Z_scope.

Definition PRE_STARTUP_HEAPSIZE : Z := 4 * PAGESIZE.

(** The header of a block ([mblock_t]). *)
Record mblock := mkMblock {
  mb_magic1 : Z; mb_size : Z; mb_size_used : Z; mb_next : Z; mb_previous : Z; mb_magic2 : Z }.

(** The variables of the heap, and the headers in memory by their addresses. *)
Record uheap := mkUheap {
  heap_start : Z; heap_end : Z; current_break : Z; not_initialized : Z; blocks : gmap Z mblock }.

Section heap.
Context (SysBrk : Z -> M Z) (MAGIC sizeof_mblock : Z).

(** A free block of [size] bytes. *)
Definition free_block (size : Z) : mblock := mkMblock MAGIC (u32 size) 0 NULL NULL MAGIC.

Definition init_heap (h : uheap) : M uheap :=
  let start := current_break h in
  let! r := brk_unlocked SysBrk (u32 (current_break h + PRE_STARTUP_HEAPSIZE)) (current_break h) in
  let e := snd r in
  ret (mkUheap start e e 0 (<[start := free_block (e - start - sizeof_mblock)]> (blocks h))).

(** The new block, or [NULL]. *)
Definition grow_heap (len : Z) (h : uheap) : M (Z * uheap) :=
  if heap_start h =? NULL then ret (NULL, h) else
  let req := u32 (UP_TO_PAGE (u32 (heap_end h + len + sizeof_mblock))) in
  let! r := brk SysBrk req (current_break h) in
  let h1 := mkUheap (heap_start h) (heap_end h) (snd r) (not_initialized h) (blocks h) in
  if negb (fst r =? 0) then ret (NULL, h1) else
  let! q := sbrk SysBrk 0 (current_break h1) in
  let new_end := fst q in
  if new_end <? req then ret (NULL, h1) else
  let bp := heap_end h in
  ret (bp, mkUheap (heap_start h) new_end (snd q) (not_initialized h)
        (<[bp := free_block (new_end - heap_end h - sizeof_mblock)]> (blocks h))).

End heap.

(** ** The blocks tile the heap *)

(** [tiles m sz a e]: from [a] on, each block of [m] begins where the one before ends,
    and the last ends at [e]; [sz] is the size of a header. *)
Inductive tiles (m : gmap Z mblock) (sz : Z) : Z -> Z -> Prop :=
  | tiles_nil a : tiles m sz a a
  | tiles_cons a b e : m !! a = Some b -> 0 <= mb_size b -> tiles m sz (a + sz + mb_size b) e -> tiles m sz a e.

Lemma tiles_le m sz a e : 0 < sz -> tiles m sz a e -> a <= e.
Proof. intros Hs Ht. induction Ht; lia. Qed.

Lemma tiles_snoc m sz a e b : 0 < sz -> tiles m sz a e -> 0 <= mb_size b ->
  tiles (<[e := b]> m) sz a (e + sz + mb_size b).
Proof.
  intros Hs Ht Hb. induction Ht as [a|a c e Ha Hc Ht IH].
  - eapply tiles_cons; [apply lookup_insert_eq|done|apply tiles_nil].
  - pose proof (tiles_le _ _ _ _ Hs Ht). eapply tiles_cons; [|exact Hc|by apply IH].
    rewrite lookup_insert_ne by lia. exact Ha.
Qed.

(** A heap the allocator can use. *)
Record heap_ok (sz : Z) (h : uheap) : Prop := {
  ho_start : 0 < heap_start h;
  ho_break : current_break h = heap_end h;
  ho_tiles : tiles (blocks h) sz (heap_start h) (heap_end h) }.

Lemma round8_spec a : 0 <= a < 2 ^ 32 - 8 -> a <= round8 a <= a + 7 /\ (a mod 8 = 0 -> round8 a = a).
Proof.
  intros Ha. unfold round8, u32. change (Z.lnot 7) with (Z.lnot (Z.ones 3)).
  rewrite (land_lnot_ones _ 3) by done. change (2 ^ 3) with 8. rewrite (Z.mod_small (a + 7)) by lia.
  pose proof (Z.mod_pos_bound (a + 7) 8 ltac:(lia)). split; [lia|]. intros H0.
  rewrite Zplus_mod, H0. change ((0 + 7 mod 8) mod 8) with 7. lia.
Qed.

Lemma mod_8 a : a mod 8192 = 0 -> a mod 8 = 0.
Proof.
  intros Hm. apply Z.mod_divide in Hm as [k ->]; [|lia]. change 8192 with (1024 * 8). rewrite Z.mul_assoc. apply Z_mod_mult.
Qed.

Section grow.
Context {SysBrk : Z -> M Z} {H : kstate -> Z -> Prop} {HS : HeapServer SysBrk H}.
Context (MAGIC sz : Z) (Hsz : 0 < sz).

(** The start of the heap: the memory before it is the program's, the whole of it is
    one free block, when the kernel gives the pages. *)
Lemma init_heap_spec h s : H s (brk_target (current_break h)) ->
  0 < current_break h -> current_break h + PRE_STARTUP_HEAPSIZE < 2 ^ 32 - 8 -> sz <= PRE_STARTUP_HEAPSIZE ->
  returns (init_heap SysBrk MAGIC sz h) s (fun h' s' =>
    H s' (brk_target (current_break h')) /\ heap_start h' = current_break h /\
    (heap_end h' = round8 (current_break h + PRE_STARTUP_HEAPSIZE) /\ heap_ok sz h' \/
     heap_end h' = current_break h /\ blocks h' = <[current_break h := free_block MAGIC (- sz)]> (blocks h))).
Proof.
  intros HH H0 H1 H2. unfold init_heap. cbv zeta. rstep. eapply returns_mono; [by apply brk_unlocked_spec|].
  cbv beta. intros [r cur] s' [H' Hr]. cbn [fst snd] in *. rstep. cbn [current_break heap_start heap_end blocks].
  split; [done|]. split; [done|]. change PRE_STARTUP_HEAPSIZE with 32768 in *.
  destruct Hr as [[-> ->]|[-> ->]]; [left|right].
  - rewrite (u32_id (current_break h + 32768)) in * by lia. split; [done|].
    destruct (round8_spec (current_break h + 32768)) as [[? ?] _]; [lia|].
    split; cbn [current_break heap_start heap_end blocks]; [done|done|].
    set (e := round8 (current_break h + 32768)) in *.
    eapply tiles_cons; [apply lookup_insert_eq|..]; cbn [free_block mb_size]; rewrite u32_id by lia; [lia|].
    replace (current_break h + sz + (e - current_break h - sz)) with e by lia. apply tiles_nil.
  - split; [done|]. f_equal. f_equal. lia.
Qed.

(** C35: the user heap grows by whole pages: when the request does not wrap around the
    address space, [grow_heap] returns a new block just after the old heap's end, of at
    least the length asked for, which ends where the heap and the program's break now end,
    at a page boundary, and the blocks tile the heap again; or, when the kernel has no room,
    it returns [NULL] and the heap is as it was. *)
Theorem grow_heap_extends len h s : H s (brk_target (current_break h)) -> heap_ok sz h -> 0 <= len ->
  heap_end h + len + sz <= 2 ^ 31 - PAGESIZE ->
  returns (grow_heap SysBrk MAGIC sz len h) s (fun r s' =>
    H s' (brk_target (current_break (snd r))) /\ heap_ok sz (snd r) /\ heap_start (snd r) = heap_start h /\
    (fst r = NULL /\ heap_end (snd r) = heap_end h /\ blocks (snd r) = blocks h \/
     fst r = heap_end h /\ heap_end (snd r) mod PAGESIZE = 0 /\
     exists b, blocks (snd r) = <[heap_end h := b]> (blocks h) /\ len <= mb_size b < len + PAGESIZE /\
       heap_end (snd r) = heap_end h + sz + mb_size b)).
Proof.
  intros HH Hok Hl Hw. pose proof Hok as [Hs Hb Ht]. pose proof (tiles_le _ _ _ _ Hsz Ht) as Hle.
  unfold grow_heap. destruct (Z.eqb_spec (heap_start h) NULL) as [E|_]; [unfold NULL in E; lia|].
  cbv zeta. change PAGESIZE with 8192 in *. rewrite (u32_id (_ + _ + _)) by lia.
  destruct (UP_TO_PAGE_spec (heap_end h + len + sz)) as [Hm Hr]; [unfold PAGEOFFSET; change PAGESIZE with 8192; lia|].
  change PAGESIZE with 8192 in *. set (req := UP_TO_PAGE _) in *.
  assert (Hreq : req < 2 ^ 31).
  { assert (req <= 2 ^ 31 - 8192 + 8191) by lia. lia. }
  rewrite (u32_id req) by lia.
  unfold brk. rstep. eapply returns_mono; [by apply brk_unlocked_spec|]. cbv beta. intros [r cur] s' [H' Hr'].
  cbn [fst snd] in *. destruct Hr' as [[-> ->]|[-> ->]]; cbn [Z.eqb negb].
  - destruct (round8_spec req) as [_ Eq]; [lia|]. specialize (Eq (mod_8 _ Hm)). rewrite Eq in *.
    unfold sbrk. cbn [Z.eqb current_break]. rstep. rstep. cbn [fst snd]. rewrite Z.ltb_irrefl. rstep.
    cbn [fst snd current_break heap_start heap_end blocks]. split; [done|]. split.
    + split; cbn [current_break heap_start heap_end blocks]; [done|done|].
      pose proof (tiles_snoc (blocks h) sz _ _ (free_block MAGIC (req - heap_end h - sz)) Hsz Ht) as Hn.
      cbn [free_block mb_size] in Hn. rewrite u32_id in Hn by lia.
      replace (heap_end h + sz + (req - heap_end h - sz)) with req in Hn by lia. apply Hn. lia.
    + split; [done|]. right. split; [done|]. split; [done|]. eexists. split; [done|].
      cbn [free_block mb_size]. rewrite u32_id by lia. lia.
  - rstep. cbn [fst snd current_break heap_start heap_end blocks]. split; [done|]. split; [by split|]. split; [done|]. by left.
Qed.

End grow.

(** ** Concrete heaps *)

(** One page of heap below the break of [ex_prog], in one block. *)
Definition ex_heap : uheap :=
  mkUheap (brk_addr 7) (brk_addr 8) (brk_addr 8) 0 {[ brk_addr 7 := free_block 77 (PAGESIZE - 24) ]}.

Lemma ex_heap_ok : heap_ok 24 ex_heap.
Proof.
  split; [done|done|]. eapply tiles_cons; [apply lookup_singleton_eq|done|]. apply tiles_nil.
Qed.

Lemma grow_heap_extends_witness :
  returns (grow_heap (SysBrk (L := bump_libc) (FS := ex_disk) 0 1) 77 24 5000 ex_heap) ex_prog (fun r s' =>
    heap_serves (F := free_list lstore ∅) s' (brk_target (current_break (snd r))) /\ heap_ok 24 (snd r) /\
    heap_start (snd r) = brk_addr 7 /\
    (fst r = NULL /\ heap_end (snd r) = brk_addr 8 /\ blocks (snd r) = blocks ex_heap \/
     fst r = brk_addr 8 /\ heap_end (snd r) mod PAGESIZE = 0 /\
     exists b, blocks (snd r) = <[brk_addr 8 := b]> (blocks ex_heap) /\ 5000 <= mb_size b < 5000 + PAGESIZE /\
       heap_end (snd r) = brk_addr 8 + 24 + mb_size b)).
Proof.
  apply (grow_heap_extends (HS := kernel_heap_server (L := bump_libc) (FS := ex_disk) (F := free_list lstore ∅)
    bump_libc_total 0 1 ltac:(discriminate)) 77 24 ltac:(lia) 5000 ex_heap ex_prog).
  - exact ex_prog_serves.
  - exact ex_heap_ok.
  - lia.
  - vm_compute. discriminate.
Defined.

(** A length near the end of the address space wraps the request below the heap's end:
    the break moves down, the page is given back, and the block returned starts where the
    program has no page any more (its header is what [grow_heap] writes next). *)
Lemma grow_heap_wraps :
  match grow_heap (SysBrk (L := bump_libc) (FS := ex_disk) 0 1) 77 24 (2 ^ 32 - PAGESIZE - 24) ex_heap ex_prog with
  | Ret (bp, h) _ => bp = brk_addr 8 /\ heap_end h = brk_addr 7
  | _ => False
  end.
Proof. vm_compute. split; reflexivity. Qed.
